(* ===== verification/_CoqProject ===== *)
-Q . S2P
Prelude.v
MarketEvent.v
ByteRead.v
ItchParser.v
FeedSource.v
OrderPool.v
OrderBook.v
BookSpec.v
OrderBookWf.v
OrderBookBest.v
OrderBookRefine.v
BookLadder.v
OrderBookProps.v
BookOrders.v
BookLocked.v
BookL2.v
Exchange.v
Sequencer.v
Publisher.v
SpscRing.v
Instrumentation.v
ItchGen.v
ItchGenWrite.v
ItchGenProps.v
Pipeline.v
Pacing.v
PipelineThreads.v
Replay.v
LiveFeed.v
LiveFeedProps.v
LiveInput.v
LiveSession.v
LiveTiming.v
LiveServer.v
LiveThreads.v
LiveShutdown.v
LiveProgram.v
LiveProgramProps.v
CommandLine.v
Tools.v
Report.v
Benchmark.v
Dashboard.v
DashboardLive.v
