(* ===== verification/Prelude.v ===== *)
(** * A burst-resilient feed handler and order-book engine, verified

    This library models the C++ program under [src/] and proves the properties
    that make it correct.  The program turns a byte stream of NASDAQ ITCH 5.0
    messages, or the depth stream of a crypto exchange, into an order book and a
    market view.

    ** The program and its parts

    A replay run has two threads.  Thread A pulls frames from a [FeedSource],
    decodes them ([itch::parse]), paces them, and sends them through a lock-free
    single-producer single-consumer channel.  Thread B receives them, puts them
    in sequence ([Sequencer]), applies them to the book ([OrderBook::apply]),
    tells the publisher, and records the latency ([LatencyHistogram]).  A
    generator ([tools/itch_gen.cpp]) writes synthetic files to replay.  The live
    feed ([apps/live_feed.cpp]) has the same shape: a WebSocket callback sends
    level updates through the channel to a consumer that keeps an L2 book
    ([OrderBook::set_level]) joined to a snapshot.

    ** Files

    - [Prelude]: machine integers ([wrap], [u8] .. [u64]), byte buffers with
      partial access ([vget], [vset]), record updates, [iterM].
    - [MarketEvent] ([market_event.hpp]): the event, its well-typedness
      [event_ok].
    - [ByteRead] ([detail/byte_read.hpp]): big-endian loads and stores.
    - [ItchParser] ([itch_parser.cpp]): [message_length], [parse].
    - [FeedSource] ([feed_source.hpp], [itch_file_source.cpp]): the pull
      interface as a class with its law, and the memory-mapped file reader as an
      instance, with what it asks of the kernel.
    - [OrderPool] ([order_book.cpp], nested classes): the node pool and the
      intrusive lists, as a heap of nodes; [chain] and [links_ok] say which list
      a pointer structure represents.
    - [OrderBook] ([order_book.cpp]): every operation of the book, executable.
    - [BookSpec]: the abstract book, a list of FIFO queues ([queues]) with
      [a_apply] and [a_stats]; [BookLadder]: the market view of the queues.
    - [OrderBookWf], [OrderBookBest], [OrderBookRefine], [OrderBookProps],
      [BookOrders]: the invariant [wf], the invariant of the cached best prices
      [top_ok], the refinement of each operation, the properties of whole runs,
      and the live orders of a run.
    - [BookLocked]: what happens at a price with orders of two sides.
    - [BookL2]: the book as an L2 book: [set_level] is an assignment.  [Exchange]: the
      specification of the live feed, a map of prices per side, and when the slots
      show it.
    - [Sequencer] ([sequencer.cpp]): [offer], [pop_ready],
      [resync_to_snapshot], and the abstract view of a set of numbers received.
    - [Publisher] ([publisher.hpp]): [on_update].
    - [SpscRing] ([spsc_ring_buffer.hpp]): the ring as a transition system of
      two threads, one step per atomic access, and the channel over it.
    - [Instrumentation] ([instrumentation.hpp]): the latency histogram, the rate
      sampler.
    - [ItchGen], [ItchGenWrite], [ItchGenProps] ([tools/itch_gen.cpp]): the
      generator, what its writers write, what its files contain.
    - [Pipeline] ([pipeline.cpp]): producer, what crosses the channel under either
      policy, consumer, result; [Pacing]: its waits
      and when messages are due; [PipelineThreads]: the same as two interleaving
      threads over the channel, and what they measure; [Replay]: the composition of
      generator, file reader and pipeline.
    - [LiveFeed], [LiveFeedProps] ([apps/live_feed.cpp]): snapshot loading, the
      callback, the consumer's state machine.
    - [LiveInput]: what reaches the live book, from documents to messages.
    - [LiveSession]: the control side of the live feed: markets and URLs, the
      symbol-switch request, what a supervisor does with it, the drain between
      sessions.
    - [LiveTiming]: the clocks of the live feed: [interruptible_wait], the pace of
      the snapshot requests.
    - [LiveServer]: the document a feed publishes and the HTTP requests.
    - [LiveThreads]: the threads of one feed: WebSocket callback, supervisor,
      consumer with its first snapshot, its book and its documents; their
      invariant.  [LiveShutdown]: when a feed that is told to stop can end.
    - [LiveProgram]: [main] with all its feeds, the request handlers and the
      shutdown, interleaved; [LiveProgramProps]: schedules and the theorems.
    - [CommandLine]: arguments and environment of the three programs; [Tools]:
      the [main]s of [itch_gen] and [feed_handler] over a file system.
    - [Report]: the lines the programs print.
    - [Benchmark] ([benchmarks/]): the harness over the pipeline and its report, the
      microbenchmark.
    - [Dashboard]: the script of the dashboard page: its state, the screen as the
      texts and classes the script computes, the requests, a function from events
      to pages.  [DashboardLive]: the page open on the program's server: the
      program, the page, requests and answers interleaved.

    ** Conventions

    An unsigned integer of width [w] is an element of [Z] with every operation
    that can leave the range wrapped.  A function that can touch memory outside
    its objects or use a null or dangling pointer returns [option]; [None] is
    that undefined behaviour, so a theorem that an operation returns [Some] is a
    memory-safety theorem.  Mutable objects are records passed through; pointers
    are keys of a heap.  What the environment decides is an argument: the bytes
    and size of the mapped file, clock readings, the generator's random draws,
    the answers of the HTTP client, the values an atomic load may see.  Third-party
    code is a parameter with its documented contract ([WebSocketStop],
    [DashboardJson]); so are the texts the browser's language decides ([Browser]).

    ** Theorems

    - Decoding and framing: [parse] never reads outside the buffer and its
      result is a case analysis on type and length; no field of a reused event
      survives; framing and the writers round-trip; reading any file ends.
    - Order book: [apply] refines the queues, with all ten counters; on feeds
      that never lock a price the cached best prices, depth, crossed flag and
      spread are the ladder's; depth is sorted; the pool leaks nothing; [reset]
      gives a fresh book; [set_level] assigns one slot.
    - Sequencer: delivery is the events below the first missing number, once, in
      order; redundant feeds are arbitrated; overflow asks for a snapshot.
    - Ring and channel: no data race, FIFO, bounded, refusals justified; the
      channel counts what it drops.
    - Histogram: samples are counted in their class, classes are narrow,
      percentiles are within the resolution.
    - Composition: from a generated file to the market view of the result; the
      effects of gaps, overflow and undecodable frames; the live feed follows
      the exchange, as long as no update touches a price at which the other side
      rests, and reloads on a gap.
    - Threads: the sequential [run_pipeline] is what every interleaving of the two
      threads computes; under [Block] every run can end; under [Drop] the loss is
      counted.
    - Live input and sessions: a snapshot document starts the feed with exactly
      its levels; an update's messages assign exactly its rows; the feeds agree on
      the symbol while requests do not overlap.
    - Live program: every feed's state stays well formed and no consumer fails; the
      document served is one the feed published and shows the market of its book;
      told to stop, [main] can end exactly when no callback waits for room that
      nobody makes; the page's requests reach their handlers.
    - Time: a wait ends in time, snapshot requests keep their distance, a paced
      replay is not early.
    - Programs: configurations round-trip through the command line; a file asked
      of [itch_gen] and replayed by [feed_handler] ends in the market of the
      generator's live orders.
    - Benchmarks: the harness reports a recovery on every decodable file; the
      microbenchmark's book is the pipeline's.
    - Output: a printed decimal is the nearest one; the peak queue printed is within
      the ring.
    - Dashboard page: documents in order make the chart and the alerts; the page
      stays consistent under any events and answers; what it shows was in a
      consumer's book; a turn of the timer can show what was published; a symbol
      chosen is switched to.
    - Defects, each a theorem about the code as it is:
      [locked_price_dangling_bid], [l2_ask_removal_deletes_bid],
      [ask_removal_diverges],
      [buffered_first_wins] (against its comment), [parse_error_stalls],
      [live_first_level_lost], [drain_meets_consumer], [drain_races], [feeds_diverge],
      [document_mislabelled], [set_param_shadowed], [ws_url_ignored],
      [program_can_hang], [number_missing_throws], [ops_sample_underflow],
      [single_market_blank], [market_race], [answers_overtake], [refused_switch].

    ** Fuel and bounds

    [drain] and [pump] get one unit more than the reorder buffer has entries:
    every successful [pop_ready] removes one.  [all_frames] gets a unit per byte
    of the file and one more in [file_frames_total].  [gen_loop] gets one unit
    per message to write, since every turn writes at least one;
    [feed_handler_main] gives [all_frames] one call per byte of the file and one
    more.  The loops of the histogram ([ceil_log2_loop], [buckets_needed_loop])
    double a 64-bit value and get 64 units.  [interruptible_wait] gets a unit for every 50
    milliseconds of the wait and one more; [wait_until] gets what the clock needs to
    reach the target.  The theorems prove that these suffice by
    proving that the functions return.  ([exponent10], which only prints, gets more
    than the range of the exponents of a double.)  Bounds in hypotheses (message counts
    below 2^32 or 2^64) are the widths of the counters of the code.

    ** Data races

    A run of the live feed is followed up to the first step that takes the
    supervisor's drain and the consumer inside [receive] of one ring at once
    ([LiveThreads.overlap]): that is a data race on a ring made for one consumer, and
    what is proved of every reachable state or run is proved up to there.
    [drain_meets_consumer] shows that a switch request can lead there, [drain_races]
    what the accesses then do to the ring.

    ** Not modelled

    Sockets, HTTP transport and JSON text, which belong to IXWebSocket and
    nlohmann::json; the style sheet of the dashboard's page and the markup around
    the texts its script computes; [main] behind its last join (the stop of the HTTP
    server).  The steps of the threads carry no time: a wait may be
    followed by any step of another thread, and how long it takes is the subject of
    [LiveTiming] and [Pacing] alone.  [PipelineConfig.consumer_spin] (busy work) and
    [detail/cpu.hpp] have no effect on the state.  The tests only exercise the parts
    above. *)

From Stdlib Require Import ZArith Lia.
From Stdlib Require Export Strings.Byte.
From stdpp Require Import base list gmap numbers relations.

#[global] Open Scope Z_scope.

(** ** Machine integers

    Integers of the program are elements of [Z]; an unsigned operation of width
    [w] is the operation of [Z] followed by [wrap w]. *)

Definition wrap (w z : Z) : Z := z mod 2 ^ w.
Definition u8 (z : Z) : Z := wrap 8 z.
Definition u16 (z : Z) : Z := wrap 16 z.
Definition u32 (z : Z) : Z := wrap 32 z.
Definition u64 (z : Z) : Z := wrap 64 z.

(** Values an unsigned integer of width [w] can hold. *)
Definition in_u (w z : Z) : Prop := 0 <= z < 2 ^ w.

#[export] Instance in_u_dec w z : Decision (in_u w z).
Proof. unfold in_u. apply _. Defined.

(** ** Bytes *)

Definition Z_of_byte (b : byte) : Z := Z.of_N (Byte.to_N b).

Definition byte_of_Z (z : Z) : byte :=
  default x00 (Byte.of_N (Z.to_N (u8 z))).

#[export] Instance byte_eq_dec : EqDecision byte := Byte.byte_eq_dec.

(** ** Vectors

    A [std::vector], [std::array] or buffer is a list read and written at an
    index of type [Z].  An access outside the bounds is undefined behaviour in
    the source; it is [None] here, so a theorem that an operation returns
    [Some] is also a theorem that it stays inside the bounds. *)

Definition vget {A} (l : list A) (i : Z) : option A :=
  if decide (0 <= i) then l !! Z.to_nat i else None.

Definition vset {A} (l : list A) (i : Z) (x : A) : option (list A) :=
  if decide (0 <= i < Z.of_nat (length l)) then Some (<[Z.to_nat i:=x]> l) else None.

Declare Scope fh_scope.
Delimit Scope fh_scope with fh.
Notation "l .[ i ]" := (vget l i) (at level 1, i at level 99, left associativity,
  format "l .[ i ]") : fh_scope.
Notation "l .[ i := x ]" := (vset l i x) (at level 1, i at level 99, x at level 99,
  left associativity, format "l .[ i  :=  x ]") : fh_scope.
#[global] Open Scope fh_scope.

(** ** Loops

    [for (x : l) f(x)] over a state, in the option monad. *)

Fixpoint iterM {A S} (f : A -> S -> option S) (l : list A) (s : S) : option S :=
  match l with
  | [] => Some s
  | x :: l => s ← f x s; iterM f l s
  end.

(** ** Record update

    [r <| m := v |>] is the assignment [r.m = v] and [r <| m ::= f |>] is
    [r.m = f(r.m)].  A record type declares its eta-expansion as an instance of
    [Settable]; the setter of each member is derived from it. *)

Class Settable (R : Type) := reta : R -> R.

Class Setter {R E : Type} (p : R -> E) := rset : (E -> E) -> R -> R.

Ltac derive_setter :=
  lazymatch goal with
  | |- @Setter ?R ?E ?p =>
      let i := constr:(_ : Settable R) in
      let i' := eval hnf in i in
      exact (fun (f : E -> E) (r : R) => ltac:(
        let t := eval cbv beta in (i' r) in
        let t' := eval pattern (p r) in t in
        lazymatch t' with
        | ?g _ => let u := eval cbv beta in (g (f (p r))) in exact u
        end))
  end.

#[export] Hint Extern 1 (Setter _) => derive_setter : typeclass_instances.

Notation "r <| p := v |>" := (rset (p:=p) (fun _ => v) r)
  (at level 12, left associativity, p at level 9, v at level 99) : fh_scope.
Notation "r <| p ::= f |>" := (rset (p:=p) f r)
  (at level 12, left associativity, p at level 9, f at level 99) : fh_scope.

(** ** Tactics *)

(** Reduce a computation in the option monad whose first step is known. *)
Ltac opt_step H := rewrite H; cbn [mbind option_bind].

(** Split every conjunction in the context and substitute. *)
Ltac ds := repeat (destruct_and? || destruct_or?); simplify_eq.

(** Unfold the width abbreviations. *)
Ltac unw := unfold u8, u16, u32, u64 in *.

(** ** Lemmas on machine integers *)

Lemma wrap_range w z : 0 <= w -> 0 <= wrap w z < 2 ^ w.
Proof. intros. apply Z.mod_pos_bound. lia. Qed.

Lemma wrap_small w z : in_u w z -> wrap w z = z.
Proof. intros. by apply Z.mod_small. Qed.

Lemma wrap_wrap w z : wrap w (wrap w z) = wrap w z.
Proof. apply Zmod_mod. Qed.

Lemma wrap_add_l w a b : wrap w (wrap w a + b) = wrap w (a + b).
Proof. apply Zplus_mod_idemp_l. Qed.

Lemma wrap_add_r w a b : wrap w (a + wrap w b) = wrap w (a + b).
Proof. apply Zplus_mod_idemp_r. Qed.

Lemma wrap_sub_l w a b : wrap w (wrap w a - b) = wrap w (a - b).
Proof. apply Zminus_mod_idemp_l. Qed.

Lemma wrap_sub_r w a b : wrap w (a - wrap w b) = wrap w (a - b).
Proof. apply Zminus_mod_idemp_r. Qed.

Lemma wrap_land w z : 0 <= w -> wrap w z = Z.land z (Z.ones w).
Proof. intros. unfold wrap. by rewrite Z.land_ones by lia. Qed.

Lemma wrap_testbit w z i :
  0 <= w -> Z.testbit (wrap w z) i = bool_decide (i < w) && Z.testbit z i.
Proof.
  intros Hw. unfold wrap. case_bool_decide as Hi; cbn.
  - destruct (decide (0 <= i)) as [H0|H0].
    + by rewrite Z.mod_pow2_bits_low by lia.
    + by rewrite !Z.testbit_neg_r by lia.
  - by rewrite Z.mod_pow2_bits_high by lia.
Qed.

Lemma in_u_wrap w z : 0 <= w -> in_u w (wrap w z).
Proof. apply wrap_range. Qed.

Lemma in_u_mono w w' z : 0 <= w <= w' -> in_u w z -> in_u w' z.
Proof.
  unfold in_u. intros ? ?. pose proof (Z.pow_le_mono_r 2 w w'). lia.
Qed.

Create HintDb words.
Create Rewrite HintDb words.
#[export] Hint Rewrite wrap_wrap wrap_add_l wrap_add_r wrap_sub_l wrap_sub_r : words.
#[export] Hint Resolve in_u_wrap wrap_range : words.

(** ** Lemmas on bytes *)

Lemma Z_of_byte_range b : in_u 8 (Z_of_byte b).
Proof.
  unfold Z_of_byte, in_u. pose proof (Byte.to_N_bounded b). lia.
Qed.

Lemma byte_of_Z_of_byte b : byte_of_Z (Z_of_byte b) = b.
Proof.
  unfold byte_of_Z, u8. rewrite wrap_small by apply Z_of_byte_range.
  unfold Z_of_byte. rewrite N2Z.id, Byte.of_to_N. done.
Qed.

Lemma Z_of_byte_of_Z z : Z_of_byte (byte_of_Z z) = u8 z.
Proof.
  unfold byte_of_Z, u8, Z_of_byte.
  pose proof (wrap_range 8 z ltac:(lia)) as Hr.
  destruct (Byte.of_N (Z.to_N (wrap 8 z))) as [b|] eqn:Hb; cbn.
  - apply Byte.to_of_N in Hb. rewrite Hb. lia.
  - apply Byte.of_N_None_iff in Hb. lia.
Qed.

#[export] Hint Rewrite byte_of_Z_of_byte Z_of_byte_of_Z : words.
#[export] Hint Resolve Z_of_byte_range : words.

(** ** Lemmas on loops *)

Lemma iterM_app {A S} (f : A -> S -> option S) l1 l2 s s' :
  iterM f l1 s = Some s' -> iterM f (l1 ++ l2) s = iterM f l2 s'.
Proof.
  revert s. induction l1 as [|x l1 IH]; cbn; intros s; [by intros [= ->]|].
  destruct (f x s); cbn; [apply IH|done].
Qed.

(** ** Lemmas on runs *)

(** A relation that can always come closer to [Q] can reach it. *)
Lemma runs_down {A} (R : relation A) (P Q : A -> Prop) (mu : A -> Z) :
  (forall a, P a -> 0 <= mu a) ->
  (forall a, P a -> Q a \/ exists b, R a b /\ P b /\ mu b < mu a) ->
  forall a, P a -> exists b, rtc R a b /\ P b /\ Q b.
Proof.
  intros H0 Hs a Ha. remember (Z.to_nat (mu a)) as n eqn:En. revert a Ha En.
  induction (lt_wf n) as [n _ IH]. intros a Ha ->.
  destruct (Hs a Ha) as [?|(b & HR & Hb & Hlt)]; [by exists a|].
  pose proof (H0 b Hb). destruct (IH (Z.to_nat (mu b)) ltac:(lia) b Hb eq_refl) as (c & Hc & HP).
  exists c. split; [by eapply rtc_l|exact HP].
Qed.

(** ** Lemmas on vectors *)

Lemma vget_Some {A} (l : list A) i x :
  l.[i] = Some x <-> 0 <= i /\ l !! Z.to_nat i = Some x.
Proof. unfold vget. case_decide; naive_solver. Qed.

Lemma vget_lt {A} (l : list A) i x : l.[i] = Some x -> 0 <= i < Z.of_nat (length l).
Proof. rewrite vget_Some. intros [? Hl%lookup_lt_Some]. lia. Qed.

Lemma vget_is_Some {A} (l : list A) i :
  is_Some l.[i] <-> 0 <= i < Z.of_nat (length l).
Proof.
  split.
  - intros [x Hx]. by eapply vget_lt.
  - intros Hi. unfold vget. rewrite decide_True by lia. apply lookup_lt_is_Some. lia.
Qed.

Lemma vget_nat {A} (l : list A) (i : nat) : l.[Z.of_nat i] = l !! i.
Proof. unfold vget. rewrite decide_True by lia. by rewrite Nat2Z.id. Qed.

Lemma vset_Some {A} (l l' : list A) i x :
  l.[i := x] = Some l' <-> 0 <= i < Z.of_nat (length l) /\ l' = <[Z.to_nat i:=x]> l.
Proof. unfold vset. case_decide; naive_solver. Qed.

Lemma vset_in {A} (l : list A) i x :
  0 <= i < Z.of_nat (length l) -> l.[i := x] = Some (<[Z.to_nat i:=x]> l).
Proof. intros. unfold vset. by rewrite decide_True. Qed.

Lemma vset_length {A} (l l' : list A) i x : l.[i := x] = Some l' -> length l' = length l.
Proof. rewrite vset_Some. intros [_ ->]. apply length_insert. Qed.

Lemma vget_vset_eq {A} (l l' : list A) i x : l.[i := x] = Some l' -> l'.[i] = Some x.
Proof.
  rewrite vset_Some, vget_Some. intros [? ->]. split; [lia|].
  apply list_lookup_insert_eq. lia.
Qed.

Lemma vget_vset_ne {A} (l l' : list A) i j x :
  l.[i := x] = Some l' -> i <> j -> l'.[j] = l.[j].
Proof.
  rewrite vset_Some. intros [? ->] ?. unfold vget. case_decide; [|done].
  apply list_lookup_insert_ne. lia.
Qed.
