(* ===== verification/MarketEvent.v ===== *)
(** * Decoded market-data events

    The types of [include/feedhandler/market_event.hpp]: what the parser emits,
    what crosses the ring buffer and what the order book consumes.  Every field
    of fixed width is a [Z]; [event_ok] says the value fits its C++ type. *)

From stdpp Require Import base list gmap numbers.
From S2P Require Import Prelude.

Inductive EventType :=
  | Unknown | Add | Cancel | Delete | Execute | ExecuteWithPrice | Replace | Trade
  | SystemEvent | L2SetLevel | L2EventHeader.

Inductive Side := SideNone | Buy | Sell.

#[export] Instance EventType_eq_dec : EqDecision EventType.
Proof. solve_decision. Defined.

#[export] Instance Side_eq_dec : EqDecision Side.
Proof. solve_decision. Defined.

Record MarketEvent := mkEvent {
  ev_timestamp_ns : Z;
  ev_order_ref : Z;
  ev_new_order_ref : Z;
  ev_match_number : Z;
  ev_price_ticks : Z;
  ev_size : Z;
  ev_stock_locate : Z;
  ev_type : EventType;
  ev_side : Side;
  ev_symbol : list byte }.

#[export] Instance MarketEvent_eq_dec : EqDecision MarketEvent.
Proof. solve_decision. Defined.

(** [MarketEvent{}]: every member at its default initialiser. *)
Definition event0 : MarketEvent :=
  mkEvent 0 0 0 0 0 0 0 Unknown SideNone (replicate 8 x00).

(** The values that fit the member types ([ev_price_ticks] is a signed 64-bit
    integer, [ev_symbol] has eight characters). *)
Definition event_ok (e : MarketEvent) : Prop :=
  in_u 64 (ev_timestamp_ns e) /\ in_u 64 (ev_order_ref e) /\ in_u 64 (ev_new_order_ref e) /\
  in_u 64 (ev_match_number e) /\ - 2 ^ 63 <= ev_price_ticks e < 2 ^ 63 /\ in_u 32 (ev_size e) /\
  in_u 16 (ev_stock_locate e) /\ length (ev_symbol e) = 8%nat.

#[export] Instance event_ok_dec e : Decision (event_ok e).
Proof. unfold event_ok. apply _. Defined.

#[export] Instance MarketEvent_settable : Settable MarketEvent := fun e =>
  mkEvent (ev_timestamp_ns e) (ev_order_ref e) (ev_new_order_ref e) (ev_match_number e)
    (ev_price_ticks e) (ev_size e) (ev_stock_locate e) (ev_type e) (ev_side e) (ev_symbol e).

Lemma event0_ok : event_ok event0.
Proof. unfold event_ok. cbn. repeat split; lia. Qed.

Example set_ex e v : ev_size (e <| ev_price_ticks := v |>) = ev_size e.
Proof. reflexivity. Qed.
