(* ===== verification/ByteRead.v ===== *)
(** * Unaligned big-endian loads and stores

    [include/feedhandler/detail/byte_read.hpp].  A pointer [p] into a buffer is
    the buffer and an offset; reading or writing a byte outside the buffer is
    undefined behaviour and is [None].  The loads assemble the value with
    shifts and [Z.lor] as the source does, the stores write the truncations
    [u8 (v >> k)].

    Main results: a load after a store of the same width returns the stored
    value truncated to the width; a load is bounded by its width; a load sees
    only its own bytes, a store changes only its own. *)

From Stdlib Require Import ZArith.Zbitwise.
From stdpp Require Import base list gmap numbers.
From S2P Require Import Prelude.

Section Loads.
Context (p : list byte) (off : Z).

(** [b[k]] of [reinterpret_cast<const uint8_t*>(p)]. *)
Definition load_u8 : option Z := Z_of_byte <$> p.[off].
Definition at_ (k : Z) : option Z := Z_of_byte <$> p.[off + k].

Definition load_be16 : option Z :=
  b0 ← at_ 0; b1 ← at_ 1;
  Some (u16 (Z.lor (u32 (Z.shiftl b0 8)) b1)).

Definition load_be32 : option Z :=
  b0 ← at_ 0; b1 ← at_ 1; b2 ← at_ 2; b3 ← at_ 3;
  Some (Z.lor (Z.lor (Z.lor (u32 (Z.shiftl b0 24)) (u32 (Z.shiftl b1 16)))
    (u32 (Z.shiftl b2 8))) b3).

Definition load_be48 : option Z :=
  b0 ← at_ 0; b1 ← at_ 1; b2 ← at_ 2; b3 ← at_ 3; b4 ← at_ 4; b5 ← at_ 5;
  Some (Z.lor (Z.lor (Z.lor (Z.lor (Z.lor (u64 (Z.shiftl b0 40)) (u64 (Z.shiftl b1 32)))
    (u64 (Z.shiftl b2 24))) (u64 (Z.shiftl b3 16))) (u64 (Z.shiftl b4 8))) b5).

Definition load_be64 : option Z :=
  b0 ← at_ 0; b1 ← at_ 1; b2 ← at_ 2; b3 ← at_ 3;
  b4 ← at_ 4; b5 ← at_ 5; b6 ← at_ 6; b7 ← at_ 7;
  Some (Z.lor (Z.lor (Z.lor (Z.lor (Z.lor (Z.lor (Z.lor
    (u64 (Z.shiftl b0 56)) (u64 (Z.shiftl b1 48))) (u64 (Z.shiftl b2 40)))
    (u64 (Z.shiftl b3 32))) (u64 (Z.shiftl b4 24))) (u64 (Z.shiftl b5 16)))
    (u64 (Z.shiftl b6 8))) b7).
End Loads.

(** [b[k] = static_cast<std::uint8_t>(v)]. *)
Definition store_u8 (p : list byte) (off v : Z) : option (list byte) :=
  p.[off := byte_of_Z v].

Definition store_be16 (p : list byte) (off v : Z) : option (list byte) :=
  p ← store_u8 p (off + 0) (Z.shiftr v 8);
  store_u8 p (off + 1) v.

Definition store_be32 (p : list byte) (off v : Z) : option (list byte) :=
  p ← store_u8 p (off + 0) (Z.shiftr v 24);
  p ← store_u8 p (off + 1) (Z.shiftr v 16);
  p ← store_u8 p (off + 2) (Z.shiftr v 8);
  store_u8 p (off + 3) v.

Definition store_be48 (p : list byte) (off v : Z) : option (list byte) :=
  p ← store_u8 p (off + 0) (Z.shiftr v 40);
  p ← store_u8 p (off + 1) (Z.shiftr v 32);
  p ← store_u8 p (off + 2) (Z.shiftr v 24);
  p ← store_u8 p (off + 3) (Z.shiftr v 16);
  p ← store_u8 p (off + 4) (Z.shiftr v 8);
  store_u8 p (off + 5) v.

Definition store_be64 (p : list byte) (off v : Z) : option (list byte) :=
  p ← store_u8 p (off + 0) (Z.shiftr v 56);
  p ← store_u8 p (off + 1) (Z.shiftr v 48);
  p ← store_u8 p (off + 2) (Z.shiftr v 40);
  p ← store_u8 p (off + 3) (Z.shiftr v 32);
  p ← store_u8 p (off + 4) (Z.shiftr v 24);
  p ← store_u8 p (off + 5) (Z.shiftr v 16);
  p ← store_u8 p (off + 6) (Z.shiftr v 8);
  store_u8 p (off + 7) v.

(** ** Reference definitions: [n]-byte big-endian load and store *)

Fixpoint load_be (n : nat) (p : list byte) (off acc : Z) : option Z :=
  match n with
  | O => Some acc
  | S n => b ← Z_of_byte <$> p.[off]; load_be n p (off + 1) (acc * 256 + b)
  end.

Fixpoint store_be (n : nat) (p : list byte) (off v : Z) : option (list byte) :=
  match n with
  | O => Some p
  | S n => p ← store_u8 p off (Z.shiftr v (8 * Z.of_nat n)); store_be n p (off + 1) v
  end.

(** ** From [Z.lor] of shifts to arithmetic *)

Lemma lor_step a b k :
  0 <= k -> 0 <= b < 256 -> Z.lor (a * 2 ^ (k + 8)) (b * 2 ^ k) = (a * 256 + b) * 2 ^ k.
Proof.
  intros Hk Hb. rewrite Z.pow_add_r by lia.
  replace (a * (2 ^ k * 2 ^ 8)) with (Z.shiftl (Z.shiftl a 8) k)
    by (rewrite !Z.shiftl_mul_pow2 by lia; ring).
  rewrite <- (Z.shiftl_mul_pow2 b), <- Z.shiftl_lor, <- Z.shiftl_mul_pow2 by lia.
  f_equal.
  assert (Z.land (Z.shiftl a 8) b = 0) as Hl; [|
    pose proof (Z.add_lor_land (Z.shiftl a 8) b); rewrite Z.shiftl_mul_pow2 in * by lia; lia].
  apply Z.bits_inj'. intros i Hi. rewrite Z.land_spec, Z.bits_0.
  destruct (decide (i < 8)).
  - by rewrite Z.shiftl_spec_low by lia.
  - rewrite <- (Z.mod_small b (2 ^ 8)) by lia.
    rewrite Z.mod_pow2_bits_high by lia. by rewrite andb_false_r.
Qed.

Lemma shl_byte w b k :
  0 <= b < 256 -> 0 <= k -> k + 8 <= w -> wrap w (Z.shiftl b k) = b * 2 ^ k.
Proof.
  intros Hb Hk Hw. rewrite Z.shiftl_mul_pow2 by lia. apply wrap_small. unfold in_u.
  assert (2 ^ (k + 8) <= 2 ^ w) by (apply Z.pow_le_mono_r; lia).
  rewrite Z.pow_add_r in * by lia. nia.
Qed.

#[local] Ltac norm_offsets :=
  rewrite ?Z.add_0_r, <- ?Z.add_assoc;
  repeat match goal with
  | |- context [1 + ?x] => let y := eval vm_compute in (1 + x) in change (1 + x) with y
  end.

#[local] Ltac at_byte :=
  norm_offsets;
  lazymatch goal with
  | |- (Z_of_byte <$> ?p.[?i]) ≫= _ = _ =>
      let b := fresh "b" in
      destruct (p.[i]) as [b|]; cbn [fmap option_fmap option_map mbind option_bind];
      [pose proof (Z_of_byte_range b) | done]
  end.

(** Combine the shifted bytes pairwise, from the innermost [Z.lor]. *)
#[local] Ltac lor_chain :=
  repeat rewrite shl_byte by (unfold in_u in *; lia);
  repeat match goal with
  | |- context [Z.lor (?a * 2 ^ ?j) (?b * 2 ^ ?k)] =>
      change (2 ^ j) with (2 ^ (k + 8)); rewrite (lor_step a b k) by (unfold in_u in *; lia)
  | |- context [Z.lor (?a * 2 ^ ?j) (Z_of_byte ?b)] =>
      rewrite <- (Z.mul_1_r (Z_of_byte b)) at 1;
      change (Z.lor (a * 2 ^ j) (Z_of_byte b * 1))
        with (Z.lor (a * 2 ^ (0 + 8)) (Z_of_byte b * 2 ^ 0));
      rewrite (lor_step a (Z_of_byte b) 0) by (unfold in_u in *; lia)
  end.

Lemma load_be16_spec p off : load_be16 p off = load_be 2 p off 0.
Proof.
  unfold load_be16, at_, u16, u32. cbn [load_be].
  repeat at_byte. lor_chain. f_equal.
  rewrite wrap_small by (unfold in_u in *; lia). ring.
Qed.

Lemma load_be32_spec p off : load_be32 p off = load_be 4 p off 0.
Proof.
  unfold load_be32, at_, u32. cbn [load_be].
  repeat at_byte. lor_chain. f_equal. ring.
Qed.

Lemma load_be48_spec p off : load_be48 p off = load_be 6 p off 0.
Proof.
  unfold load_be48, at_, u64. cbn [load_be].
  repeat at_byte. lor_chain. f_equal. ring.
Qed.

Lemma load_be64_spec p off : load_be64 p off = load_be 8 p off 0.
Proof.
  unfold load_be64, at_, u64. cbn [load_be].
  repeat at_byte. lor_chain. f_equal. ring.
Qed.

Lemma store_be16_spec p off v : store_be16 p off v = store_be 2 p off v.
Proof.
  unfold store_be16. cbn [store_be]. rewrite !Z.add_0_r.
  destruct (store_u8 p off _) as [p1|]; cbn; [|done].
  rewrite Z.shiftr_0_r. by destruct (store_u8 _ _ _).
Qed.

#[local] Ltac unroll_store :=
  cbn [store_be]; norm_offsets; rewrite ?Z.shiftr_0_r;
  repeat match goal with
  | |- context [store_u8 ?p ?i ?v ≫= _] =>
      change (8 * Z.of_nat 7) with 56; change (8 * Z.of_nat 6) with 48;
      change (8 * Z.of_nat 5) with 40; change (8 * Z.of_nat 4) with 32;
      change (8 * Z.of_nat 3) with 24; change (8 * Z.of_nat 2) with 16;
      change (8 * Z.of_nat 1) with 8; change (8 * Z.of_nat 0) with 0;
      rewrite ?Z.shiftr_0_r; norm_offsets;
      destruct (store_u8 p i v); cbn [mbind option_bind]; [|done]
  end;
  try done; try (by destruct (store_u8 _ _ _)).

Lemma store_be32_spec p off v : store_be32 p off v = store_be 4 p off v.
Proof. unfold store_be32. unroll_store. Qed.

Lemma store_be48_spec p off v : store_be48 p off v = store_be 6 p off v.
Proof. unfold store_be48. unroll_store. Qed.

Lemma store_be64_spec p off v : store_be64 p off v = store_be 8 p off v.
Proof. unfold store_be64. unroll_store. Qed.

Create Rewrite HintDb be.
#[export] Hint Rewrite load_be16_spec load_be32_spec load_be48_spec load_be64_spec
  store_be16_spec store_be32_spec store_be48_spec store_be64_spec : be.

(** ** What a load reads and a store writes *)

Lemma load_be_ext n p p' off acc :
  (forall i, off <= i < off + Z.of_nat n -> p.[i] = p'.[i]) ->
  load_be n p off acc = load_be n p' off acc.
Proof.
  revert off acc. induction n as [|n IH]; intros off acc Hext; cbn [load_be]; [done|].
  rewrite <- (Hext off) by lia. destruct (p.[off]) as [b|]; cbn; [|done].
  apply IH. intros. apply Hext. lia.
Qed.

Lemma load_be_bound n p off acc v :
  load_be n p off acc = Some v ->
  acc * 256 ^ Z.of_nat n <= v < (acc + 1) * 256 ^ Z.of_nat n.
Proof.
  revert off acc. induction n as [|n IH]; intros off acc; cbn [load_be].
  - intros [= <-]. change (256 ^ Z.of_nat 0) with 1. lia.
  - destruct (p.[off]) as [b|]; cbn [fmap option_fmap option_map mbind option_bind]; [|done].
    intros Hv%IH. pose proof (Z_of_byte_range b) as Hb. unfold in_u in Hb.
    rewrite Nat2Z.inj_succ, Z.pow_succ_r by lia. nia.
Qed.

Lemma load_be_is_Some n p off acc :
  is_Some (load_be n p off acc) <->
  n = 0%nat \/ (0 <= off /\ off + Z.of_nat n <= Z.of_nat (length p)).
Proof.
  revert off acc. induction n as [|n IH]; intros off acc; cbn [load_be].
  - split; [by left|]. intros _. eauto.
  - destruct (p.[off]) as [b|] eqn:Hb; cbn [fmap option_fmap option_map mbind option_bind].
    + apply vget_lt in Hb. rewrite IH. lia.
    + assert (~ is_Some p.[off]) as Hn by (rewrite Hb; by intros []).
      rewrite vget_is_Some in Hn. split; [by intros []|]. lia.
Qed.

Lemma store_u8_Some p off v p' :
  store_u8 p off v = Some p' ->
  length p' = length p /\
  forall i, p'.[i] = if decide (i = off) then Some (byte_of_Z v) else p.[i].
Proof.
  unfold store_u8. intros Hs. split; [by eapply vset_length|]. intros i.
  case_decide; subst.
  - by eapply vget_vset_eq.
  - by eapply vget_vset_ne.
Qed.

Lemma store_be_Some n p off v p' :
  store_be n p off v = Some p' ->
  length p' = length p /\
  forall i, p'.[i] = if decide (off <= i < off + Z.of_nat n)
    then Some (byte_of_Z (Z.shiftr v (8 * (off + Z.of_nat n - 1 - i)))) else p.[i].
Proof.
  revert p off. induction n as [|n IH]; intros p off; cbn [store_be].
  - intros [= ->]. split; [done|]. intros i. case_decide; [lia|done].
  - destruct (store_u8 p off _) as [p1|] eqn:H1; cbn; [|done]. intros [Hl Hg]%IH.
    apply store_u8_Some in H1 as [Hl1 Hg1]. split; [congruence|]. intros i.
    rewrite Hg, Hg1. repeat case_decide; try lia; try done; do 3 f_equal; lia.
Qed.

Lemma store_be_is_Some n p off v :
  0 <= off -> off + Z.of_nat n <= Z.of_nat (length p) -> is_Some (store_be n p off v).
Proof.
  revert p off. induction n as [|n IH]; intros p off H0 Hl; cbn [store_be]; [eauto|].
  unfold store_u8 at 1. rewrite vset_in by lia. cbn [mbind option_bind].
  apply IH; rewrite ?length_insert; lia.
Qed.

Lemma load_be_digits n p off acc v :
  (forall i, off <= i < off + Z.of_nat n ->
    p.[i] = Some (byte_of_Z (Z.shiftr v (8 * (off + Z.of_nat n - 1 - i))))) ->
  load_be n p off acc = Some (acc * 256 ^ Z.of_nat n + wrap (8 * Z.of_nat n) v).
Proof.
  revert off acc. induction n as [|n IH]; intros off acc Hd; cbn [load_be].
  - change (256 ^ Z.of_nat 0) with 1. unfold wrap. change (8 * Z.of_nat 0) with 0.
    rewrite Z.pow_0_r, Z.mod_1_r. f_equal. lia.
  - rewrite (Hd off) by lia. cbn [fmap option_fmap option_map mbind option_bind].
    rewrite Z_of_byte_of_Z, IH.
    2:{ intros i Hi. rewrite (Hd i) by lia. do 4 f_equal. lia. }
    f_equal. replace (8 * (off + Z.of_nat (S n) - 1 - off)) with (8 * Z.of_nat n) by lia.
    rewrite Nat2Z.inj_succ, Z.pow_succ_r by lia.
    unfold u8, wrap. replace (8 * Z.succ (Z.of_nat n)) with (8 * Z.of_nat n + 8) by lia.
    rewrite (Z.pow_add_r 2), Z.rem_mul_r by (apply Z.pow_nonzero || lia || apply Z.pow_pos_nonneg; lia).
    rewrite Z.shiftr_div_pow2 by lia.
    replace (256 ^ Z.of_nat n) with (2 ^ (8 * Z.of_nat n))
      by (change 256 with (2 ^ 8); rewrite <- Z.pow_mul_r by lia; done).
    ring.
Qed.

(** A load after a store of the same width at the same place. *)
Lemma load_store_same n p off v p' :
  store_be n p off v = Some p' -> load_be n p' off 0 = Some (wrap (8 * Z.of_nat n) v).
Proof.
  intros [_ Hg]%store_be_Some. rewrite (load_be_digits n p' off 0 v); [f_equal; lia|].
  intros i Hi. rewrite Hg. by rewrite decide_True by lia.
Qed.

(** A load beside a store. *)
Lemma load_store_other n m p off off' v p' acc :
  store_be m p off' v = Some p' ->
  off + Z.of_nat n <= off' \/ off' + Z.of_nat m <= off ->
  load_be n p' off acc = load_be n p off acc.
Proof.
  intros [_ Hg]%store_be_Some Hd. apply load_be_ext. intros i Hi. rewrite Hg.
  by rewrite decide_False by lia.
Qed.
