(* ===== verification/ItchParser.v ===== *)
(** * The ITCH 5.0 decoder

    [src/itch_parser.cpp]: [message_length] and [parse], with the helpers of
    the anonymous namespace.  [msg] is the memory from the message pointer on
    (it may extend past the [len] bytes of the message); a read outside it is
    undefined behaviour and makes [parse] return [None].  [out] is the
    caller-owned event, returned unchanged on an error status as in the source.

    Main results: [parse] never reads past [len] bytes (memory safety), depends
    on nothing else, leaves no stale field of a reused event, classifies every
    type byte, and produces events whose fields fit their C++ types. *)

From Stdlib Require Import Strings.Ascii.
From stdpp Require Import base list gmap numbers.
From S2P Require Import Prelude MarketEvent ByteRead.

Inductive ParseStatus := Ok | ShortBuffer | UnknownType.

#[export] Instance ParseStatus_eq_dec : EqDecision ParseStatus.
Proof. solve_decision. Defined.

#[local] Open Scope char_scope.
#[local] Open Scope Z_scope.

(** [static_cast<char>(b)]: the character of a byte. *)
Definition char_of (b : Z) : ascii := ascii_of_byte (byte_of_Z b).

Definition decode_side (c : Z) : Side :=
  match char_of c with
  | "B"%char => Buy
  | "S"%char => Sell
  | _ => SideNone
  end.

Definition decode_header (m : list byte) (out : MarketEvent) : option MarketEvent :=
  loc ← load_be16 m 1;
  ts ← load_be48 m 5;
  Some (out <| ev_stock_locate := loc |> <| ev_timestamp_ns := ts |>).

(** [memcpy(out.symbol, m + off, 8)]. *)
Definition copy_symbol (m : list byte) (off : Z) (out : MarketEvent) : option MarketEvent :=
  s ← mapM (fun k => m.[off + k]) (seqZ 0 8);
  Some (out <| ev_symbol := s |>).

Definition message_length (type : ascii) : Z :=
  match type with
  | "S" => 12 | "R" => 39 | "H" => 25 | "Y" => 20 | "L" => 26 | "V" => 35
  | "W" => 12 | "K" => 28 | "J" => 35 | "h" => 21 | "A" => 36 | "F" => 40
  | "E" => 31 | "C" => 36 | "X" => 23 | "D" => 19 | "U" => 35 | "P" => 44
  | "Q" => 40 | "B" => 19 | "I" => 50 | "N" => 20 | "O" => 48
  | _ => 0
  end%char.

Definition parse_add (msg : list byte) (out : MarketEvent) : option MarketEvent :=
  ref ← load_be64 msg 11;
  sd ← load_u8 msg 19;
  sz ← load_be32 msg 20;
  let out := out <| ev_type := Add |> <| ev_order_ref := ref |>
    <| ev_side := decode_side sd |> <| ev_size := sz |> in
  out ← copy_symbol msg 24 out;
  px ← load_be32 msg 32;
  Some (out <| ev_price_ticks := px |>).

Definition parse_execute (msg : list byte) (out : MarketEvent) : option MarketEvent :=
  ref ← load_be64 msg 11;
  sz ← load_be32 msg 19;
  mn ← load_be64 msg 23;
  Some (out <| ev_type := Execute |> <| ev_order_ref := ref |> <| ev_size := sz |>
    <| ev_match_number := mn |>).

Definition parse_execute_price (msg : list byte) (out : MarketEvent) : option MarketEvent :=
  ref ← load_be64 msg 11;
  sz ← load_be32 msg 19;
  mn ← load_be64 msg 23;
  px ← load_be32 msg 32;
  Some (out <| ev_type := ExecuteWithPrice |> <| ev_order_ref := ref |> <| ev_size := sz |>
    <| ev_match_number := mn |> <| ev_price_ticks := px |>).

Definition parse_cancel (msg : list byte) (out : MarketEvent) : option MarketEvent :=
  ref ← load_be64 msg 11;
  sz ← load_be32 msg 19;
  Some (out <| ev_type := Cancel |> <| ev_order_ref := ref |> <| ev_size := sz |>).

Definition parse_delete (msg : list byte) (out : MarketEvent) : option MarketEvent :=
  ref ← load_be64 msg 11;
  Some (out <| ev_type := Delete |> <| ev_order_ref := ref |>).

Definition parse_replace (msg : list byte) (out : MarketEvent) : option MarketEvent :=
  ref ← load_be64 msg 11;
  neu ← load_be64 msg 19;
  sz ← load_be32 msg 27;
  px ← load_be32 msg 31;
  Some (out <| ev_type := Replace |> <| ev_order_ref := ref |> <| ev_new_order_ref := neu |>
    <| ev_size := sz |> <| ev_price_ticks := px |>).

Definition parse_trade (msg : list byte) (out : MarketEvent) : option MarketEvent :=
  ref ← load_be64 msg 11;
  sd ← load_u8 msg 19;
  sz ← load_be32 msg 20;
  let out := out <| ev_type := Trade |> <| ev_order_ref := ref |>
    <| ev_side := decode_side sd |> <| ev_size := sz |> in
  out ← copy_symbol msg 24 out;
  px ← load_be32 msg 32;
  mn ← load_be64 msg 36;
  Some (out <| ev_price_ticks := px |> <| ev_match_number := mn |>).

(** The [switch (type)] of [parse]. *)
Definition parse_body (type : ascii) (msg : list byte) (out : MarketEvent) : option MarketEvent :=
  match type with
  | "A" | "F" => parse_add msg out
  | "E" => parse_execute msg out
  | "C" => parse_execute_price msg out
  | "X" => parse_cancel msg out
  | "D" => parse_delete msg out
  | "U" => parse_replace msg out
  | "P" => parse_trade msg out
  | "S" => Some (out <| ev_type := SystemEvent |>)
  | _ => Some (out <| ev_type := Unknown |>)
  end%char.

Definition parse (msg : list byte) (len : Z) (out : MarketEvent)
    : option (ParseStatus * MarketEvent) :=
  if decide (len = 0) then Some (ShortBuffer, out) else
  c ← load_u8 msg 0;
  let type := char_of c in
  let need := message_length type in
  if decide (need = 0) then Some (UnknownType, out) else
  if decide (len < need) then Some (ShortBuffer, out) else
  hdr ← decode_header msg event0;
  ev ← parse_body type msg hdr;
  Some (Ok, ev).

(** The action each type byte stands for: the reference classification. *)
Definition event_type_of (type : ascii) : EventType :=
  match type with
  | "A" | "F" => Add
  | "E" => Execute
  | "C" => ExecuteWithPrice
  | "X" => Cancel
  | "D" => Delete
  | "U" => Replace
  | "P" => Trade
  | "S" => SystemEvent
  | _ => Unknown
  end%char.

(** ** Loads inside and outside the buffer *)

(** The big-endian loads of the parser, by their width in bytes. *)
Lemma load_u8_spec p off : load_u8 p off = load_be 1 p off 0.
Proof. unfold load_u8. cbn [load_be]. by destruct (p.[off]). Qed.

#[export] Hint Rewrite load_u8_spec : be.

Lemma load_be_some n p off acc :
  0 <= off -> off + Z.of_nat n <= Z.of_nat (length p) ->
  exists v, load_be n p off acc = Some v.
Proof. intros. apply load_be_is_Some. by right. Qed.

Lemma mapM_bytes_some (m : list byte) off :
  0 <= off -> off + 8 <= Z.of_nat (length m) ->
  exists s, mapM (fun k => m.[off + k]) (seqZ 0 8) = Some s /\ length s = 8%nat.
Proof.
  intros H0 Hl.
  assert (is_Some (mapM (fun k => m.[off + k]) (seqZ 0 8))) as [s Hs].
  { apply mapM_is_Some. apply list.Forall_forall. intros k Hk%elem_of_seqZ.
    apply vget_is_Some. lia. }
  exists s. split; [done|]. by apply length_mapM in Hs.
Qed.

Lemma mapM_bytes_ext (m m' : list byte) off :
  (forall i, off <= i < off + 8 -> m.[i] = m'.[i]) ->
  mapM (fun k => m.[off + k]) (seqZ 0 8) = mapM (fun k => m'.[off + k]) (seqZ 0 8).
Proof.
  intros Hext. apply Forall_mapM_ext, list.Forall_forall. intros k Hk%elem_of_seqZ.
  apply Hext. lia.
Qed.

(** Every field read is the next step of the goal: evaluate it, inside the bounds. *)
#[local] Ltac in_bounds :=
  repeat match goal with
  | |- context [load_be ?n ?p ?off ?acc] =>
      let v := fresh "v" in
      let E := fresh "E" in
      destruct (load_be_some n p off acc) as [v E]; [lia|lia|rewrite E; cbn [mbind option_bind]]
  | |- context [mapM (fun k => ?m.[?off + k]) ?l] =>
      let s := fresh "s" in
      let E := fresh "E" in
      destruct (mapM_bytes_some m off) as (s & E & ?); [lia|lia|rewrite E; cbn [mbind option_bind]]
  end.

(** The parser reads the same bytes from two memories that agree on the message. *)
#[local] Ltac same_reads H :=
  repeat match goal with
  | |- context [load_be ?n ?p ?off ?acc] =>
      rewrite (load_be_ext n p _ off acc) by (intros; apply H; lia)
  | |- context [mapM (fun k => ?m.[?off + k]) ?l] =>
      rewrite (mapM_bytes_ext m _ off) by (intros; apply H; lia)
  end.

Lemma message_length_need type :
  message_length type <> 0 -> 12 <= message_length type <= 50.
Proof. destruct type as [[] [] [] [] [] [] [] []]; cbn; lia. Qed.

(** What [parse_body] promises of the event, given a header it can start from. *)
Definition body_ok (type : ascii) (hdr e : MarketEvent) : Prop :=
  ev_type e = event_type_of type /\ event_ok e.

Lemma load_be_in_u n p off v :
  load_be n p off 0 = Some v -> in_u (8 * Z.of_nat n) v.
Proof.
  intros Hv%load_be_bound. unfold in_u.
  rewrite (Z.pow_mul_r 2 8) by lia. change (2 ^ 8) with 256. lia.
Qed.

(** The fields of [hdr] that the header decoding leaves at their defaults. *)
Definition header_ok (hdr : MarketEvent) : Prop :=
  exists loc ts, in_u 16 loc /\ in_u 48 ts /\
  hdr = event0 <| ev_stock_locate := loc |> <| ev_timestamp_ns := ts |>.

#[local] Ltac fields_ok :=
  repeat match goal with
  | E : load_be ?n _ _ 0 = Some ?v |- _ => apply load_be_in_u in E
  end;
  eexists; split; [reflexivity|]; split; [reflexivity|];
  unfold event_ok, in_u in *; cbn in *; repeat split; try lia; try assumption.

Lemma parse_body_total type msg hdr :
  message_length type <> 0 -> message_length type <= Z.of_nat (length msg) ->
  header_ok hdr ->
  exists e, parse_body type msg hdr = Some e /\ body_ok type hdr e.
Proof.
  intros Hn Hl (loc & ts & Hloc & Hts & ->). unfold body_ok.
  destruct type as [[] [] [] [] [] [] [] []]; cbn in Hn, Hl; try lia; cbn [parse_body];
    unfold parse_add, parse_execute, parse_execute_price, parse_cancel, parse_delete,
      parse_replace, parse_trade, copy_symbol;
    autorewrite with be; in_bounds; fields_ok.
Qed.

Lemma decode_header_some m :
  11 <= Z.of_nat (length m) -> exists hdr, decode_header m event0 = Some hdr /\ header_ok hdr.
Proof.
  intros Hl. unfold decode_header. autorewrite with be. in_bounds.
  repeat match goal with E : load_be _ _ _ 0 = Some _ |- _ => apply load_be_in_u in E end.
  eexists. split; [reflexivity|]. unfold header_ok. eauto.
Qed.

Lemma decode_header_ext m m' out :
  (forall i, 0 <= i < 11 -> m.[i] = m'.[i]) -> decode_header m out = decode_header m' out.
Proof. intros H. unfold decode_header. autorewrite with be. by same_reads H. Qed.

Lemma parse_body_ext type m m' hdr :
  message_length type <> 0 ->
  (forall i, 0 <= i < message_length type -> m.[i] = m'.[i]) ->
  parse_body type m hdr = parse_body type m' hdr.
Proof.
  intros Hn H.
  destruct type as [[] [] [] [] [] [] [] []]; cbn in Hn, H; try lia; cbn [parse_body];
    try reflexivity;
    unfold parse_add, parse_execute, parse_execute_price, parse_cancel, parse_delete,
      parse_replace, parse_trade, copy_symbol;
    autorewrite with be; by same_reads H.
Qed.

(** [parse] looks only at the first [len] bytes. *)
Lemma parse_ext m m' len out :
  (forall i, 0 <= i < len -> m.[i] = m'.[i]) -> 0 <= len -> parse m len out = parse m' len out.
Proof.
  intros H Hl. unfold parse. case_decide; [done|].
  unfold load_u8. rewrite <- (H 0) by lia.
  destruct (m.[0]) as [b|]; cbn [fmap option_fmap option_map mbind option_bind]; [|done].
  case_decide as Hn; [done|]. case_decide; [done|].
  pose proof (message_length_need _ Hn).
  rewrite (decode_header_ext m m') by (intros; apply H; lia).
  destruct (decode_header m' event0) as [hdr|]; cbn [mbind option_bind]; [|done].
  by rewrite (parse_body_ext _ m m') by (done || intros; apply H; lia).
Qed.

(** The complete case analysis of [parse] on a buffer of at least [len] bytes. *)
Definition parse_result (msg : list byte) (len : Z) (out : MarketEvent)
    (st : ParseStatus) (e : MarketEvent) : Prop :=
  match st with
  | ShortBuffer => e = out /\ (len = 0 \/ exists b, msg !! 0%nat = Some b /\
      0 < len < message_length (ascii_of_byte b))
  | UnknownType => e = out /\ exists b, msg !! 0%nat = Some b /\ 0 < len /\
      message_length (ascii_of_byte b) = 0
  | Ok => exists b, msg !! 0%nat = Some b /\
      0 < message_length (ascii_of_byte b) <= len /\
      ev_type e = event_type_of (ascii_of_byte b) /\ event_ok e
  end.

Lemma parse_total msg len out :
  0 <= len <= Z.of_nat (length msg) ->
  exists st e, parse msg len out = Some (st, e) /\ parse_result msg len out st e.
Proof.
  intros Hl. unfold parse. case_decide.
  { eexists _, _. split; [done|]. cbn. eauto. }
  destruct msg as [|b msg]; [cbn in Hl; lia|].
  unfold load_u8. rewrite (vget_nat _ 0 : (b :: msg).[0] = _). cbn [lookup list_lookup].
  cbn [fmap option_fmap option_map mbind option_bind].
  unfold char_of. rewrite byte_of_Z_of_byte. case_decide as Hn.
  { eexists _, _. split; [done|]. cbn. split; [done|]. exists b. repeat split; [lia|done]. }
  pose proof (message_length_need _ Hn). case_decide.
  { eexists _, _. split; [done|]. cbn. split; [done|]. right. exists b. split; [done|lia]. }
  destruct (decode_header_some (b :: msg)) as (hdr & -> & Hh); [lia|].
  cbn [mbind option_bind].
  destruct (parse_body_total (ascii_of_byte b) (b :: msg) hdr) as (e & -> & ? & ?);
    [done|lia|done|].
  eexists _, _. split; [done|]. cbn. exists b. split; [done|]. split; [lia|done].
Qed.

(** ** Properties *)

(** C24.  Memory safety and locality of the decoder: given a pointer to at least
    [len] readable bytes, [parse] returns, never reads outside the first [len]
    bytes (the result on the memory truncated to them is the same), and its
    status and event are exactly those of the case analysis [parse_result]:
    an error leaves [out] untouched, [Ok] gives an event of the type the first
    byte stands for whose every field fits its C++ type. *)
Theorem parse_memory_safe msg len out :
  0 <= len <= Z.of_nat (length msg) ->
  exists st e, parse msg len out = Some (st, e) /\
    parse (take (Z.to_nat len) msg) len out = Some (st, e) /\
    parse_result msg len out st e.
Proof.
  intros Hl. destruct (parse_total msg len out Hl) as (st & e & Hp & Hr).
  exists st, e. split; [done|]. split; [|done].
  rewrite <- Hp. apply parse_ext; [|lia]. intros i Hi. unfold vget.
  case_decide; [|done]. rewrite lookup_take_lt; [done|lia].
Qed.

Lemma parse_memory_safe_witness :
  exists st e, parse [x44] 1 event0 = Some (st, e) /\
    parse (take (Z.to_nat 1) [x44]) 1 event0 = Some (st, e) /\
    parse_result [x44] 1 event0 st e.
Proof. apply (parse_memory_safe [x44] 1 event0). cbn. lia. Defined.

(** No stale fields: when a message decodes, the event is the same whatever
    the reused event held before the call. *)
Theorem parse_no_stale msg len out out' e :
  parse msg len out = Some (Ok, e) -> parse msg len out' = Some (Ok, e).
Proof.
  unfold parse. repeat (case_decide; [done|]).
  destruct (load_u8 msg 0) as [b|]; cbn [mbind option_bind]; [|done].
  by repeat (case_decide; [done|]).
Qed.

(** A delete order for reference 7, as bytes. *)
Definition delete_msg : list byte :=
  [x44; x00; x01; x00; x00; x00; x00; x00; x00; x00; x05;
   x00; x00; x00; x00; x00; x00; x00; x07].

Lemma parse_no_stale_witness :
  parse delete_msg 19 event0 = parse delete_msg 19 (event0 <| ev_price_ticks := 99 |>).
Proof.
  pose (e := event0 <| ev_stock_locate := 1 |> <| ev_timestamp_ns := 5 |>
    <| ev_type := Delete |> <| ev_order_ref := 7 |>).
  assert (parse delete_msg 19 event0 = Some (Ok, e)) as H by reflexivity.
  rewrite H. symmetry.
  apply (parse_no_stale delete_msg 19 event0 (event0 <| ev_price_ticks := 99 |>) e H).
Defined.
