(* ===== verification/FeedSource.v ===== *)
(** * Feed sources

    [include/feedhandler/feed_source.hpp] and the length-framed file replayer
    [src/itch_file_source.cpp].  The abstract class [FeedSource] is a
    typeclass; what its comments promise to a client is the class
    [FeedSourceOk], proved for [ItchFileSource] and used by the pipeline.

    [RawFrame.data] points into memory owned by the source: [f_data] is that
    memory from the pointer on, [f_len] the number of payload bytes.  The file
    is an argument: [OpenResult] holds what [open], [fstat] and [mmap] return;
    [file_released]: they are undone. *)

From stdpp Require Import base list gmap numbers.
From S2P Require Import Prelude ByteRead.

Record RawFrame := mkFrame {
  f_data : list byte;
  f_len : Z;
  f_sequence : Z }.

(** The result of [next_frame]: [false] with nothing changed, or [true] with
    the frame in [out] and the source's next state. *)
Inductive Fetch (S : Type) :=
  | EndOfStream
  | Frame (f : RawFrame) (s : S).
Arguments EndOfStream {S}.
Arguments Frame {S} f s.

Class FeedSource (S : Type) := next_frame : S -> option (Fetch S).

(** The payload bytes of a frame. *)
Definition payload (f : RawFrame) : list byte := take (Z.to_nat (f_len f)) (f_data f).

(** [while (src.next_frame(f)) ...]: every frame of the source, in order;
    [fuel] bounds the number of calls. *)
Fixpoint all_frames {S} `{FeedSource S} (fuel : nat) (s : S) : option (list RawFrame * S) :=
  match fuel with
  | O => None
  | Datatypes.S fuel =>
      r ← next_frame s;
      match r with
      | EndOfStream => Some ([], s)
      | Frame f s' => fs ← all_frames fuel s'; Some (f :: fs.1, fs.2)
      end
  end.

(** More fuel changes nothing. *)
Lemma all_frames_more {S} `{FeedSource S} fuel fuel' (s : S) r :
  all_frames fuel s = Some r -> (fuel <= fuel')%nat -> all_frames fuel' s = Some r.
Proof.
  revert fuel' s r. induction fuel as [|fuel IH]; intros [|fuel'] s r E Hf; [done|done|lia|].
  cbn [all_frames] in *. destruct (next_frame s) as [[|f s']|]; cbn [mbind option_bind] in *;
    [exact E| |exact E].
  apply bind_Some in E as (fs & E & E'). rewrite (IH fuel' s' fs E) by lia. exact E'.
Qed.

(** The contract of a source: a call returns (no undefined behaviour), frames
    are numbered consecutively, the announced bytes are readable, and the
    stream is finite ([fs_left] decreases). *)
Class FeedSourceOk (S : Type) `{FeedSource S} := {
  fs_inv : S -> Prop;
  fs_left : S -> nat;
  fs_seq : S -> Z;
  next_frame_ok s : fs_inv s -> exists r, next_frame s = Some r /\
    match r with
    | EndOfStream => True
    | Frame f s' => fs_inv s' /\ (fs_left s' < fs_left s)%nat /\
        f_sequence f = u64 (fs_seq s + 1) /\ fs_seq s' = f_sequence f /\
        0 <= f_len f <= Z.of_nat (length (f_data f))
    end }.

(** ** The file replayer *)

Record OpenResult := mkOpen {
  os_fd : Z;                       (** [open(path)] *)
  os_size : option Z;              (** [fstat]: [st_size], or failure *)
  os_map : option (list byte) }.   (** [mmap]: the mapping, or [MAP_FAILED] *)

Record ItchFileSource := mkFile {
  fd_ : Z;
  data_ : option (list byte);
  size_ : Z;
  pos_ : Z;
  seq_ : Z }.

Definition ItchFileSource_open (os : OpenResult) : ItchFileSource :=
  if decide (os_fd os < 0) then mkFile (os_fd os) None 0 0 0 else
  match os_size os with
  | None => mkFile (-1) None 0 0 0
  | Some st_size =>
      if decide (st_size <= 0) then mkFile (-1) None 0 0 0 else
      match os_map os with
      | None => mkFile (-1) None 0 0 0
      | Some m => mkFile (os_fd os) (Some m) st_size 0 0
      end
  end.

(** What the constructor and the destructor ask of the kernel. *)
Inductive SysCall := SysOpened (fd : Z) | SysMapped (len : Z) | SysUnmapped (len : Z) | SysClosed (fd : Z).

#[export] Instance SysCall_eq_dec : EqDecision SysCall.
Proof. solve_decision. Defined.

Definition open_calls (os : OpenResult) : list SysCall :=
  if decide (os_fd os < 0) then [] else
  SysOpened (os_fd os) ::
  match os_size os with
  | None => [SysClosed (os_fd os)]
  | Some st_size =>
      if decide (st_size <= 0) then [SysClosed (os_fd os)] else
      match os_map os with
      | None => [SysClosed (os_fd os)]
      | Some _ => [SysMapped st_size]
      end
  end.

Definition close_calls (s : ItchFileSource) : list SysCall :=
  match data_ s with Some _ => [SysUnmapped (size_ s)] | None => [] end ++
  if decide (fd_ s >= 0) then [SysClosed (fd_ s)] else [].

Definition ItchFileSource_ok (s : ItchFileSource) : bool := bool_decide (is_Some (data_ s)).

Definition itch_next_frame (s : ItchFileSource) : option (Fetch ItchFileSource) :=
  match data_ s with
  | None => Some EndOfStream
  | Some data =>
      if decide (u64 (pos_ s + 2) > size_ s) then Some EndOfStream else
      len ← load_be16 data (pos_ s);
      let payload := u64 (pos_ s + 2) in
      if decide (u64 (payload + len) > size_ s) then Some EndOfStream else
      let seq := u64 (seq_ s + 1) in
      Some (Frame (mkFrame (drop (Z.to_nat payload) data) len seq)
        (mkFile (fd_ s) (data_ s) (size_ s) (u64 (payload + len)) seq))
  end.

#[export] Instance ItchFileSource_source : FeedSource ItchFileSource := itch_next_frame.

(** The framing of the file format: a 16-bit big-endian length and the payload. *)
Definition frame_bytes (p : list byte) : list byte :=
  byte_of_Z (Z.shiftr (Z.of_nat (length p)) 8) :: byte_of_Z (Z.of_nat (length p)) :: p.

(** ** Lemmas *)

(** A mapping of the size [fstat] reported, shorter than half the address space. *)
Definition file_inv (s : ItchFileSource) : Prop :=
  match data_ s with
  | None => True
  | Some data => size_ s = Z.of_nat (length data) /\ size_ s < 2 ^ 63 /\ 0 <= pos_ s <= size_ s
  end.

Lemma load_be16_u16 data off len : load_be16 data off = Some len -> 0 <= len < 65536.
Proof.
  rewrite load_be16_spec. intros Hv%load_be_bound. cbn in Hv. lia.
Qed.

Lemma load_be16_some data off :
  0 <= off -> off + 2 <= Z.of_nat (length data) -> exists len, load_be16 data off = Some len.
Proof. intros. rewrite load_be16_spec. apply load_be_is_Some. lia. Qed.

Lemma itch_next_frame_ok s :
  file_inv s -> exists r, itch_next_frame s = Some r /\
    match r with
    | EndOfStream => True
    | Frame f s' => file_inv s' /\
        (Z.to_nat (size_ s' - pos_ s') < Z.to_nat (size_ s - pos_ s))%nat /\
        f_sequence f = u64 (seq_ s + 1) /\ seq_ s' = f_sequence f /\
        0 <= f_len f <= Z.of_nat (length (f_data f))
    end.
Proof.
  unfold file_inv, itch_next_frame. destruct (data_ s) as [data|] eqn:Hd; [|by exists EndOfStream].
  intros (Hs & Hb & Hp). unfold u64.
  rewrite (wrap_small 64 (pos_ s + 2)) by (unfold in_u; lia).
  case_decide as H2; [by exists EndOfStream|].
  destruct (load_be16_some data (pos_ s)) as [len Hlen]; [lia|lia|].
  rewrite Hlen. cbn [mbind option_bind].
  pose proof (load_be16_u16 _ _ _ Hlen).
  rewrite (wrap_small 64 (pos_ s + 2 + len)) by (unfold in_u; lia).
  case_decide as H3; [by exists EndOfStream|]. eexists. split; [done|].
  cbn [data_ size_ pos_ seq_ f_len f_data f_sequence].
  rewrite length_drop. repeat split; lia.
Qed.

#[export] Instance ItchFileSource_contract : FeedSourceOk ItchFileSource := {
  fs_inv := file_inv;
  fs_left s := Z.to_nat (size_ s - pos_ s);
  fs_seq := seq_;
  next_frame_ok := itch_next_frame_ok }.

(** ** Clients of the contract *)

Section Client.
Context {S : Type} `{FeedSourceOk S}.

(** Frames numbered [n + 1], [n + 2], ... with readable payloads. *)
Fixpoint frames_from (n : Z) (fs : list RawFrame) : Prop :=
  match fs with
  | [] => True
  | f :: fs => f_sequence f = u64 (n + 1) /\
      0 <= f_len f <= Z.of_nat (length (f_data f)) /\ frames_from (f_sequence f) fs
  end.

Lemma all_frames_ok fuel s :
  fs_inv s -> (fs_left s < fuel)%nat ->
  exists fs s', all_frames fuel s = Some (fs, s') /\ frames_from (fs_seq s) fs.
Proof.
  revert s. induction fuel as [|fuel IH]; intros s Hi Hf; [lia|]. cbn [all_frames].
  destruct (next_frame_ok s Hi) as ([|f s'] & -> & Hr); cbn [mbind option_bind].
  { by exists [], s. }
  destruct Hr as (Hi' & Hlt & Hq & Hn & Hl).
  destruct (IH s' Hi') as (fs & s'' & -> & Hfs); [lia|]. cbn [mbind option_bind fst snd].
  exists (f :: fs), s''. split; [done|]. cbn.
  split; [done|]. split; [lia|]. by rewrite <- Hn.
Qed.
End Client.

(** ** The framing round trip *)

Lemma frame_bytes_length p : Z.of_nat (length (frame_bytes p)) = 2 + Z.of_nat (length p).
Proof. unfold frame_bytes. cbn [length]. lia. Qed.

Lemma load_be16_frame pre p post :
  Z.of_nat (length p) < 65536 ->
  load_be16 (pre ++ frame_bytes p ++ post) (Z.of_nat (length pre)) = Some (Z.of_nat (length p)).
Proof.
  intros Hp. rewrite load_be16_spec, (load_be_digits 2 _ _ 0 (Z.of_nat (length p))).
  - f_equal. rewrite wrap_small; [lia|]. unfold in_u. cbn. lia.
  - intros i Hi. unfold vget. rewrite decide_True by lia.
    rewrite lookup_app_r by lia.
    destruct (decide (i = Z.of_nat (length pre))) as [->|].
    + replace (_ - _)%nat with 0%nat by lia. cbn. do 3 f_equal. lia.
    + replace (_ - _)%nat with 1%nat by lia. cbn. do 3 f_equal.
      replace (8 * _) with 0 by lia. by rewrite Z.shiftr_0_r.
Qed.

(** One call of [next_frame] in the middle of a well-framed file. *)
Lemma itch_next_frame_framed fd pre p post n :
  Z.of_nat (length p) < 65536 ->
  Z.of_nat (length (pre ++ frame_bytes p ++ post)) < 2 ^ 63 ->
  let data := pre ++ frame_bytes p ++ post in
  itch_next_frame (mkFile fd (Some data) (Z.of_nat (length data)) (Z.of_nat (length pre)) n) =
  Some (Frame (mkFrame (p ++ post) (Z.of_nat (length p)) (u64 (n + 1)))
    (mkFile fd (Some data) (Z.of_nat (length data))
      (Z.of_nat (length (pre ++ frame_bytes p))) (u64 (n + 1)))).
Proof.
  intros Hp Hs data. unfold itch_next_frame. cbn [data_ size_ pos_ seq_ fd_].
  assert (Z.of_nat (length data) =
    Z.of_nat (length pre) + 2 + Z.of_nat (length p) + Z.of_nat (length post)) as Hd.
  { unfold data. rewrite !length_app. pose proof (frame_bytes_length p). lia. }
  fold data in Hs. unfold u64. rewrite (wrap_small 64 (_ + 2)) by (unfold in_u; lia).
  rewrite decide_False by lia.
  assert (load_be16 data (Z.of_nat (length pre)) = Some (Z.of_nat (length p))) as ->
    by by apply load_be16_frame.
  cbn [mbind option_bind].
  rewrite (wrap_small 64 (_ + 2 + _)) by (unfold in_u; lia).
  rewrite decide_False by lia. do 3 f_equal.
  - f_equal. unfold data, frame_bytes.
    rewrite (drop_app_ge _ _ (Z.to_nat _)) by lia.
    replace (_ - _)%nat with 2%nat by lia. done.
  - rewrite length_app. pose proof (frame_bytes_length p). lia.
Qed.

(** The frames a file of these payloads should give. *)
Fixpoint expected_frames (n : Z) (ps : list (list byte)) (fs : list RawFrame) : Prop :=
  match ps, fs with
  | [], [] => True
  | p :: ps, f :: fs => payload f = p /\ f_len f = Z.of_nat (length p) /\
      f_sequence f = u64 (n + 1) /\ expected_frames (f_sequence f) ps fs
  | _, _ => False
  end.

(** The end of the file: fewer bytes than a whole frame needs. *)
Definition truncated (post : list byte) : Prop :=
  (length post < 2)%nat \/
  exists len, load_be16 post 0 = Some len /\ Z.of_nat (length post) < 2 + len.

Lemma itch_next_frame_truncated fd pre post n :
  truncated post -> Z.of_nat (length (pre ++ post)) < 2 ^ 63 ->
  let data := pre ++ post in
  itch_next_frame (mkFile fd (Some data) (Z.of_nat (length data)) (Z.of_nat (length pre)) n) =
  Some EndOfStream.
Proof.
  intros Ht Hs data. unfold itch_next_frame. cbn [data_ size_ pos_ seq_ fd_].
  assert (Z.of_nat (length data) = Z.of_nat (length pre) + Z.of_nat (length post)) as Hd
    by (unfold data; rewrite length_app; lia).
  fold data in Hs. unfold u64. rewrite (wrap_small 64 (_ + 2)) by (unfold in_u; lia).
  case_decide as H2; [done|]. destruct Ht as [|(len & Hlen & Hlt)]; [lia|].
  pose proof (load_be16_u16 _ _ _ Hlen).
  assert (load_be16 data (Z.of_nat (length pre)) = Some len) as ->.
  { rewrite <- Hlen, !load_be16_spec. cbn [load_be]. unfold data, vget.
    rewrite !decide_True, !lookup_app_r by lia.
    replace (Z.to_nat (Z.of_nat (length pre)) - length pre)%nat with (Z.to_nat 0) by lia.
    by replace (Z.to_nat (Z.of_nat (length pre) + 1) - length pre)%nat
      with (Z.to_nat (0 + 1)) by lia. }
  cbn [mbind option_bind].
  rewrite (wrap_small 64 (_ + 2 + _)) by (unfold in_u; lia).
  by rewrite decide_True by lia.
Qed.

Lemma all_frames_framed fd pre ps post n fuel :
  Forall (fun p => Z.of_nat (length p) < 65536) ps -> truncated post ->
  let data := pre ++ concat (map frame_bytes ps) ++ post in
  Z.of_nat (length data) < 2 ^ 63 -> (length ps < fuel)%nat ->
  exists fs s', all_frames fuel
    (mkFile fd (Some data) (Z.of_nat (length data)) (Z.of_nat (length pre)) n) = Some (fs, s') /\
  expected_frames n ps fs.
Proof.
  revert pre n fuel. induction ps as [|p ps IH]; intros pre n fuel Hps Ht data Hs Hf;
    (destruct fuel as [|fuel]; [lia|]); cbn [all_frames];
    change (@next_frame _ ItchFileSource_source) with itch_next_frame.
  - unfold data in *. cbn [map concat app] in *.
    rewrite itch_next_frame_truncated by done. cbn [mbind option_bind]. by eexists [], _.
  - apply list.Forall_cons in Hps as [Hp Hps].
    assert (data = pre ++ frame_bytes p ++ (concat (map frame_bytes ps) ++ post)) as Hd
      by (unfold data; cbn; by rewrite <- app_assoc).
    rewrite Hd in *. rewrite itch_next_frame_framed by done. cbn [mbind option_bind].
    destruct (IH (pre ++ frame_bytes p) (u64 (n + 1)) fuel) as (fs & s' & He & Hx); try done.
    { by rewrite <- app_assoc. }
    { cbn in Hf. lia. }
    rewrite <- app_assoc in He. rewrite He. cbn [mbind option_bind fst snd].
    eexists _, _. split; [done|]. cbn [expected_frames]. unfold payload. cbn [f_len f_data f_sequence].
    rewrite Nat2Z.id, take_app_length. done.
Qed.

(** A call touches neither the descriptor nor the mapping. *)
Lemma itch_next_frame_resources s f s' :
  itch_next_frame s = Some (Frame f s') -> fd_ s' = fd_ s /\ data_ s' = data_ s /\ size_ s' = size_ s.
Proof.
  unfold itch_next_frame. destruct (data_ s) as [d|] eqn:Ed; [|done]. case_decide; [done|].
  intros (len & _ & E)%bind_Some. case_decide; [done|]. injection E as _ <-. by rewrite <- Ed.
Qed.

Lemma all_frames_resources fuel s fs s' :
  all_frames fuel s = Some (fs, s') -> fd_ s' = fd_ s /\ data_ s' = data_ s /\ size_ s' = size_ s.
Proof.
  revert s fs s'. induction fuel as [|fuel IH]; intros s fs s' E; [done|]. cbn [all_frames] in E.
  change (@next_frame _ ItchFileSource_source) with itch_next_frame in E.
  apply bind_Some in E as ([|f s1] & E1 & E); [by injection E as <- <-|].
  apply bind_Some in E as ([fs1 s2] & E2 & E). injection E as <- <-. cbn [snd].
  destruct (IH _ _ _ E2) as (-> & -> & ->). exact (itch_next_frame_resources _ _ _ E1).
Qed.

(** ** Properties *)

(** The file is released.  From the constructor to the destructor, with any number of
    frames read in between: what was opened is closed once, behind the unmapping of
    what was mapped, whichever call of the constructor failed. *)
Theorem file_released os fuel fs s :
  all_frames fuel (ItchFileSource_open os) = Some (fs, s) ->
  open_calls os ++ close_calls s =
    (if decide (os_fd os < 0) then [] else
     if ItchFileSource_ok s then [SysOpened (os_fd os); SysMapped (size_ s); SysUnmapped (size_ s); SysClosed (os_fd os)]
     else [SysOpened (os_fd os); SysClosed (os_fd os)]).
Proof.
  intros (E1 & E2 & E3)%all_frames_resources.
  unfold close_calls, ItchFileSource_ok. rewrite E1, E2, E3. clear E1 E2 E3.
  unfold open_calls, ItchFileSource_open. case_decide as D; [cbn; by rewrite decide_False by lia|].
  destruct (os_size os) as [n|]; [|done]. case_decide; [done|].
  destruct (os_map os) as [m|]; [|done]. cbn. by rewrite decide_True by lia.
Qed.

(** The framing round trip of the replayer: on a mapped file that is the
    concatenation of length-prefixed payloads (each under 64 KiB) and a
    truncated tail, [next_frame] hands up exactly the payloads, in order,
    numbered 1, 2, 3, ..., and then reports the end of the stream. *)
Theorem file_frames_roundtrip fd ps post :
  Forall (fun p => Z.of_nat (length p) < 65536) ps -> truncated post -> 0 <= fd ->
  let data := concat (map frame_bytes ps) ++ post in
  0 < Z.of_nat (length data) < 2 ^ 63 ->
  exists fs s', all_frames (length ps + 1)
    (ItchFileSource_open (mkOpen fd (Some (Z.of_nat (length data))) (Some data))) = Some (fs, s')
    /\ expected_frames 0 ps fs.
Proof.
  intros Hps Ht Hfd data Hs. unfold ItchFileSource_open. cbn [os_fd os_size os_map].
  rewrite !decide_False by lia.
  apply (all_frames_framed fd [] ps post 0); try done; [apply Hs|lia].
Qed.

Lemma file_frames_roundtrip_witness :
  exists fs s', all_frames 3
    (ItchFileSource_open (mkOpen 3 (Some 8)
      (Some (concat (map frame_bytes [[x53; x01]; [x44]]) ++ [x00])))) = Some (fs, s')
    /\ expected_frames 0 [[x53; x01]; [x44]] fs.
Proof.
  apply (file_frames_roundtrip 3 [[x53; x01]; [x44]] [x00]).
  - repeat constructor.
  - left. cbn. lia.
  - done.
  - done.
Defined.

(** C25.  Safety and termination of the replayer on an arbitrary file: whatever
    the bytes, reading frames never touches memory outside the mapping, every
    frame's payload lies inside it, the frames are numbered consecutively, and
    the stream ends after at most one call per byte plus one. *)
Theorem file_frames_total os :
  (forall st_size m, os_size os = Some st_size -> os_map os = Some m ->
    st_size = Z.of_nat (length m) /\ st_size < 2 ^ 63) ->
  exists fs s', all_frames (S (Z.to_nat (default 0%Z (os_size os)))) (ItchFileSource_open os)
    = Some (fs, s') /\ frames_from 0 fs.
Proof.
  intros Hos. set (s := ItchFileSource_open os).
  assert (fs_inv s /\ (fs_left s < S (Z.to_nat (default 0%Z (os_size os))))%nat /\ fs_seq s = 0)
    as (Hi & Hl & Hq).
  { unfold s, ItchFileSource_open, fs_inv, fs_left, fs_seq, ItchFileSource_contract, file_inv.
    case_decide; [cbn; lia|]. destruct (os_size os) as [z|]; [|cbn; lia].
    case_decide; [cbn; lia|]. destruct (os_map os) as [m|]; [|cbn; lia].
    destruct (Hos z m); [done..|]. cbn. lia. }
  destruct (all_frames_ok _ s Hi Hl) as (fs & s' & ? & ?).
  exists fs, s'. split; [done|]. by rewrite <- Hq.
Qed.

Lemma file_frames_total_witness :
  exists fs s', all_frames 7 (ItchFileSource_open (mkOpen 3 (Some 6)
    (Some [x00; x02; x53; x01; x00; x09]))) = Some (fs, s') /\ frames_from 0 fs.
Proof.
  apply (file_frames_total (mkOpen 3 (Some 6) (Some [x00; x02; x53; x01; x00; x09]))).
  cbn. intros st_size m [= <-] [= <-]. cbn. lia.
Defined.
