(* ===== verification/OrderPool.v ===== *)
(** * Order nodes, intrusive lists and the free-list pool

    The nodes of [src/order_book.cpp] live on a heap: [mem] maps addresses to
    [Order] objects, a null pointer is [None], and dereferencing an address
    that is not allocated is undefined behaviour ([None] of the option monad).
    Node [i] of the pool's block [k] has address [k * chunk_ + i]; blocks never
    move, as the source promises.  [o_next] doubles as the free-list link.

    - [OrderPool]: [grow], [alloc], [release], [reset_all];
    - [link_back], [unlink] on a level's intrusive doubly-linked list;
    - [pool_ok]: the free list is a duplicate-free chain of allocated nodes;
    - [dseg]: a doubly-linked segment, with its append and frame lemmas. *)

From stdpp Require Import base list gmap numbers.
From S2P Require Import Prelude MarketEvent.

Abbreviation ptr := Z (only parsing).

Record Order := mkOrder {
  o_order_ref : Z;
  o_price_ticks : Z;
  o_size : Z;
  o_level_idx : Z;
  o_side : Side;
  o_prev : option ptr;
  o_next : option ptr }.

#[export] Instance Order_settable : Settable Order := fun o =>
  mkOrder (o_order_ref o) (o_price_ticks o) (o_size o) (o_level_idx o) (o_side o)
    (o_prev o) (o_next o).

(** A value-initialised node. *)
Definition order0 : Order := mkOrder 0 0 0 0 SideNone None None.

Abbreviation heap := (gmap Z Order).

(** [o->m = v]: a write through a pointer. *)
Definition store (a : ptr) (f : Order -> Order) (m : heap) : option heap :=
  o ← m !! a; Some (<[a := f o]> m).

(** ** The pool *)

Record OrderPool := mkPool {
  chunk_ : Z;
  chunks_ : Z;                   (** number of blocks *)
  free_head_ : option ptr;
  mem : heap }.

#[export] Instance OrderPool_settable : Settable OrderPool := fun p =>
  mkPool (chunk_ p) (chunks_ p) (free_head_ p) (mem p).

Definition pool_new (chunk : Z) : OrderPool :=
  mkPool (if decide (chunk = 0) then 1 else chunk) 0 None ∅.

Definition release (o : ptr) (p : OrderPool) : option OrderPool :=
  m ← store o (fun n => n <| o_next := free_head_ p |>) (mem p);
  Some (p <| mem := m |> <| free_head_ := Some o |>).

(** The loop shared by [grow] and [reset_all]: push every node of the block at
    [base] on the free list. *)
Definition relink (base : ptr) (p : OrderPool) : option OrderPool :=
  iterM (fun i => release (base + i)) (seqZ 0 (chunk_ p)) p.

(** [std::make_unique<Order[]>(chunk_)] at the address [base]. *)
Definition new_block (base : ptr) (p : OrderPool) : OrderPool :=
  p <| mem ::= fun m => foldr (fun i m => <[base + i := order0]> m) m (seqZ 0 (chunk_ p)) |>.

Definition grow (p : OrderPool) : option OrderPool :=
  let base := chunks_ p * chunk_ p in
  p ← relink base (new_block base p);
  Some (p <| chunks_ ::= Z.add 1 |>).

Definition alloc (p : OrderPool) : option (ptr * OrderPool) :=
  p ← (if decide (free_head_ p = None) then grow p else Some p);
  o ← free_head_ p;
  n ← mem p !! o;
  Some (o, p <| free_head_ := o_next n |>).

Definition reset_all (p : OrderPool) : option OrderPool :=
  iterM (fun k p => relink (k * chunk_ p) p) (seqZ 0 (chunks_ p)) (p <| free_head_ := None |>).

(** ** Linked lists of a level *)

Record PriceLevel := mkLevel {
  aggregate_size : Z;
  order_count : Z;
  lv_side : Side;
  lv_head : option ptr;
  lv_tail : option ptr }.

#[export] Instance PriceLevel_settable : Settable PriceLevel := fun l =>
  mkLevel (aggregate_size l) (order_count l) (lv_side l) (lv_head l) (lv_tail l).

(** [PriceLevel{}]. *)
Definition level0 : PriceLevel := mkLevel 0 0 SideNone None None.

Definition link_back (m : heap) (lvl : PriceLevel) (o : ptr) : option (heap * PriceLevel) :=
  m ← store o (fun n => n <| o_prev := lv_tail lvl |>) m;
  m ← store o (fun n => n <| o_next := None |>) m;
  match lv_tail lvl with
  | Some t =>
      m ← store t (fun n => n <| o_next := Some o |>) m;
      Some (m, lvl <| lv_tail := Some o |>)
  | None => Some (m, lvl <| lv_head := Some o |> <| lv_tail := Some o |>)
  end.

Definition unlink (m : heap) (lvl : PriceLevel) (o : ptr) : option (heap * PriceLevel) :=
  n ← m !! o;
  r ← match o_prev n with
      | Some p => m ← store p (fun x => x <| o_next := o_next n |>) m; Some (m, lvl)
      | None => Some (m, lvl <| lv_head := o_next n |>)
      end;
  let '(m, lvl) := (r : heap * PriceLevel) in
  n ← m !! o;
  match o_next n with
  | Some q => m ← store q (fun x => x <| o_prev := o_prev n |>) m; Some (m, lvl)
  | None => Some (m, lvl <| lv_tail := o_prev n |>)
  end.

(** ** Invariants *)

(** The free list from [h]: the nodes [l], linked by [o_next]. *)
Fixpoint chain (m : heap) (h : option ptr) (l : list ptr) : Prop :=
  match l with
  | [] => h = None
  | a :: l => h = Some a /\ exists o, m !! a = Some o /\ chain m (o_next o) l
  end.

Record pool_ok (p : OrderPool) (free : list ptr) : Prop := {
  pool_chunk_pos : 1 <= chunk_ p;
  pool_chunks_nonneg : 0 <= chunks_ p;
  pool_dom a : is_Some (mem p !! a) <-> 0 <= a < chunks_ p * chunk_ p;
  pool_chain : chain (mem p) (free_head_ p) free;
  pool_nodup : NoDup free }.

(** First pointer of a list followed by [nx]; last pointer of a list preceded by [pv]. *)
Definition first_or (l : list ptr) (nx : option ptr) : option ptr :=
  match l with [] => nx | a :: _ => Some a end.

Fixpoint last_or (pv : option ptr) (l : list ptr) : option ptr :=
  match l with [] => pv | a :: l => last_or (Some a) l end.

(** The doubly-linked segment [l], preceded by [pv] and followed by [nx]. *)
Fixpoint dseg (m : heap) (pv : option ptr) (l : list ptr) (nx : option ptr) : Prop :=
  match l with
  | [] => True
  | a :: l => exists o, m !! a = Some o /\ o_prev o = pv /\ o_next o = first_or l nx /\
      dseg m (Some a) l nx
  end.

(** The list of a level: the segment between the null pointers. *)
Definition links_ok (m : heap) (lvl : PriceLevel) (l : list ptr) : Prop :=
  dseg m None l None /\ lv_head lvl = first_or l None /\ lv_tail lvl = last_or None l.

(** What is left of a node when its links are forgotten. *)
Definition pay (o : Order) : Order := o <| o_prev := None |> <| o_next := None |>.

(** [m'] differs from [m] only in the links of nodes in [l]. *)
Definition relinked (l : list ptr) (m m' : heap) : Prop :=
  forall a, pay <$> m' !! a = pay <$> m !! a /\ (a ∉ l -> m' !! a = m !! a).

(** A node that is allocated and not on the free list. *)
Definition used (p : OrderPool) (free : list ptr) (a : ptr) : Prop :=
  is_Some (mem p !! a) /\ a ∉ free.

(** ** Lemmas: heap writes *)

Lemma store_Some a f (m m' : heap) :
  store a f m = Some m' <-> exists o, m !! a = Some o /\ m' = <[a := f o]> m.
Proof.
  unfold store. destruct (m !! a) as [o|]; cbn [mbind option_bind]; naive_solver.
Qed.

Lemma store_at a f (m : heap) o : m !! a = Some o -> store a f m = Some (<[a := f o]> m).
Proof. intros H. unfold store. by rewrite H. Qed.

Lemma lookup_insert_is_Some_iff (m : heap) a o x :
  is_Some (m !! a) -> is_Some (<[a := o]> m !! x) <-> is_Some (m !! x).
Proof. intros. rewrite lookup_insert. case_decide; subst; naive_solver. Qed.

(** ** Lemmas: the free list *)

Lemma chain_frame (m m' : heap) h l :
  (forall a, a ∈ l -> m' !! a = m !! a) -> chain m h l -> chain m' h l.
Proof.
  revert h. induction l as [|a l IH]; cbn; intros h Hm; [done|].
  intros (-> & o & Ho & Hc). split; [done|]. exists o.
  rewrite Hm by set_solver. split; [done|]. apply IH; [|done]. set_solver.
Qed.

Lemma pool_ok_mem p free m :
  pool_ok p free ->
  (forall a, a ∈ free -> m !! a = mem p !! a) ->
  (forall a, is_Some (m !! a) <-> is_Some (mem p !! a)) ->
  pool_ok (p <| mem := m |>) free.
Proof.
  intros [] Hf Hd. split; cbn; try done.
  - intros a. by rewrite Hd.
  - by eapply chain_frame.
Qed.

Lemma release_chain a p free :
  is_Some (mem p !! a) -> chain (mem p) (free_head_ p) free -> a ∉ free ->
  exists p', release a p = Some p' /\ chain (mem p') (free_head_ p') (a :: free) /\
    chunk_ p' = chunk_ p /\ chunks_ p' = chunks_ p /\
    (forall x, is_Some (mem p' !! x) <-> is_Some (mem p !! x)) /\
    (forall x, x <> a -> mem p' !! x = mem p !! x).
Proof.
  intros [o Ho] Hc Hn. unfold release. rewrite (store_at _ _ _ _ Ho). cbn [mbind option_bind].
  eexists. split; [done|]. cbn. split; [|split; [done|]; split; [done|]; split].
  - split; [done|]. eexists. rewrite lookup_insert_eq. split; [done|]. cbn.
    eapply chain_frame; [|done]. intros x Hx. rewrite lookup_insert_ne; [done|]. by intros ->.
  - intros x. by apply lookup_insert_is_Some_iff.
  - intros x Hx. by rewrite lookup_insert_ne.
Qed.

Lemma release_ok a p free :
  pool_ok p free -> used p free a ->
  exists p', release a p = Some p' /\ pool_ok p' (a :: free) /\
    (forall x, used p' (a :: free) x <-> used p free x /\ x <> a) /\
    (forall x, x <> a -> mem p' !! x = mem p !! x).
Proof.
  intros [] [Ha Hn]. destruct (release_chain a p free) as (p' & Hr & Hc & H1 & H2 & H3 & H4); [done..|].
  exists p'. split; [done|]. split; [split|split].
  - by rewrite H1.
  - by rewrite H2.
  - intros x. by rewrite H3, H1, H2.
  - done.
  - by apply list.NoDup_cons.
  - intros x. unfold used. rewrite H3. set_solver.
  - done.
Qed.

(** Pushing the nodes [base + i] for [i] in [l]: they end up on the free list,
    last first. *)
Lemma relink_chain base l p free :
  chain (mem p) (free_head_ p) free -> NoDup free -> NoDup l ->
  (forall i, i ∈ l -> is_Some (mem p !! (base + i)) /\ base + i ∉ free) ->
  exists p', iterM (fun i => release (base + i)) l p = Some p' /\
    chain (mem p') (free_head_ p') (reverse (Z.add base <$> l) ++ free) /\
    NoDup (reverse (Z.add base <$> l) ++ free) /\
    chunk_ p' = chunk_ p /\ chunks_ p' = chunks_ p /\
    (forall x, is_Some (mem p' !! x) <-> is_Some (mem p !! x)) /\
    (forall x, x ∉ Z.add base <$> l -> mem p' !! x = mem p !! x).
Proof.
  revert p free. induction l as [|i l IH]; intros p free Hc Hf Hl Hi; cbn [iterM].
  { exists p. rewrite fmap_nil, reverse_nil. done. }
  apply list.NoDup_cons in Hl as [Hil Hl].
  destruct (Hi i) as [Hs Hn]; [by left|].
  destruct (release_chain (base + i) p free) as (p1 & -> & Hc1 & H1 & H2 & H3 & H4); [done..|].
  cbn [mbind option_bind].
  destruct (IH p1 (base + i :: free)) as (p2 & He & Hc2 & Hd & H1' & H2' & H3' & H4').
  - done.
  - by apply list.NoDup_cons.
  - done.
  - intros j Hj. rewrite H3. destruct (Hi j) as [? ?]; [by right|]. split; [done|].
    apply not_elem_of_cons. split; [|done]. intros Heq. assert (i = j) as -> by lia. done.
  - exists p2. split; [done|]. rewrite fmap_cons, reverse_cons, <- app_assoc.
    split; [done|]. split; [done|]. split; [by rewrite H1', H1|]. split; [by rewrite H2', H2|].
    split; [intros x; by rewrite H3', H3|].
    intros x [Hx1 Hx2]%not_elem_of_cons. by rewrite H4', H4.
Qed.

Lemma new_block_lookup base p x :
  mem (new_block base p) !! x =
  if decide (base <= x < base + chunk_ p) then Some order0 else mem p !! x.
Proof.
  unfold new_block. cbn.
  assert (forall l, foldr (fun i m => <[base + i := order0]> m) (mem p) l !! x =
    if decide (x - base ∈ l) then Some order0 else mem p !! x) as H.
  { induction l as [|i l IH]; cbn; [done|]. rewrite lookup_insert, IH.
    repeat case_decide; try done; set_solver by lia. }
  rewrite H. repeat case_decide; try done; rewrite elem_of_seqZ in *; lia.
Qed.

Lemma pool_free_dom p free a : pool_ok p free -> a ∈ free -> is_Some (mem p !! a).
Proof.
  intros Hp. pose proof (pool_chain _ _ Hp) as Hc. clear Hp. revert Hc.
  generalize (free_head_ p). induction free as [|b free IH]; cbn; [set_solver|].
  intros h (-> & o & Ho & Hc) [->|Hin]%elem_of_cons; eauto.
Qed.

Lemma grow_ok p free :
  pool_ok p free ->
  exists p' fresh, grow p = Some p' /\ fresh <> [] /\ pool_ok p' (fresh ++ free) /\
    chunk_ p' = chunk_ p /\
    (forall x, used p' (fresh ++ free) x <-> used p free x) /\
    (forall x, is_Some (mem p !! x) -> x ∉ free -> mem p' !! x = mem p !! x).
Proof.
  intros Hp. unfold grow. set (base := chunks_ p * chunk_ p). unfold relink.
  destruct Hp as [Hk Hks Hd Hc Hnd] eqn:HP. pose proof Hp as Hp'.
  destruct (relink_chain base (seqZ 0 (chunk_ (new_block base p))) (new_block base p) free)
    as (p1 & -> & Hc1 & Hnd1 & H1 & H2 & H3 & H4).
  - eapply chain_frame; [|done]. intros a Ha. rewrite new_block_lookup.
    apply (pool_free_dom _ _ _ Hp'), Hd in Ha. fold base in Ha. by rewrite decide_False by lia.
  - done.
  - apply NoDup_seqZ.
  - intros i Hi%elem_of_seqZ. cbn in Hi. rewrite new_block_lookup. rewrite decide_True by lia.
    split; [eauto|]. intros Ha. apply (pool_free_dom _ _ _ Hp'), Hd in Ha. fold base in Ha. lia.
  - cbn [mbind option_bind]. eexists _, _. split; [done|].
    change (chunk_ (new_block base p)) with (chunk_ p) in *.
    change (chunks_ (new_block base p)) with (chunks_ p) in *.
    assert (forall x, x ∈ Z.add base <$> seqZ 0 (chunk_ p) <-> base <= x < base + chunk_ p) as Hin.
    { intros x. rewrite list_elem_of_fmap. split.
      - intros (i & -> & Hi%elem_of_seqZ). lia.
      - intros Hx. exists (x - base). rewrite elem_of_seqZ. lia. }
    assert (forall x, is_Some (mem p1 !! x) <-> 0 <= x < base + chunk_ p) as Hdom.
    { intros x. rewrite H3, new_block_lookup. case_decide.
      - split; [lia|eauto].
      - rewrite Hd. fold base. lia. }
    split; [|split; [split|]]; cbn; rewrite ?H1, ?H2.
    + intros Hnil. assert (base ∈ @nil Z) as Hb; [|by apply elem_of_nil in Hb].
      rewrite <- Hnil. apply elem_of_reverse, Hin. lia.
    + done.
    + lia.
    + intros x. rewrite Hdom. fold base. lia.
    + done.
    + done.
    + split; [done|]. split.
      * intros x. unfold used. cbn. rewrite elem_of_app, elem_of_reverse, Hin, Hdom, Hd.
        fold base. split; intros [? Hn].
        -- assert (~ base <= x < base + chunk_ p) by tauto. split; [lia|tauto].
        -- split; [lia|]. intros [?|?]; [lia|done].
      * intros x Hx%Hd Hxf. fold base in Hx. rewrite H4 by (rewrite Hin; lia).
        rewrite new_block_lookup. by rewrite decide_False by lia.
Qed.

Lemma alloc_free_ok p a free :
  pool_ok p (a :: free) ->
  exists n, mem p !! a = Some n /\ free_head_ p = Some a /\
    pool_ok (p <| free_head_ := o_next n |>) free /\
    forall x, used (p <| free_head_ := o_next n |>) free x <-> x = a \/ used p (a :: free) x.
Proof.
  intros [? ? Hd (Hh & n & Hn & Hc) Hnd]. apply list.NoDup_cons in Hnd as [Ha Hnd].
  exists n. split; [done|]. split; [done|]. split; [by split|].
  intros x. unfold used. cbn. destruct (decide (x = a)) as [->|]; set_solver.
Qed.

(** [alloc] hands out a node that was not in use, and leaves every node in use alone. *)
Lemma alloc_ok p free :
  pool_ok p free ->
  exists a p' free', alloc p = Some (a, p') /\ pool_ok p' free' /\ ~ used p free a /\
    chunk_ p' = chunk_ p /\
    (forall x, used p' free' x <-> x = a \/ used p free x) /\
    (forall x, used p free x -> mem p' !! x = mem p !! x).
Proof.
  intros Hp. unfold alloc. destruct free as [|a free].
  - pose proof (pool_chain _ _ Hp) as Hc. cbn in Hc. rewrite decide_True by done.
    destruct (grow_ok p [] Hp) as (p1 & fresh & -> & Hne & Hp1 & Hk & Hu & Hm).
    cbn [mbind option_bind]. destruct fresh as [|a fresh]; [done|].
    destruct (alloc_free_ok _ _ _ Hp1) as (n & Hn & -> & Hp2 & Hu2).
    cbn [mbind option_bind]. rewrite Hn. cbn [mbind option_bind].
    eexists _, _, _. split; [done|]. split; [done|]. split; [|split; [done|split]].
    + rewrite <- Hu. unfold used. set_solver.
    + intros x. by rewrite Hu2, Hu.
    + intros x [Hx Hxf]. by apply Hm.
  - destruct (alloc_free_ok _ _ _ Hp) as (n & Hn & Hh & Hp2 & Hu2).
    rewrite decide_False by congruence. cbn [mbind option_bind]. rewrite Hh.
    cbn [mbind option_bind]. rewrite Hn. cbn [mbind option_bind].
    eexists _, _, _. split; [done|]. split; [done|]. split; [|split; [done|split]].
    + unfold used. set_solver.
    + done.
    + done.
Qed.

(** [reset_all] puts every node of the pool back on the free list. *)
Lemma relink_blocks p n :
  1 <= chunk_ p -> (forall a, is_Some (mem p !! a) <-> 0 <= a < chunks_ p * chunk_ p) ->
  Z.of_nat n <= chunks_ p ->
  exists p' free', iterM (fun k p => relink (k * chunk_ p) p) (seqZ 0 (Z.of_nat n))
      (p <| free_head_ := None |>) = Some p' /\
    chunk_ p' = chunk_ p /\ chunks_ p' = chunks_ p /\
    chain (mem p') (free_head_ p') free' /\ NoDup free' /\
    (forall x, is_Some (mem p' !! x) <-> is_Some (mem p !! x)) /\
    (forall x, x ∈ free' <-> 0 <= x < Z.of_nat n * chunk_ p).
Proof.
  intros Hk Hd. induction n as [|n IH]; intros Hn.
  { cbn. eexists _, []. split; [done|]. cbn. split; [done|]. split; [done|]. split; [done|].
    split; [by apply list.NoDup_nil|]. split; [done|]. intros x. rewrite elem_of_nil. lia. }
  destruct IH as (p1 & free1 & H1 & Hc & Hcs & Hch & Hnd & Hdom & Hin); [lia|].
  rewrite Nat2Z.inj_succ, <- Z.add_1_r, seqZ_app by lia. cbn [Z.add].
  rewrite (iterM_app _ _ _ _ _ H1), seqZ_cons, seqZ_nil by lia. cbn [iterM]. rewrite Z.add_0_l. unfold relink.
  destruct (relink_chain (Z.of_nat n * chunk_ p1) (seqZ 0 (chunk_ p1)) p1 free1)
    as (p2 & H2 & Hc2 & Hnd2 & Hk2 & Hks2 & Hd2 & _).
  - done.
  - done.
  - apply NoDup_seqZ.
  - intros i Hi%elem_of_seqZ. rewrite Hdom, Hd, Hin, Hc in *. nia.
  - rewrite H2. cbn [mbind option_bind].
    eexists _, _. split; [done|]. split; [congruence|]. split; [congruence|].
    split; [done|]. split; [done|]. split.
    + intros x. by rewrite Hd2.
    + intros x. rewrite elem_of_app, elem_of_reverse, Hin, list_elem_of_fmap, Hc. split.
      * intros [(i & -> & Hi%elem_of_seqZ)|]; nia.
      * intros Hx. destruct (decide (x < Z.of_nat n * chunk_ p)); [right; lia|left].
        exists (x - Z.of_nat n * chunk_ p). rewrite elem_of_seqZ. nia.
Qed.

Lemma reset_all_ok p free :
  pool_ok p free ->
  exists p' free', reset_all p = Some p' /\ pool_ok p' free' /\ chunk_ p' = chunk_ p /\
    chunks_ p' = chunks_ p /\ forall x, ~ used p' free' x.
Proof.
  intros [Hk Hks Hd _ _]. unfold reset_all.
  destruct (relink_blocks p (Z.to_nat (chunks_ p)) Hk Hd)
    as (p' & free' & H1 & Hc & Hcs & Hch & Hnd & Hdom & Hin); [lia|].
  rewrite Z2Nat.id in * by done. rewrite H1. eexists _, _. split; [done|].
  split; [split|split; [|split]].
  - by rewrite Hc.
  - by rewrite Hcs.
  - intros a. by rewrite Hdom, Hd, Hc, Hcs.
  - done.
  - done.
  - done.
  - done.
  - intros x [Hx Hf]. by rewrite Hdom, Hd, <- Hin in Hx.
Qed.

Lemma pool_new_ok chunk : 0 <= chunk -> pool_ok (pool_new chunk) [].
Proof.
  intros Hc. unfold pool_new. split; cbn.
  - case_decide; lia.
  - done.
  - intros a. rewrite lookup_empty. split; [by intros []|]. case_decide; lia.
  - done.
  - by apply list.NoDup_nil.
Qed.

(** ** Lemmas: doubly-linked segments *)

Lemma last_or_app pv l1 l2 : last_or pv (l1 ++ l2) = last_or (last_or pv l1) l2.
Proof. revert pv. induction l1; cbn; auto. Qed.

Lemma first_or_app l1 l2 nx : first_or (l1 ++ l2) nx = first_or l1 (first_or l2 nx).
Proof. by destruct l1. Qed.

Lemma last_or_in pv l t : last_or pv l = Some t -> t ∈ l \/ pv = Some t.
Proof.
  revert pv. induction l as [|a l IH]; cbn; intros pv H; [by right|].
  left. destruct (IH _ H) as [|[= ->]]; set_solver.
Qed.

Lemma last_or_None pv l : last_or pv l = None -> l = [] /\ pv = None.
Proof.
  revert pv. induction l as [|a l IH]; cbn; intros pv H; [done|].
  by destruct (IH _ H).
Qed.

Lemma last_or_Some pv l t :
  last_or pv l = Some t -> (l = [] /\ pv = Some t) \/ exists l', l = l' ++ [t].
Proof.
  destruct l as [|x l] using rev_ind; cbn; [by left|].
  rewrite last_or_app. cbn. intros [= ->]. eauto.
Qed.

Lemma dseg_app m pv l1 l2 nx :
  dseg m pv (l1 ++ l2) nx <-> dseg m pv l1 (first_or l2 nx) /\ dseg m (last_or pv l1) l2 nx.
Proof.
  revert pv. induction l1 as [|a l1 IH]; intros pv; cbn [app dseg last_or]; [tauto|].
  rewrite first_or_app. split.
  - intros (o & ? & ? & ? & [? ?]%IH). split; [|done]. exists o. auto.
  - intros [(o & ? & ? & ? & ?) ?]. exists o. rewrite IH. auto.
Qed.

Lemma dseg_frame m m' pv l nx :
  (forall a, a ∈ l -> m' !! a = m !! a) -> dseg m pv l nx -> dseg m' pv l nx.
Proof.
  revert pv. induction l as [|a l IH]; cbn [dseg]; intros pv Hm; [done|].
  intros (o & Ho & ? & ? & Hd). exists o. rewrite Hm by set_solver.
  repeat split; [done..|]. apply IH; [|done]. set_solver.
Qed.

Lemma dseg_lookup m pv l nx a : dseg m pv l nx -> a ∈ l -> is_Some (m !! a).
Proof.
  revert pv. induction l as [|b l IH]; cbn [dseg]; intros pv; [set_solver|].
  intros (o & Ho & _ & _ & Hd) [->|Hin]%elem_of_cons; eauto.
Qed.

Lemma relinked_refl l m : relinked l m m.
Proof. by split. Qed.

Lemma relinked_trans l m1 m2 m3 : relinked l m1 m2 -> relinked l m2 m3 -> relinked l m1 m3.
Proof.
  intros H1 H2 a. destruct (H1 a) as [E1 F1], (H2 a) as [E2 F2].
  split; [congruence|]. intros Ha. rewrite F2, F1; done.
Qed.

Lemma relinked_store l m a o o' :
  m !! a = Some o -> pay o' = pay o -> a ∈ l -> relinked l m (<[a := o']> m).
Proof.
  intros Ha Hp Hl b. rewrite lookup_insert. case_decide as Hb; subst.
  - split; [by rewrite Ha; cbn; rewrite Hp|]. done.
  - done.
Qed.

Lemma relinked_dom l m m' a : relinked l m m' -> is_Some (m' !! a) <-> is_Some (m !! a).
Proof.
  intros H. destruct (H a) as [E _].
  by rewrite <- (fmap_is_Some pay (m' !! a)), E, fmap_is_Some.
Qed.

(** The last node of a segment gets a new successor. *)
Lemma dseg_set_next m pv l a nx b o :
  dseg m pv (l ++ [a]) nx -> m !! a = Some o -> a ∉ l ->
  dseg (<[a := o <| o_next := Some b |>]> m) pv (l ++ [a]) (Some b).
Proof.
  intros (Hl & o' & Ho' & Hp & _)%dseg_app Ho Ha. simplify_eq. apply dseg_app. split.
  - eapply dseg_frame; [|exact Hl]. intros x Hx. rewrite lookup_insert_ne; [done|]. by intros ->.
  - cbn. eexists. rewrite lookup_insert_eq. done.
Qed.

(** [link_back] appends to the list of a level. *)
Lemma link_back_ok m lvl l o n :
  links_ok m lvl l -> NoDup l -> o ∉ l -> m !! o = Some n ->
  exists m' lvl', link_back m lvl o = Some (m', lvl') /\ links_ok m' lvl' (l ++ [o]) /\
    relinked (l ++ [o]) m m' /\
    lvl' = lvl <| lv_head := first_or (l ++ [o]) None |> <| lv_tail := Some o |>.
Proof.
  intros (Hd & Hh & Ht) Hnd Ho Hn. unfold link_back.
  rewrite (store_at _ _ _ _ Hn). cbn [mbind option_bind].
  rewrite (store_at _ _ _ _ (lookup_insert_eq _ _ _)), insert_insert_eq. cbn [mbind option_bind].
  set (n' := _ <| o_next := None |>).
  assert (relinked (l ++ [o]) m (<[o := n']> m)) as R1
    by (eapply relinked_store; [done..|set_solver]).
  destruct (lv_tail lvl) as [t|] eqn:Htl.
  - destruct (last_or_Some None l t) as [[_ ?]|[l' ->]]; [done|done|].
    apply list.NoDup_app in Hnd as (_ & Hn1 & _).
    assert (t ∉ l' /\ o <> t /\ o ∉ l') as (Ht' & Hot & Hol) by set_solver.
    assert (is_Some (m !! t)) as [nt Hnt] by (eapply dseg_lookup; [done|set_solver]).
    assert (<[o := n']> m !! t = Some nt) as Hnt' by by rewrite lookup_insert_ne.
    rewrite (store_at _ _ _ _ Hnt'). cbn [mbind option_bind].
    eexists _, _. split; [done|]. split; [split; [|split]|split].
    + apply dseg_app. split.
      * cbn [first_or]. eapply dseg_set_next; [|done|done].
        eapply dseg_frame; [|exact Hd]. intros x Hx. rewrite lookup_insert_ne; [done|].
        intros <-. done.
      * cbn. exists n'. rewrite lookup_insert_ne, lookup_insert_eq by done.
        rewrite last_or_app. cbn. unfold n'. cbn. done.
    + cbn. rewrite Hh. by destruct l'.
    + cbn. by rewrite last_or_app.
    + eapply relinked_trans; [done|]. eapply relinked_store; [done..|set_solver].
    + destruct lvl. cbn in *. rewrite Hh. by destruct l'.
  - destruct (last_or_None None l) as [-> _]; [done|]. cbn [app] in *.
    eexists _, _. split; [done|]. split; [split; [|split]|split]; [|done..].
    cbn. exists n'. rewrite lookup_insert_eq. unfold n'. cbn. done.
Qed.

(** The predecessor (or the head) skips the node [n] at the end of [l1]. *)
Lemma skip_next m lvl l1 n nx :
  dseg m None l1 nx -> NoDup l1 -> o_prev n = last_or None l1 -> lv_head lvl = first_or l1 nx ->
  exists m1 lvl1,
    match o_prev n with
    | Some p => m ← store p (fun x => x <| o_next := o_next n |>) m; Some (m, lvl)
    | None => Some (m, lvl <| lv_head := o_next n |>)
    end = Some (m1, lvl1) /\ dseg m1 None l1 (o_next n) /\ relinked l1 m m1 /\
    lvl1 = lvl <| lv_head := first_or l1 (o_next n) |>.
Proof.
  intros Hd Hnd Hp Hh. rewrite Hp. destruct (last_or None l1) as [p|] eqn:Hl.
  - destruct (last_or_Some None l1 p Hl) as [[_ ?]|[l' ->]]; [done|].
    assert (is_Some (m !! p)) as [np Hnp] by (eapply dseg_lookup; [exact Hd|]; by apply elem_of_app; right; left).
    rewrite (store_at _ _ _ _ Hnp). cbn [mbind option_bind].
    eexists _, _. split; [done|]. split; [|split].
    + apply list.NoDup_app in Hnd as (_ & Hnp' & _).
      assert (p ∉ l') as Hpl by (intros ?; eapply Hnp'; [done|by left]).
      apply dseg_app in Hd as (Hda & np' & Hnp2 & Hpp & _). simplify_eq.
      apply dseg_app. split; [|cbn; eexists; by rewrite lookup_insert_eq].
      eapply dseg_frame; [|exact Hda]. intros x Hxx. rewrite lookup_insert_ne; [done|].
      by intros ->.
    + eapply relinked_store; [done..|]. by apply elem_of_app; right; left.
    + destruct lvl. cbn in *. rewrite Hh. by destruct l'.
  - destruct (last_or_None None l1 Hl) as [-> _]. eexists _, _. split; [done|].
    split; [done|]. split; [apply relinked_refl|]. done.
Qed.

(** [unlink] removes a node from the list of a level, wherever it is in it. *)
Lemma unlink_ok m lvl l1 o l2 :
  links_ok m lvl (l1 ++ o :: l2) -> NoDup (l1 ++ o :: l2) ->
  exists m' lvl', unlink m lvl o = Some (m', lvl') /\ links_ok m' lvl' (l1 ++ l2) /\
    relinked (l1 ++ l2) m m' /\
    lvl' = lvl <| lv_head := first_or (l1 ++ l2) None |> <| lv_tail := last_or None (l1 ++ l2) |>.
Proof.
  intros (Hd & Hh & Ht) Hnd.
  apply dseg_app in Hd as (Hd1 & n & Hn & Hp & Hx & Hd2).
  apply list.NoDup_app in Hnd as (Hnd1 & Hn1 & [Ho2 Hnd2]%list.NoDup_cons).
  assert (o ∉ l1 /\ forall x, x ∈ l1 -> x ∉ l2) as (Ho1 & Hdis) by set_solver. clear Hn1.
  unfold unlink. rewrite Hn. cbn [mbind option_bind].
  destruct (skip_next m lvl l1 n (Some o) Hd1 Hnd1 Hp) as (m1 & lvl1 & -> & Hs1 & R1 & E1).
  { rewrite Hh. by destruct l1. }
  rewrite Hx in Hs1, E1.
  assert (lvl1 = lvl <| lv_head := first_or (l1 ++ l2) None |>) as E1'
    by (rewrite E1; by destruct l1).
  clear E1. rename E1' into E1.
  cbn [mbind option_bind]. destruct (R1 o) as [_ Eo]. rewrite (Eo Ho1), Hn.
  cbn [mbind option_bind]. rewrite Hx.
  assert (dseg m1 (Some o) l2 None) as Hd2'.
  { eapply dseg_frame; [|exact Hd2]. intros x Hx2. destruct (R1 x) as [_ E]. apply E.
    intros Hx1. by eapply Hdis. }
  destruct l2 as [|q l2]; cbn [first_or].
  - eexists _, _. split; [done|]. rewrite !app_nil_r in *. split; [split; [|split]|split].
    + done.
    + by subst lvl1.
    + cbn. by rewrite Hp.
    + done.
    + subst lvl1. destruct lvl. cbn. by rewrite Hp.
  - cbn [dseg] in Hd2'. destruct Hd2' as (nq & Hnq & Hpq & Hxq & Hd2').
    rewrite (store_at _ _ _ _ Hnq). cbn [mbind option_bind].
    apply list.NoDup_cons in Hnd2 as [Hq2 Hnd2].
    eexists _, _. split; [done|]. split; [split; [|split]|split].
    + apply dseg_app. split.
      * eapply dseg_frame; [|exact Hs1]. intros x Hx1. rewrite lookup_insert_ne; [done|].
        intros <-. eapply Hdis; [done|by left].
      * cbn [dseg]. eexists. rewrite lookup_insert_eq. split; [done|]. cbn.
        split; [done|]. split; [done|]. eapply dseg_frame; [|exact Hd2'].
        intros x Hx2. rewrite lookup_insert_ne; [done|]. by intros <-.
    + by subst lvl1.
    + subst lvl1. cbn. rewrite Ht, !last_or_app. done.
    + eapply relinked_trans.
      * intros x. destruct (R1 x) as [E F]. split; [exact E|]. intros Hni. apply F.
        intros ?. by apply Hni, elem_of_app; left.
      * eapply relinked_store; [done..|]. apply elem_of_app. right. by left.
    + subst lvl1. destruct lvl. cbn in *. by rewrite Ht, !last_or_app.
Qed.
