(* ===== verification/OrderBook.v ===== *)
(** * The tick-indexed limit order book

    [src/order_book.cpp]: every operation of [OrderBook], on the heap of
    [OrderPool].  An operation returns [None] where the source would dereference
    a dangling or null pointer or index [levels_] out of range.

    - [on_add], [remove_order], [reduce_order], [apply]: the order-by-order path;
    - [set_level], [observe_event_boundary]: the aggregated (L2) path;
    - [best_bid], [best_ask], [depth_bids], [depth_asks], [is_crossed],
      [spread_ticks]: the read side; [reset]. *)

From stdpp Require Import base list gmap numbers.
From S2P Require Import Prelude MarketEvent OrderPool.

(** A view of one level, returned by the read side. *)
Record BookLevel := mkBookLevel {
  bl_price_ticks : Z;
  bl_aggregate_size : Z;
  bl_order_count : Z;
  valid : bool }.

#[export] Instance BookLevel_eq_dec : EqDecision BookLevel.
Proof. solve_decision. Defined.

Definition no_level : BookLevel := mkBookLevel 0 0 0 false.

Record OrderBookConfig := mkConfig {
  min_price_ticks : Z;
  max_price_ticks : Z;
  tick : Z;
  pool_chunk : Z }.

Definition default_config : OrderBookConfig := mkConfig 1 2000000 1 (2 ^ 16).

Record OrderBookStats := mkStats {
  applied : Z; adds : Z; cancels : Z; deletes : Z; executes : Z; replaces : Z; trades : Z;
  rejected_out_of_band : Z; unknown_ref : Z; crossed_observed : Z }.

#[export] Instance OrderBookStats_eq_dec : EqDecision OrderBookStats.
Proof. solve_decision. Defined.

#[export] Instance OrderBookStats_settable : Settable OrderBookStats := fun s =>
  mkStats (applied s) (adds s) (cancels s) (deletes s) (executes s) (replaces s) (trades s)
    (rejected_out_of_band s) (unknown_ref s) (crossed_observed s).

Definition stats0 : OrderBookStats := mkStats 0 0 0 0 0 0 0 0 0 0.

Record OrderBook := mkBook {
  cfg_ : OrderBookConfig;
  levels_ : list PriceLevel;
  index_ : gmap Z ptr;
  pool_ : OrderPool;
  best_bid_idx_ : Z;
  best_ask_idx_ : Z;
  live_orders_ : Z;
  stats_ : OrderBookStats;
  crossed_at_last_boundary_ : bool }.

#[export] Instance OrderBook_settable : Settable OrderBook := fun b =>
  mkBook (cfg_ b) (levels_ b) (index_ b) (pool_ b) (best_bid_idx_ b) (best_ask_idx_ b)
    (live_orders_ b) (stats_ b) (crossed_at_last_boundary_ b).

(** [++counter] and [--counter] on 64-bit counters. *)
Definition inc (n : Z) : Z := u64 (n + 1).
Definition dec (n : Z) : Z := u64 (n - 1).

(** [++stats_.m]. *)
Notation "b ++ₛ m" := (b <| stats_ ::= fun s => s <| m ::= inc |> |>)
  (at level 12, left associativity, m at level 9) : fh_scope.

(** ** Construction *)

(** The clamping of the configuration in the constructor. *)
Definition clamp_config (c : OrderBookConfig) : OrderBookConfig :=
  let t := if decide (tick c < 1) then 1 else tick c in
  let mx := if decide (max_price_ticks c < min_price_ticks c)
            then min_price_ticks c else max_price_ticks c in
  mkConfig (min_price_ticks c) mx t (pool_chunk c).

Definition num_levels (c : OrderBookConfig) : Z :=
  Z.quot (max_price_ticks c - min_price_ticks c) (tick c) + 1.

Definition OrderBook_new (c : OrderBookConfig) : OrderBook :=
  let c' := clamp_config c in
  mkBook c' (replicate (Z.to_nat (num_levels c')) level0) ∅ (pool_new (pool_chunk c))
    (-1) (-1) 0 stats0 false.

(** ** Prices and slots *)

Definition to_index (c : OrderBookConfig) (price : Z) : Z :=
  if decide (price < min_price_ticks c \/ price > max_price_ticks c) then -1
  else Z.quot (price - min_price_ticks c) (tick c).

Definition to_price (c : OrderBookConfig) (index : Z) : Z :=
  min_price_ticks c + index * tick c.

(** ** Best-price maintenance *)

(** [levels_[i].order_count > 0 && levels_[i].side == s]. *)
Definition populated (s : Side) (l : PriceLevel) : bool :=
  bool_decide (order_count l > 0) && bool_decide (lv_side l = s).

(** The loop of [rescan_best_bid_from(n - 1)]: slots [n - 1] down to [0]. *)
Fixpoint scan_bid (ls : list PriceLevel) (n : nat) : option Z :=
  match n with
  | O => Some (-1)
  | S i => l ← ls.[Z.of_nat i];
      if populated Buy l then Some (Z.of_nat i) else scan_bid ls i
  end.

(** The loop of [rescan_best_ask_from(i)]: [n] slots from [i] upwards. *)
Fixpoint scan_ask (ls : list PriceLevel) (n : nat) (i : Z) : option Z :=
  match n with
  | O => Some (-1)
  | S n => l ← ls.[i];
      if populated Sell l then Some i else scan_ask ls n (i + 1)
  end.

Definition rescan_best_bid_from (idx : Z) (b : OrderBook) : option OrderBook :=
  i ← scan_bid (levels_ b) (Z.to_nat (idx + 1));
  Some (b <| best_bid_idx_ := i |>).

Definition rescan_best_ask_from (idx : Z) (b : OrderBook) : option OrderBook :=
  i ← scan_ask (levels_ b) (Z.to_nat (Z.of_nat (length (levels_ b)) - idx)) idx;
  Some (b <| best_ask_idx_ := i |>).

(** The improvement of the best price when size appears at slot [idx]. *)
Definition improve_best (s : Side) (idx : Z) (b : OrderBook) : OrderBook :=
  match s with
  | Buy => if decide (best_bid_idx_ b < 0 \/ idx > best_bid_idx_ b)
           then b <| best_bid_idx_ := idx |> else b
  | Sell => if decide (best_ask_idx_ b < 0 \/ idx < best_ask_idx_ b)
            then b <| best_ask_idx_ := idx |> else b
  | SideNone => b
  end.

(** The rescan when the level of side [s] at slot [idx] has gone. *)
Definition retreat_best (s : Side) (idx : Z) (b : OrderBook) : option OrderBook :=
  if decide (s = Buy /\ idx = best_bid_idx_ b) then rescan_best_bid_from (idx - 1) b
  else if decide (s = Sell /\ idx = best_ask_idx_ b) then rescan_best_ask_from (idx + 1) b
  else Some b.

(** ** The order-by-order path *)

Definition on_add (ev : MarketEvent) (b : OrderBook) : option OrderBook :=
  let idx := to_index (cfg_ b) (ev_price_ticks ev) in
  if decide (idx < 0) then Some (b ++ₛ rejected_out_of_band) else
  if decide (is_Some (index_ b !! ev_order_ref ev)) then Some b else
  '(o, pool) ← alloc (pool_ b);
  m ← store o (fun _ => mkOrder (ev_order_ref ev) (ev_price_ticks ev) (ev_size ev) (u32 idx)
                 (ev_side ev) None None) (mem pool);
  lvl ← (levels_ b).[idx];
  let lvl := if decide (order_count lvl = 0) then lvl <| lv_side := ev_side ev |> else lvl in
  '(m, lvl) ← link_back m lvl o;
  let lvl := lvl <| aggregate_size ::= fun a => u64 (a + ev_size ev) |>
                 <| order_count ::= fun n => u32 (n + 1) |> in
  ls ← (levels_ b).[idx := lvl];
  Some (improve_best (ev_side ev) idx
    (b <| levels_ := ls |> <| pool_ := pool <| mem := m |> |>
       <| index_ ::= <[ev_order_ref ev := o]> |> <| live_orders_ ::= inc |>)).

Definition remove_order (o : ptr) (b : OrderBook) : option OrderBook :=
  n ← mem (pool_ b) !! o;
  let idx := o_level_idx n in
  lvl ← (levels_ b).[idx];
  let s := o_side n in
  '(m, lvl) ← unlink (mem (pool_ b)) lvl o;
  n ← m !! o;
  let lvl := lvl <| aggregate_size ::= fun a => u64 (a - o_size n) |>
                 <| order_count ::= fun c => u32 (c - 1) |> in
  pool ← release o (pool_ b <| mem := m |>);
  let b := b <| index_ ::= delete (o_order_ref n) |> <| pool_ := pool |>
             <| live_orders_ ::= dec |> in
  if decide (order_count lvl = 0) then
    ls ← (levels_ b).[idx := lvl <| lv_side := SideNone |> <| aggregate_size := 0 |>];
    retreat_best s idx (b <| levels_ := ls |>)
  else
    ls ← (levels_ b).[idx := lvl];
    Some (b <| levels_ := ls |>).

Definition reduce_order (o : ptr) (shares : Z) (b : OrderBook) : option OrderBook :=
  n ← mem (pool_ b) !! o;
  let d := Z.min shares (o_size n) in
  lvl ← (levels_ b).[o_level_idx n];
  ls ← (levels_ b).[o_level_idx n := lvl <| aggregate_size ::= fun a => u64 (a - d) |>];
  m ← store o (fun n => n <| o_size ::= fun s => u32 (s - d) |>) (mem (pool_ b));
  let b := b <| levels_ := ls |> <| pool_ ::= fun p => p <| mem := m |> |> in
  n ← m !! o;
  if decide (o_size n = 0) then remove_order o b else Some b.

Definition is_crossed (b : OrderBook) : bool :=
  bool_decide (best_bid_idx_ b >= 0) && bool_decide (best_ask_idx_ b >= 0) &&
  bool_decide (best_bid_idx_ b >= best_ask_idx_ b).

Definition note_crossed (b : OrderBook) : OrderBook :=
  if is_crossed b then b ++ₛ crossed_observed else b.

Definition observe_event_boundary (b : OrderBook) : OrderBook :=
  let crossed := is_crossed b in
  let b := if crossed && negb (crossed_at_last_boundary_ b) then b ++ₛ crossed_observed else b in
  b <| crossed_at_last_boundary_ := crossed |>.

(** [auto it = index_.find(ref); if (it == end) { ++unknown_ref; break; } k(it->second)]. *)
Definition with_ref (ref : Z) (k : ptr -> OrderBook -> option OrderBook) (b : OrderBook)
    : option OrderBook :=
  match index_ b !! ref with
  | None => Some (b ++ₛ unknown_ref)
  | Some o => k o b
  end.

(** The replace path: cancel the original, add the new order at its side. *)
Definition replace_order (ev : MarketEvent) (o : ptr) (b : OrderBook) : option OrderBook :=
  n ← mem (pool_ b) !! o;
  let s := o_side n in
  b ← remove_order o b;
  on_add (ev <| ev_type := Add |> <| ev_order_ref := ev_new_order_ref ev |> <| ev_side := s |>) b.

(** The [switch (ev.type)] of [apply]. *)
Definition dispatch (ev : MarketEvent) (b : OrderBook) : option OrderBook :=
  match ev_type ev with
  | Add => on_add ev (b ++ₛ adds)
  | Cancel => with_ref (ev_order_ref ev) (fun o => reduce_order o (ev_size ev)) (b ++ₛ cancels)
  | Execute | ExecuteWithPrice =>
      with_ref (ev_order_ref ev) (fun o => reduce_order o (ev_size ev)) (b ++ₛ executes)
  | Delete => with_ref (ev_order_ref ev) remove_order (b ++ₛ deletes)
  | Replace => with_ref (ev_order_ref ev) (replace_order ev) (b ++ₛ replaces)
  | Trade => Some (b ++ₛ trades)
  | SystemEvent | Unknown | L2SetLevel | L2EventHeader => Some b
  end.

Definition apply (ev : MarketEvent) (b : OrderBook) : option OrderBook :=
  b ← dispatch ev b;
  Some (note_crossed (b ++ₛ applied)).

(** ** The aggregated path *)

Definition set_level (sd : Side) (price total_size : Z) (b : OrderBook) : option OrderBook :=
  let idx := to_index (cfg_ b) price in
  if decide (idx < 0) then Some (b ++ₛ rejected_out_of_band ++ₛ applied) else
  lvl ← (levels_ b).[idx];
  if decide (total_size = 0) then
    b ← (if decide (order_count lvl > 0) then
           ls ← (levels_ b).[idx := lvl <| aggregate_size := 0 |> <| order_count := 0 |>
                                        <| lv_side := SideNone |>];
           retreat_best (lv_side lvl) idx (b <| levels_ := ls |> <| live_orders_ ::= dec |>)
         else Some b);
    Some (b ++ₛ deletes ++ₛ applied)
  else
    b ← (if decide (order_count lvl = 0) then
           ls ← (levels_ b).[idx := lvl <| lv_side := sd |> <| order_count := 1 |>
                                        <| aggregate_size := total_size |>];
           Some (b <| levels_ := ls |> <| live_orders_ ::= inc |>)
         else if decide (lv_side lvl = sd) then
           ls ← (levels_ b).[idx := lvl <| aggregate_size := total_size |>];
           Some (b <| levels_ := ls |>)
         else
           ls ← (levels_ b).[idx := lvl <| lv_side := sd |> <| aggregate_size := total_size |>];
           retreat_best (lv_side lvl) idx (b <| levels_ := ls |>));
    Some (improve_best sd idx b ++ₛ adds ++ₛ applied).

(** ** The read side *)

Definition level_view (b : OrderBook) (i : Z) (l : PriceLevel) : BookLevel :=
  mkBookLevel (to_price (cfg_ b) i) (aggregate_size l) (order_count l) true.

Definition best_bid (b : OrderBook) : option BookLevel :=
  if decide (best_bid_idx_ b < 0) then Some no_level else
  l ← (levels_ b).[best_bid_idx_ b];
  Some (level_view b (best_bid_idx_ b) l).

Definition best_ask (b : OrderBook) : option BookLevel :=
  if decide (best_ask_idx_ b < 0) then Some no_level else
  l ← (levels_ b).[best_ask_idx_ b];
  Some (level_view b (best_ask_idx_ b) l).

(** [depth_bids]: slots [k - 1] down to [0], at most [n] levels written. *)
Fixpoint depth_down (b : OrderBook) (k : nat) (n : nat) : option (list BookLevel) :=
  match k, n with
  | O, _ | _, O => Some []
  | S i, S n' =>
      l ← (levels_ b).[Z.of_nat i];
      if populated Buy l
      then r ← depth_down b i n'; Some (level_view b (Z.of_nat i) l :: r)
      else depth_down b i n
  end.

Definition depth_bids (b : OrderBook) (n : nat) : option (list BookLevel) :=
  depth_down b (Z.to_nat (best_bid_idx_ b + 1)) n.

(** [depth_asks]: [k] slots from [i] upwards, at most [n] levels written. *)
Fixpoint depth_up (b : OrderBook) (k : nat) (i : Z) (n : nat) : option (list BookLevel) :=
  match k, n with
  | O, _ | _, O => Some []
  | S k, S n' =>
      l ← (levels_ b).[i];
      if populated Sell l
      then r ← depth_up b k (i + 1) n'; Some (level_view b i l :: r)
      else depth_up b k (i + 1) n
  end.

Definition depth_asks (b : OrderBook) (n : nat) : option (list BookLevel) :=
  if decide (best_ask_idx_ b < 0) then Some [] else
  depth_up b (Z.to_nat (Z.of_nat (length (levels_ b)) - best_ask_idx_ b)) (best_ask_idx_ b) n.

Definition spread_ticks (b : OrderBook) : Z :=
  if decide (best_bid_idx_ b < 0 \/ best_ask_idx_ b < 0) then -1
  else to_price (cfg_ b) (best_ask_idx_ b) - to_price (cfg_ b) (best_bid_idx_ b).

Definition reset (b : OrderBook) : option OrderBook :=
  pool ← reset_all (pool_ b);
  Some (b <| index_ := ∅ |> <| levels_ := replicate (length (levels_ b)) level0 |>
          <| pool_ := pool |> <| best_bid_idx_ := -1 |> <| best_ask_idx_ := -1 |>
          <| live_orders_ := 0 |> <| crossed_at_last_boundary_ := false |>).

(** Applying a sequence of events. *)
Definition apply_all (evs : list MarketEvent) (b : OrderBook) : option OrderBook :=
  iterM apply evs b.

(** ** Concrete runs *)

Definition small_config : OrderBookConfig := mkConfig 100 110 1 2.

Definition ev_add (ref : Z) (s : Side) (px sz : Z) : MarketEvent :=
  event0 <| ev_type := Add |> <| ev_order_ref := ref |> <| ev_side := s |>
    <| ev_price_ticks := px |> <| ev_size := sz |>.
Definition ev_exec (ref sz : Z) : MarketEvent :=
  event0 <| ev_type := Execute |> <| ev_order_ref := ref |> <| ev_size := sz |>.
Definition ev_del (ref : Z) : MarketEvent :=
  event0 <| ev_type := Delete |> <| ev_order_ref := ref |>.
Definition ev_repl (ref neu px sz : Z) : MarketEvent :=
  event0 <| ev_type := Replace |> <| ev_order_ref := ref |> <| ev_new_order_ref := neu |>
    <| ev_price_ticks := px |> <| ev_size := sz |>.

Example run_best :
  (b ← apply_all [ev_add 1 Buy 103 50; ev_add 2 Buy 104 10; ev_add 3 Buy 104 20;
                  ev_add 4 Sell 106 5; ev_exec 2 10; ev_repl 4 5 107 9]
         (OrderBook_new small_config);
   x ← best_bid b; y ← best_ask b; d ← depth_bids b 5; Some (x, y, d, live_orders_ b, stats_ b))
  = Some (mkBookLevel 104 20 1 true, mkBookLevel 107 9 1 true,
      [mkBookLevel 104 20 1 true; mkBookLevel 103 50 1 true], 3,
      mkStats 6 4 0 0 1 1 0 0 0 0).
Proof. vm_compute. reflexivity. Qed.
