(* ===== verification/BookSpec.v ===== *)
(** * The abstract order book

    What [src/order_book.cpp] promises, without heap, links, index, pool or
    cached prices: a book is a vector with one FIFO queue of orders per tick
    slot (oldest first), and an event is a function on it.

    [OrderBookWf] gives the abstraction function from the concrete state and the
    invariant, [OrderBookRefine] proves that the operations implement this
    specification. *)

From stdpp Require Import base list gmap numbers.
From S2P Require Import Prelude MarketEvent OrderBook.

Record AOrder := mkAOrder {
  a_ref : Z;
  a_price : Z;
  a_size : Z;
  a_side : Side }.

#[export] Instance AOrder_eq_dec : EqDecision AOrder.
Proof. solve_decision. Defined.

#[export] Instance AOrder_settable : Settable AOrder := fun o =>
  mkAOrder (a_ref o) (a_price o) (a_size o) (a_side o).

Abbreviation queues := (list (list AOrder)).

(** The live order with a reference. *)
Definition a_find (ref : Z) (q : list AOrder) : option AOrder :=
  snd <$> list_find (fun o => a_ref o = ref) q.

Definition a_lookup (ref : Z) (ls : queues) : option AOrder := a_find ref (concat ls).

(** Change the order with a reference by [f], or drop it when [f] says so. *)
Definition a_update_queue (f : AOrder -> option AOrder) (ref : Z) (q : list AOrder)
    : list AOrder :=
  omap (fun o => if decide (a_ref o = ref) then f o else Some o) q.

Definition a_update (f : AOrder -> option AOrder) (ref : Z) (ls : queues) : queues :=
  a_update_queue f ref <$> ls.

Definition a_remove : Z -> queues -> queues := a_update (fun _ => None).

Definition a_reduce (shares : Z) : Z -> queues -> queues :=
  a_update (fun o => if decide (a_size o <= shares) then None
                     else Some (o <| a_size ::= fun s => s - shares |>)).

(** A new order joins the back of the queue of its slot; a price outside the
    band or a reference that is already live changes nothing. *)
Definition a_add (c : OrderBookConfig) (o : AOrder) (ls : queues) : queues :=
  let idx := to_index c (a_price o) in
  if decide (idx < 0) then ls else
  if decide (is_Some (a_lookup (a_ref o) ls)) then ls else
  alter (fun q => q ++ [o]) (Z.to_nat idx) ls.

Definition order_of (ev : MarketEvent) : AOrder :=
  mkAOrder (ev_order_ref ev) (ev_price_ticks ev) (ev_size ev) (ev_side ev).

(** The queues after a replace. *)
Definition a_replace (c : OrderBookConfig) (ev : MarketEvent) (ls : queues) : queues :=
  match a_lookup (ev_order_ref ev) ls with
  | None => ls
  | Some o => a_add c (mkAOrder (ev_new_order_ref ev) (ev_price_ticks ev) (ev_size ev) (a_side o))
                (a_remove (ev_order_ref ev) ls)
  end.

(** One event on the queues. *)
Definition a_apply (c : OrderBookConfig) (ev : MarketEvent) (ls : queues) : queues :=
  match ev_type ev with
  | Add => a_add c (order_of ev) ls
  | Cancel | Execute | ExecuteWithPrice => a_reduce (ev_size ev) (ev_order_ref ev) ls
  | Delete => a_remove (ev_order_ref ev) ls
  | Replace => a_replace c ev ls
  | _ => ls
  end.

Definition a_apply_all (c : OrderBookConfig) (evs : list MarketEvent) (ls : queues) : queues :=
  fold_left (fun ls ev => a_apply c ev ls) evs ls.

(** The counters an event moves ([crossed] is whether the book is crossed after it). *)
Definition a_out_of_band (c : OrderBookConfig) (price : Z) : bool :=
  bool_decide (to_index c price < 0).

Definition a_counts (c : OrderBookConfig) (ev : MarketEvent) (ls : queues) (s : OrderBookStats)
    : OrderBookStats :=
  let known := bool_decide (is_Some (a_lookup (ev_order_ref ev) ls)) in
  let miss s := if known then s else s <| unknown_ref ::= inc |> in
  let band s := if a_out_of_band c (ev_price_ticks ev)
                then s <| rejected_out_of_band ::= inc |> else s in
  match ev_type ev with
  | Add => band (s <| adds ::= inc |>)
  | Cancel => miss (s <| cancels ::= inc |>)
  | Execute | ExecuteWithPrice => miss (s <| executes ::= inc |>)
  | Delete => miss (s <| deletes ::= inc |>)
  | Replace => let s := s <| replaces ::= inc |> in
      if known then band s else s <| unknown_ref ::= inc |>
  | Trade => s <| trades ::= inc |>
  | _ => s
  end.

Definition a_stats (c : OrderBookConfig) (ev : MarketEvent) (ls : queues) (crossed : bool)
    (s : OrderBookStats) : OrderBookStats :=
  let s := a_counts c ev ls s <| applied ::= inc |> in
  if crossed then s <| crossed_observed ::= inc |> else s.

(** Number of live orders. *)
Definition a_live (ls : queues) : Z := Z.of_nat (length (concat ls)).

(** Total size of a queue. *)
Definition a_total (q : list AOrder) : Z := foldr (fun o s => a_size o + s) 0 q.

(** No tick slot holds orders of two sides (the feed never locks a price). *)
Definition uniform (ls : queues) : Prop :=
  Forall (fun q => Forall (fun o => Forall (fun o' => a_side o = a_side o') q) q) ls.

#[export] Instance uniform_dec ls : Decision (uniform ls).
Proof. unfold uniform. apply _. Defined.

Lemma uniform_lookup ls i q o o' :
  uniform ls -> ls !! i = Some q -> o ∈ q -> o' ∈ q -> a_side o = a_side o'.
Proof.
  intros H Hi Ho Ho'. unfold uniform in H. rewrite Forall_lookup in H.
  specialize (H i q Hi). rewrite list.Forall_forall in H. specialize (H o Ho).
  rewrite list.Forall_forall in H. auto.
Qed.
