(* ===== verification/OrderBookWf.v ===== *)
(** * The invariant of the order book and its abstraction

    [abs b] reads the queues of a concrete book by walking the intrusive lists.
    [wf b] is the representation invariant: every level's list is a
    well-linked, duplicate-free doubly-linked list of nodes of that slot with
    the cached count and aggregate right, every pool node is on exactly one
    level or on the free list (no leak, no double free, no dangling pointer),
    and the index maps exactly the references of the live nodes to them. *)

From stdpp Require Import base list gmap numbers.
From S2P Require Import Prelude MarketEvent OrderPool OrderBook BookSpec.

(** ** The abstraction *)

Definition view (n : Order) : AOrder :=
  mkAOrder (o_order_ref n) (o_price_ticks n) (o_size n) (o_side n).

(** The queue on the nodes [l] of a heap. *)
Definition view_of (m : heap) (l : list ptr) : list AOrder :=
  omap (fun a => view <$> m !! a) l.

(** At most [n] nodes from [h] along [next]. *)
Fixpoint walk (m : heap) (n : nat) (h : option ptr) : list ptr :=
  match n, h with
  | S n, Some a =>
      a :: match m !! a with Some o => walk m n (o_next o) | None => [] end
  | _, _ => []
  end.

Definition queue (m : heap) (l : PriceLevel) : list AOrder :=
  view_of m (walk m (Z.to_nat (order_count l)) (lv_head l)).

Definition abs (b : OrderBook) : queues := queue (mem (pool_ b)) <$> levels_ b.

(** ** The invariant *)

(** A configuration after [clamp_config], whose band fits the 32-bit [level_idx]. *)
Record cfg_ok (c : OrderBookConfig) : Prop := {
  cfg_tick : 1 <= tick c;
  cfg_band : min_price_ticks c <= max_price_ticks c;
  cfg_span : num_levels c <= 2 ^ 32;
  cfg_chunk : 0 <= pool_chunk c }.

(** A node of slot [i]. *)
Definition node_ok (c : OrderBookConfig) (i : nat) (n : Order) : Prop :=
  o_level_idx n = Z.of_nat i /\ in_u 32 (o_size n) /\ to_index c (o_price_ticks n) = Z.of_nat i.

Record level_ok (m : heap) (c : OrderBookConfig) (i : nat) (lvl : PriceLevel) (l : list ptr)
    : Prop := {
  lo_links : links_ok m lvl l;
  lo_nodup : NoDup l;
  lo_nodes a : a ∈ l -> exists n, m !! a = Some n /\ node_ok c i n;
  lo_count : order_count lvl = Z.of_nat (length l);
  lo_total : aggregate_size lvl = u64 (a_total (view_of m l));
  lo_empty : l = [] -> lv_side lvl = SideNone }.

(** [pss] gives the nodes of every level, [free] the free list. *)
Record wf_with (b : OrderBook) (pss : list (list ptr)) (free : list ptr) : Prop := {
  wf_cfg : cfg_ok (cfg_ b);
  wf_len : Z.of_nat (length (levels_ b)) = num_levels (cfg_ b);
  wf_pss : length pss = length (levels_ b);
  wf_level i lvl l : levels_ b !! i = Some lvl -> pss !! i = Some l ->
    level_ok (mem (pool_ b)) (cfg_ b) i lvl l;
  wf_pool : pool_ok (pool_ b) free;
  wf_used a : used (pool_ b) free a <-> exists i l, pss !! i = Some l /\ a ∈ l;
  wf_index ref a : index_ b !! ref = Some a <->
    exists i l n, pss !! i = Some l /\ a ∈ l /\ mem (pool_ b) !! a = Some n /\ o_order_ref n = ref;
  wf_live : live_orders_ b = Z.of_nat (length (concat pss));
  wf_live_bound : live_orders_ b < 2 ^ 32 }.

Definition wf (b : OrderBook) : Prop := exists pss free, wf_with b pss free.

(** ** Lemmas: slots *)

Lemma num_levels_pos c : cfg_ok c -> 1 <= num_levels c.
Proof.
  intros []. unfold num_levels.
  enough (0 <= Z.quot (max_price_ticks c - min_price_ticks c) (tick c)) by lia.
  apply Z.quot_pos; lia.
Qed.

Lemma to_index_range c p : cfg_ok c -> -1 <= to_index c p < num_levels c.
Proof.
  intros Hc. pose proof (num_levels_pos c Hc). destruct Hc. unfold to_index, num_levels in *.
  case_decide; [lia|].
  rewrite !Z.quot_div_nonneg in * by lia.
  assert (0 <= (p - min_price_ticks c) / tick c) by (apply Z.div_pos; lia).
  assert ((p - min_price_ticks c) / tick c <= (max_price_ticks c - min_price_ticks c) / tick c)
    by (apply Z.div_le_mono; lia).
  lia.
Qed.

Lemma clamp_config_ok c :
  0 <= pool_chunk c -> num_levels (clamp_config c) <= 2 ^ 32 -> cfg_ok (clamp_config c).
Proof.
  intros Hp Hn. split; [| |done|done]; unfold clamp_config; cbn; repeat case_decide; lia.
Qed.

(** With one tick per slot, slots and prices are in bijection. *)
Lemma to_price_to_index c p :
  tick c = 1 -> 0 <= to_index c p -> to_price c (to_index c p) = p.
Proof.
  intros Ht. unfold to_price, to_index. case_decide; [lia|]. rewrite Ht, Z.quot_1_r. lia.
Qed.

(** ** Lemmas: views *)

Lemma view_of_app m l1 l2 : view_of m (l1 ++ l2) = view_of m l1 ++ view_of m l2.
Proof. apply omap_app. Qed.

Lemma view_of_cons m a l n : m !! a = Some n -> view_of m (a :: l) = view n :: view_of m l.
Proof. intros H. unfold view_of. cbn. by rewrite H. Qed.

Lemma view_pay n n' : pay n = pay n' -> view n = view n'.
Proof. destruct n, n'. unfold pay, view. cbn. by intros [= -> -> -> -> ->]. Qed.

Lemma view_of_frame m m' l :
  (forall a, a ∈ l -> pay <$> m' !! a = pay <$> m !! a) -> view_of m' l = view_of m l.
Proof.
  induction l as [|a l IH]; intros H; [done|]. unfold view_of in *. cbn.
  assert (pay <$> m' !! a = pay <$> m !! a) as Ha by (apply H; by left).
  rewrite IH by (intros; apply H; by right).
  destruct (m' !! a) as [n'|], (m !! a) as [n|]; cbn in *; try done.
  apply (inj Some) in Ha. by rewrite (view_pay n' n).
Qed.

Lemma a_total_app q1 q2 : a_total (q1 ++ q2) = a_total q1 + a_total q2.
Proof. unfold a_total. induction q1; cbn; lia. Qed.

Lemma length_view_of m l :
  (forall a, a ∈ l -> is_Some (m !! a)) -> length (view_of m l) = length l.
Proof.
  induction l as [|a l IH]; intros H; [done|]. destruct (H a) as [n Hn]; [by left|].
  rewrite (view_of_cons _ _ _ _ Hn). cbn. f_equal. apply IH. intros. apply H. by right.
Qed.

Lemma elem_of_view_of m l o :
  o ∈ view_of m l <-> exists a n, a ∈ l /\ m !! a = Some n /\ view n = o.
Proof.
  unfold view_of. rewrite list_elem_of_omap. split.
  - intros (a & Ha & Ho). destruct (m !! a) as [n|] eqn:Hn; [|done]. naive_solver.
  - intros (a & n & Ha & Hn & <-). exists a. by rewrite Hn.
Qed.

(** Walking a well-linked list gives back its nodes. *)
Lemma walk_dseg m pv l : dseg m pv l None -> walk m (length l) (first_or l None) = l.
Proof.
  revert pv. induction l as [|a l IH]; cbn; intros pv; [done|].
  intros (n & Hn & _ & Hx & Hd). rewrite Hn, Hx. f_equal. by eapply IH.
Qed.

Lemma queue_level m c i lvl l : level_ok m c i lvl l -> queue m lvl = view_of m l.
Proof.
  intros [(Hd & Hh & _) _ _ Hc _ _]. unfold queue. rewrite Hc, Nat2Z.id, Hh.
  by rewrite (walk_dseg _ _ _ Hd).
Qed.

(** The queues of a well-formed book, level by level. *)
Lemma abs_views b pss free :
  wf_with b pss free -> abs b = view_of (mem (pool_ b)) <$> pss.
Proof.
  intros H. apply list_eq. intros i. unfold abs. rewrite !list_lookup_fmap.
  destruct (levels_ b !! i) as [lvl|] eqn:Hl, (pss !! i) as [l|] eqn:Hp; cbn.
  - f_equal. eapply queue_level. by eapply wf_level.
  - apply lookup_ge_None in Hp. apply lookup_lt_Some in Hl. pose proof (wf_pss _ _ _ H). lia.
  - apply lookup_ge_None in Hl. apply lookup_lt_Some in Hp. pose proof (wf_pss _ _ _ H). lia.
  - done.
Qed.

(** The count of live orders is that of the queues. *)
Lemma wf_live_abs b : wf b -> live_orders_ b = Z.of_nat (length (concat (abs b))).
Proof.
  intros (pss & free & W). rewrite (wf_live _ _ _ W), (abs_views _ _ _ W). f_equal.
  assert (forall l, l ∈ pss -> length (view_of (mem (pool_ b)) l) = length l) as Hl.
  { intros l [i Hi]%list_elem_of_lookup. destruct (lookup_lt_is_Some_2 (levels_ b) i) as [lvl El].
    { rewrite <- (wf_pss _ _ _ W). by eapply lookup_lt_Some. }
    apply length_view_of. intros a Ha. destruct (lo_nodes _ _ _ _ _ (wf_level _ _ _ W i lvl l El Hi) a Ha) as (n & -> & _).
    by eexists. }
  clear W. induction pss as [|l pss IH]; [done|]. cbn. rewrite !length_app, Hl by by left.
  rewrite IH; [done|]. intros. apply Hl. by right.
Qed.

(** ** Lemmas: rebuilding the invariant after one level changed *)

Lemma length_concat_insert {A} (pss : list (list A)) i l l' :
  pss !! i = Some l ->
  (length (concat (<[i:=l']> pss)) + length l = length (concat pss) + length l')%nat.
Proof.
  revert i. induction pss as [|ps pss IH]; intros [|i] H; [done..| |].
  - cbn in H. simplify_eq. cbn. rewrite !length_app. lia.
  - specialize (IH i H). change (<[S i:=l']> (ps :: pss)) with (ps :: <[i:=l']> pss).
    cbn [concat]. rewrite !length_app. lia.
Qed.

Section Levels.
Context (b : OrderBook) (pss : list (list ptr)) (free : list ptr).
Context (H : wf_with b pss free).

Lemma wf_levels_lookup i l :
  pss !! i = Some l ->
  exists lvl, levels_ b !! i = Some lvl /\ level_ok (mem (pool_ b)) (cfg_ b) i lvl l.
Proof.
  intros Hi. destruct (lookup_lt_is_Some_2 (levels_ b) i) as [lvl Hl].
  { rewrite <- (wf_pss _ _ _ H). by eapply lookup_lt_Some. }
  exists lvl. split; [done|]. by eapply wf_level.
Qed.

Lemma wf_node i l a :
  pss !! i = Some l -> a ∈ l ->
  exists n, mem (pool_ b) !! a = Some n /\ node_ok (cfg_ b) i n.
Proof.
  intros Hi Ha. destruct (wf_levels_lookup i l Hi) as (lvl & _ & Hl). by eapply lo_nodes.
Qed.

(** A node is on one level only. *)
Lemma wf_disjoint i j l l' a :
  pss !! i = Some l -> pss !! j = Some l' -> a ∈ l -> a ∈ l' -> i = j.
Proof.
  intros Hi Hj Ha Ha'. destruct (wf_node i l a Hi Ha) as (n & Hn & Hni & _).
  destruct (wf_node j l' a Hj Ha') as (n' & Hn' & Hnj & _). simplify_eq. lia.
Qed.

Lemma wf_used_level i l a : pss !! i = Some l -> a ∈ l -> used (pool_ b) free a.
Proof. intros. apply (wf_used _ _ _ H). eauto. Qed.

(** The lists after the replacement of list [i]. *)
Lemma replaced i l l' j ps :
  pss !! i = Some l ->
  <[i:=l']> pss !! j = Some ps <-> (j = i /\ ps = l') \/ (j <> i /\ pss !! j = Some ps).
Proof.
  intros Hi%lookup_lt_Some. destruct (decide (j = i)) as [->|].
  - rewrite list_lookup_insert_eq by done. naive_solver.
  - rewrite list_lookup_insert_ne by done. naive_solver.
Qed.

(** The nodes of the other lists are in use, and not in list [i]. *)
Lemma other_node i l j ps a :
  pss !! i = Some l -> j <> i -> pss !! j = Some ps -> a ∈ ps -> used (pool_ b) free a /\ a ∉ l.
Proof.
  intros Hi Hj Hps Ha. split; [by eapply wf_used_level|].
  intros Hal. apply Hj. by eapply wf_disjoint.
Qed.

(** Which nodes are in use after the replacement. *)
Lemma replaced_used i l l' a :
  pss !! i = Some l ->
  (used (pool_ b) free a /\ a ∉ l) \/ a ∈ l' <->
  exists j ps, <[i:=l']> pss !! j = Some ps /\ a ∈ ps.
Proof.
  intros Hi. pose proof H as H0. destruct H0. rewrite wf_used0. split.
  - intros [[(j & ps & Hps & Ha) Hal]|Ha].
    + exists j, ps. split; [|done]. apply (replaced i l l' j ps Hi). right. split; [|done].
      intros ->. by simplify_eq.
    + exists i, l'. split; [|done]. apply (replaced i l l' i l' Hi). by left.
  - intros (j & ps & [[-> ->]|[Hne Hps]]%(replaced i l l' j ps Hi) & Ha); [by right|left].
    split; [by eauto|]. by eapply other_node.
Qed.

(** The invariant after a level was replaced. *)
Lemma wf_update b' free' i l lvl' l' :
  pss !! i = Some l ->
  cfg_ b' = cfg_ b -> levels_ b' = <[i:=lvl']> (levels_ b) ->
  level_ok (mem (pool_ b')) (cfg_ b) i lvl' l' ->
  (forall a, used (pool_ b) free a -> a ∉ l -> mem (pool_ b') !! a = mem (pool_ b) !! a) ->
  pool_ok (pool_ b') free' ->
  (forall a, used (pool_ b') free' a <-> (used (pool_ b) free a /\ a ∉ l) \/ a ∈ l') ->
  (forall ref a, index_ b' !! ref = Some a <->
    (index_ b !! ref = Some a /\ a ∉ l) \/
    (a ∈ l' /\ o_order_ref <$> mem (pool_ b') !! a = Some ref)) ->
  live_orders_ b' = live_orders_ b + Z.of_nat (length l') - Z.of_nat (length l) ->
  live_orders_ b' < 2 ^ 32 ->
  wf_with b' (<[i:=l']> pss) free'.
Proof.
  intros Hi Hcfg Hlv Hlo Hfr Hpool Hused Hidx Hlive Hb. pose proof H as H0. destruct H0.
  assert (i < length pss)%nat as Hlt by by eapply lookup_lt_Some.
  pose proof (fun j ps => replaced i l l' j ps Hi) as Hins.
  assert (forall j ps a, j <> i -> pss !! j = Some ps -> a ∈ ps ->
    a ∉ l /\ mem (pool_ b') !! a = mem (pool_ b) !! a) as Hoth.
  { intros j ps a Hj Hps Ha. destruct (other_node i l j ps a Hi Hj Hps Ha). auto. }
  split; rewrite ?Hcfg.
  - done.
  - by rewrite Hlv, length_insert.
  - by rewrite Hlv, !length_insert.
  - intros j lvl ps Hj [[-> ->]|[Hne Hps]]%Hins.
    + rewrite Hlv, list_lookup_insert_eq in Hj by lia. by simplify_eq.
    + rewrite Hlv, list_lookup_insert_ne in Hj by done.
      destruct (wf_level0 j lvl ps Hj Hps) as [[Hd Hht] ? Hn ? Ht ?].
      assert (forall a, a ∈ ps -> mem (pool_ b') !! a = mem (pool_ b) !! a) as Hm
        by (intros; by eapply Hoth).
      split; try done.
      * split; [|done]. by eapply dseg_frame.
      * intros a Ha. rewrite Hm by done. by apply Hn.
      * rewrite Ht. do 2 f_equal. symmetry. apply view_of_frame. intros a Ha. by rewrite Hm.
  - done.
  - intros a. rewrite Hused. by apply replaced_used.
  - intros ref a. rewrite Hidx, wf_index0. split.
    + intros [[(j & ps & n & Hps & Ha & Hn & Hr) Hal]|[Ha Hr]].
      * assert (j <> i) as Hne by (intros ->; by simplify_eq).
        exists j, ps, n. split; [apply Hins; by right|]. split; [done|].
        destruct (Hoth j ps a Hne Hps Ha) as (_ & ->). done.
      * apply fmap_Some in Hr as (n & Hn & ->). exists i, l', n.
        split; [apply Hins; by left|]. done.
    + intros (j & ps & n & [[-> ->]|[Hne Hps]]%Hins & Ha & Hn & <-).
      * right. split; [done|]. by rewrite Hn.
      * destruct (Hoth j ps a Hne Hps Ha) as (Hal & Hm). left. split; [|done].
        exists j, ps, n. rewrite <- Hm. done.
  - pose proof (length_concat_insert pss i l l' Hi). lia.
  - done.
Qed.

(** The abstraction changes at the same slot only. *)
Lemma abs_update_level b' free' i l l' :
  pss !! i = Some l -> wf_with b' (<[i:=l']> pss) free' ->
  (forall a, used (pool_ b) free a -> a ∉ l -> mem (pool_ b') !! a = mem (pool_ b) !! a) ->
  abs b' = <[i := view_of (mem (pool_ b')) l']> (abs b).
Proof.
  intros Hi H' Hfr. rewrite (abs_views _ _ _ H'), (abs_views _ _ _ H).
  rewrite list_fmap_insert. apply list_eq. intros j.
  destruct (decide (j = i)) as [->|Hne].
  - rewrite !list_lookup_insert_eq; rewrite ?length_fmap; [done|..];
      by eapply lookup_lt_Some.
  - rewrite !list_lookup_insert_ne, !list_lookup_fmap by done.
    destruct (pss !! j) as [ps|] eqn:Hj; cbn; [|done]. f_equal. apply view_of_frame.
    intros a Ha. rewrite Hfr; [done|by eapply wf_used_level|].
    intros Hal. apply Hne. by eapply wf_disjoint.
Qed.

(** ** Lemmas: the index and the abstract lookup *)

Lemma index_view ref a :
  index_ b !! ref = Some a ->
  exists i l n, pss !! i = Some l /\ a ∈ l /\ mem (pool_ b) !! a = Some n /\ o_order_ref n = ref.
Proof. apply (wf_index _ _ _ H). Qed.

Lemma abs_lookup i l : pss !! i = Some l -> abs b !! i = Some (view_of (mem (pool_ b)) l).
Proof. intros Hi. by rewrite (abs_views _ _ _ H), list_lookup_fmap, Hi. Qed.

Lemma elem_of_abs o :
  o ∈ concat (abs b) <->
  exists i l a n, pss !! i = Some l /\ a ∈ l /\ mem (pool_ b) !! a = Some n /\ view n = o.
Proof.
  rewrite (abs_views _ _ _ H), list_elem_of_In, in_concat. split.
  - intros (q & Hq & Ho). apply list_elem_of_In, list_elem_of_fmap in Hq as (l & -> & Hl).
    apply list_elem_of_lookup in Hl as [i Hi].
    apply list_elem_of_In, elem_of_view_of in Ho as (a & n & ? & ? & ?). naive_solver.
  - intros (i & l & a & n & Hi & Ha & Hn & <-). exists (view_of (mem (pool_ b)) l).
    rewrite <- !list_elem_of_In. split.
    + apply list_elem_of_fmap. exists l. split; [done|]. by eapply list_elem_of_lookup_2.
    + apply elem_of_view_of. eauto.
Qed.

Lemma abs_lookup_ref ref :
  a_lookup ref (abs b) = a ← index_ b !! ref; view <$> mem (pool_ b) !! a.
Proof.
  unfold a_lookup, a_find.
  destruct (list_find (fun o => a_ref o = ref) (concat (abs b))) as [[k o]|] eqn:Hf; cbn.
  - apply list_find_Some in Hf as (Hk & Hr & _). apply list_elem_of_lookup_2 in Hk.
    apply elem_of_abs in Hk as (i & l & a & n & Hi & Ha & Hn & <-). cbn in Hr.
    assert (index_ b !! ref = Some a) as -> by (apply (wf_index _ _ _ H); naive_solver).
    cbn. by rewrite Hn.
  - destruct (index_ b !! ref) as [a|] eqn:Hi; cbn; [|done].
    apply index_view in Hi as (i & l & n & Hi & Ha & Hn & Hr). exfalso.
    apply list_find_None in Hf. rewrite list.Forall_forall in Hf.
    apply (Hf (view n)); [|done]. apply elem_of_abs. naive_solver.
Qed.

Lemma abs_known ref : is_Some (a_lookup ref (abs b)) <-> is_Some (index_ b !! ref).
Proof.
  rewrite abs_lookup_ref. destruct (index_ b !! ref) as [a|] eqn:Hi; cbn; [|done].
  apply index_view in Hi as (? & ? & n & ? & ? & -> & ?). cbn. split; eauto.
Qed.

Lemma omap_id (f : AOrder -> option AOrder) (q : list AOrder) :
  (forall o, o ∈ q -> f o = Some o) -> omap f q = q.
Proof.
  induction q as [|o q IH]; intros Hq; [done|]. cbn. rewrite Hq by by left.
  f_equal. apply IH. intros. apply Hq. by right.
Qed.

(** An update by reference touches exactly the node the index points to. *)
Lemma abs_update_at f ref a i l1 l2 n :
  index_ b !! ref = Some a -> pss !! i = Some (l1 ++ a :: l2) -> mem (pool_ b) !! a = Some n ->
  a_update f ref (abs b) =
  <[i := view_of (mem (pool_ b)) l1 ++ option_list (f (view n)) ++ view_of (mem (pool_ b)) l2]>
    (abs b).
Proof.
  intros Hr Hi Hn.
  assert (a ∈ l1 ++ a :: l2) as Ha by set_solver.
  assert (o_order_ref n = ref) as Hrn.
  { destruct (index_view _ _ Hr) as (? & ? & n' & _ & _ & Hn' & Hrn'). congruence. }
  set (m := mem (pool_ b)) in *.
  set (g := fun o => if decide (a_ref o = ref) then f o else Some o).
  assert (forall j l x, pss !! j = Some l -> x ∈ view_of m l -> a_ref x = ref ->
    j = i /\ exists n', x = view n' /\ m !! a = Some n' /\ a ∈ l) as Huniq.
  { intros j l x Hj Hx Hrx. apply elem_of_view_of in Hx as (a' & n' & Ha' & Hn' & <-).
    assert (index_ b !! ref = Some a') by (apply (wf_index _ _ _ H); naive_solver).
    simplify_eq. split; [by eapply wf_disjoint|]. eauto. }
  apply list_eq. intros j. unfold a_update. rewrite list_lookup_fmap. destruct (decide (j = i)) as [->|Hne].
  - rewrite list_lookup_insert_eq by (eapply lookup_lt_Some; by apply abs_lookup).
    rewrite (abs_lookup _ _ Hi). cbn. f_equal. unfold a_update_queue. fold g.
    destruct (wf_levels_lookup _ _ Hi) as (lvl & _ & [_ Hnd _ _ _ _]).
    apply list.NoDup_app in Hnd as (_ & Hn1 & [Hn2 _]%list.NoDup_cons).
    rewrite view_of_app. fold m. rewrite (view_of_cons m a l2 n Hn), !omap_app.
    cbn [omap list_omap]. unfold g at 2. rewrite decide_True by done.
    assert (forall l, (forall x, x ∈ l -> x ∈ l1 ++ a :: l2) -> a ∉ l ->
      omap g (view_of m l) = view_of m l) as Hid.
    { intros l Hl Hal. apply omap_id. intros x Hx. unfold g. case_decide as Hrx; [|done].
      exfalso. apply elem_of_view_of in Hx as (a' & n' & Ha' & Hn' & <-).
      assert (index_ b !! ref = Some a') by (apply (wf_index _ _ _ H); naive_solver).
      by simplify_eq. }
    rewrite (Hid l1) by set_solver. f_equal.
    rewrite (Hid l2) by set_solver. by destruct (f (view n)).
  - rewrite list_lookup_insert_ne by done.
    destruct (abs b !! j) as [q|] eqn:Hj; cbn; [|done]. f_equal. apply omap_id.
    intros x Hx. case_decide as Hrx; [|done]. exfalso.
    rewrite (abs_views _ _ _ H), list_lookup_fmap in Hj.
    destruct (pss !! j) as [l|] eqn:Hl; cbn in Hj; simplify_eq.
    by destruct (Huniq j l x Hl Hx Hrx) as [? _].
Qed.

Lemma abs_update_unknown f ref : index_ b !! ref = None -> a_update f ref (abs b) = abs b.
Proof.
  intros Hr. apply list_eq. intros j. unfold a_update. rewrite list_lookup_fmap.
  destruct (abs b !! j) as [q|] eqn:Hj; cbn; [|done]. f_equal. apply omap_id.
  intros x Hx. case_decide as Hrx; [|done]. exfalso.
  assert (is_Some (index_ b !! ref)) as [? ?]; [|congruence].
  apply abs_known. unfold a_lookup, a_find.
  destruct (list_find _ (concat (abs b))) as [[]|] eqn:Hf; [by eauto|].
  apply list_find_None in Hf. rewrite list.Forall_forall in Hf. exfalso.
  apply (Hf x); [|done]. rewrite list_elem_of_In, in_concat. exists q.
  rewrite <- !list_elem_of_In. split; [by eapply list_elem_of_lookup_2|done].
Qed.
End Levels.
