(* ===== verification/OrderBookBest.v ===== *)
(** * The cached best prices

    [top_ok b]: the cached best-bid (best-ask) slot is the highest populated buy
    (lowest populated sell) slot, or -1, and every order of a level rests on the
    level's side.  The lemmas say how a change of one level moves the extremal
    slot, which is what [improve_best] and [retreat_best] compute. *)

From stdpp Require Import base list gmap numbers.
From S2P Require Import Prelude MarketEvent OrderPool OrderBook BookSpec OrderBookWf.

(** [r] is the greatest (least) slot satisfying [P], or [-1]. *)
Definition is_max (P : PriceLevel -> bool) (ls : list PriceLevel) (r : Z) : Prop :=
  -1 <= r /\ (0 <= r -> exists l, ls !! Z.to_nat r = Some l /\ P l = true) /\
  forall i l, ls !! i = Some l -> P l = true -> Z.of_nat i <= r.

Definition is_min (P : PriceLevel -> bool) (ls : list PriceLevel) (r : Z) : Prop :=
  -1 <= r /\ (0 <= r -> exists l, ls !! Z.to_nat r = Some l /\ P l = true) /\
  forall i l, ls !! i = Some l -> P l = true -> 0 <= r <= Z.of_nat i.

(** Every order of a level is on the level's side. *)
Definition sides_ok (b : OrderBook) : Prop :=
  forall i lvl q o, levels_ b !! i = Some lvl -> abs b !! i = Some q -> o ∈ q ->
  a_side o = lv_side lvl.

Definition best_ok (b : OrderBook) : Prop :=
  is_max (populated Buy) (levels_ b) (best_bid_idx_ b) /\
  is_min (populated Sell) (levels_ b) (best_ask_idx_ b).

Definition top_ok (b : OrderBook) : Prop := sides_ok b /\ best_ok b.

(** ** The scans *)

Lemma scan_bid_spec ls n :
  (n <= length ls)%nat -> exists r, scan_bid ls n = Some r /\ r < Z.of_nat n /\
  is_max (populated Buy) (take n ls) r.
Proof.
  induction n as [|n IH]; intros Hn; cbn [scan_bid].
  { exists (-1). split; [done|]. split; [lia|]. split; [lia|]. split; [lia|]. by intros []. }
  rewrite vget_nat. destruct (lookup_lt_is_Some_2 ls n) as [l Hl]; [lia|].
  rewrite Hl. cbn [mbind option_bind]. rewrite (take_S_r _ _ _ Hl).
  destruct (populated Buy l) eqn:Hp.
  - eexists. split; [done|]. split; [lia|]. split; [lia|]. split.
    + intros _. exists l. rewrite Nat2Z.id, lookup_app_r; rewrite length_take; [|lia].
      replace (n - _)%nat with 0%nat by lia. done.
    + intros i l' Hi%lookup_lt_Some _. rewrite length_app, length_take in Hi. cbn in Hi. lia.
  - destruct IH as (r & -> & Hr & H1 & H2 & H3); [lia|]. eexists. split; [done|].
    split; [lia|]. split; [done|]. split.
    + intros H0. destruct (H2 H0) as (l' & Hl' & ?). exists l'. split; [|done].
      by apply lookup_app_l_Some.
    + intros i l' [Hi|[_ Hi]]%lookup_app_Some Hp'; [by eauto|].
      apply list_lookup_singleton_Some in Hi as [_ <-]. congruence.
Qed.

Lemma scan_ask_spec ls n i :
  0 <= i -> i + Z.of_nat n = Z.of_nat (length ls) ->
  exists r, scan_ask ls n i = Some r /\ (r = -1 \/ i <= r) /\
    (0 <= r -> exists l, ls !! Z.to_nat r = Some l /\ populated Sell l = true) /\
    forall j l, i <= Z.of_nat j -> ls !! j = Some l -> populated Sell l = true ->
      0 <= r <= Z.of_nat j.
Proof.
  revert i. induction n as [|n IH]; intros i H0 Hn; cbn [scan_ask].
  { exists (-1). split; [done|]. split; [by left|]. split; [lia|].
    intros j l Hj Hl%lookup_lt_Some. lia. }
  destruct (proj2 (vget_is_Some ls i)) as [l Hl]; [lia|]. rewrite Hl. cbn [mbind option_bind].
  apply vget_Some in Hl as [_ Hl]. destruct (populated Sell l) eqn:Hp.
  - eexists. split; [done|]. split; [by right|]. split; [by eauto|]. intros. lia.
  - destruct (IH (i + 1)) as (r & -> & Hr & H1 & H2); [lia|lia|]. eexists. split; [done|].
    split; [lia|]. split; [done|]. intros j l' Hj Hl' Hp'.
    destruct (decide (Z.of_nat j = i)) as [<-|]; [|apply (H2 j l'); [lia|done..]].
    rewrite Nat2Z.id in Hl. congruence.
Qed.

(** ** One level changes *)

Section OneLevel.
Context (ls : list PriceLevel) (i : nat) (l l' : PriceLevel) (Hl : ls !! i = Some l).

Lemma insert_cases j x :
  <[i:=l']> ls !! j = Some x -> (j = i /\ x = l') \/ (j <> i /\ ls !! j = Some x).
Proof.
  destruct (decide (j = i)) as [->|].
  - rewrite list_lookup_insert_eq by by eapply lookup_lt_Some. naive_solver.
  - rewrite list_lookup_insert_ne by done. naive_solver.
Qed.

Lemma insert_here : <[i:=l']> ls !! i = Some l'.
Proof. apply list_lookup_insert_eq. by eapply lookup_lt_Some. Qed.

Context (P : PriceLevel -> bool).

(** A change that keeps the truth value of [P]. *)
Lemma is_max_same r : P l' = P l -> is_max P ls r -> is_max P (<[i:=l']> ls) r.
Proof.
  intros HP (H1 & H2 & H3). split; [done|]. split.
  - intros (x & Hx & Hpx)%H2. destruct (decide (Z.to_nat r = i)) as [He|].
    + exists l'. rewrite He in *. rewrite insert_here. simplify_eq. by rewrite HP.
    + exists x. by rewrite list_lookup_insert_ne.
  - intros j x [[-> ->]|[? Hx]]%insert_cases Hpx; [|by eauto]. rewrite HP in Hpx. eauto.
Qed.

Lemma is_min_same r : P l' = P l -> is_min P ls r -> is_min P (<[i:=l']> ls) r.
Proof.
  intros HP (H1 & H2 & H3). split; [done|]. split.
  - intros (x & Hx & Hpx)%H2. destruct (decide (Z.to_nat r = i)) as [He|].
    + exists l'. rewrite He in *. rewrite insert_here. simplify_eq. by rewrite HP.
    + exists x. by rewrite list_lookup_insert_ne.
  - intros j x [[-> ->]|[? Hx]]%insert_cases Hpx; [|by eauto]. rewrite HP in Hpx. eauto.
Qed.

(** The level satisfies [P] afterwards. *)
Lemma is_max_improve r :
  P l' = true -> is_max P ls r ->
  is_max P (<[i:=l']> ls) (if decide (r < 0 \/ Z.of_nat i > r) then Z.of_nat i else r).
Proof.
  intros HP (H1 & H2 & H3). case_decide.
  - split; [lia|]. split.
    + intros _. exists l'. by rewrite Nat2Z.id, insert_here.
    + intros j x [[-> ->]|[? Hx]]%insert_cases Hpx; [lia|]. specialize (H3 _ _ Hx Hpx). lia.
  - split; [done|]. split.
    + intros (x & Hx & Hpx)%H2. destruct (decide (Z.to_nat r = i)) as [->|].
      * exists l'. by rewrite insert_here.
      * exists x. by rewrite list_lookup_insert_ne.
    + intros j x [[-> ->]|[? Hx]]%insert_cases Hpx; [lia|by eauto].
Qed.

Lemma is_min_improve r :
  P l' = true -> is_min P ls r ->
  is_min P (<[i:=l']> ls) (if decide (r < 0 \/ Z.of_nat i < r) then Z.of_nat i else r).
Proof.
  intros HP (H1 & H2 & H3). case_decide.
  - split; [lia|]. split.
    + intros _. exists l'. by rewrite Nat2Z.id, insert_here.
    + intros j x [[-> ->]|[? Hx]]%insert_cases Hpx; [lia|]. specialize (H3 _ _ Hx Hpx). lia.
  - split; [done|]. split.
    + intros (x & Hx & Hpx)%H2. destruct (decide (Z.to_nat r = i)) as [->|].
      * exists l'. by rewrite insert_here.
      * exists x. by rewrite list_lookup_insert_ne.
    + intros j x [[-> ->]|[? Hx]]%insert_cases Hpx; [lia|by eauto].
Qed.

(** The level does not satisfy [P] afterwards and was not the extremal one. *)
Lemma is_max_other r :
  P l' = false -> r <> Z.of_nat i -> is_max P ls r -> is_max P (<[i:=l']> ls) r.
Proof.
  intros HP Hr (H1 & H2 & H3). split; [done|]. split.
  - intros H0. destruct (H2 H0) as (x & Hx & Hpx). exists x.
    by rewrite list_lookup_insert_ne by lia.
  - intros j x [[-> ->]|[? Hx]]%insert_cases Hpx; [congruence|by eauto].
Qed.

Lemma is_min_other r :
  P l' = false -> r <> Z.of_nat i -> is_min P ls r -> is_min P (<[i:=l']> ls) r.
Proof.
  intros HP Hr (H1 & H2 & H3). split; [done|]. split.
  - intros H0. destruct (H2 H0) as (x & Hx & Hpx). exists x.
    by rewrite list_lookup_insert_ne by lia.
  - intros j x [[-> ->]|[? Hx]]%insert_cases Hpx; [congruence|by eauto].
Qed.
End OneLevel.

(** The extremal level goes: the scan finds the next one. *)
Lemma scan_bid_retreat ls i l l' :
  ls !! i = Some l -> populated Buy l' = false ->
  is_max (populated Buy) ls (Z.of_nat i) ->
  exists r, scan_bid (<[i:=l']> ls) i = Some r /\ is_max (populated Buy) (<[i:=l']> ls) r.
Proof.
  intros Hl HP (H1 & H2 & H3). pose proof (lookup_lt_Some _ _ _ Hl).
  destruct (scan_bid_spec (<[i:=l']> ls) i) as (r & Hs & Hr & M1 & M2 & M3).
  { rewrite length_insert. lia. }
  exists r. split; [done|]. split; [done|]. split.
  - intros H0. destruct (M2 H0) as (x & Hx & ?). exists x. split; [|done].
    by apply lookup_take_Some in Hx as [Hx _].
  - intros j x Hx Hpx. destruct (decide (j < i)%nat).
    + apply (M3 j x); [|done]. by apply lookup_take_Some.
    + destruct (insert_cases _ _ _ _ Hl _ _ Hx) as [[-> ->]|[? Hx']]; [congruence|].
      specialize (H3 _ _ Hx' Hpx). lia.
Qed.

Lemma scan_ask_retreat ls i l l' :
  ls !! i = Some l -> populated Sell l' = false ->
  is_min (populated Sell) ls (Z.of_nat i) ->
  exists r, scan_ask (<[i:=l']> ls)
      (Z.to_nat (Z.of_nat (length (<[i:=l']> ls)) - (Z.of_nat i + 1))) (Z.of_nat i + 1) = Some r /\
    is_min (populated Sell) (<[i:=l']> ls) r.
Proof.
  intros Hl HP (H1 & H2 & H3). pose proof (lookup_lt_Some _ _ _ Hl).
  destruct (scan_ask_spec (<[i:=l']> ls)
    (Z.to_nat (Z.of_nat (length (<[i:=l']> ls)) - (Z.of_nat i + 1))) (Z.of_nat i + 1))
    as (r & Hs & Hr & M2 & M3); [lia|rewrite length_insert; lia|].
  exists r. split; [done|]. split; [lia|]. split; [done|].
  intros j x Hx Hpx. destruct (decide (i < j)%nat); [apply (M3 j x); [lia|done..]|].
  destruct (insert_cases _ _ _ _ Hl _ _ Hx) as [[-> ->]|[? Hx']]; [congruence|].
  specialize (H3 _ _ Hx' Hpx). lia.
Qed.

(** ** [improve_best] and [retreat_best] *)

(** The fields the best-price maintenance does not touch. *)
Definition same_core (b b' : OrderBook) : Prop :=
  cfg_ b' = cfg_ b /\ levels_ b' = levels_ b /\ index_ b' = index_ b /\ pool_ b' = pool_ b /\
  live_orders_ b' = live_orders_ b /\ crossed_at_last_boundary_ b' = crossed_at_last_boundary_ b.

(** [same_core], and the counters. *)
Definition same_rest (b b' : OrderBook) : Prop := same_core b b' /\ stats_ b' = stats_ b.

Lemma improve_best_same s idx b : same_rest b (improve_best s idx b).
Proof. unfold improve_best. destruct s; repeat case_decide; by repeat split. Qed.

Lemma populated_other s s' l : s <> s' -> lv_side l = s -> populated s' l = false.
Proof. intros Hs <-. unfold populated. rewrite (bool_decide_eq_false_2 (_ = _)) by done. by rewrite andb_false_r. Qed.

Lemma populated_here l : order_count l > 0 -> populated (lv_side l) l = true.
Proof. intros. unfold populated. by rewrite !bool_decide_eq_true_2. Qed.

Lemma populated_empty s l : order_count l = 0 -> populated s l = false.
Proof. intros H. unfold populated. by rewrite H. Qed.

(** Size appears (or stays) at slot [i], on side [s]; the opposite side's
    population of the slot does not change. *)
Lemma improve_best_ok b ls i l l' :
  ls !! i = Some l -> levels_ b = <[i:=l']> ls -> order_count l' > 0 ->
  is_max (populated Buy) ls (best_bid_idx_ b) -> is_min (populated Sell) ls (best_ask_idx_ b) ->
  (forall s, s <> lv_side l' -> populated s l = false) ->
  best_ok (improve_best (lv_side l') (Z.of_nat i) b).
Proof.
  intros Hl Hls Hc Hb Ha Hopp.
  assert (levels_ (improve_best (lv_side l') (Z.of_nat i) b) = <[i:=l']> ls) as Hls'
    by (by rewrite <- Hls; apply improve_best_same).
  unfold best_ok. rewrite Hls'. pose proof (populated_here l' Hc) as Hp.
  assert (forall s, s <> lv_side l' -> populated s l' = populated s l) as Hsame
    by (intros s Hs; rewrite Hopp, (populated_other (lv_side l')); done).
  destruct (lv_side l') eqn:Hs; cbn [improve_best].
  - split; [eapply is_max_same|eapply is_min_same]; try done; by apply Hsame.
  - split.
    + pose proof (is_max_improve ls i l l' Hl _ _ Hp Hb) as Hm. by case_decide.
    + case_decide; (eapply is_min_same; [done|by apply Hsame|done]).
  - split.
    + case_decide; (eapply is_max_same; [done|by apply Hsame|done]).
    + pose proof (is_min_improve ls i l l' Hl _ _ Hp Ha) as Hm. by case_decide.
Qed.

(** The level of slot [i] stops being populated on side [s]. *)
Lemma retreat_best_ok b ls i l l' :
  ls !! i = Some l -> levels_ b = <[i:=l']> ls ->
  populated (lv_side l) l' = false ->
  (forall s, s <> lv_side l -> populated s l' = populated s l \/ s = SideNone) ->
  is_max (populated Buy) ls (best_bid_idx_ b) -> is_min (populated Sell) ls (best_ask_idx_ b) ->
  exists b', retreat_best (lv_side l) (Z.of_nat i) b = Some b' /\ same_rest b b' /\ best_ok b'.
Proof.
  intros Hl Hls Hp Hopp Hb Ha. unfold retreat_best, rescan_best_bid_from, rescan_best_ask_from.
  case_decide as H1.
  - destruct H1 as [Hs Hi]. rewrite Hs, Hls in *. rewrite <- Hi in *.
    replace (Z.to_nat _) with i by lia.
    destruct (scan_bid_retreat ls i l l' Hl Hp Hb) as (r & -> & Hr).
    eexists. split; [done|]. split; [by repeat split|]. unfold best_ok. cbn. rewrite Hls.
    split; [done|]. eapply is_min_same; [done| |done]. by destruct (Hopp Sell).
  - case_decide as H2.
    + destruct H2 as [Hs Hi]. rewrite Hs, Hls in *. rewrite <- Hi in *.
      destruct (scan_ask_retreat ls i l l' Hl Hp Ha) as (r & -> & Hr).
      eexists. split; [done|]. split; [by repeat split|]. unfold best_ok. cbn. rewrite Hls.
      split; [|done]. eapply is_max_same; [done| |done]. by destruct (Hopp Buy).
    + exists b. split; [done|]. split; [by repeat split|]. unfold best_ok. rewrite Hls.
      destruct (lv_side l) eqn:Hs.
      * split; [eapply is_max_same|eapply is_min_same]; try done;
          [by destruct (Hopp Buy)|by destruct (Hopp Sell)].
      * split; [eapply is_max_other|eapply is_min_same]; try done; [naive_solver|].
        by destruct (Hopp Sell).
      * split; [eapply is_max_same|eapply is_min_other]; try done; [|naive_solver].
        by destruct (Hopp Buy).
Qed.
