(* ===== verification/OrderBookRefine.v ===== *)
(** * The order book implements its specification

    [on_add], [remove_order], [reduce_order] and [apply] on a well-formed book:
    they return (no undefined behaviour), keep the invariant, and their effect
    on the queues, the counters and the cached best prices is the one
    [BookSpec] describes.  [book_step] packs what every operation guarantees. *)

From stdpp Require Import base list gmap numbers.
From S2P Require Import Prelude MarketEvent OrderPool OrderBook BookSpec OrderBookWf.
From S2P Require Import OrderBookBest.

(** What one operation from [b] to [b'] guarantees: new queues [ls], new
    counters [st], at most [n] more live orders; the best prices stay right
    when [U] holds. *)
Record book_step (b b' : OrderBook) (ls : queues) (st : OrderBookStats) (n : Z) (U : Prop)
    : Prop := {
  bs_wf : wf b';
  bs_abs : abs b' = ls;
  bs_cfg : cfg_ b' = cfg_ b;
  bs_stats : stats_ b' = st;
  bs_live : live_orders_ b' <= live_orders_ b + n;
  bs_crossed : crossed_at_last_boundary_ b' = crossed_at_last_boundary_ b;
  bs_top : top_ok b -> U -> top_ok b' }.

(** ** Operations that leave the levels alone *)

Lemma wf_same b b' pss free : same_core b b' -> wf_with b pss free -> wf_with b' pss free.
Proof.
  intros (Hc & Hl & Hi & Hp & Hn & _) [].
  split; rewrite ?Hc, ?Hl, ?Hi, ?Hp, ?Hn; done.
Qed.

Lemma abs_same b b' : same_core b b' -> abs b' = abs b.
Proof. intros (_ & Hl & _ & Hp & _). unfold abs. by rewrite Hl, Hp. Qed.

Lemma sides_same b b' : same_core b b' -> sides_ok b -> sides_ok b'.
Proof.
  intros H Hs i lvl q o. rewrite (abs_same _ _ H). destruct H as (_ & -> & _). apply Hs.
Qed.

Lemma top_same b b' :
  same_core b b' -> best_bid_idx_ b' = best_bid_idx_ b -> best_ask_idx_ b' = best_ask_idx_ b ->
  top_ok b -> top_ok b'.
Proof.
  intros H Hb Ha [Hs Ho]. split; [by eapply sides_same|]. unfold best_ok.
  rewrite Hb, Ha. by destruct H as (_ & -> & _).
Qed.

(** A change of the counters. *)
Lemma stats_step b f :
  wf b -> book_step b (b <| stats_ ::= f |>) (abs b) (f (stats_ b)) 0 True.
Proof.
  intros (pss & free & H). assert (same_core b (b <| stats_ ::= f |>)) as Hs by by repeat split.
  split; try done.
  - exists pss, free. by eapply wf_same.
  - cbn. lia.
Qed.

Lemma step_trans b1 b2 b3 ls2 ls3 st2 st3 n2 n3 (U2 U3 : Prop) :
  book_step b1 b2 ls2 st2 n2 U2 -> book_step b2 b3 ls3 st3 n3 U3 ->
  book_step b1 b3 ls3 st3 (n2 + n3) (U2 /\ U3).
Proof.
  intros [] []. split; try congruence; [lia|]. intros ? [? ?]. auto.
Qed.

Lemma step_weaken b b' ls st n n' (U U' : Prop) :
  book_step b b' ls st n U -> n <= n' -> (U' -> U) -> book_step b b' ls st n' U'.
Proof. intros [] ? ?. split; auto; lia. Qed.

(** ** Data of nodes and levels *)

Lemma node_ok_pay c i n n' : pay n' = pay n -> node_ok c i n -> node_ok c i n'.
Proof. destruct n, n'. unfold pay, node_ok. cbn. by intros [= -> -> -> -> ->]. Qed.

Lemma pay_ref n n' : pay n' = pay n -> o_order_ref n' = o_order_ref n.
Proof. destruct n, n'. unfold pay. cbn. by intros [=]. Qed.

Lemma wf_level_length b pss free i l :
  wf_with b pss free -> pss !! i = Some l -> Z.of_nat (length l) <= live_orders_ b.
Proof.
  intros H Hi. rewrite (wf_live _ _ _ H).
  pose proof (length_concat_insert pss i l [] Hi) as E. cbn [length] in E. lia.
Qed.

Lemma relinked_node l m m' a n :
  relinked l m m' -> m !! a = Some n -> exists n', m' !! a = Some n' /\ pay n' = pay n.
Proof.
  intros R Hn. destruct (R a) as [E _]. rewrite Hn in E. cbn in E.
  apply fmap_Some in E as (n' & ? & ?). eauto.
Qed.

Lemma relinked_view l m m' l' : relinked l m m' -> view_of m' l' = view_of m l'.
Proof. intros R. apply view_of_frame. intros a _. by destruct (R a). Qed.

Lemma sides_insert b b' i lvl' q :
  sides_ok b -> levels_ b' = <[i:=lvl']> (levels_ b) -> abs b' = <[i:=q]> (abs b) ->
  (forall o, o ∈ q -> a_side o = lv_side lvl') -> sides_ok b'.
Proof.
  intros Hs Hl Ha Hq j lvl q' o. rewrite Hl, Ha. destruct (decide (j = i)) as [->|].
  - intros H1%list_lookup_insert_Some H2%list_lookup_insert_Some. naive_solver.
  - rewrite !list_lookup_insert_ne by done. apply Hs.
Qed.

Lemma list_alter_insert {A} (f : A -> A) (ls : list A) i q :
  ls !! i = Some q -> alter f i ls = <[i := f q]> ls.
Proof.
  intros Hi. apply list_eq. intros j. destruct (decide (j = i)) as [->|].
  - rewrite list_lookup_alter_eq, Hi, list_lookup_insert_eq; [done|]. by eapply lookup_lt_Some.
  - by rewrite list_lookup_alter_ne, list_lookup_insert_ne.
Qed.

(** ** [on_add] *)

(** The level after an order joined it. *)
Lemma level_add_ok m m' c i lvl lvl1 l o n sz :
  level_ok m c i lvl l -> links_ok m' lvl1 (l ++ [o]) -> relinked (l ++ [o]) m m' ->
  o ∉ l -> m !! o = Some n -> node_ok c i n -> o_size n = sz ->
  aggregate_size lvl1 = aggregate_size lvl -> order_count lvl1 = order_count lvl ->
  Z.of_nat (length l) + 1 < 2 ^ 32 ->
  level_ok m' c i (lvl1 <| aggregate_size ::= fun a => u64 (a + sz) |>
                        <| order_count ::= fun k => u32 (k + 1) |>) (l ++ [o]).
Proof.
  intros [_ Hnd Hno Hc Ht _] Hlk R Ho Hn Hok Hsz Hag Hcn Hb. split.
  - exact Hlk.
  - apply list.NoDup_app. split; [done|]. split; [set_solver|].
    apply list.NoDup_cons. split; [set_solver|apply list.NoDup_nil; done].
  - intros a [Ha|Ha%list_elem_of_singleton]%elem_of_app.
    + destruct (Hno a Ha) as (n' & Hn' & Hok').
      destruct (relinked_node _ _ _ _ _ R Hn') as (n'' & ? & ?). exists n''.
      split; [done|]. by eapply node_ok_pay.
    + subst a. destruct (relinked_node _ _ _ _ _ R Hn) as (n'' & ? & ?). exists n''.
      split; [done|]. by eapply node_ok_pay.
  - cbn. rewrite Hcn, Hc, length_app. cbn. unfold u32. rewrite wrap_small; [lia|unfold in_u; lia].
  - cbn. rewrite Hag, Ht, (relinked_view _ _ _ _ R), view_of_app, a_total_app.
    rewrite (view_of_cons m o [] n Hn). unfold u64. rewrite wrap_add_l. cbn. rewrite Hsz.
    f_equal. lia.
  - by destruct l.
Qed.

(** The index after an order joined slot [i]. *)
Lemma index_add b pss free i l ref o (m' : heap) n :
  wf_with b pss free -> pss !! i = Some l -> ~ used (pool_ b) free o ->
  index_ b !! ref = None -> m' !! o = Some n -> o_order_ref n = ref ->
  (forall a, a ∈ l -> o_order_ref <$> m' !! a = o_order_ref <$> mem (pool_ b) !! a) ->
  forall ref' a, <[ref:=o]> (index_ b) !! ref' = Some a <->
    (index_ b !! ref' = Some a /\ a ∉ l) \/
    (a ∈ l ++ [o] /\ o_order_ref <$> m' !! a = Some ref').
Proof.
  intros H Hi Ho Hr Hn Hnr Hm ref' a.
  assert (forall a, a ∈ l -> a <> o) as Hne
    by (intros x Hx ->; apply Ho; by eapply wf_used_level).
  assert (forall r x, index_ b !! r = Some x -> x <> o) as Hidx.
  { intros r x Hx ->. apply (wf_index _ _ _ H) in Hx as (j & l' & _ & Hj & Hl & _).
    apply Ho. by eapply wf_used_level. }
  rewrite lookup_insert, elem_of_app, list_elem_of_singleton. case_decide as Hd; subst.
  - split.
    + intros [= <-]. right. split; [by right|]. by rewrite Hn.
    + intros [[Hx _]|[[Ha| ->] Hx]]; [congruence| |done]. exfalso.
      rewrite Hm in Hx by done. apply fmap_Some in Hx as (n' & Hn' & Hr').
      assert (index_ b !! o_order_ref n = Some a); [|congruence].
      apply (wf_index _ _ _ H). naive_solver.
  - split.
    + intros Hx. destruct (decide (a ∈ l)) as [Ha|Ha]; [right|by left].
      split; [by left|]. rewrite Hm by done. apply (wf_index _ _ _ H) in Hx as (? & ? & n' & ? & ? & -> & ?).
      cbn. by f_equal.
    + intros [[Hx _]|[[Ha| ->] Hx]]; [done| |].
      * rewrite Hm in Hx by done. apply fmap_Some in Hx as (n' & Hn' & ->).
        apply (wf_index _ _ _ H). naive_solver.
      * rewrite Hn in Hx. cbn in Hx. congruence.
Qed.

(** The side of the level an order joined, on a book with uniform levels. *)
Lemma joined_side (b : OrderBook) i lvl (q : list AOrder) (o : AOrder) :
  sides_ok b -> levels_ b !! i = Some lvl -> abs b !! i = Some q ->
  order_count lvl = Z.of_nat (length q) ->
  uniform (<[i := q ++ [o]]> (abs b)) ->
  let s := if decide (order_count lvl = 0) then a_side o else lv_side lvl in
  s = a_side o /\ (forall x, x ∈ q ++ [o] -> a_side x = a_side o) /\
  (forall s', s' <> a_side o -> populated s' lvl = false).
Proof.
  intros Hs Hl Hq Hc Hu s.
  assert (forall x, x ∈ q ++ [o] -> a_side x = a_side o) as Hall.
  { intros x Hx. eapply (uniform_lookup _ i (q ++ [o])); [done| |done|set_solver].
    apply list_lookup_insert_eq. by eapply lookup_lt_Some. }
  unfold s. case_decide as H0.
  - split; [done|]. split; [done|]. intros s' _. by apply populated_empty.
  - destruct q as [|x q]; [done|].
    assert (lv_side lvl = a_side o) as E.
    { rewrite <- (Hs i lvl (x :: q) x Hl Hq) by by left. apply Hall. by left. }
    split; [done|]. split; [done|]. intros s' Hs'. eapply populated_other; [|done]. congruence.
Qed.

Section Join.
Context (b : OrderBook) (pss : list (list ptr)) (free : list ptr) (H : wf_with b pss free).
Context (ev : MarketEvent) (i : nat) (l : list ptr) (lvl : PriceLevel).
Context (Hl : pss !! i = Some l) (Hlvl : levels_ b !! i = Some lvl).
Context (Hsz : in_u 32 (ev_size ev)) (Hb : live_orders_ b < 2 ^ 32 - 1).
Context (Hti : to_index (cfg_ b) (ev_price_ticks ev) = Z.of_nat i).
Context (Hr : index_ b !! ev_order_ref ev = None).
(* what [alloc] returned *)
Context (o : ptr) (p : OrderPool) (free' : list ptr).
Context (Hp : pool_ok p free') (Ho : ~ used (pool_ b) free o).
Context (Hu : forall x, used p free' x <-> x = o \/ used (pool_ b) free x).
Context (Hm : forall x, used (pool_ b) free x -> mem p !! x = mem (pool_ b) !! x).

(** The new node, the heap that holds it, and the level it joins. *)
Let n := mkOrder (ev_order_ref ev) (ev_price_ticks ev) (ev_size ev) (u32 (Z.of_nat i))
           (ev_side ev) None None.
Let m0 := <[o := n]> (mem p).
Let lvl0 := if decide (order_count lvl = 0) then lvl <| lv_side := ev_side ev |> else lvl.

Lemma join_fresh a : a ∈ l -> a <> o.
Proof. intros Ha ->. apply Ho. by eapply wf_used_level. Qed.

Lemma join_m0 a : used (pool_ b) free a -> m0 !! a = mem (pool_ b) !! a.
Proof. intros Ha. unfold m0. rewrite lookup_insert_ne; [by apply Hm|]. by intros <-. Qed.

Lemma join_m0_level a : a ∈ l -> m0 !! a = mem (pool_ b) !! a.
Proof. intros. by eapply join_m0, wf_used_level. Qed.

Lemma join_level_ok : level_ok (mem (pool_ b)) (cfg_ b) i lvl l.
Proof. by eapply wf_level. Qed.

Lemma join_links0 : links_ok m0 lvl0 l.
Proof.
  destruct (lo_links _ _ _ _ _ join_level_ok) as (Hd & Hh).
  split; [eapply dseg_frame; [exact join_m0_level|done]|]. unfold lvl0. by case_decide.
Qed.

Lemma join_level_ok0 : level_ok m0 (cfg_ b) i lvl l.
Proof.
  destruct join_level_ok as [[Hd Hh] ? Hno ? Ht ?]. split; try done.
  - split; [eapply dseg_frame; [exact join_m0_level|done]|done].
  - intros a Ha. rewrite join_m0_level by done. by apply Hno.
  - rewrite Ht. do 2 f_equal. symmetry. apply view_of_frame. intros a Ha.
    by rewrite join_m0_level.
Qed.

(* what [link_back] returned *)
Context (m' : heap) (lvl1 : PriceLevel).
Context (Hlk : links_ok m' lvl1 (l ++ [o])) (R : relinked (l ++ [o]) m0 m').
Context (Elv : lvl1 = lvl0 <| lv_head := first_or (l ++ [o]) None |> <| lv_tail := Some o |>).

Let lvl' := lvl1 <| aggregate_size ::= fun a => u64 (a + ev_size ev) |>
                 <| order_count ::= fun k => u32 (k + 1) |>.
Let b1 := b <| levels_ := <[i := lvl']> (levels_ b) |> <| pool_ := p <| mem := m' |> |>
            <| index_ ::= <[ev_order_ref ev := o]> |> <| live_orders_ ::= inc |>.

Lemma join_node : m0 !! o = Some n.
Proof. apply lookup_insert_eq. Qed.

Lemma join_level_ok' : level_ok m' (cfg_ b) i lvl' (l ++ [o]).
Proof.
  pose proof (wf_level_length _ _ _ _ _ H Hl).
  pose proof (to_index_range (cfg_ b) (ev_price_ticks ev) (wf_cfg _ _ _ H)) as Hrange.
  rewrite Hti in Hrange. pose proof (cfg_span _ (wf_cfg _ _ _ H)).
  unfold lvl'. eapply level_add_ok; [exact join_level_ok0|done|done| |exact join_node|..].
  - intros Hx. by apply (join_fresh o).
  - unfold node_ok. cbn. unfold u32. rewrite wrap_small by (unfold in_u; lia). done.
  - done.
  - subst lvl1. cbn. unfold lvl0. by case_decide.
  - subst lvl1. cbn. unfold lvl0. by case_decide.
  - lia.
Qed.

Lemma join_frame a : used (pool_ b) free a -> a ∉ l -> m' !! a = mem (pool_ b) !! a.
Proof.
  intros Ha Hal. rewrite <- join_m0 by done. apply R.
  intros [?|?%list_elem_of_singleton]%elem_of_app; [done|]. by subst a.
Qed.

Lemma join_live : live_orders_ b1 = live_orders_ b + 1.
Proof.
  cbn. unfold inc, u64. pose proof (wf_live _ _ _ H).
  rewrite wrap_small; [done|unfold in_u; lia].
Qed.

Lemma join_refs a : a ∈ l -> o_order_ref <$> m' !! a = o_order_ref <$> mem (pool_ b) !! a.
Proof.
  intros Ha. destruct (wf_node _ _ _ H i l a Hl Ha) as (na & Hna & _).
  destruct (relinked_node _ m0 m' a na R) as (na' & -> & Hp'); [by rewrite join_m0_level|].
  rewrite Hna. cbn. f_equal. by apply pay_ref.
Qed.

Lemma join_pool : pool_ok (p <| mem := m' |>) free'.
Proof.
  apply pool_ok_mem; [done| |].
  - intros a Ha. destruct (R a) as [_ E]. rewrite E.
    + unfold m0. rewrite lookup_insert_ne; [done|]. intros <-.
      destruct (Hu o) as [_ [_ Hx]]; [by left|done].
    + intros [Hal|?%list_elem_of_singleton]%elem_of_app.
      * destruct (Hu a) as [_ [_ Hx]]; [right; by eapply wf_used_level|done].
      * subst. destruct (Hu o) as [_ [_ Hx]]; [by left|done].
  - intros a. rewrite (relinked_dom _ _ _ _ R). unfold m0.
    apply lookup_insert_is_Some_iff. apply Hu. by left.
Qed.

Lemma join_used a :
  used (pool_ b1) free' a <-> (used (pool_ b) free a /\ a ∉ l) \/ a ∈ l ++ [o].
Proof.
  unfold used at 1. cbn. rewrite (relinked_dom _ _ _ _ R). unfold m0.
  rewrite lookup_insert_is_Some_iff by (apply Hu; by left). fold (used p free' a). rewrite Hu.
  rewrite elem_of_app, list_elem_of_singleton.
  destruct (decide (a ∈ l)) as [Hal|]; [|tauto].
  pose proof (wf_used_level _ _ _ H i l a Hl Hal). tauto.
Qed.

Lemma join_wf : wf_with b1 (<[i := l ++ [o]]> pss) free'.
Proof.
  destruct (relinked_node _ m0 m' o n R join_node) as (n' & Hn' & Hp').
  apply (wf_update b pss free H b1 free' i l lvl' (l ++ [o])); [done|done|done|
    exact join_level_ok'|exact join_frame|exact join_pool|exact join_used| | |].
  - apply (index_add b pss free i l (ev_order_ref ev) o m' n'); try done.
    + by rewrite (pay_ref _ _ Hp').
    + exact join_refs.
  - rewrite join_live, length_app. cbn. lia.
  - rewrite join_live. lia.
Qed.

Lemma join_abs : abs b1 = alter (fun q => q ++ [order_of ev]) i (abs b).
Proof.
  rewrite (abs_update_level b pss free H b1 free' i l (l ++ [o]) Hl join_wf join_frame).
  rewrite (list_alter_insert _ _ _ _ (abs_lookup _ _ _ H i l Hl)). f_equal. cbn.
  rewrite (relinked_view _ _ _ _ R), view_of_app, (view_of_cons _ _ _ _ join_node). f_equal.
  apply view_of_frame. intros a Ha. by rewrite join_m0_level.
Qed.

Lemma join_top :
  uniform (alter (fun q => q ++ [order_of ev]) i (abs b)) -> top_ok b ->
  top_ok (improve_best (ev_side ev) (Z.of_nat i) b1).
Proof.
  intros Hun [Hsd [Hbid Hask]]. pose proof join_abs as Habs.
  pose proof (abs_lookup _ _ _ H i l Hl) as Hq.
  rewrite (list_alter_insert _ _ _ _ Hq) in Hun, Habs.
  destruct (joined_side b i lvl _ (order_of ev) Hsd Hlvl Hq) as (Hs1 & Hs2 & Hs3); [|done|].
  { rewrite (lo_count _ _ _ _ _ join_level_ok), length_view_of; [done|].
    intros a Ha. destruct (wf_node _ _ _ H i l a Hl Ha) as (na & -> & _). eauto. }
  assert (lv_side lvl' = ev_side ev) as Hside.
  { change (ev_side ev) with (a_side (order_of ev)). rewrite <- Hs1. unfold lvl'.
    subst lvl1. cbn. unfold lvl0. by case_decide. }
  split.
  - eapply sides_same; [apply improve_best_same|].
    eapply (sides_insert b b1 i lvl'); [done..|]. intros x Hx. rewrite Hside. by apply Hs2.
  - rewrite <- Hside. eapply (improve_best_ok b1 (levels_ b) i lvl lvl'); try done.
    + rewrite (lo_count _ _ _ _ _ join_level_ok'), length_app. cbn. lia.
    + intros s Hs. apply Hs3. cbn. congruence.
Qed.

Lemma join_step :
  book_step b (improve_best (ev_side ev) (Z.of_nat i) b1)
    (alter (fun q => q ++ [order_of ev]) i (abs b)) (stats_ b) 1
    (uniform (alter (fun q => q ++ [order_of ev]) i (abs b))).
Proof.
  pose proof (improve_best_same (ev_side ev) (Z.of_nat i) b1) as [Hsame Hst].
  split.
  - exists (<[i := l ++ [o]]> pss), free'. eapply wf_same; [done|exact join_wf].
  - rewrite (abs_same _ _ Hsame). exact join_abs.
  - by destruct Hsame as (-> & _).
  - by rewrite Hst.
  - destruct Hsame as (_ & _ & _ & _ & -> & _). rewrite join_live. lia.
  - by destruct Hsame as (_ & _ & _ & _ & _ & ->).
  - intros. by apply join_top.
Qed.
End Join.

(** An order inside the band whose reference is new joins the queue of its slot. *)
Lemma on_add_join b pss free ev i :
  wf_with b pss free -> in_u 32 (ev_size ev) -> live_orders_ b < 2 ^ 32 - 1 ->
  to_index (cfg_ b) (ev_price_ticks ev) = Z.of_nat i -> index_ b !! ev_order_ref ev = None ->
  exists b', on_add ev b = Some b' /\
    book_step b b' (alter (fun q => q ++ [order_of ev]) i (abs b)) (stats_ b) 1
      (uniform (alter (fun q => q ++ [order_of ev]) i (abs b))).
Proof.
  intros H Hsz Hb Hti Hr. unfold on_add. rewrite Hti, decide_False by lia.
  rewrite decide_False by (rewrite Hr; by intros []).
  pose proof (to_index_range (cfg_ b) (ev_price_ticks ev) (wf_cfg _ _ _ H)) as Hrange.
  rewrite Hti in Hrange. pose proof (wf_len _ _ _ H).
  destruct (lookup_lt_is_Some_2 pss i) as [l Hl]; [rewrite (wf_pss _ _ _ H); lia|].
  destruct (wf_levels_lookup _ _ _ H i l Hl) as (lvl & Hlvl & Hlo).
  destruct (alloc_ok _ _ (wf_pool _ _ _ H)) as (o & p & free' & -> & Hp & Ho & Hk & Hu & Hm).
  cbn [mbind option_bind].
  assert (used p free' o) as [[n0 Hn0] Hof] by (apply Hu; by left).
  rewrite (store_at _ _ _ _ Hn0). cbn [mbind option_bind].
  rewrite vget_nat, Hlvl. cbn [mbind option_bind].
  edestruct (link_back_ok) as (m' & lvl1 & E & Hlk & R & Elv);
    [eapply (join_links0 b pss free H ev i l lvl); eassumption|apply Hlo| |
     apply lookup_insert_eq|].
  { intros Ho'. by eapply (join_fresh b pss free H i l Hl o Ho o). }
  rewrite E. cbn [mbind option_bind]. rewrite vset_in by lia. cbn [mbind option_bind].
  rewrite Nat2Z.id. eexists. split; [done|]. by eapply join_step.
Qed.

(** [on_add] implements [a_add]. *)
Lemma on_add_ok b ev :
  wf b -> in_u 32 (ev_size ev) -> live_orders_ b < 2 ^ 32 - 1 ->
  exists b', on_add ev b = Some b' /\
    book_step b b' (a_add (cfg_ b) (order_of ev) (abs b))
      (if a_out_of_band (cfg_ b) (ev_price_ticks ev)
       then stats_ b <| rejected_out_of_band ::= inc |> else stats_ b) 1
      (uniform (a_add (cfg_ b) (order_of ev) (abs b))).
Proof.
  intros Hwf Hsz Hb. pose proof Hwf as (pss & free & H).
  unfold a_add, a_out_of_band. cbn [a_price a_ref order_of].
  destruct (decide (to_index (cfg_ b) (ev_price_ticks ev) < 0)) as [Hneg|Hpos].
  { unfold on_add. rewrite decide_True, bool_decide_true by done. eexists. split; [done|].
    by eapply step_weaken; [apply stats_step| |]. }
  rewrite bool_decide_false by done.
  case_decide as Hk; rewrite (abs_known _ _ _ H) in Hk.
  { unfold on_add. rewrite decide_False, decide_True by done. eexists. split; [done|].
    split; try done. lia. }
  apply (on_add_join b pss free); try done; [lia|]. by apply eq_None_not_Some.
Qed.

(** ** [remove_order] *)

Lemma retreat_best_total s i b :
  (i < length (levels_ b))%nat ->
  exists b', retreat_best s (Z.of_nat i) b = Some b' /\ same_rest b b'.
Proof.
  intros Hi. unfold retreat_best, rescan_best_bid_from, rescan_best_ask_from.
  case_decide as Hbuy; [|case_decide as Hsell].
  - destruct (scan_bid_spec (levels_ b) (Z.to_nat (Z.of_nat i - 1 + 1))) as (r & -> & _); [lia|].
    by eexists.
  - edestruct (scan_ask_spec (levels_ b)) as (r & -> & _); [| |by eexists]; lia.
  - by eexists.
Qed.

(** The level after an order left it. *)
Lemma level_del_ok m m' c i lvl lvl1 l1 o l2 n :
  level_ok m c i lvl (l1 ++ o :: l2) -> m !! o = Some n ->
  links_ok m' lvl1 (l1 ++ l2) ->
  (forall a, a ∈ l1 ++ l2 -> pay <$> m' !! a = pay <$> m !! a) ->
  aggregate_size lvl1 = aggregate_size lvl -> order_count lvl1 = order_count lvl ->
  Z.of_nat (length (l1 ++ l2)) < 2 ^ 32 ->
  let lvl2 := lvl1 <| aggregate_size ::= fun a => u64 (a - o_size n) |>
                   <| order_count ::= fun k => u32 (k - 1) |> in
  order_count lvl2 = Z.of_nat (length (l1 ++ l2)) /\
  level_ok m' c i
    (if decide (order_count lvl2 = 0) then lvl2 <| lv_side := SideNone |> <| aggregate_size := 0 |>
     else lvl2) (l1 ++ l2).
Proof.
  intros [_ Hnd Hno Hc Ht _] Hn Hlk Hp Hag Hcn Hb lvl2.
  assert (order_count lvl2 = Z.of_nat (length (l1 ++ l2))) as Hcnt.
  { rewrite length_app in Hb. cbn. rewrite Hcn, Hc, !length_app. cbn [length]. unfold u32.
    rewrite wrap_small; [lia|unfold in_u; lia]. }
  split; [done|].
  assert (u64 (aggregate_size lvl - o_size n) = u64 (a_total (view_of m' (l1 ++ l2)))) as Hagg.
  { rewrite Ht, (view_of_frame _ _ _ Hp), !view_of_app, (view_of_cons m o l2 n Hn), !a_total_app.
    change (a_total (view n :: view_of m l2)) with (o_size n + a_total (view_of m l2)).
    unfold u64. rewrite wrap_sub_l. f_equal. lia. }
  split.
  - by case_decide.
  - apply list.NoDup_app in Hnd as (? & ? & [? ?]%list.NoDup_cons).
    apply list.NoDup_app. split; [done|]. split; [set_solver|done].
  - intros a Ha. destruct (Hno a) as (x & Hx & Hok); [set_solver|].
    pose proof (Hp a Ha) as E. rewrite Hx in E. apply fmap_Some in E as (x' & Hx' & Epay).
    exists x'. split; [done|]. by eapply node_ok_pay.
  - by case_decide.
  - case_decide as H0; [|cbn; by rewrite Hag, Hagg].
    rewrite Hcnt in H0. destruct (l1 ++ l2); [done|cbn in H0; lia].
  - intros H0. rewrite decide_True; [done|]. by rewrite Hcnt, H0.
Qed.

(** The index after the order [o] left its slot. *)
Lemma index_del b pss free i l1 o l2 n (m' : heap) :
  wf_with b pss free -> pss !! i = Some (l1 ++ o :: l2) -> mem (pool_ b) !! o = Some n ->
  o ∉ l1 ++ l2 ->
  (forall a, a ∈ l1 ++ l2 -> pay <$> m' !! a = pay <$> mem (pool_ b) !! a) ->
  forall ref a, delete (o_order_ref n) (index_ b) !! ref = Some a <->
    (index_ b !! ref = Some a /\ a ∉ l1 ++ o :: l2) \/
    (a ∈ l1 ++ l2 /\ o_order_ref <$> m' !! a = Some ref).
Proof.
  intros H Hi Hn Ho Hp ref a.
  assert (index_ b !! o_order_ref n = Some o) as Hio.
  { apply (wf_index _ _ _ H). exists i, (l1 ++ o :: l2), n. set_solver. }
  assert (forall x, x ∈ l1 ++ l2 -> forall r, o_order_ref <$> m' !! x = Some r <->
    index_ b !! r = Some x) as Hx.
  { intros x Hx r. destruct (wf_node _ _ _ H i _ x Hi) as (nx & Hnx & _); [set_solver|].
    pose proof (Hp x Hx) as E. rewrite Hnx in E. apply fmap_Some in E as (nx' & -> & E).
    cbn. rewrite <- (pay_ref _ _ E). rewrite (wf_index _ _ _ H). split.
    - intros [= <-]. exists i, (l1 ++ o :: l2), nx. set_solver.
    - intros (? & ? & ? & ? & ? & ? & <-). by simplify_eq. }
  rewrite lookup_delete_Some. split.
  - intros [Hne Hr]. destruct (decide (a ∈ l1 ++ l2)) as [Ha|Ha].
    + right. by rewrite Hx.
    + left. split; [done|]. assert (a <> o); [|set_solver]. intros ->.
      apply (wf_index _ _ _ H) in Hr as (? & ? & ? & ? & ? & ? & <-). by simplify_eq.
  - intros [[Hr Ha]|[Ha Hr]].
    + split; [|done]. intros <-. simplify_eq. set_solver.
    + rewrite Hx in Hr by done. split; [|done]. intros <-. by simplify_eq.
Qed.

Section Leave.
Context (b : OrderBook) (pss : list (list ptr)) (free : list ptr) (H : wf_with b pss free).
Context (i : nat) (l1 : list ptr) (o : ptr) (l2 : list ptr) (lvl : PriceLevel) (n : Order).
Context (Hl : pss !! i = Some (l1 ++ o :: l2)) (Hlvl : levels_ b !! i = Some lvl).
Context (Hn : mem (pool_ b) !! o = Some n).
(* what [unlink] and [release] returned *)
Context (m' : heap) (lvl1 : PriceLevel) (p : OrderPool).
Context (Hlk : links_ok m' lvl1 (l1 ++ l2)) (R : relinked (l1 ++ l2) (mem (pool_ b)) m').
Context (Elv : lvl1 = lvl <| lv_head := first_or (l1 ++ l2) None |>
                          <| lv_tail := last_or None (l1 ++ l2) |>).
Context (Hp : pool_ok p (o :: free)).
Context (Hu : forall x, used p (o :: free) x <-> used (pool_ b <| mem := m' |>) free x /\ x <> o).
Context (Hm : forall x, x <> o -> mem p !! x = m' !! x).

Let lvl2 := lvl1 <| aggregate_size ::= fun a => u64 (a - o_size n) |>
                 <| order_count ::= fun c => u32 (c - 1) |>.
Let lvl' := if decide (order_count lvl2 = 0)
            then lvl2 <| lv_side := SideNone |> <| aggregate_size := 0 |> else lvl2.
Let b1 := b <| index_ ::= delete (o_order_ref n) |> <| pool_ := p |> <| live_orders_ ::= dec |>
            <| levels_ := <[i := lvl']> (levels_ b) |>.

Lemma leave_level : level_ok (mem (pool_ b)) (cfg_ b) i lvl (l1 ++ o :: l2).
Proof. by eapply wf_level. Qed.

Lemma leave_fresh : o ∉ l1 ++ l2.
Proof.
  pose proof (lo_nodup _ _ _ _ _ leave_level) as Hnd.
  clear - Hnd. apply list.NoDup_app in Hnd as (? & ? & [? ?]%list.NoDup_cons). set_solver.
Qed.

Lemma leave_mem a : a ∈ l1 ++ l2 -> mem p !! a = m' !! a.
Proof. intros Ha. apply Hm. intros ->. by apply leave_fresh. Qed.

Lemma leave_pay a : a ∈ l1 ++ l2 -> pay <$> mem p !! a = pay <$> mem (pool_ b) !! a.
Proof. intros Ha. rewrite leave_mem by done. by destruct (R a). Qed.

Lemma leave_links : links_ok (mem p) lvl1 (l1 ++ l2).
Proof. destruct Hlk as [Hd Hh]. split; [|done]. by eapply dseg_frame; [exact leave_mem|]. Qed.

Lemma leave_level_ok :
  order_count lvl2 = Z.of_nat (length (l1 ++ l2)) /\ level_ok (mem p) (cfg_ b) i lvl' (l1 ++ l2).
Proof.
  pose proof (wf_level_length _ _ _ _ _ H Hl) as Hlen. pose proof (wf_live_bound _ _ _ H).
  rewrite length_app in Hlen. cbn in Hlen.
  eapply level_del_ok; [exact leave_level|exact Hn|exact leave_links|exact leave_pay| | |].
  - by subst lvl1.
  - by subst lvl1.
  - rewrite length_app. lia.
Qed.

Lemma leave_used a :
  used p (o :: free) a <-> (used (pool_ b) free a /\ a ∉ l1 ++ o :: l2) \/ a ∈ l1 ++ l2.
Proof.
  rewrite Hu. unfold used at 1. cbn. rewrite (relinked_dom _ _ _ _ R).
  fold (used (pool_ b) free a). pose proof leave_fresh.
  assert (a ∈ l1 ++ l2 -> used (pool_ b) free a)
    by (intros; eapply wf_used_level; [done..|set_solver]).
  destruct (decide (a = o)), (decide (a ∈ l1 ++ l2)); set_solver.
Qed.

Lemma leave_frame a :
  used (pool_ b) free a -> a ∉ l1 ++ o :: l2 -> mem p !! a = mem (pool_ b) !! a.
Proof. intros _ Ha. rewrite Hm by set_solver. apply R. set_solver. Qed.

Lemma leave_live : live_orders_ b1 = live_orders_ b - 1.
Proof.
  cbn. unfold dec, u64. pose proof (wf_live_bound _ _ _ H).
  pose proof (wf_level_length _ _ _ _ _ H Hl) as Hlen. rewrite length_app in Hlen. cbn in Hlen.
  rewrite wrap_small; [done|unfold in_u; lia].
Qed.

Lemma leave_wf : wf_with b1 (<[i := l1 ++ l2]> pss) (o :: free).
Proof.
  pose proof (wf_live_bound _ _ _ H).
  apply (wf_update b pss free H b1 (o :: free) i (l1 ++ o :: l2) lvl' (l1 ++ l2));
    [done|done|done|apply leave_level_ok|exact leave_frame|exact Hp|exact leave_used| | |].
  - by apply (index_del b pss free i l1 o l2 n (mem p) H Hl Hn leave_fresh leave_pay).
  - rewrite leave_live, !length_app. cbn. lia.
  - rewrite leave_live. lia.
Qed.

Lemma leave_abs :
  abs b1 = <[i := view_of (mem (pool_ b)) l1 ++ view_of (mem (pool_ b)) l2]> (abs b).
Proof.
  rewrite (abs_update_level b pss free H b1 (o :: free) i _ (l1 ++ l2) Hl leave_wf leave_frame).
  f_equal. rewrite <- view_of_app. apply view_of_frame. exact leave_pay.
Qed.

Lemma leave_view : abs b !! i = Some (view_of (mem (pool_ b)) l1 ++ view n :: view_of (mem (pool_ b)) l2).
Proof.
  rewrite (abs_lookup _ _ _ H i _ Hl), view_of_app. by rewrite (view_of_cons _ _ _ _ Hn).
Qed.

Lemma leave_sides : sides_ok b -> sides_ok b1.
Proof.
  intros Hs. eapply (sides_insert b b1 i lvl'); [done|done|exact leave_abs|].
  intros x Hx. destruct leave_level_ok as [Hc _].
  assert (a_side x = lv_side lvl) as -> by (eapply Hs; [done|exact leave_view|set_solver]).
  unfold lvl'. rewrite decide_False; [by subst lvl1|]. rewrite Hc.
  destruct (l1 ++ l2) eqn:E; [|cbn; lia]. apply app_eq_nil in E as [-> ->]. set_solver.
Qed.

Lemma leave_side : sides_ok b -> o_side n = lv_side lvl.
Proof. intros Hs. apply (Hs i lvl _ (view n) Hlvl leave_view). set_solver. Qed.

Lemma leave_count : order_count lvl > 0.
Proof. rewrite (lo_count _ _ _ _ _ leave_level), length_app. cbn. lia. Qed.

(** The last order of the level leaves: the best price moves to the next level. *)
Lemma leave_last :
  order_count lvl2 = 0 ->
  exists b', retreat_best (o_side n) (Z.of_nat i) b1 = Some b' /\ same_rest b1 b' /\
    (top_ok b -> top_ok b').
Proof.
  intros H0. destruct (retreat_best_total (o_side n) i b1) as (b' & Hb' & Hs').
  { cbn. rewrite length_insert. by eapply lookup_lt_Some. }
  exists b'. split; [done|]. split; [done|]. intros [Hs [Hb Ha]].
  split; [eapply sides_same; [apply Hs'|by apply leave_sides]|].
  assert (order_count lvl' = 0) as Hc0 by (unfold lvl'; by rewrite decide_True).
  destruct (retreat_best_ok b1 (levels_ b) i lvl lvl') as (b'' & Hb'' & _ & Hok); try done.
  - by apply populated_empty.
  - intros s Hs1. left. rewrite (populated_empty s lvl') by done.
    symmetry. by eapply populated_other.
  - rewrite <- leave_side in Hb'' by done. congruence.
Qed.

(** Other orders stay on the level: the best prices stay. *)
Lemma leave_more : order_count lvl2 <> 0 -> top_ok b -> top_ok b1.
Proof.
  intros H0 [Hs [Hb Ha]]. split; [by apply leave_sides|].
  destruct leave_level_ok as [Hc _].
  assert (forall s, populated s lvl' = populated s lvl) as Hpop.
  { intros s. pose proof leave_count. unfold populated, lvl'. rewrite decide_False by done.
    rewrite !(bool_decide_eq_true_2 (_ > 0)) by lia. by subst lvl1. }
  split; [eapply is_max_same|eapply is_min_same]; eauto.
Qed.
End Leave.

(** The order [o] leaves its queue. *)
Lemma remove_order_ok b pss free i l1 o l2 n :
  wf_with b pss free -> pss !! i = Some (l1 ++ o :: l2) -> mem (pool_ b) !! o = Some n ->
  exists b', remove_order o b = Some b' /\
    book_step b b'
      (<[i := view_of (mem (pool_ b)) l1 ++ view_of (mem (pool_ b)) l2]> (abs b)) (stats_ b) (-1) True.
Proof.
  intros H Hl Hn. destruct (wf_levels_lookup _ _ _ H i _ Hl) as (lvl & Hlvl & Hlo).
  destruct (lo_nodes _ _ _ _ _ Hlo o) as (n' & ? & (Hidx & _)); [set_solver|]. simplify_eq.
  destruct (unlink_ok _ lvl l1 o l2 (lo_links _ _ _ _ _ Hlo) (lo_nodup _ _ _ _ _ Hlo))
    as (m' & lvl1 & Eu & Hlk & R & Elv).
  pose proof (leave_fresh b pss free H i l1 o l2 lvl Hl Hlvl) as Ho.
  assert (m' !! o = Some n) as Hno by (rewrite <- Hn; by apply R).
  assert (used (pool_ b) free o) as [Hdo Hfo] by (eapply wf_used_level; [done..|set_solver]).
  destruct (release_ok o (pool_ b <| mem := m' |>) free) as (p & Er & Hp & Hu & Hm).
  { apply pool_ok_mem; [apply H| |intros a; by eapply relinked_dom].
    intros a Ha. apply R. intros Hal.
    assert (used (pool_ b) free a) as [_ ?]; [|done]. eapply wf_used_level; [done..|set_solver]. }
  { split; [|done]. by exists n. }
  unfold remove_order. rewrite Hn. cbn [mbind option_bind].
  rewrite Hidx, vget_nat, Hlvl. cbn [mbind option_bind]. rewrite Eu. cbn [mbind option_bind].
  rewrite Hno. cbn [mbind option_bind]. rewrite Er. cbn [mbind option_bind].
  pose proof (lookup_lt_Some _ _ _ Hlvl) as Hlt.
  pose proof (leave_wf b pss free H i l1 o l2 lvl n Hl Hlvl Hn m' lvl1 p Hlk R Elv Hp Hu Hm) as Hwf.
  pose proof (leave_abs b pss free H i l1 o l2 lvl n Hl Hlvl Hn m' lvl1 p Hlk R Elv Hp Hu Hm) as Habs.
  pose proof (leave_live b pss free H i l1 o l2 n Hl) as Hlive.
  case_decide as H0.
  - rewrite vset_in by (cbn; lia). cbn [mbind option_bind]. rewrite Nat2Z.id.
    destruct (leave_last b pss free H i l1 o l2 lvl n Hl Hlvl Hn m' lvl1 p Hlk R Elv Hp Hu Hm H0)
      as (b' & Hret & [Hsame Hst] & Htop).
    cbv zeta in *. rewrite decide_True in Hret, Hsame, Hst by done.
    exists b'. split; [done|]. split; try done.
    + eexists _, _. eapply wf_same; [exact Hsame|exact Hwf].
    + rewrite (abs_same _ _ Hsame). exact Habs.
    + by destruct Hsame as (-> & _).
    + destruct Hsame as (_ & _ & _ & _ & -> & _).
      transitivity (live_orders_ b - 1); [apply Z.eq_le_incl; exact (Hlive lvl1 p)|lia].
    + by destruct Hsame as (_ & _ & _ & _ & _ & ->).
    + auto.
  - rewrite vset_in by (cbn; lia). cbn [mbind option_bind]. rewrite Nat2Z.id.
    pose proof (leave_more b pss free H i l1 o l2 lvl n Hl Hlvl Hn m' lvl1 p Hlk R Elv Hp Hu Hm H0) as Htop.
    cbv zeta in *. rewrite decide_False in Htop by done.
    eexists. split; [done|]. split; try done.
    + by eexists _, _.
    + transitivity (live_orders_ b - 1); [apply Z.eq_le_incl; exact (Hlive lvl1 p)|lia].
    + auto.
Qed.

(** ** [reduce_order] *)

(** A segment only depends on the links of its nodes. *)
Lemma dseg_links m m' pv l nx :
  (forall a n, a ∈ l -> m !! a = Some n ->
    exists n', m' !! a = Some n' /\ o_prev n' = o_prev n /\ o_next n' = o_next n) ->
  dseg m pv l nx -> dseg m' pv l nx.
Proof.
  revert pv. induction l as [|a l IH]; cbn [dseg]; intros pv Hm; [done|].
  intros (n & Hn & Hp & Hx & Hd). destruct (Hm a n) as (n' & ? & ? & ?); [by left|done|].
  exists n'. split; [done|]. split; [congruence|]. split; [congruence|].
  apply IH; [|done]. intros. apply Hm; [by right|done].
Qed.

Section Shrink.
Context (b : OrderBook) (pss : list (list ptr)) (free : list ptr) (H : wf_with b pss free).
Context (i : nat) (l1 : list ptr) (o : ptr) (l2 : list ptr) (lvl : PriceLevel) (n : Order).
Context (Hl : pss !! i = Some (l1 ++ o :: l2)) (Hlvl : levels_ b !! i = Some lvl).
Context (Hn : mem (pool_ b) !! o = Some n) (d : Z) (Hd : 0 <= d <= o_size n).

(** The order [o] is [d] shares smaller. *)
Let n1 := n <| o_size ::= fun s => u32 (s - d) |>.
Let m1 := <[o := n1]> (mem (pool_ b)).
Let lvl' := lvl <| aggregate_size ::= fun a => u64 (a - d) |>.
Let b1 := b <| levels_ := <[i := lvl']> (levels_ b) |> <| pool_ ::= fun p => p <| mem := m1 |> |>.

Lemma shrink_level : level_ok (mem (pool_ b)) (cfg_ b) i lvl (l1 ++ o :: l2).
Proof. by eapply wf_level. Qed.

Lemma shrink_fresh : o ∉ l1 /\ o ∉ l2.
Proof.
  pose proof (lo_nodup _ _ _ _ _ shrink_level) as Hnd. clear - Hnd.
  apply list.NoDup_app in Hnd as (? & ? & [? ?]%list.NoDup_cons). set_solver.
Qed.

Lemma shrink_size : o_size n1 = o_size n - d /\ in_u 32 (o_size n1).
Proof.
  destruct (lo_nodes _ _ _ _ _ shrink_level o) as (n' & Hn' & (_ & Hs & _)); [set_solver|].
  simplify_eq. cbn. unfold u32. unfold in_u in *. rewrite wrap_small by (unfold in_u; lia). lia.
Qed.

Lemma shrink_other l : o ∉ l -> view_of m1 l = view_of (mem (pool_ b)) l.
Proof.
  intros Ho. apply view_of_frame. intros a Ha. unfold m1. rewrite lookup_insert_ne; [done|].
  by intros <-.
Qed.

Lemma shrink_view :
  view_of m1 (l1 ++ o :: l2) =
  view_of (mem (pool_ b)) l1 ++ (view n <| a_size ::= fun s => s - d |>) ::
  view_of (mem (pool_ b)) l2.
Proof.
  destruct shrink_fresh as [H1 H2]. rewrite view_of_app, (view_of_cons m1 o l2 n1)
    by apply lookup_insert_eq.
  rewrite (shrink_other l1 H1), (shrink_other l2 H2). do 2 f_equal.
  unfold view. rewrite (proj1 shrink_size). done.
Qed.

Lemma shrink_nodes a x : mem (pool_ b) !! a = Some x ->
  exists x', m1 !! a = Some x' /\ o_prev x' = o_prev x /\ o_next x' = o_next x /\
    o_order_ref x' = o_order_ref x /\ (forall j, node_ok (cfg_ b) j x -> node_ok (cfg_ b) j x').
Proof.
  intros Hx. unfold m1. destruct (decide (a = o)) as [->|].
  - rewrite lookup_insert_eq. simplify_eq. eexists. repeat (split; [done|]).
    intros j (? & ? & ?). split; [done|]. split; [apply shrink_size|done].
  - rewrite lookup_insert_ne by done. exists x. done.
Qed.

Lemma shrink_level_ok : level_ok m1 (cfg_ b) i lvl' (l1 ++ o :: l2).
Proof.
  destruct shrink_level as [[Hds Hht] Hnd Hno Hc Ht He]. split; try done.
  - split; [|done]. eapply dseg_links; [|done]. intros a x _ Hx.
    destruct (shrink_nodes a x Hx) as (x' & ? & ? & ? & _). eauto.
  - intros a Ha. destruct (Hno a Ha) as (x & Hx & Hok).
    destruct (shrink_nodes a x Hx) as (x' & ? & _ & _ & _ & Hj). eauto.
  - cbn. rewrite Ht, shrink_view, view_of_app, (view_of_cons _ _ _ _ Hn), !a_total_app.
    unfold u64. rewrite wrap_sub_l. f_equal.
    change (a_total (?x :: ?q)) with (a_size x + a_total q). cbn. lia.
Qed.

Lemma shrink_wf : wf_with b1 pss free.
Proof.
  rewrite <- (list_insert_id pss i (l1 ++ o :: l2)) by done.
  apply (wf_update b pss free H b1 free i (l1 ++ o :: l2) lvl' (l1 ++ o :: l2));
    [done|done|done|exact shrink_level_ok| | | | | |].
  - intros a _ Ha. cbn. unfold m1. rewrite lookup_insert_ne; [done|]. set_solver.
  - apply pool_ok_mem; [apply H| |].
    + intros a Ha. unfold m1. rewrite lookup_insert_ne; [done|]. intros <-.
      assert (used (pool_ b) free o) as [_ ?]; [|done]. eapply wf_used_level; [done..|set_solver].
    + intros a. apply lookup_insert_is_Some_iff. by exists n.
  - intros a. unfold used at 1. cbn. unfold m1. rewrite lookup_insert_is_Some_iff by by exists n.
    fold (used (pool_ b) free a).
    destruct (decide (a ∈ l1 ++ o :: l2)) as [Ha|]; [|tauto].
    pose proof (wf_used_level _ _ _ H i _ a Hl Ha). tauto.
  - intros ref a. cbn. assert (a ∈ l1 ++ o :: l2 ->
      o_order_ref <$> m1 !! a = Some ref <-> index_ b !! ref = Some a) as Hx.
    { intros Ha. destruct (wf_node _ _ _ H i _ a Hl Ha) as (x & Hx & _).
      destruct (shrink_nodes a x Hx) as (x' & -> & _ & _ & E & _). cbn.
      rewrite (wf_index _ _ _ H), E. split; [intros [= <-]; by eauto 10|].
      intros (? & ? & ? & ? & ? & ? & <-). by simplify_eq. }
    destruct (decide (a ∈ l1 ++ o :: l2)); tauto.
  - cbn. lia.
  - apply H.
Qed.

Lemma shrink_abs :
  abs b1 = <[i := view_of (mem (pool_ b)) l1 ++ (view n <| a_size ::= fun s => s - d |>) ::
    view_of (mem (pool_ b)) l2]> (abs b).
Proof.
  rewrite <- shrink_view. eapply (abs_update_level b pss free H b1 free i _ _ Hl).
  - rewrite list_insert_id by done. exact shrink_wf.
  - intros a _ Ha. cbn. unfold m1. rewrite lookup_insert_ne; [done|]. set_solver.
Qed.

Lemma shrink_step :
  book_step b b1
    (<[i := view_of (mem (pool_ b)) l1 ++ (view n <| a_size ::= fun s => s - d |>) ::
       view_of (mem (pool_ b)) l2]> (abs b)) (stats_ b) 0 True.
Proof.
  split; try done.
  - exists pss, free. exact shrink_wf.
  - exact shrink_abs.
  - cbn. lia.
  - intros [Hs [Hb Ha]] _. split.
    + eapply (sides_insert b b1 i lvl'); [done|done|exact shrink_abs|].
      intros x Hx. cbn.
      pose proof (abs_lookup _ _ _ H i _ Hl) as E. rewrite view_of_app, (view_of_cons _ _ _ _ Hn) in E.
      assert (forall y, y ∈ view_of (mem (pool_ b)) l1 ++ view n :: view_of (mem (pool_ b)) l2 ->
        a_side y = lv_side lvl) as Hy by (intros; by eapply Hs).
      apply elem_of_app in Hx as [?|[->|?]%elem_of_cons]; [apply Hy; set_solver| |apply Hy; set_solver].
      apply (Hy (view n)). set_solver.
    + split; [eapply is_max_same|eapply is_min_same]; done.
Qed.
End Shrink.

(** The order [o] loses [shares], and leaves when nothing is left. *)
Lemma reduce_order_ok b pss free i l1 o l2 n shares :
  wf_with b pss free -> pss !! i = Some (l1 ++ o :: l2) -> mem (pool_ b) !! o = Some n ->
  0 <= shares ->
  exists b', reduce_order o shares b = Some b' /\
    book_step b b' (a_reduce shares (o_order_ref n) (abs b)) (stats_ b) 0 True.
Proof.
  intros H Hl Hn Hsh. destruct (wf_levels_lookup _ _ _ H i _ Hl) as (lvl & Hlvl & Hlo).
  destruct (lo_nodes _ _ _ _ _ Hlo o) as (n' & ? & (Hidx & [Hsz _] & _)); [set_solver|]. simplify_eq.
  assert (index_ b !! o_order_ref n = Some o) as Hi.
  { apply (wf_index _ _ _ H). exists i, (l1 ++ o :: l2), n. set_solver. }
  pose proof (lookup_lt_Some _ _ _ Hlvl) as Hlt.
  set (d := Z.min shares (o_size n)). assert (0 <= d <= o_size n) as Hd by lia.
  pose proof (shrink_step b pss free H i l1 o l2 lvl n Hl Hlvl Hn d Hd) as S1.
  pose proof (shrink_wf b pss free H i l1 o l2 lvl n Hl Hlvl Hn d Hd) as W1.
  destruct (shrink_size b pss free H i l1 o l2 lvl n Hl Hlvl Hn d Hd) as [Z1 _].
  destruct (shrink_fresh b pss free H i l1 o l2 lvl Hl Hlvl) as [F1 F2].
  cbv zeta in *.
  unfold reduce_order. rewrite Hn. cbn [mbind option_bind]. rewrite Hidx, vget_nat, Hlvl.
  cbn [mbind option_bind]. rewrite vset_in by lia. cbn [mbind option_bind].
  rewrite (store_at _ _ _ _ Hn). cbn [mbind option_bind]. rewrite Nat2Z.id. fold d.
  rewrite lookup_insert_eq. cbn [mbind option_bind]. rewrite Z1.
  unfold a_reduce. rewrite (abs_update_at b pss free H _ _ o i l1 l2 n) by done. cbn [a_size view].
  destruct (decide (o_size n <= shares)) as [Hle|Hgt].
  - rewrite decide_True by lia.
    match type of W1 with wf_with ?x _ _ => set (b1 := x) in * end.
    set (n1 := n <| o_size ::= fun s => u32 (s - d) |>) in *.
    assert (mem (pool_ b1) = <[o := n1]> (mem (pool_ b))) as Em by done.
    destruct (remove_order_ok b1 pss free i l1 o l2 n1 W1 Hl) as (b' & Hb' & S2);
      [rewrite Em; apply lookup_insert_eq|].
    exists b'. split; [exact Hb'|].
    rewrite (bs_abs _ _ _ _ _ _ S1), list_insert_insert_eq, Em in S2. unfold n1 in S2.
    rewrite !(shrink_other b o n d) in S2 by done.
    eapply step_weaken; [exact (step_trans _ _ _ _ _ _ _ _ _ _ _ S1 S2)|lia|done].
  - rewrite decide_False by lia. eexists. split; [done|].
    replace d with shares in S1 |- * by lia. exact S1.
Qed.

(** ** [apply] *)

Lemma step_refl b : wf b -> book_step b b (abs b) (stats_ b) 0 True.
Proof. intros. split; try done. lia. Qed.

(** The node an index entry points to, in its queue. *)
Lemma known_node b pss free ref o :
  wf_with b pss free -> index_ b !! ref = Some o ->
  exists i l1 l2 n, pss !! i = Some (l1 ++ o :: l2) /\ mem (pool_ b) !! o = Some n /\
    o_order_ref n = ref.
Proof.
  intros H Hr. destruct (index_view b pss free H ref o Hr) as (i & l & n & Hl & Ho & Hn & ?).
  apply list_elem_of_split in Ho as (l1 & l2 & ->). eauto 10.
Qed.

(** Removing by reference. *)
Lemma remove_ref_ok b pss free ref o n :
  wf_with b pss free -> index_ b !! ref = Some o -> mem (pool_ b) !! o = Some n ->
  exists b', remove_order o b = Some b' /\
    book_step b b' (a_remove ref (abs b)) (stats_ b) (-1) True.
Proof.
  intros H Hr Hn. destruct (known_node _ _ _ _ _ H Hr) as (i & l1 & l2 & n' & Hl & Hn' & _).
  simplify_eq. destruct (remove_order_ok b pss free i l1 o l2 n H Hl Hn) as (b' & ? & S).
  exists b'. split; [done|]. unfold a_remove.
  by rewrite (abs_update_at b pss free H _ ref o i l1 l2 n Hr Hl Hn).
Qed.

(** A handler that looks its order up first. *)
Lemma with_ref_ok b ref k ls fs m (U : Prop) :
  wf b -> 0 <= m ->
  (a_lookup ref (abs b) = None -> ls = abs b) ->
  (forall pss free o n, wf_with b pss free -> index_ b !! ref = Some o ->
    mem (pool_ b) !! o = Some n -> o_order_ref n = ref -> a_lookup ref (abs b) = Some (view n) ->
    exists b', k o b = Some b' /\ book_step b b' ls (fs (stats_ b)) m U) ->
  exists b', with_ref ref k b = Some b' /\
    book_step b b' ls
      (if bool_decide (is_Some (a_lookup ref (abs b))) then fs (stats_ b)
       else stats_ b <| unknown_ref ::= inc |>) m U.
Proof.
  intros Hwf Hm Hunk Hk. pose proof Hwf as (pss & free & H). unfold with_ref.
  pose proof (abs_lookup_ref b pss free H ref) as E.
  destruct (index_ b !! ref) as [o|] eqn:Hr; cbn in E.
  - destruct (known_node _ _ _ _ _ H Hr) as (i & l1 & l2 & n & Hl & Hn & Href).
    rewrite Hn in E. cbn in E. rewrite bool_decide_true by (rewrite E; by eexists). eauto.
  - rewrite bool_decide_false by (rewrite E; by intros []). rewrite Hunk by done.
    eexists. split; [done|]. by eapply step_weaken; [apply stats_step| |].
Qed.

Lemma reduce_ref_ok b ref shares :
  wf b -> 0 <= shares ->
  exists b', with_ref ref (fun o => reduce_order o shares) b = Some b' /\
    book_step b b' (a_reduce shares ref (abs b))
      (if bool_decide (is_Some (a_lookup ref (abs b))) then stats_ b
       else stats_ b <| unknown_ref ::= inc |>) 0 True.
Proof.
  intros Hwf Hsh. apply (with_ref_ok b ref _ _ (fun s => s)); [done|done| |].
  - intros Hun. destruct Hwf as (pss & free & H). apply (abs_update_unknown b pss free H).
    apply eq_None_not_Some. rewrite <- (abs_known b pss free H), Hun. by intros [].
  - intros pss free o n H Hr Hn <- _.
    destruct (known_node _ _ _ _ _ H Hr) as (i & l1 & l2 & n' & Hl & Hn' & _). simplify_eq.
    by apply (reduce_order_ok b pss free i l1 o l2 n).
Qed.

Lemma delete_ref_ok b ref :
  wf b ->
  exists b', with_ref ref remove_order b = Some b' /\
    book_step b b' (a_remove ref (abs b))
      (if bool_decide (is_Some (a_lookup ref (abs b))) then stats_ b
       else stats_ b <| unknown_ref ::= inc |>) 0 True.
Proof.
  intros Hwf. apply (with_ref_ok b ref _ _ (fun s => s)); [done|done| |].
  - intros Hun. destruct Hwf as (pss & free & H). apply (abs_update_unknown b pss free H).
    apply eq_None_not_Some. rewrite <- (abs_known b pss free H), Hun. by intros [].
  - intros pss free o n H Hr Hn <- _.
    destruct (remove_ref_ok b pss free _ o n H Hr Hn) as (b' & ? & S). exists b'.
    split; [done|]. by eapply step_weaken.
Qed.

Lemma replace_ref_ok b ev :
  wf b -> in_u 32 (ev_size ev) -> live_orders_ b < 2 ^ 32 - 1 ->
  exists b', with_ref (ev_order_ref ev) (replace_order ev) b = Some b' /\
    book_step b b' (a_replace (cfg_ b) ev (abs b))
      (if bool_decide (is_Some (a_lookup (ev_order_ref ev) (abs b))) then
         if a_out_of_band (cfg_ b) (ev_price_ticks ev)
         then stats_ b <| rejected_out_of_band ::= inc |> else stats_ b
       else stats_ b <| unknown_ref ::= inc |>) 0 (uniform (a_replace (cfg_ b) ev (abs b))).
Proof.
  intros Hwf Hsz Hb.
  apply (with_ref_ok b (ev_order_ref ev) _ _ (fun s => if a_out_of_band (cfg_ b) (ev_price_ticks ev)
    then s <| rejected_out_of_band ::= inc |> else s)); [done|done| |].
  - intros Hun. unfold a_replace. by rewrite Hun.
  - intros pss free o n H Hr Hn Href Hlk. unfold replace_order, a_replace. rewrite Hn, Hlk.
    cbn [mbind option_bind].
    destruct (remove_ref_ok b pss free _ o n H Hr Hn) as (b1 & -> & S1). cbn [mbind option_bind].
    set (ev' := ev <| ev_type := Add |> <| ev_order_ref := ev_new_order_ref ev |>
                   <| ev_side := o_side n |>).
    pose proof (bs_live _ _ _ _ _ _ S1).
    destruct (on_add_ok b1 ev' (bs_wf _ _ _ _ _ _ S1) Hsz) as (b2 & Hb2 & S2); [lia|].
    exists b2. split; [done|].
    rewrite (bs_cfg _ _ _ _ _ _ S1), (bs_abs _ _ _ _ _ _ S1), (bs_stats _ _ _ _ _ _ S1) in S2.
    eapply step_weaken; [exact (step_trans _ _ _ _ _ _ _ _ _ _ _ S1 S2)|lia|done].
Qed.

Lemma crossed_same b b' :
  best_bid_idx_ b' = best_bid_idx_ b -> best_ask_idx_ b' = best_ask_idx_ b ->
  is_crossed b' = is_crossed b.
Proof. unfold is_crossed. by intros -> ->. Qed.

Lemma dispatch_ok b ev :
  wf b -> in_u 32 (ev_size ev) -> live_orders_ b < 2 ^ 32 - 1 ->
  exists b', dispatch ev b = Some b' /\
    book_step b b' (a_apply (cfg_ b) ev (abs b)) (a_counts (cfg_ b) ev (abs b) (stats_ b)) 1
      (uniform (a_apply (cfg_ b) ev (abs b))).
Proof.
  intros Hwf Hsz Hb.
  assert (forall f, wf (b <| stats_ ::= f |>)) as Hwf1 by (intros; apply (stats_step b f Hwf)).
  assert (0 <= ev_size ev) as Hsh by apply Hsz.
  assert (forall b0 ls st n (U U' : Prop) f, b0 = b <| stats_ ::= f |> -> n <= 1 -> (U' -> U) ->
    forall b', book_step b0 b' ls st n U -> book_step b b' ls st 1 U') as Haft.
  { intros b0 ls st n U U' f -> Hn HU b' S.
    pose proof (step_trans _ _ _ _ _ _ _ _ _ _ _ (stats_step b f Hwf) S) as S'.
    eapply step_weaken; [exact S'|lia|auto]. }
  assert (wf b) as Hr by done. apply step_refl in Hr.
  unfold dispatch, a_apply, a_counts. destruct (ev_type ev); try by
    (eexists; split; [done|]; eapply step_weaken; [exact Hr| |]).
  - destruct (on_add_ok (b ++ₛ adds) ev (Hwf1 _) Hsz Hb) as (b' & ? & S).
    exists b'. split; [done|]. by eapply Haft; [reflexivity| | |exact S].
  - destruct (reduce_ref_ok (b ++ₛ cancels) (ev_order_ref ev) (ev_size ev)) as (b' & ? & S); [done..|].
    exists b'. split; [done|]. by eapply Haft; [reflexivity| | |exact S].
  - destruct (delete_ref_ok (b ++ₛ deletes) (ev_order_ref ev)) as (b' & ? & S); [done..|].
    exists b'. split; [done|]. by eapply Haft; [reflexivity| | |exact S].
  - destruct (reduce_ref_ok (b ++ₛ executes) (ev_order_ref ev) (ev_size ev)) as (b' & ? & S); [done..|].
    exists b'. split; [done|]. by eapply Haft; [reflexivity| | |exact S].
  - destruct (reduce_ref_ok (b ++ₛ executes) (ev_order_ref ev) (ev_size ev)) as (b' & ? & S); [done..|].
    exists b'. split; [done|]. by eapply Haft; [reflexivity| | |exact S].
  - destruct (replace_ref_ok (b ++ₛ replaces) ev) as (b' & ? & S); [done..|].
    exists b'. split; [done|]. by eapply Haft; [reflexivity| | |exact S].
  - eexists. split; [done|]. by eapply step_weaken; [apply stats_step| |].
Qed.

Lemma apply_step b ev :
  wf b -> in_u 32 (ev_size ev) -> live_orders_ b < 2 ^ 32 - 1 ->
  exists b', apply ev b = Some b' /\
    book_step b b' (a_apply (cfg_ b) ev (abs b))
      (a_stats (cfg_ b) ev (abs b) (is_crossed b') (stats_ b)) 1
      (uniform (a_apply (cfg_ b) ev (abs b))).
Proof.
  intros Hwf Hsz Hb. destruct (dispatch_ok b ev Hwf Hsz Hb) as (b1 & E & S1).
  unfold apply. rewrite E. cbn [mbind option_bind]. eexists. split; [done|].
  pose proof (bs_wf _ _ _ _ _ _ S1) as W1.
  assert (is_crossed (note_crossed (b1 ++ₛ applied)) = is_crossed b1) as ->.
  { unfold note_crossed. by destruct (is_crossed (b1 ++ₛ applied)). }
  unfold note_crossed, a_stats. rewrite <- (bs_stats _ _ _ _ _ _ S1), <- (bs_abs _ _ _ _ _ _ S1).
  change (is_crossed (b1 ++ₛ applied)) with (is_crossed b1).
  pose proof (fun f => step_trans _ _ _ _ _ _ _ _ _ _ _ S1 (stats_step b1 f W1)) as S2.
  rewrite (bs_abs _ _ _ _ _ _ S1) in S2 |- *.
  destruct (is_crossed b1).
  - eapply step_weaken; [exact (S2 (fun s => s <| applied ::= inc |> <| crossed_observed ::= inc |>))|lia|done].
  - eapply step_weaken; [exact (S2 (fun s => s <| applied ::= inc |>))|lia|done].
Qed.
