(* ===== verification/BookLadder.v ===== *)
(** * Price ladders

    What the read side of the book shows, as a function of the queues: the
    populated levels of one side in price order.  [best_bid], [best_ask],
    [depth_bids], [depth_asks], [is_crossed] and [spread_ticks] of a well-formed
    book with right best prices are these functions. *)

From Stdlib Require Import Sorted.
From stdpp Require Import base list gmap numbers.
From S2P Require Import Prelude MarketEvent OrderPool OrderBook BookSpec OrderBookWf.
From S2P Require Import OrderBookBest.

(** ** Specification *)

(** The side of a queue is the side of its oldest order. *)
Definition q_side (s : Side) (q : list AOrder) : bool :=
  match q with [] => false | o :: _ => bool_decide (a_side o = s) end.

Definition a_level (c : OrderBookConfig) (i : Z) (q : list AOrder) : BookLevel :=
  mkBookLevel (to_price c i) (u64 (a_total q)) (Z.of_nat (length q)) true.

(** The levels of side [s] among the slots [i], [i+1], ... *)
Fixpoint ladder_up (c : OrderBookConfig) (s : Side) (i : Z) (ls : queues) : list BookLevel :=
  match ls with
  | [] => []
  | q :: ls => (if q_side s q then [a_level c i q] else []) ++ ladder_up c s (i + 1) ls
  end.

Definition a_asks (c : OrderBookConfig) (ls : queues) : list BookLevel := ladder_up c Sell 0 ls.
Definition a_bids (c : OrderBookConfig) (ls : queues) : list BookLevel :=
  reverse (ladder_up c Buy 0 ls).

(** The best level of a ladder. *)
Definition a_best (l : list BookLevel) : BookLevel := default no_level (head l).

(** The best bid is at or above the best ask. *)
Definition a_crossed (c : OrderBookConfig) (ls : queues) : bool :=
  match a_bids c ls, a_asks c ls with
  | x :: _, y :: _ => bool_decide (bl_price_ticks x >= bl_price_ticks y)
  | _, _ => false
  end.

Definition a_spread (c : OrderBookConfig) (ls : queues) : Z :=
  match a_bids c ls, a_asks c ls with
  | x :: _, y :: _ => bl_price_ticks y - bl_price_ticks x
  | _, _ => -1
  end.

(** ** Lemmas on ladders *)

Lemma ladder_up_app c s i ls1 ls2 :
  ladder_up c s i (ls1 ++ ls2) =
  ladder_up c s i ls1 ++ ladder_up c s (i + Z.of_nat (length ls1)) ls2.
Proof.
  revert i. induction ls1 as [|q ls1 IH]; intros i; cbn [ladder_up app length].
  - by rewrite Z.add_0_r.
  - rewrite IH, <- app_assoc. do 3 f_equal. lia.
Qed.

Lemma ladder_up_nil c s i ls :
  (forall j q, ls !! j = Some q -> q_side s q = false) -> ladder_up c s i ls = [].
Proof.
  revert i. induction ls as [|q ls IH]; intros i H; [done|]. cbn.
  rewrite (H 0%nat q eq_refl). apply IH. intros j. apply (H (S j)).
Qed.

(** A ladder upwards is strictly increasing, downwards strictly decreasing. *)
Lemma ladder_up_bound c s i ls x :
  1 <= tick c -> x ∈ ladder_up c s i ls -> to_price c i <= bl_price_ticks x.
Proof.
  intros Ht. revert i. induction ls as [|q ls IH]; intros i; cbn; [set_solver|].
  intros [Hx|Hx%IH]%elem_of_app; [|unfold to_price in *; nia].
  destruct (q_side s q); [|set_solver]. apply list_elem_of_singleton in Hx as ->. done.
Qed.

Definition price_lt (x y : BookLevel) : Prop := bl_price_ticks x < bl_price_ticks y.

Lemma ladder_up_sorted c s i ls : 1 <= tick c -> StronglySorted price_lt (ladder_up c s i ls).
Proof.
  intros Ht. revert i. induction ls as [|q ls IH]; intros i; cbn; [constructor|].
  destruct (q_side s q); cbn; [|apply IH]. constructor; [apply IH|].
  apply list.Forall_forall. intros x Hx%ladder_up_bound; [|done].
  unfold price_lt, a_level. cbn [bl_price_ticks]. unfold to_price in *. lia.
Qed.

Lemma sorted_snoc (R : BookLevel -> BookLevel -> Prop) l x :
  StronglySorted R l -> Forall (fun y => R y x) l -> StronglySorted R (l ++ [x]).
Proof.
  induction 1 as [|y l Hs IH Hy]; intros Hf; cbn; [repeat constructor|].
  apply list.Forall_cons in Hf as [? ?]. constructor; [by apply IH|].
  apply list.Forall_app. by repeat constructor.
Qed.

Lemma reverse_sorted l :
  StronglySorted price_lt l -> StronglySorted (flip price_lt) (reverse l).
Proof.
  induction 1 as [|x l Hs IH Hx]; [constructor|]. rewrite reverse_cons.
  apply sorted_snoc; [done|]. by apply list.Forall_reverse.
Qed.

Lemma sorted_take (R : BookLevel -> BookLevel -> Prop) l n :
  StronglySorted R l -> StronglySorted R (take n l).
Proof.
  intros Hs. revert n. induction Hs as [|x l Hs IH Hx]; intros [|n]; cbn; try constructor; [done|].
  apply list.Forall_forall. intros y (i & Hy%list_elem_of_lookup_2 & _)%elem_of_take.
  rewrite list.Forall_forall in Hx. auto.
Qed.

(** Every level of a ladder has an order. *)
Lemma ladder_up_orders c s i ls x :
  x ∈ ladder_up c s i ls -> bl_order_count x > 0 /\ valid x = true.
Proof.
  revert i. induction ls as [|q ls IH]; intros i; cbn; [set_solver|].
  intros [Hx|Hx%IH]%elem_of_app; [|done]. destruct q as [|o q]; cbn in Hx; [set_solver|].
  case_bool_decide; [|set_solver]. apply list_elem_of_singleton in Hx as ->. cbn. lia.
Qed.

(** ** The read side of a book *)

(** A level shows what its queue holds. *)
Definition shows (b : OrderBook) (ls : queues) : Prop :=
  length ls = length (levels_ b) /\
  forall i lvl, levels_ b !! i = Some lvl ->
    exists q, ls !! i = Some q /\ (forall s, s <> SideNone -> populated s lvl = q_side s q) /\
      level_view b (Z.of_nat i) lvl = a_level (cfg_ b) (Z.of_nat i) q.

(** The levels of a well-formed book show its queues. *)
Lemma wf_shows b pss free : wf_with b pss free -> sides_ok b -> shows b (abs b).
Proof.
  intros H Hs. split; [apply length_fmap|]. intros i lvl Hl.
  destruct (lookup_lt_is_Some_2 pss i) as [l Hp].
  { rewrite (wf_pss _ _ _ H). by eapply lookup_lt_Some. }
  pose proof (wf_level _ _ _ H i lvl l Hl Hp) as [_ _ Hn Hc Ht _].
  pose proof (abs_lookup b pss free H i l Hp) as Hq.
  assert (length (view_of (mem (pool_ b)) l) = length l) as Hlen.
  { apply length_view_of. intros a (n & ? & _)%Hn. by exists n. }
  eexists. split; [done|]. split.
  - intros s Hne. unfold populated. rewrite Hc, <- Hlen.
    destruct (view_of (mem (pool_ b)) l) as [|o q] eqn:E; [done|].
    rewrite (bool_decide_eq_true_2 (_ > 0)) by (cbn; lia). cbn. apply bool_decide_ext.
    rewrite <- (Hs i lvl (o :: q) o Hl) by (try done; by left). done.
  - unfold level_view, a_level. by rewrite Hc, Ht, Hlen.
Qed.

Section Read.
Context (b : OrderBook) (ls : queues) (Hsh : shows b ls).

Lemma level_queue i lvl :
  levels_ b !! i = Some lvl ->
  exists q, ls !! i = Some q /\ (forall s, s <> SideNone -> populated s lvl = q_side s q) /\
    level_view b (Z.of_nat i) lvl = a_level (cfg_ b) (Z.of_nat i) q.
Proof. apply Hsh. Qed.

Lemma length_abs : length ls = length (levels_ b).
Proof. apply Hsh. Qed.

Lemma depth_down_spec k n :
  (k <= length (levels_ b))%nat ->
  depth_down b k n = Some (take n (reverse (ladder_up (cfg_ b) Buy 0 (take k ls)))).
Proof.
  revert n. induction k as [|k IH]; intros n Hk; [by destruct n|].
  destruct n as [|n]; [done|]. cbn [depth_down]. rewrite vget_nat.
  destruct (lookup_lt_is_Some_2 (levels_ b) k) as [lvl Hl]; [lia|].
  rewrite Hl. cbn [mbind option_bind]. destruct (level_queue k lvl Hl) as (q & Hq & Hp & Hv).
  rewrite (take_S_r _ _ _ Hq), ladder_up_app, length_take, length_abs, Nat.min_l by lia.
  cbn [ladder_up]. rewrite app_nil_r, reverse_app, Hp by done.
  destruct (q_side Buy q); cbn.
  - rewrite IH by lia. cbn. by rewrite Hv.
  - rewrite IH by lia. done.
Qed.

Lemma depth_up_spec k i n :
  i + Z.of_nat k = Z.of_nat (length (levels_ b)) -> 0 <= i ->
  depth_up b k i n = Some (take n (ladder_up (cfg_ b) Sell i (drop (Z.to_nat i) ls))).
Proof.
  revert i n. induction k as [|k IH]; intros i n Hk Hi.
  { rewrite drop_ge; [by destruct n|]. rewrite length_abs. lia. }
  destruct n as [|n]; [done|]. cbn [depth_up].
  destruct (lookup_lt_is_Some_2 (levels_ b) (Z.to_nat i)) as [lvl Hl]; [lia|].
  rewrite (proj2 (vget_Some _ _ _) (conj Hi Hl)). cbn [mbind option_bind].
  destruct (level_queue _ lvl Hl) as (q & Hq & Hp & Hv). rewrite Z2Nat.id in Hv by done.
  rewrite (drop_S _ _ _ Hq). cbn [ladder_up]. rewrite Hp by done.
  replace (S (Z.to_nat i)) with (Z.to_nat (i + 1)) by lia.
  destruct (q_side Sell q); cbn.
  - rewrite IH by lia. cbn. by rewrite Hv.
  - rewrite IH by lia. done.
Qed.

Context (Hb : best_ok b).

(** Above the best bid (below the best ask) there is nothing to show. *)
Lemma bids_from_best :
  a_bids (cfg_ b) ls =
  reverse (ladder_up (cfg_ b) Buy 0 (take (Z.to_nat (best_bid_idx_ b + 1)) ls)).
Proof.
  unfold a_bids. rewrite <- (take_drop (Z.to_nat (best_bid_idx_ b + 1)) ls) at 1.
  rewrite ladder_up_app, (ladder_up_nil _ _ _ (drop _ _)), app_nil_r; [done|].
  intros j q Hq. rewrite lookup_drop in Hq.
  destruct (lookup_lt_is_Some_2 (levels_ b) (Z.to_nat (best_bid_idx_ b + 1) + j)) as [lvl Hl].
  { rewrite <- length_abs. by eapply lookup_lt_Some. }
  destruct (level_queue _ lvl Hl) as (q' & Hq' & Hp & _). simplify_eq. rewrite <- Hp by done.
  destruct (populated Buy lvl) eqn:E; [|done]. destruct Hb as [(H1 & _ & H3) _].
  specialize (H3 _ _ Hl E). lia.
Qed.

Lemma asks_from_best :
  best_ask_idx_ b < 0 /\ a_asks (cfg_ b) ls = [] \/
  0 <= best_ask_idx_ b < Z.of_nat (length (levels_ b)) /\
  a_asks (cfg_ b) ls =
    ladder_up (cfg_ b) Sell (best_ask_idx_ b) (drop (Z.to_nat (best_ask_idx_ b)) ls).
Proof.
  destruct Hb as [_ (H1 & H2 & H3)]. unfold a_asks.
  assert (forall j q, ls !! j = Some q -> q_side Sell q = true -> 0 <= best_ask_idx_ b <= Z.of_nat j)
    as Hsell.
  { intros j q Hq Hsd. destruct (lookup_lt_is_Some_2 (levels_ b) j) as [lvl Hl].
    { rewrite <- length_abs. by eapply lookup_lt_Some. }
    destruct (level_queue _ lvl Hl) as (q' & Hq' & Hp & _). simplify_eq.
    apply (H3 j lvl Hl). by rewrite Hp. }
  destruct (decide (best_ask_idx_ b < 0)) as [Hn|Hn].
  - left. split; [done|]. apply ladder_up_nil. intros j q Hq.
    destruct (q_side Sell q) eqn:E; [|done]. specialize (Hsell _ _ Hq E). lia.
  - right. destruct H2 as (lvl & Hl & _); [lia|]. apply lookup_lt_Some in Hl.
    split; [lia|]. rewrite <- (take_drop (Z.to_nat (best_ask_idx_ b)) ls) at 1.
    rewrite ladder_up_app, length_take, length_abs, Nat.min_l, Z2Nat.id by lia.
    rewrite (ladder_up_nil _ _ _ (take _ _)); [done|]. intros j q [Hq Hj]%lookup_take_Some.
    destruct (q_side Sell q) eqn:E; [|done]. specialize (Hsell _ _ Hq E). lia.
Qed.

Lemma best_bid_range : -1 <= best_bid_idx_ b < Z.of_nat (length (levels_ b)).
Proof.
  destruct Hb as [(H1 & H2 & _) _]. split; [done|].
  destruct (decide (0 <= best_bid_idx_ b)) as [Hn|]; [|lia].
  destruct (H2 Hn) as (lvl & Hl%lookup_lt_Some & _). lia.
Qed.

Lemma depth_bids_spec n : depth_bids b n = Some (take n (a_bids (cfg_ b) ls)).
Proof.
  unfold depth_bids. rewrite bids_from_best. apply depth_down_spec.
  pose proof best_bid_range. lia.
Qed.

Lemma depth_asks_spec n : depth_asks b n = Some (take n (a_asks (cfg_ b) ls)).
Proof.
  unfold depth_asks. destruct asks_from_best as [[Hn ->]|[Hn ->]].
  - rewrite decide_True by done. by rewrite take_nil.
  - rewrite decide_False by lia. apply depth_up_spec; lia.
Qed.

(** The head of each ladder is the cached best level. *)
Lemma bids_head :
  (best_bid_idx_ b < 0 /\ a_bids (cfg_ b) ls = []) \/
  (exists lvl r, 0 <= best_bid_idx_ b /\ (levels_ b).[best_bid_idx_ b] = Some lvl /\
    a_bids (cfg_ b) ls = level_view b (best_bid_idx_ b) lvl :: r).
Proof.
  pose proof best_bid_range as Hr. destruct (decide (best_bid_idx_ b < 0)) as [Hn|Hn].
  - left. split; [done|]. rewrite bids_from_best. replace (Z.to_nat _) with 0%nat by lia. done.
  - right. destruct Hb as [(_ & H2 & _) _]. destruct H2 as (lvl & Hl & Hp); [lia|].
    destruct (level_queue _ lvl Hl) as (q & Hq & Hpq & Hv). rewrite Hpq in Hp by done.
    rewrite bids_from_best. replace (Z.to_nat (best_bid_idx_ b + 1)) with (S (Z.to_nat (best_bid_idx_ b))) by lia.
    rewrite (take_S_r _ _ _ Hq), ladder_up_app, length_take, length_abs, Nat.min_l, Z2Nat.id by lia.
    cbn [ladder_up]. rewrite app_nil_r, reverse_app, Hp. rewrite Z2Nat.id in Hv by lia.
    eexists lvl, _. split; [lia|]. split; [by apply vget_Some; split; [lia|]|]. cbn. by rewrite Hv.
Qed.

Lemma asks_head :
  (best_ask_idx_ b < 0 /\ a_asks (cfg_ b) ls = []) \/
  (exists lvl r, 0 <= best_ask_idx_ b /\ (levels_ b).[best_ask_idx_ b] = Some lvl /\
    a_asks (cfg_ b) ls = level_view b (best_ask_idx_ b) lvl :: r).
Proof.
  destruct asks_from_best as [?|[Hn E]]; [by left|right].
  destruct Hb as [_ (_ & H2 & _)]. destruct H2 as (lvl & Hl & Hp); [lia|].
  destruct (level_queue _ lvl Hl) as (q & Hq & Hpq & Hv). rewrite Hpq in Hp by done.
  rewrite E, (drop_S _ _ _ Hq). cbn [ladder_up]. rewrite Hp, Z2Nat.id in * by lia.
  eexists lvl, _. split; [lia|]. split; [by apply vget_Some; split; [lia|]|]. cbn. by rewrite Hv.
Qed.

Lemma best_bid_spec : best_bid b = Some (a_best (a_bids (cfg_ b) ls)).
Proof.
  unfold best_bid. destruct bids_head as [[Hn ->]|(lvl & r & Hn & Hl & ->)].
  - by rewrite decide_True.
  - rewrite decide_False by lia. by rewrite Hl.
Qed.

Lemma best_ask_spec : best_ask b = Some (a_best (a_asks (cfg_ b) ls)).
Proof.
  unfold best_ask. destruct asks_head as [[Hn ->]|(lvl & r & Hn & Hl & ->)].
  - by rewrite decide_True.
  - rewrite decide_False by lia. by rewrite Hl.
Qed.

Lemma is_crossed_spec : 1 <= tick (cfg_ b) -> is_crossed b = a_crossed (cfg_ b) ls.
Proof.
  intros Ht. unfold is_crossed, a_crossed.
  destruct bids_head as [[Hn ->]|(lvl & r & Hn & Hl & ->)].
  { by rewrite (bool_decide_eq_false_2 (best_bid_idx_ b >= 0)) by lia. }
  destruct asks_head as [[Hn' ->]|(lvl' & r' & Hn' & Hl' & ->)].
  { rewrite (bool_decide_eq_false_2 (best_ask_idx_ b >= 0)) by lia. by rewrite andb_false_r. }
  rewrite !(bool_decide_eq_true_2 (_ >= 0)) by lia. cbn. apply bool_decide_ext.
  unfold to_price. nia.
Qed.

Lemma spread_spec : spread_ticks b = a_spread (cfg_ b) ls.
Proof.
  unfold spread_ticks, a_spread.
  destruct bids_head as [[Hn ->]|(lvl & r & Hn & Hl & ->)].
  { by rewrite decide_True by lia. }
  destruct asks_head as [[Hn' ->]|(lvl' & r' & Hn' & Hl' & ->)].
  { by rewrite decide_True by lia. }
  by rewrite decide_False by lia.
Qed.
End Read.
