(* ===== verification/OrderBookProps.v ===== *)
(** * What the order book guarantees

    The theorems about [src/order_book.cpp] on runs from a fresh book: memory
    safety, refinement of the FIFO-queue specification, best prices and depth,
    the account of the node pool, [reset], and what a locked price breaks. *)

From Stdlib Require Import Sorted.
From stdpp Require Import base list gmap numbers.
From S2P Require Import Prelude MarketEvent OrderPool OrderBook BookSpec OrderBookWf.
From S2P Require Import OrderBookBest OrderBookRefine BookLadder.

(** ** Fresh books and runs *)

(** The queues of an empty book. *)
Definition no_orders (c : OrderBookConfig) : queues := replicate (Z.to_nat (num_levels c)) [].

Lemma new_wf_with c :
  cfg_ok (clamp_config c) ->
  wf_with (OrderBook_new c) (replicate (Z.to_nat (num_levels (clamp_config c))) []) [].
Proof.
  intros Hc. pose proof (num_levels_pos _ Hc) as Hn. split; cbn [cfg_ levels_ pool_ index_ live_orders_ OrderBook_new].
  - done.
  - rewrite length_replicate. lia.
  - by rewrite !length_replicate.
  - intros i lvl l [-> _]%lookup_replicate [-> _]%lookup_replicate. split; try done.
    + by apply list.NoDup_nil.
    + intros a ?. set_solver.
  - apply pool_new_ok, Hc.
  - intros a. unfold used. cbn. rewrite lookup_empty. split; [by intros [[] ?]|].
    intros (i & l & [-> _]%lookup_replicate & ?). set_solver.
  - intros ref a. rewrite lookup_empty. split; [done|].
    intros (i & l & n & [-> _]%lookup_replicate & ? & _). set_solver.
  - by induction (Z.to_nat _).
  - done.
Qed.

Lemma new_wf c : cfg_ok (clamp_config c) -> wf (OrderBook_new c).
Proof. intros Hc. eexists _, _. by apply new_wf_with. Qed.

Lemma new_abs c : cfg_ok (clamp_config c) -> abs (OrderBook_new c) = no_orders (clamp_config c).
Proof.
  intros Hc. rewrite (abs_views _ _ _ (new_wf_with c Hc)). unfold no_orders. by rewrite fmap_replicate.
Qed.

Lemma empty_top b :
  (forall lvl, lvl ∈ levels_ b -> order_count lvl = 0) -> (forall q, q ∈ abs b -> q = []) ->
  best_bid_idx_ b = -1 -> best_ask_idx_ b = -1 -> top_ok b.
Proof.
  intros Hl Hq Hb Ha. split.
  - intros i lvl q o _ Hi Ho. apply list_elem_of_lookup_2, Hq in Hi as ->. set_solver.
  - unfold best_ok. rewrite Hb, Ha. split; (split; [lia|]; split; [lia|]);
      intros i l Hi Hp; apply list_elem_of_lookup_2, Hl in Hi; by rewrite populated_empty in Hp.
Qed.

Lemma new_top c : cfg_ok (clamp_config c) -> top_ok (OrderBook_new c).
Proof.
  intros Hc. apply empty_top; [| |done|done].
  - cbn. by intros lvl [-> _]%elem_of_replicate.
  - rewrite new_abs by done. by intros q [-> _]%elem_of_replicate.
Qed.

(** The feed never locks a price: after every event no slot holds both sides. *)
Fixpoint never_locked (c : OrderBookConfig) (evs : list MarketEvent) (ls : queues) : Prop :=
  match evs with
  | [] => True
  | ev :: evs => uniform (a_apply c ev ls) /\ never_locked c evs (a_apply c ev ls)
  end.

#[export] Instance never_locked_dec c evs ls : Decision (never_locked c evs ls).
Proof. revert ls. induction evs as [|ev evs IH]; intros ls; cbn; apply _. Defined.

Definition sizes_ok (evs : list MarketEvent) : Prop := Forall (fun ev => in_u 32 (ev_size ev)) evs.

Lemma apply_all_ok evs b :
  wf b -> sizes_ok evs -> live_orders_ b + Z.of_nat (length evs) < 2 ^ 32 ->
  exists b', apply_all evs b = Some b' /\ wf b' /\ cfg_ b' = cfg_ b /\
    abs b' = a_apply_all (cfg_ b) evs (abs b) /\
    live_orders_ b' <= live_orders_ b + Z.of_nat (length evs) /\
    (top_ok b -> never_locked (cfg_ b) evs (abs b) -> top_ok b').
Proof.
  revert b. induction evs as [|ev evs IH]; intros b Hwf Hs Hb.
  { exists b. cbn. repeat (split; [done|]). split; [lia|done]. }
  apply list.Forall_cons in Hs as [Hsz Hs]. cbn [length] in Hb.
  destruct (apply_step b ev Hwf Hsz) as (b1 & E & []); [lia|].
  destruct (IH b1) as (b2 & E2 & W & C & A & L & T); [done|done|lia|].
  exists b2. unfold apply_all. cbn [iterM]. rewrite E. cbn [mbind option_bind].
  rewrite bs_cfg in *. rewrite bs_abs in *. split; [done|]. split; [done|]. split; [done|].
  split; [done|]. split; [cbn [length]; lia|]. intros Htop [Hu Hn]. auto.
Qed.

(** A run from a fresh book. *)
Lemma run_ok c evs :
  cfg_ok (clamp_config c) -> sizes_ok evs -> Z.of_nat (length evs) < 2 ^ 32 ->
  exists b, apply_all evs (OrderBook_new c) = Some b /\ wf b /\ cfg_ b = clamp_config c /\
    abs b = a_apply_all (clamp_config c) evs (no_orders (clamp_config c)) /\
    (never_locked (clamp_config c) evs (no_orders (clamp_config c)) -> top_ok b).
Proof.
  intros Hc Hs Hb. destruct (apply_all_ok evs (OrderBook_new c)) as (b & E & W & C & A & _ & T);
    [by apply new_wf|done|done|].
  rewrite new_abs in * by done. exists b. repeat (split; [done|]). intros. apply T; [by apply new_top|done].
Qed.

(** A session used by the witnesses: partial fill, replace, delete, trade. *)
Definition demo_events : list MarketEvent :=
  [ev_add 1 Buy 103 50; ev_add 2 Buy 104 10; ev_add 3 Buy 104 20; ev_add 4 Sell 106 5;
   ev_exec 2 4; ev_repl 4 5 107 9; ev_add 6 Sell 106 3; ev_del 1; ev_exec 77 1; ev_add 8 Buy 500 1].

Lemma small_config_ok : cfg_ok (clamp_config small_config).
Proof. apply clamp_config_ok; vm_compute; congruence. Qed.

Lemma demo_sizes : sizes_ok demo_events.
Proof. unfold sizes_ok. apply (bool_decide_unpack _). vm_compute. exact I. Qed.

Lemma demo_unlocked :
  never_locked (clamp_config small_config) demo_events (no_orders (clamp_config small_config)).
Proof. apply (bool_decide_unpack _). vm_compute. exact I. Qed.

(** ** The account of the pool *)

Lemma concat_replicate_nil {A} n : concat (replicate n ([] : list A)) = [].
Proof. by induction n. Qed.

Lemma wf_concat_nodup b pss free : wf_with b pss free -> NoDup (concat pss ++ free).
Proof.
  intros H. apply list.NoDup_app. split; [|split].
  - assert (forall i l, pss !! i = Some l -> NoDup l) as Hnd.
    { intros i l Hi. destruct (wf_levels_lookup _ _ _ H i l Hi) as (lvl & _ & Hl). apply Hl. }
    assert (forall i j l l' a, pss !! i = Some l -> pss !! j = Some l' -> a ∈ l -> a ∈ l' -> i = j)
      as Hdis by (intros; by eapply wf_disjoint).
    clear H. induction pss as [|l pss IH]; cbn; [by apply list.NoDup_nil|].
    apply list.NoDup_app. split; [by apply (Hnd 0%nat)|]. split.
    + intros a Ha (l' & Hl' & Ha')%list_elem_of_In%in_concat.
      apply list_elem_of_In, list_elem_of_lookup in Hl' as [j Hj].
      apply list_elem_of_In in Ha'. by pose proof (Hdis 0%nat (S j) l l' a eq_refl Hj Ha Ha').
    + apply IH; [intros i; apply (Hnd (S i))|].
      intros i j l1 l2 a Hi Hj H1 H2. by pose proof (Hdis (S i) (S j) l1 l2 a Hi Hj H1 H2) as [= ->].
  - intros a (l & Hl & Ha)%list_elem_of_In%in_concat Hf.
    apply list_elem_of_In, list_elem_of_lookup in Hl as [i Hi]. apply list_elem_of_In in Ha.
    by destruct (wf_used_level b pss free H i l a Hi Ha) as [_ ?].
  - apply (pool_nodup _ _ (wf_pool _ _ _ H)).
Qed.

Lemma wf_account b pss free :
  wf_with b pss free -> concat pss ++ free ≡ₚ seqZ 0 (chunks_ (pool_ b) * chunk_ (pool_ b)).
Proof.
  intros H. apply NoDup_Permutation; [by eapply wf_concat_nodup|apply NoDup_seqZ|].
  intros a. rewrite elem_of_app, elem_of_seqZ, Z.add_0_l, <- (pool_dom _ _ (wf_pool _ _ _ H)).
  split.
  - intros [(l & Hl & Ha)%list_elem_of_In%in_concat|Ha].
    + apply list_elem_of_In, list_elem_of_lookup in Hl as [i Hi]. apply list_elem_of_In in Ha.
      by destruct (wf_used_level b pss free H i l a Hi Ha).
    + by eapply pool_free_dom; [apply H|].
  - intros Ha. destruct (decide (a ∈ free)) as [|Hf]; [by right|left].
    destruct (proj1 (wf_used _ _ _ H a)) as (i & l & Hi & Hal); [done|].
    apply list_elem_of_In, in_concat. exists l. rewrite <- !list_elem_of_In.
    split; [by eapply list_elem_of_lookup_2|done].
Qed.

Lemma wf_links b pss free :
  wf_with b pss free -> Forall2 (links_ok (mem (pool_ b))) (levels_ b) pss.
Proof.
  intros H. apply Forall2_same_length_lookup_2; [by rewrite (wf_pss _ _ _ H)|].
  intros i lvl l Hl Hp. by destruct (wf_level _ _ _ H i lvl l Hl Hp).
Qed.

(** ** [reset] *)

Lemma reset_ok b pss free :
  wf_with b pss free ->
  exists b' free', reset b = Some b' /\ wf_with b' (replicate (length (levels_ b)) []) free' /\
    chunk_ (pool_ b') = chunk_ (pool_ b) /\ chunks_ (pool_ b') = chunks_ (pool_ b) /\
    abs b' = no_orders (cfg_ b) /\ levels_ b' = replicate (length (levels_ b)) level0 /\
    best_bid_idx_ b' = -1 /\ best_ask_idx_ b' = -1.
Proof.
  intros W. destruct (reset_all_ok _ _ (wf_pool _ _ _ W)) as (p & free' & E & Hp & Hc & Hcs & Hu).
  unfold reset. rewrite E. cbn [mbind option_bind]. eexists _, free'. split; [done|].
  assert (wf_with (b <| index_ := ∅ |> <| levels_ := replicate (length (levels_ b)) level0 |>
          <| pool_ := p |> <| best_bid_idx_ := -1 |> <| best_ask_idx_ := -1 |>
          <| live_orders_ := 0 |> <| crossed_at_last_boundary_ := false |>)
          (replicate (length (levels_ b)) []) free') as W'.
  { split; cbn.
    - apply W.
    - rewrite length_replicate. apply W.
    - by rewrite !length_replicate.
    - intros i lvl l [-> _]%lookup_replicate [-> _]%lookup_replicate. split; try done.
      + by apply list.NoDup_nil.
      + intros a ?. set_solver.
    - done.
    - intros a. split; [by intros ?%Hu|]. intros (i & l & [-> _]%lookup_replicate & ?). set_solver.
    - intros ref a. rewrite lookup_empty. split; [done|].
      intros (i & l & n & [-> _]%lookup_replicate & ? & _). set_solver.
    - by rewrite concat_replicate_nil.
    - done. }
  split; [exact W'|]. split; [done|]. split; [done|]. split; [|done].
  rewrite (abs_views _ _ _ W'), fmap_replicate. unfold no_orders. f_equal.
  pose proof (wf_len _ _ _ W). lia.
Qed.

(** ** Theorems *)

(** C1. [apply] on a well-formed book: it returns (no null or dangling pointer,
    no index outside [levels_]), the book stays well formed, and its effect on
    the FIFO queues of orders and on all ten counters is the specification's. *)
Theorem apply_refines b ev :
  wf b -> in_u 32 (ev_size ev) -> live_orders_ b < 2 ^ 32 - 1 ->
  exists b', apply ev b = Some b' /\ wf b' /\ cfg_ b' = cfg_ b /\
    abs b' = a_apply (cfg_ b) ev (abs b) /\
    stats_ b' = a_stats (cfg_ b) ev (abs b) (is_crossed b') (stats_ b).
Proof.
  intros Hwf Hsz Hb. destruct (apply_step b ev Hwf Hsz Hb) as (b' & E & []). eauto 10.
Qed.

Lemma apply_refines_witness :
  exists b b', apply_all demo_events (OrderBook_new small_config) = Some b /\
    apply (ev_exec 3 5) b = Some b' /\ wf b' /\ abs b' = a_apply (cfg_ b) (ev_exec 3 5) (abs b).
Proof.
  destruct (run_ok small_config demo_events small_config_ok demo_sizes eq_refl)
    as (b & E & W & _).
  destruct (apply_refines b (ev_exec 3 5) W) as (b' & E' & W' & _ & A & _).
  - vm_compute. split; congruence.
  - assert (is_Some (apply_all demo_events (OrderBook_new small_config)) /\
      match apply_all demo_events (OrderBook_new small_config) with
      | Some b => live_orders_ b < 2 ^ 32 - 1 | None => True end) as [_ HL]
      by (vm_compute; split; [by eexists|done]).
    by rewrite E in HL.
  - exists b, b'. exact (conj E (conj E' (conj W' A))).
Defined.

(** C2. Top of book and depth.  From a fresh book, on a feed that never locks a
    price, the cached best bid and ask, the depth ladders, the crossed flag and
    the spread are those of the queues the specification computes. *)
Theorem run_market_view c evs :
  cfg_ok (clamp_config c) -> sizes_ok evs -> Z.of_nat (length evs) < 2 ^ 32 ->
  never_locked (clamp_config c) evs (no_orders (clamp_config c)) ->
  let ls := a_apply_all (clamp_config c) evs (no_orders (clamp_config c)) in
  exists b, apply_all evs (OrderBook_new c) = Some b /\
    best_bid b = Some (a_best (a_bids (clamp_config c) ls)) /\
    best_ask b = Some (a_best (a_asks (clamp_config c) ls)) /\
    (forall n, depth_bids b n = Some (take n (a_bids (clamp_config c) ls))) /\
    (forall n, depth_asks b n = Some (take n (a_asks (clamp_config c) ls))) /\
    is_crossed b = a_crossed (clamp_config c) ls /\
    spread_ticks b = a_spread (clamp_config c) ls.
Proof.
  intros Hc Hs Hb Hn ls. destruct (run_ok c evs Hc Hs Hb) as (b & E & (pss & free & W) & C & A & T).
  destruct (T Hn) as [Hsd Hbo]. pose proof (wf_shows _ _ _ W Hsd) as Hsh.
  exists b. unfold ls. rewrite <- A, <- C. split; [done|].
  split; [by eapply best_bid_spec|]. split; [by eapply best_ask_spec|].
  split; [intros; by eapply depth_bids_spec|]. split; [intros; by eapply depth_asks_spec|].
  split; [eapply is_crossed_spec; [done..|apply W]|by eapply spread_spec].
Qed.

Lemma run_market_view_witness :
  exists b, apply_all demo_events (OrderBook_new small_config) = Some b /\
    best_bid b = Some (mkBookLevel 104 26 2 true) /\ best_ask b = Some (mkBookLevel 106 3 1 true) /\
    depth_asks b 5 = Some [mkBookLevel 106 3 1 true; mkBookLevel 107 9 1 true].
Proof.
  destruct (run_market_view small_config demo_events small_config_ok demo_sizes eq_refl demo_unlocked)
    as (b & E & B & A & _ & D & _).
  exists b. split; [exact E|]. rewrite B, A, D. clear. vm_compute. repeat split; reflexivity.
Defined.

(** The depth a book shows is sorted: bids strictly fall, asks strictly
    rise, and every level shown has at least one order behind it. *)
Theorem run_depth_sorted c evs n :
  cfg_ok (clamp_config c) -> sizes_ok evs -> Z.of_nat (length evs) < 2 ^ 32 ->
  never_locked (clamp_config c) evs (no_orders (clamp_config c)) ->
  exists b bids asks, apply_all evs (OrderBook_new c) = Some b /\
    depth_bids b n = Some bids /\ depth_asks b n = Some asks /\
    StronglySorted (flip price_lt) bids /\ StronglySorted price_lt asks /\
    (forall x, x ∈ bids ++ asks -> bl_order_count x > 0 /\ valid x = true).
Proof.
  intros Hc Hs Hb Hn. destruct (run_ok c evs Hc Hs Hb) as (b & E & (pss & free & W) & C & A & T).
  destruct (T Hn) as [Hsd Hbo]. pose proof (cfg_tick _ (wf_cfg _ _ _ W)) as Ht.
  pose proof (wf_shows _ _ _ W Hsd) as Hsh.
  exists b. eexists _, _. split; [done|].
  split; [by eapply depth_bids_spec|]. split; [by eapply depth_asks_spec|].
  split; [by apply sorted_take, reverse_sorted, ladder_up_sorted|].
  split; [by apply sorted_take, ladder_up_sorted|].
  intros x [Hx|Hx]%elem_of_app; apply elem_of_take in Hx as (i & Hx%list_elem_of_lookup_2 & _).
  - unfold a_bids in Hx. rewrite elem_of_reverse in Hx. exact (ladder_up_orders _ _ _ _ _ Hx).
  - exact (ladder_up_orders _ _ _ _ _ Hx).
Qed.

Lemma run_depth_sorted_witness :
  exists b bids, apply_all demo_events (OrderBook_new small_config) = Some b /\
    depth_bids b 3 = Some bids /\ StronglySorted (flip price_lt) bids.
Proof.
  destruct (run_depth_sorted small_config demo_events 3 small_config_ok demo_sizes eq_refl demo_unlocked)
    as (b & bids & asks & E & B & _ & S & _).
  exists b, bids. exact (conj E (conj B S)).
Defined.

(** C28. The node pool loses nothing.  After any run the nodes on the levels'
    lists together with the free list are exactly the nodes ever allocated,
    each once: no leak, no double free, no order on two levels. *)
Theorem run_pool_account c evs :
  cfg_ok (clamp_config c) -> sizes_ok evs -> Z.of_nat (length evs) < 2 ^ 32 ->
  exists b live free, apply_all evs (OrderBook_new c) = Some b /\
    chain (mem (pool_ b)) (free_head_ (pool_ b)) free /\
    Forall2 (links_ok (mem (pool_ b))) (levels_ b) live /\
    concat live ++ free ≡ₚ seqZ 0 (chunks_ (pool_ b) * chunk_ (pool_ b)) /\
    live_orders_ b = Z.of_nat (length (concat live)).
Proof.
  intros Hc Hs Hb. destruct (run_ok c evs Hc Hs Hb) as (b & E & (pss & free & W) & _).
  exists b, pss, free. split; [done|]. split; [apply (wf_pool _ _ _ W)|].
  split; [by eapply wf_links|]. split; [by eapply wf_account|apply (wf_live _ _ _ W)].
Qed.

Lemma run_pool_account_witness :
  exists b live free, apply_all demo_events (OrderBook_new small_config) = Some b /\
    concat live ++ free ≡ₚ seqZ 0 (chunks_ (pool_ b) * chunk_ (pool_ b)).
Proof.
  destruct (run_pool_account small_config demo_events small_config_ok demo_sizes eq_refl)
    as (b & live & free & E & _ & _ & P & _).
  exists b, live, free. exact (conj E P).
Defined.

(** [reset] empties the book and returns every node to the pool without
    allocating; the book is then as good as new. *)
Theorem reset_empties b :
  wf b ->
  exists b' free, reset b = Some b' /\ wf b' /\ top_ok b' /\
    abs b' = no_orders (cfg_ b) /\ live_orders_ b' = 0 /\
    best_bid b' = Some no_level /\ best_ask b' = Some no_level /\
    chain (mem (pool_ b')) (free_head_ (pool_ b')) free /\
    free ≡ₚ seqZ 0 (chunks_ (pool_ b) * chunk_ (pool_ b)).
Proof.
  intros (pss & free0 & W). destruct (reset_ok b pss free0 W) as (b' & free & E & W' & Hch & Hcs & A & Hl & Hb & Ha).
  pose proof (wf_account _ _ _ W') as Hacc. rewrite concat_replicate_nil, Hch, Hcs in Hacc.
  exists b', free. split; [done|]. split; [by eexists _, _|]. split.
  - apply empty_top; [..|done|done].
    + rewrite Hl. by intros lvl [-> _]%elem_of_replicate.
    + rewrite A. by intros q [-> _]%elem_of_replicate.
  - split; [done|]. split.
    + rewrite (wf_live _ _ _ W'). by rewrite concat_replicate_nil.
    + unfold best_bid, best_ask. rewrite Hb, Ha. cbn. split; [done|]. split; [done|].
      split; [apply (wf_pool _ _ _ W')|done].
Qed.

Lemma reset_empties_witness :
  exists b b', apply_all demo_events (OrderBook_new small_config) = Some b /\
    reset b = Some b' /\ live_orders_ b' = 0 /\ best_bid b' = Some no_level.
Proof.
  destruct (run_ok small_config demo_events small_config_ok demo_sizes eq_refl) as (b & E & W & _).
  destruct (reset_empties b W) as (b' & free & R & _ & _ & _ & L & B & _).
  exists b, b'. exact (conj E (conj R (conj L B))).
Defined.
