(* ===== verification/BookOrders.v ===== *)
(** * The set of live orders behind the queues

    What the operations of [BookSpec] do to the orders of all levels taken
    together, up to permutation, and the book of a feed whose bids and asks stay
    in disjoint bands with one tick per slot: its slots are one-sided and it is
    never crossed. *)

From stdpp Require Import base list gmap numbers.
From S2P Require Import Prelude MarketEvent OrderPool OrderBook BookSpec OrderBookWf.
From S2P Require Import OrderBookBest OrderBookRefine BookLadder OrderBookProps.

(** ** Flattening *)

Lemma concat_update f ref ls : concat (a_update f ref ls) = a_update_queue f ref (concat ls).
Proof.
  unfold a_update, a_update_queue. induction ls as [|q ls IH]; [done|].
  cbn [fmap list_fmap concat]. by rewrite IH, omap_app.
Qed.

Lemma concat_alter_snoc (o : AOrder) i ls :
  (i < length ls)%nat -> concat (alter (fun q => q ++ [o]) i ls) ≡ₚ o :: concat ls.
Proof.
  revert i. induction ls as [|q ls IH]; intros [|i] Hi; cbn in Hi |- *; [lia|lia| |].
  - rewrite <- app_assoc. cbn. by rewrite Permutation_middle.
  - rewrite IH by lia. by rewrite Permutation_middle.
Qed.

#[export] Instance a_update_queue_perm f ref : Proper ((≡ₚ) ==> (≡ₚ)) (a_update_queue f ref).
Proof. intros q q' Hq. unfold a_update_queue. by apply omap_Permutation. Qed.

Lemma a_update_queue_other f ref q :
  (forall o, o ∈ q -> a_ref o <> ref) -> a_update_queue f ref q = q.
Proof.
  unfold a_update_queue. induction q as [|o q IH]; intros H; [done|]. cbn.
  rewrite decide_False by (apply H; by left). rewrite IH; [done|]. intros. apply H. by right.
Qed.

(** The one order of a reference among orders with distinct references. *)
Lemma a_update_queue_at f l1 o l2 :
  NoDup (a_ref <$> l1 ++ o :: l2) ->
  a_update_queue f (a_ref o) (l1 ++ o :: l2) = l1 ++ option_list (f o) ++ l2.
Proof.
  rewrite fmap_app, fmap_cons. intros (H1 & Hd & H2)%list.NoDup_app.
  apply list.NoDup_cons in H2 as [Hn H2].
  unfold a_update_queue. rewrite omap_app. f_equal.
  - apply a_update_queue_other. intros x Hx E. apply (Hd (a_ref x)).
    + by apply list_elem_of_fmap_2.
    + rewrite E. by left.
  - cbn. rewrite decide_True by done.
    fold (a_update_queue f (a_ref o) l2). rewrite a_update_queue_other.
    + by destruct (f o).
    + intros x Hx E. apply Hn. rewrite <- E. by apply list_elem_of_fmap_2.
Qed.

Lemma a_find_Some ref q o : a_find ref q = Some o -> o ∈ q /\ a_ref o = ref.
Proof.
  unfold a_find. destruct (list_find _ q) as [[i x]|] eqn:E; [|done]. cbn. intros [= <-].
  apply list_find_Some in E as (Hi & Hr & _). split; [by eapply list_elem_of_lookup_2|done].
Qed.

Lemma a_find_known ref q : is_Some (a_find ref q) <-> ref ∈ a_ref <$> q.
Proof.
  split.
  - intros [o [Ho <-]%a_find_Some]. by apply list_elem_of_fmap_2.
  - intros (o & -> & Ho)%list_elem_of_fmap. unfold a_find. apply fmap_is_Some.
    by apply (list_find_elem_of _ q o).
Qed.

Lemma a_find_unique q o : NoDup (a_ref <$> q) -> o ∈ q -> a_find (a_ref o) q = Some o.
Proof.
  intros Hn Ho. destruct (proj2 (a_find_known (a_ref o) q)) as [x Hx]; [by apply list_elem_of_fmap_2|].
  rewrite Hx. f_equal. apply a_find_Some in Hx as [Hxq Hr].
  apply list_elem_of_lookup in Ho as [i Hi]. apply list_elem_of_lookup in Hxq as [j Hj].
  assert (i = j) as ->; [|congruence].
  eapply (NoDup_lookup _ i j (a_ref o) Hn); rewrite list_lookup_fmap, ?Hi, ?Hj; cbn; congruence.
Qed.

(** ** The operations on the live orders *)

Section Flat.
Context (c : OrderBookConfig) (ls : queues) (os : list AOrder).
Context (Hos : concat ls ≡ₚ os) (Hn : NoDup (a_ref <$> os)).

Lemma flat_nodup : NoDup (a_ref <$> concat ls).
Proof. by rewrite Hos. Qed.

Lemma flat_known ref : is_Some (a_lookup ref ls) <-> ref ∈ a_ref <$> os.
Proof. unfold a_lookup. by rewrite a_find_known, Hos. Qed.

Lemma flat_lookup o : o ∈ os -> a_lookup (a_ref o) ls = Some o.
Proof. intros Ho. apply a_find_unique; [apply flat_nodup|]. by rewrite Hos. Qed.

Lemma flat_add o :
  0 <= to_index c (a_price o) < Z.of_nat (length ls) -> a_ref o ∉ a_ref <$> os ->
  concat (a_add c o ls) ≡ₚ o :: os.
Proof.
  intros Hi Hr. unfold a_add. rewrite decide_False by lia.
  rewrite decide_False by by rewrite flat_known. by rewrite concat_alter_snoc, Hos by lia.
Qed.

Lemma flat_update f l1 o l2 :
  os = l1 ++ o :: l2 -> concat (a_update f (a_ref o) ls) ≡ₚ l1 ++ option_list (f o) ++ l2.
Proof.
  intros E. rewrite concat_update, Hos, E, a_update_queue_at; [done|]. by rewrite <- E.
Qed.
End Flat.

Lemma length_a_update f ref ls : length (a_update f ref ls) = length ls.
Proof. apply length_fmap. Qed.

(** ** Bids and asks in disjoint bands *)

(** Every order is a buy below [mid] or a sell above it. *)
Definition banded (mid : Z) (o : AOrder) : Prop :=
  a_side o = Buy /\ a_price o < mid \/ a_side o = Sell /\ mid < a_price o.

(** Every order is in the slot of its price. *)
Definition slotted (c : OrderBookConfig) (ls : queues) : Prop :=
  forall i q o, ls !! i = Some q -> o ∈ q -> to_index c (a_price o) = Z.of_nat i.

Lemma wf_slotted b : wf b -> slotted (cfg_ b) (abs b).
Proof.
  intros (pss & free & W) i q o Hi Ho.
  rewrite (abs_views _ _ _ W), list_lookup_fmap in Hi.
  destruct (pss !! i) as [l|] eqn:Hl; [|done]. injection Hi as <-.
  apply elem_of_view_of in Ho as (a & n & Ha & Hn & <-).
  destruct (wf_node b pss free W i l a Hl Ha) as (n' & Hn' & _ & _ & Hti). simplify_eq. exact Hti.
Qed.

Section Banded.
Context (c : OrderBookConfig) (mid : Z) (Ht : tick c = 1).
Context (ls : queues) (Hs : slotted c ls) (Hb : Forall (banded mid) (concat ls)).

Lemma banded_elem i q o : ls !! i = Some q -> o ∈ q -> banded mid o.
Proof.
  intros Hi Ho. rewrite list.Forall_forall in Hb. apply Hb, list_elem_of_In, in_concat.
  exists q. rewrite <- !list_elem_of_In. split; [by eapply list_elem_of_lookup_2|done].
Qed.

Lemma slot_price i q o : ls !! i = Some q -> o ∈ q -> a_price o = to_price c (Z.of_nat i).
Proof.
  intros Hi Ho. pose proof (Hs i q o Hi Ho) as E. rewrite <- E. symmetry.
  apply to_price_to_index; [done|lia].
Qed.

Lemma banded_uniform : uniform ls.
Proof.
  unfold uniform. rewrite list.Forall_forall. intros q [i Hi]%list_elem_of_lookup.
  apply list.Forall_forall. intros o Ho. apply list.Forall_forall. intros o' Ho'.
  pose proof (slot_price i q o Hi Ho). pose proof (slot_price i q o' Hi Ho').
  destruct (banded_elem i q o Hi Ho) as [[-> ?]|[-> ?]], (banded_elem i q o' Hi Ho') as [[-> ?]|[-> ?]];
    done || lia.
Qed.

Lemma ladder_up_elem s i qs x :
  x ∈ ladder_up c s i qs ->
  exists j q o, qs !! j = Some q /\ o ∈ q /\ a_side o = s /\
    bl_price_ticks x = to_price c (i + Z.of_nat j).
Proof.
  revert i. induction qs as [|q qs IH]; intros i; cbn [ladder_up]; [set_solver|].
  intros [Hx|Hx]%elem_of_app.
  - destruct q as [|o q]; cbn [q_side] in Hx; [set_solver|]. case_bool_decide as E; [|set_solver].
    apply list_elem_of_singleton in Hx as ->. exists 0%nat, (o :: q), o.
    split; [done|]. split; [by left|]. split; [done|]. cbn. by rewrite Z.add_0_r.
  - apply IH in Hx as (j & q' & o & Hj & Ho & Hsd & E). exists (S j), q', o.
    repeat (split; [done|]). rewrite E. f_equal. lia.
Qed.

Lemma banded_bids x : x ∈ a_bids c ls -> bl_price_ticks x < mid.
Proof.
  unfold a_bids. rewrite elem_of_reverse. intros (j & q & o & Hj & Ho & Hsd & E)%ladder_up_elem.
  rewrite E, Z.add_0_l, <- (slot_price j q o Hj Ho).
  destruct (banded_elem j q o Hj Ho) as [[? ?]|[? ?]]; [done|congruence].
Qed.

Lemma banded_asks x : x ∈ a_asks c ls -> mid < bl_price_ticks x.
Proof.
  unfold a_asks. intros (j & q & o & Hj & Ho & Hsd & E)%ladder_up_elem.
  rewrite E, Z.add_0_l, <- (slot_price j q o Hj Ho).
  destruct (banded_elem j q o Hj Ho) as [[? ?]|[? ?]]; [congruence|done].
Qed.

Lemma banded_uncrossed : a_crossed c ls = false.
Proof.
  unfold a_crossed. pose proof banded_bids as Hbid. pose proof banded_asks as Hask.
  destruct (a_bids c ls) as [|x bids]; [done|]. destruct (a_asks c ls) as [|y asks]; [done|].
  apply bool_decide_eq_false. specialize (Hbid x ltac:(by left)). specialize (Hask y ltac:(by left)). lia.
Qed.
End Banded.

Lemma never_locked_snoc c evs ev ls :
  never_locked c evs ls -> uniform (a_apply c ev (a_apply_all c evs ls)) ->
  never_locked c (evs ++ [ev]) ls.
Proof.
  revert ls. induction evs as [|e evs IH]; intros ls; cbn; [done|].
  intros [Hu Hn] H. split; [done|]. by apply IH.
Qed.

Lemma a_apply_all_snoc c evs ev ls :
  a_apply_all c (evs ++ [ev]) ls = a_apply c ev (a_apply_all c evs ls).
Proof. unfold a_apply_all. by rewrite fold_left_app. Qed.

(** ** A book that saw only clean events

    [L] are the live orders, up to order. *)
Section Clean.
Context (c : OrderBookConfig) (mid : Z).
Notation c' := (clamp_config c).
Context (Hc : cfg_ok c') (Ht : tick c' = 1).

Record clean (evs : list MarketEvent) (b : OrderBook) (L : list AOrder) : Prop := {
  cl_run : apply_all evs (OrderBook_new c) = Some b;
  cl_sizes : sizes_ok evs;
  cl_wf : wf b;
  cl_top : top_ok b;
  cl_cfg : cfg_ b = c';
  cl_live : live_orders_ b <= Z.of_nat (length evs);
  cl_abs : abs b = a_apply_all c' evs (no_orders c');
  cl_orders : concat (abs b) ≡ₚ L;
  cl_banded : Forall (banded mid) L;
  cl_unlocked : never_locked c' evs (no_orders c');
  cl_unknown : unknown_ref (stats_ b) = 0;
  cl_rejected : rejected_out_of_band (stats_ b) = 0;
  cl_crossed : crossed_observed (stats_ b) = 0 }.

Lemma clean_new : clean [] (OrderBook_new c) [].
Proof.
  split; try done.
  - by constructor.
  - by apply new_wf.
  - by apply new_top.
  - by rewrite new_abs.
  - rewrite new_abs by done. unfold no_orders. by rewrite concat_replicate_nil.
Qed.

(** An event that names no unknown order and no price outside the band. *)
Definition counts_clean (ev : MarketEvent) (ls : queues) : Prop :=
  forall s, unknown_ref (a_counts c' ev ls s) = unknown_ref s /\
    rejected_out_of_band (a_counts c' ev ls s) = rejected_out_of_band s /\
    crossed_observed (a_counts c' ev ls s) = crossed_observed s.

Lemma clean_step evs b L ev L' :
  clean evs b L -> in_u 32 (ev_size ev) -> Z.of_nat (length evs) < 2 ^ 32 - 1 ->
  concat (a_apply c' ev (abs b)) ≡ₚ L' -> Forall (banded mid) L' -> counts_clean ev (abs b) ->
  exists b', clean (evs ++ [ev]) b' L'.
Proof.
  intros [] Hsz Hb HL HB HC.
  destruct (apply_step b ev cl_wf0 Hsz) as (b' & E & []); [lia|]. rewrite cl_cfg0 in *.
  assert (slotted c' (abs b')) as Hs by (rewrite <- bs_cfg; by apply wf_slotted).
  assert (Forall (banded mid) (concat (abs b'))) as Hbd by by rewrite bs_abs, HL.
  pose proof (banded_uniform c' mid Ht _ Hs Hbd) as Hu. rewrite bs_abs in Hu.
  pose proof (bs_top cl_top0 Hu) as [Hsd Hbo]. destruct bs_wf as (pss & free & W).
  assert (is_crossed b' = false) as Hx.
  { rewrite (is_crossed_spec b' (abs b')), bs_cfg; [by eapply banded_uncrossed|by eapply wf_shows|done|].
    rewrite bs_cfg. lia. }
  destruct (HC (stats_ b)) as (U1 & U2 & U3). exists b'. split; try done.
  - unfold apply_all. erewrite iterM_app by exact cl_run0. cbn. by rewrite E.
  - apply list.Forall_app. split; [done|]. by constructor.
  - by eexists _, _.
  - rewrite length_app. cbn. lia.
  - rewrite a_apply_all_snoc, <- cl_abs0. exact bs_abs.
  - by rewrite bs_abs.
  - apply never_locked_snoc; [done|]. by rewrite <- cl_abs0.
  - rewrite bs_stats, Hx. unfold a_stats. cbn. by rewrite U1.
  - rewrite bs_stats, Hx. unfold a_stats. cbn. by rewrite U2.
  - rewrite bs_stats, Hx. unfold a_stats. cbn. by rewrite U3.
Qed.
End Clean.
