(* ===== verification/BookLocked.v ===== *)
(** * A price with orders of two sides

    The book tells the side of a slot by the order that came first.  When an order
    of the other side joins it (a locked price, which [OrderBookProps] excludes by
    [uniform]) the cached best price of one side can be lost track of:
    [locked_price_dangling_bid]. *)

From stdpp Require Import base list gmap numbers.
From S2P Require Import Prelude MarketEvent OrderPool OrderBook BookSpec OrderBookWf.
From S2P Require Import OrderBookBest OrderBookRefine BookLadder OrderBookProps BookOrders.

(** ** The cached best prices of one operation *)

Definition bests (b : OrderBook) : Z * Z := (best_bid_idx_ b, best_ask_idx_ b).

Lemma apply_bests ev b b' :
  apply ev b = Some b' -> exists b1, dispatch ev b = Some b1 /\ bests b' = bests b1 /\ levels_ b' = levels_ b1.
Proof.
  intros (b1 & E & [= <-])%bind_Some. exists b1. split; [done|].
  unfold note_crossed. by destruct (is_crossed _).
Qed.

Lemma on_add_bests ev b b' :
  0 <= to_index (cfg_ b) (ev_price_ticks ev) -> index_ b !! ev_order_ref ev = None -> on_add ev b = Some b' ->
  bests b' = bests (improve_best (ev_side ev) (to_index (cfg_ b) (ev_price_ticks ev)) b).
Proof.
  intros Hi Hr. unfold on_add. rewrite decide_False by lia. rewrite decide_False by by rewrite Hr; intros [].
  intros ([o pool] & _ & E)%bind_Some. apply bind_Some in E as (m & _ & E).
  apply bind_Some in E as (lvl & _ & E). apply bind_Some in E as ([m' lvl'] & _ & E).
  apply bind_Some in E as (ls & _ & [= <-]). unfold improve_best, bests.
  destruct (ev_side ev); cbn; try case_decide; done.
Qed.

(** The removal of an order leaves the best price of the other side alone, and that
    of its own side too unless its level is gone. *)
Lemma remove_bests o n b b' :
  mem (pool_ b) !! o = Some n -> remove_order o b = Some b' ->
  (o_side n <> Buy -> best_bid_idx_ b' = best_bid_idx_ b) /\
  (bests b' = bests b \/
   exists lvl, (levels_ b').[o_level_idx n] = Some lvl /\ order_count lvl = 0).
Proof.
  intros En. unfold remove_order. rewrite En. cbn [mbind option_bind].
  intros (lvl & _ & E)%bind_Some. apply bind_Some in E as ([m lvl1] & _ & E).
  apply bind_Some in E as (n1 & _ & E). apply bind_Some in E as (pool & _ & E).
  case_decide as D; apply bind_Some in E as (ls & El & E).
  - assert (exists l, ls.[o_level_idx n] = Some l /\ order_count l = 0) as Hl.
    { eexists. split; [apply (vget_vset_eq _ _ _ _ El)|exact D]. }
    unfold retreat_best, rescan_best_bid_from, rescan_best_ask_from in E. case_decide as D1; [|case_decide as D2].
    + apply bind_Some in E as (k & _ & [= <-]). split; [by destruct D1 as [-> _]|by right].
    + apply bind_Some in E as (k & _ & [= <-]). split; [done|by right].
    + injection E as <-. split; [done|by left].
  - injection E as <-. split; [done|by left].
Qed.

(** ** One event at a slot *)

Section Slot.
Context (b : OrderBook) (i : nat).
Hypothesis b_wf : wf b.
Hypothesis b_live : live_orders_ b < 2 ^ 32 - 1.

(** What an event at the slot leaves. *)
Definition slot_step (b' : OrderBook) (ls : queues) : Prop :=
  wf b' /\ cfg_ b' = cfg_ b /\ abs b' = ls /\ live_orders_ b' <= live_orders_ b + 1.

Lemma slot_add q ev :
  ev_type ev = Add -> in_u 32 (ev_size ev) -> to_index (cfg_ b) (ev_price_ticks ev) = Z.of_nat i ->
  abs b !! i = Some q -> a_lookup (ev_order_ref ev) (abs b) = None ->
  exists b', apply ev b = Some b' /\ slot_step b' (<[i := q ++ [order_of ev]]> (abs b)) /\
    bests b' = bests (improve_best (ev_side ev) (Z.of_nat i) b).
Proof.
  intros Et Hs Hi Hq Hr. destruct (apply_step b ev b_wf Hs b_live) as (b' & E & S). exists b'.
  split; [done|]. split.
  - split; [apply S|]. split; [apply S|]. split; [|apply S]. rewrite (bs_abs _ _ _ _ _ _ S).
    unfold a_apply. rewrite Et. unfold a_add. cbn [a_price a_ref order_of]. rewrite Hi, Hr.
    rewrite decide_False by lia. rewrite decide_False by by intros []. rewrite Nat2Z.id.
    exact (list_alter_insert _ _ _ _ Hq).
  - apply apply_bests in E as (b1 & E & -> & _). unfold dispatch in E. rewrite Et in E.
    apply on_add_bests in E; [| |].
    + rewrite E. change (cfg_ (b ++ₛ adds)) with (cfg_ b). rewrite Hi. unfold improve_best, bests.
      destruct (ev_side ev); cbn; try case_decide; done.
    + change (cfg_ (b ++ₛ adds)) with (cfg_ b). lia.
    + change (index_ (b ++ₛ adds)) with (index_ b). destruct b_wf as (pss & free & H).
      apply eq_None_not_Some. rewrite <- (abs_known b pss free H), Hr. by intros [].
Qed.

Lemma slot_del l1 o l2 :
  abs b !! i = Some (l1 ++ o :: l2) ->
  exists b', apply (ev_del (a_ref o)) b = Some b' /\ slot_step b' (a_remove (a_ref o) (abs b)) /\
    (a_side o <> Buy -> best_bid_idx_ b' = best_bid_idx_ b) /\
    (bests b' = bests b \/ abs b' !! i = Some []).
Proof.
  intros Hq. destruct (apply_step b (ev_del (a_ref o)) b_wf) as (b' & E & S); [done|done|].
  exists b'. split; [done|]. split; [split_and!; apply S|].
  destruct b_wf as (pss & free & H).
  rewrite (abs_views _ _ _ H), list_lookup_fmap in Hq.
  destruct (pss !! i) as [l|] eqn:Hl; [|done]. injection Hq as Hq.
  assert (o ∈ view_of (mem (pool_ b)) l) as Ho by (rewrite Hq; set_solver).
  apply elem_of_view_of in Ho as (a & n & Ha & Hn & <-).
  assert (index_ b !! o_order_ref n = Some a) as Hx by (apply (wf_index _ _ _ H); eauto 10).
  destruct (wf_levels_lookup _ _ _ H i l Hl) as (lvl & Hlvl & Hlo).
  destruct (lo_nodes _ _ _ _ _ Hlo a Ha) as (n' & Hn' & Hidx & _).
  assert (n' = n) as -> by congruence.
  apply apply_bests in E as E1. destruct E1 as (b1 & E1 & Eb & EL).
  change (with_ref (o_order_ref n) remove_order (b ++ₛ deletes) = Some b1) in E1.
  unfold with_ref in E1. change (index_ (b ++ₛ deletes)) with (index_ b) in E1. rewrite Hx in E1.
  pose proof E1 as B. eapply remove_bests in B; [|exact Hn]. destruct B as [B1 B2].
  split.
  - intros Hs. specialize (B1 Hs). unfold bests in Eb. injection Eb as -> _. exact B1.
  - destruct B2 as [B2|(lvl' & El & Ec)]; [left; by rewrite Eb, B2|right].
    rewrite Hidx, vget_nat in El.
    unfold abs. rewrite list_lookup_fmap, EL, El. cbn. unfold queue. by rewrite Ec.
Qed.
End Slot.

Lemma lookup_unknown r ls : a_lookup r ls = None <-> forall o, o ∈ concat ls -> a_ref o <> r.
Proof.
  unfold a_lookup. split.
  - intros E o Ho <-. assert (is_Some (a_find (a_ref o) (concat ls))) as [x Hx]; [|congruence].
    by apply a_find_known, list_elem_of_fmap_2.
  - intros H. apply eq_None_not_Some. intros [x [Hx Hr]%a_find_Some]. exact (H x Hx Hr).
Qed.

Lemma remove_unknown r ls : a_lookup r ls = None -> a_remove r ls = ls.
Proof.
  intros H. pose proof (proj1 (lookup_unknown r ls) H) as Hn. unfold a_remove, a_update.
  apply list_eq. intros j. rewrite list_lookup_fmap.
  destruct (ls !! j) as [q|] eqn:Hj; [|done]. cbn. f_equal. apply a_update_queue_other.
  intros o Ho. apply Hn. apply list_elem_of_In, in_concat. exists q.
  split; apply list_elem_of_In; [by eapply list_elem_of_lookup_2|done].
Qed.

(** Elements of the queues with one replaced. *)
Lemma elem_of_insert_queue (ls : queues) i q o :
  o ∈ concat (<[i := q]> ls) -> o ∈ q \/ o ∈ concat ls.
Proof.
  rewrite !list_elem_of_In, !in_concat. intros (q' & [j Hj]%list_elem_of_In%list_elem_of_lookup & Ho).
  destruct (decide (j = i)) as [->|Hne].
  - apply list_lookup_insert_Some in Hj as [(_ & <- & _)|[? _]]; [by left|done].
  - rewrite list_lookup_insert_ne in Hj by done. right. exists q'. split; [|done].
    apply list_elem_of_In. by eapply list_elem_of_lookup_2.
Qed.

Lemma remove_insert r i q (ls : queues) :
  a_lookup r ls = None -> a_remove r (<[i := q]> ls) = <[i := a_update_queue (fun _ => None) r q]> ls.
Proof.
  intros H. unfold a_remove, a_update. rewrite list_fmap_insert. f_equal. by apply remove_unknown.
Qed.

(** A best price that points to an emptied level. *)
Lemma best_bid_emptied b i :
  wf b -> abs b !! i = Some [] -> best_bid_idx_ b = Z.of_nat i ->
  best_bid b = Some (mkBookLevel (to_price (cfg_ b) (Z.of_nat i)) 0 0 true).
Proof.
  intros (pss & free & H) Hq Hb. unfold best_bid. rewrite Hb, decide_False by lia. rewrite vget_nat.
  rewrite (abs_views _ _ _ H), list_lookup_fmap in Hq. destruct (pss !! i) as [l|] eqn:Hl; [|done].
  injection Hq as Hq. destruct (wf_levels_lookup _ _ _ H i l Hl) as (lvl & -> & [_ _ Hn Hc Ht _]).
  assert (length (view_of (mem (pool_ b)) l) = length l) as Hlen.
  { apply length_view_of. intros a (n & ? & _)%Hn. by exists n. }
  cbn [mbind option_bind]. unfold level_view. rewrite Hc, Ht, <- Hlen, Hq. done.
Qed.

Lemma phantom_level c ls px : mkBookLevel px 0 0 true <> a_best (a_bids c ls).
Proof.
  destruct (a_bids c ls) as [|x l] eqn:E; [done|]. cbn. intros <-.
  assert (mkBookLevel px 0 0 true ∈ a_bids c ls) as Hx by (rewrite E; by left).
  unfold a_bids in Hx. rewrite elem_of_reverse in Hx. apply ladder_up_orders in Hx as [Hx _]. done.
Qed.

(** A buy and a sell order at an empty slot inside the spread, and their deletion. *)
Lemma locked_price_run b px r1 r2 sz1 sz2 :
  let idx := to_index (cfg_ b) px in
  wf b -> live_orders_ b < 2 ^ 32 - 4 ->
  0 <= idx -> abs b !! Z.to_nat idx = Some [] ->
  best_bid_idx_ b < idx -> best_ask_idx_ b < 0 \/ idx < best_ask_idx_ b ->
  r1 <> r2 -> a_lookup r1 (abs b) = None -> a_lookup r2 (abs b) = None ->
  in_u 32 sz1 -> in_u 32 sz2 ->
  exists b', apply_all [ev_add r1 Buy px sz1; ev_add r2 Sell px sz2; ev_del r1; ev_del r2] b = Some b' /\
    wf b' /\ cfg_ b' = cfg_ b /\ abs b' = abs b /\ best_bid_idx_ b' = idx.
Proof.
  intros idx W L Hi Hq Hb Ha Hr H1 H2 S1 S2.
  set (i := Z.to_nat idx) in *. assert (idx = Z.of_nat i) as Ei by (unfold i; lia).
  set (o1 := order_of (ev_add r1 Buy px sz1)). set (o2 := order_of (ev_add r2 Sell px sz2)).
  assert ((i < length (abs b))%nat) as Hlen by by eapply lookup_lt_Some.
  (* the buy order *)
  destruct (slot_add b i W ltac:(lia) [] (ev_add r1 Buy px sz1)) as (b1 & E1 & (W1 & C1 & A1 & L1) & B1); [done..|].
  assert (bests b1 = (idx, best_ask_idx_ b)) as B1'.
  { rewrite B1. unfold improve_best, bests. cbn. rewrite decide_True by lia. cbn. by rewrite Ei. }
  cbn [app] in A1. fold o1 in A1.
  (* the sell order *)
  destruct (slot_add b1 i W1 ltac:(lia) [o1] (ev_add r2 Sell px sz2)) as (b2 & E2 & (W2 & C2 & A2 & L2) & B2); [done|done|..].
  { rewrite C1. exact Ei. }
  { rewrite A1. by apply list_lookup_insert_eq. }
  { rewrite A1. apply lookup_unknown. intros o [->%list_elem_of_singleton|Ho]%elem_of_insert_queue; [done|].
    by apply (proj1 (lookup_unknown r2 (abs b)) H2). }
  assert (bests b2 = (idx, idx)) as B2'.
  { rewrite B2. unfold bests in B1'. injection B1' as Eb Ea. unfold improve_best, bests. cbn.
    rewrite Ea, decide_True by lia. cbn. by rewrite Eb, Ei. }
  rewrite A1, list_insert_insert_eq in A2. cbn [app] in A2. fold o2 in A2.
  (* the deletion of the buy order *)
  destruct (slot_del b2 i W2 ltac:(lia) [] o1 [o2]) as (b3 & E3 & (W3 & C3 & A3 & L3) & _ & B3).
  { rewrite A2. by apply list_lookup_insert_eq. }
  rewrite A2 in A3. change (a_ref o1) with r1 in E3, A3. rewrite remove_insert in A3 by done.
  assert (a_update_queue (fun _ => None) r1 [o1; o2] = [o2]) as Eq1.
  { unfold a_update_queue. cbn. rewrite decide_True by done. rewrite decide_False; [done|]. cbn. congruence. }
  rewrite Eq1 in A3.
  destruct B3 as [B3|B3]; [|rewrite A3, list_lookup_insert_eq in B3 by done; done]. rewrite B2' in B3.
  (* the deletion of the sell order *)
  destruct (slot_del b3 i W3 ltac:(lia) [] o2 []) as (b4 & E4 & (W4 & C4 & A4 & L4) & B4 & _).
  { rewrite A3. by apply list_lookup_insert_eq. }
  rewrite A3 in A4. change (a_ref o2) with r2 in E4, A4. rewrite remove_insert in A4 by done.
  assert (a_update_queue (fun _ => None) r2 [o2] = []) as Eq2.
  { unfold a_update_queue. cbn. by rewrite decide_True. }
  rewrite Eq2, list_insert_id in A4 by done.
  specialize (B4 ltac:(done)). injection B3 as B3 _. rewrite B3 in B4.
  exists b4. split.
  { unfold apply_all. cbn [iterM]. rewrite E1. cbn [mbind option_bind]. rewrite E2. cbn [mbind option_bind].
    rewrite E3. cbn [mbind option_bind]. by rewrite E4. }
  split; [exact W4|]. split; [congruence|]. by split.
Qed.

(** ** Theorems *)

(** C34. A locked price breaks the cached best.  Into any sound book, at an empty slot
    inside the spread: a buy order, a sell order at the same price, and the deletion of
    both, each message well formed, leave every queue as it was, but the book
    reports a best bid of size 0 and no orders at that slot, instead of its best
    bid. *)
Theorem locked_price_dangling_bid b px r1 r2 sz1 sz2 :
  let idx := to_index (cfg_ b) px in
  wf b -> top_ok b -> live_orders_ b < 2 ^ 32 - 4 ->
  0 <= idx -> abs b !! Z.to_nat idx = Some [] ->
  best_bid_idx_ b < idx -> best_ask_idx_ b < 0 \/ idx < best_ask_idx_ b ->
  r1 <> r2 -> a_lookup r1 (abs b) = None -> a_lookup r2 (abs b) = None ->
  in_u 32 sz1 -> in_u 32 sz2 ->
  exists b', apply_all [ev_add r1 Buy px sz1; ev_add r2 Sell px sz2; ev_del r1; ev_del r2] b = Some b' /\
    wf b' /\ abs b' = abs b /\
    best_bid b = Some (a_best (a_bids (cfg_ b) (abs b))) /\
    best_bid b' = Some (mkBookLevel (to_price (cfg_ b) idx) 0 0 true) /\ best_bid b' <> best_bid b.
Proof.
  intros idx W T L Hi Hq Hb Ha Hr H1 H2 S1 S2.
  destruct (locked_price_run b px r1 r2 sz1 sz2) as (b4 & E & W4 & C4 & A4 & B4); [done..|].
  exists b4. split; [exact E|]. split; [exact W4|]. split; [exact A4|].
  assert (best_bid b = Some (a_best (a_bids (cfg_ b) (abs b)))) as Eb.
  { destruct W as (pss & free & H). destruct T as [Ts Tb]. exact (best_bid_spec b _ (wf_shows _ _ _ H Ts) Tb). }
  fold idx in B4. rewrite <- (Z2Nat.id idx Hi) in B4. rewrite <- A4 in Hq.
  pose proof (best_bid_emptied b4 _ W4 Hq B4) as Eb4. rewrite (Z2Nat.id idx Hi), C4 in Eb4.
  split; [exact Eb|]. split; [exact Eb4|]. rewrite Eb4, Eb. intros [= E']. revert E'. apply phantom_level.
Qed.

(** An empty book. *)
Lemma locked_price_dangling_bid_witness :
  exists b, apply_all [ev_add 1 Buy 103 5; ev_add 2 Sell 103 7; ev_del 1; ev_del 2]
      (OrderBook_new small_config) = Some b /\
    abs b = no_orders (clamp_config small_config) /\ best_bid b = Some (mkBookLevel 103 0 0 true).
Proof.
  destruct (locked_price_dangling_bid (OrderBook_new small_config) 103 1 2 5 7)
    as (b & E & _ & A & _ & B & _).
  - exact (new_wf small_config small_config_ok).
  - exact (new_top small_config small_config_ok).
  - reflexivity.
  - discriminate.
  - reflexivity.
  - reflexivity.
  - left. reflexivity.
  - discriminate.
  - reflexivity.
  - reflexivity.
  - split; [discriminate|reflexivity].
  - split; [discriminate|reflexivity].
  - exists b. split; [exact E|]. split; [rewrite A; apply (new_abs small_config small_config_ok)|exact B].
Defined.
