(* ===== verification/BookL2.v ===== *)
(** * The aggregated (L2) path

    [set_level] and [observe_event_boundary] of [src/order_book.cpp], used by
    feeds that publish the total size of a price.  The book is described by one
    entry per slot, [None] or a side with a total, and [set_level] assigns an
    entry; the best prices follow, also when a price changes side.

    The source's [set_level] does not look at its [side] argument when the size
    is zero: [l2_ask_removal_deletes_bid] shows a removal on the ask side that
    deletes a bid. *)

From stdpp Require Import base list gmap numbers.
From S2P Require Import Prelude MarketEvent OrderPool OrderBook BookSpec OrderBookWf.
From S2P Require Import OrderBookBest BookLadder OrderBookRefine OrderBookProps.

(** ** Specification *)

Abbreviation l2_levels := (list (option (Side * Z))).

Definition l2_entry (l : PriceLevel) : option (Side * Z) :=
  if decide (order_count l = 0) then None else Some (lv_side l, aggregate_size l).

Definition l2_abs (b : OrderBook) : l2_levels := l2_entry <$> levels_ b.

Definition l2_set (c : OrderBookConfig) (sd : Side) (price size : Z) (ls : l2_levels) : l2_levels :=
  let idx := to_index c price in
  if decide (idx < 0) then ls
  else <[Z.to_nat idx := if decide (size = 0) then None else Some (sd, size)]> ls.

(** An entry as a queue with one anonymous order, for the price ladders. *)
Definition l2_queue (e : option (Side * Z)) : list AOrder :=
  match e with None => [] | Some (s, n) => [mkAOrder 0 0 n s] end.

Definition l2_stats (c : OrderBookConfig) (price size : Z) (s : OrderBookStats) : OrderBookStats :=
  let s := if a_out_of_band c price then s <| rejected_out_of_band ::= inc |>
           else if decide (size = 0) then s <| deletes ::= inc |> else s <| adds ::= inc |> in
  s <| applied ::= inc |>.

(** A level of an L2 book: empty, or one entry of a real side. *)
Definition l2_level_ok (l : PriceLevel) : Prop :=
  (order_count l = 0 /\ lv_side l = SideNone /\ aggregate_size l = 0) \/
  (order_count l = 1 /\ lv_side l <> SideNone /\ 0 < aggregate_size l < 2 ^ 64).

Record l2_wf (b : OrderBook) : Prop := {
  l2_cfg : cfg_ok (cfg_ b);
  l2_len : Z.of_nat (length (levels_ b)) = num_levels (cfg_ b);
  l2_levels_ok i l : levels_ b !! i = Some l -> l2_level_ok l;
  l2_best : best_ok b;
  l2_live : live_orders_ b = Z.of_nat (length (filter is_Some (l2_abs b))) }.

(** ** A level changes side *)

Lemma flip_best_ok b ls i l l' :
  ls !! i = Some l -> levels_ b = <[i:=l']> ls ->
  order_count l > 0 -> order_count l' > 0 ->
  lv_side l <> SideNone -> lv_side l' <> SideNone -> lv_side l <> lv_side l' ->
  is_max (populated Buy) ls (best_bid_idx_ b) -> is_min (populated Sell) ls (best_ask_idx_ b) ->
  exists b', retreat_best (lv_side l) (Z.of_nat i) b = Some b' /\ same_rest b b' /\
    best_ok (improve_best (lv_side l') (Z.of_nat i) b').
Proof.
  intros Hl Hls Hc Hc' Hs Hs' Hne Hb Ha.
  pose proof (populated_here l' Hc') as Hp.
  pose proof (populated_other (lv_side l') (lv_side l) l' ltac:(congruence) eq_refl) as Hp0.
  unfold retreat_best, rescan_best_bid_from, rescan_best_ask_from, best_ok.
  destruct (lv_side l) eqn:E; [done| |]; destruct (lv_side l') eqn:E'; try done.
  - pose proof (is_min_improve ls i l l' Hl (populated Sell) _ Hp Ha) as Hmin.
    rewrite Hls. destruct (decide (Buy = Buy /\ Z.of_nat i = best_bid_idx_ b)) as [H1|H1].
    + destruct H1 as [_ H1]. replace (Z.to_nat _) with i by lia. rewrite <- H1 in Hb.
      destruct (scan_bid_retreat ls i l l' Hl Hp0 Hb) as (r & -> & Hr).
      eexists. split; [done|]. split; [by repeat split|]. cbn in *.
      case_decide; cbn; by rewrite Hls.
    + rewrite decide_False by (by intros [? _]). exists b. split; [done|]. split; [by repeat split|].
      assert (is_max (populated Buy) (<[i:=l']> ls) (best_bid_idx_ b))
        by (eapply is_max_other; naive_solver).
      cbn in *. case_decide; cbn; by rewrite Hls.
  - pose proof (is_max_improve ls i l l' Hl (populated Buy) _ Hp Hb) as Hmax.
    rewrite Hls. rewrite decide_False by (by intros [? _]).
    destruct (decide (Sell = Sell /\ Z.of_nat i = best_ask_idx_ b)) as [H1|H1].
    + destruct H1 as [_ H1]. rewrite <- H1 in *.
      destruct (scan_ask_retreat ls i l l' Hl Hp0 Ha) as (r & -> & Hr).
      eexists. split; [done|]. split; [by repeat split|]. cbn in *.
      case_decide; cbn; by rewrite Hls.
    + exists b. split; [done|]. split; [by repeat split|].
      assert (is_min (populated Sell) (<[i:=l']> ls) (best_ask_idx_ b))
        by (eapply is_min_other; naive_solver).
      cbn in *. case_decide; cbn; by rewrite Hls.
Qed.

(** ** [set_level] *)

(** The number of entries after one is assigned. *)
Definition present (e : option (Side * Z)) : Z := if e then 1 else 0.

Lemma filter_insert_length (ls : l2_levels) i e e' :
  ls !! i = Some e ->
  Z.of_nat (length (filter is_Some (<[i:=e']> ls))) + present e =
  Z.of_nat (length (filter is_Some ls)) + present e'.
Proof.
  revert i. induction ls as [|x ls IH]; intros [|i] H; [done..| |].
  - cbn in H. simplify_eq. change (<[0%nat:=e']> (e :: ls)) with (e' :: ls).
    rewrite !filter_cons. repeat case_decide; destruct e, e'; cbn [length present];
      first [lia|exfalso; naive_solver].
  - change (<[S i:=e']> (x :: ls)) with (x :: <[i:=e']> ls). specialize (IH i H).
    rewrite !filter_cons. case_decide; cbn [length]; lia.
Qed.

Lemma filter_bound (ls : l2_levels) : (length (filter is_Some ls) <= length ls)%nat.
Proof. apply length_filter. Qed.

Section SetLevel.
Context (b : OrderBook) (H : l2_wf b) (i : nat) (l : PriceLevel) (Hl : levels_ b !! i = Some l).

(** The invariant after slot [i] became [l'] and the best prices were maintained. *)
Lemma l2_wf_insert b' l' :
  cfg_ b' = cfg_ b -> levels_ b' = <[i := l']> (levels_ b) -> l2_level_ok l' ->
  best_ok b' ->
  live_orders_ b' = live_orders_ b + present (l2_entry l') - present (l2_entry l) ->
  l2_wf b' /\ l2_abs b' = <[i := l2_entry l']> (l2_abs b).
Proof.
  intros Hc Hls Hok Hb Hlive.
  assert (l2_abs b' = <[i := l2_entry l']> (l2_abs b)) as Ha.
  { unfold l2_abs. by rewrite Hls, list_fmap_insert. }
  split; [|done]. split.
  - rewrite Hc. apply H.
  - rewrite Hc, Hls, length_insert. apply H.
  - rewrite Hls. intros j x [[-> ->]|[_ Hx]]%(insert_cases _ _ _ _ Hl); [done|]. by eapply l2_levels_ok.
  - done.
  - rewrite Ha, Hlive, (l2_live _ H).
    pose proof (filter_insert_length (l2_abs b) i (l2_entry l) (l2_entry l')) as E.
    unfold l2_abs in E at 1. rewrite list_lookup_fmap, Hl in E. specialize (E eq_refl). lia.
Qed.

Lemma l2_live_range : 0 <= live_orders_ b <= 2 ^ 32.
Proof.
  rewrite (l2_live _ H). pose proof (filter_bound (l2_abs b)) as Hf.
  unfold l2_abs in Hf at 2. rewrite length_fmap in Hf.
  pose proof (l2_len _ H). pose proof (cfg_span _ (l2_cfg _ H)). lia.
Qed.

Lemma l2_entry_present : order_count l > 0 -> 1 <= live_orders_ b.
Proof.
  intros Hc. rewrite (l2_live _ H).
  pose proof (filter_insert_length (l2_abs b) i (l2_entry l) None) as E.
  unfold l2_abs in E at 1. rewrite list_lookup_fmap, Hl in E. specialize (E eq_refl).
  unfold l2_entry in E at 1. rewrite decide_False in E by lia. cbn [present] in E. lia.
Qed.
End SetLevel.

(** What [set_level] does to slot [i], before the counters. *)
Definition l2_step (b b' : OrderBook) (i : nat) (e : option (Side * Z)) : Prop :=
  l2_wf b' /\ l2_abs b' = <[i := e]> (l2_abs b) /\ cfg_ b' = cfg_ b /\ stats_ b' = stats_ b /\
  crossed_at_last_boundary_ b' = crossed_at_last_boundary_ b.

Lemma l2_step_intro b b1 b2 i l l' :
  l2_wf b -> levels_ b !! i = Some l ->
  levels_ b1 = <[i := l']> (levels_ b) -> l2_level_ok l' ->
  cfg_ b1 = cfg_ b -> stats_ b1 = stats_ b ->
  crossed_at_last_boundary_ b1 = crossed_at_last_boundary_ b ->
  live_orders_ b1 = live_orders_ b + present (l2_entry l') - present (l2_entry l) ->
  same_rest b1 b2 -> best_ok b2 -> l2_step b b2 i (l2_entry l').
Proof.
  intros H Hl Hls Hok Hc Hst Hx Hlive [(E1 & E2 & _ & _ & E5 & E6) E7] Hb.
  destruct (l2_wf_insert b H i l Hl b2 l') as [W A]; try congruence.
  split; [done|]. split; [done|]. split; [congruence|]. split; congruence.
Qed.

Lemma l2_entry_some l : order_count l = 1 -> l2_entry l = Some (lv_side l, aggregate_size l).
Proof. intros E. unfold l2_entry. by rewrite decide_False by lia. Qed.

Lemma l2_entry_none l : order_count l = 0 -> l2_entry l = None.
Proof. intros E. unfold l2_entry. by rewrite decide_True. Qed.

(** A populated level is removed. *)
Lemma l2_remove_ok b i l :
  l2_wf b -> levels_ b !! i = Some l -> order_count l > 0 ->
  exists b', retreat_best (lv_side l) (Z.of_nat i)
      (b <| levels_ := <[i := l <| aggregate_size := 0 |> <| order_count := 0 |>
                                <| lv_side := SideNone |>]> (levels_ b) |>
         <| live_orders_ ::= dec |>) = Some b' /\ l2_step b b' i None.
Proof.
  intros H Hl Hc. destruct (l2_levels_ok _ H i l Hl) as [(? & _)|(H1 & Hs & _)]; [lia|].
  set (l' := l <| aggregate_size := 0 |> <| order_count := 0 |> <| lv_side := SideNone |>).
  destruct (l2_best _ H) as [Hb Ha].
  match goal with |- context [retreat_best _ _ ?x] => set (b1 := x) end.
  destruct (retreat_best_ok b1 (levels_ b) i l l') as (b' & E & Hsame & Hok); try done.
  - intros s Hs1. left. rewrite (populated_empty s l') by done. symmetry. by eapply populated_other.
  - exists b'. split; [done|]. change None with (l2_entry l').
    eapply (l2_step_intro b b1 b' i l l'); try done; [by left|].
    rewrite (l2_entry_some l H1), (l2_entry_none l') by done. cbn.
    pose proof (l2_live_range b H). pose proof (l2_entry_present b H i l Hl Hc).
    unfold dec, u64. rewrite wrap_small; [lia|unfold in_u; lia].
Qed.

(** An empty level gets an entry. *)
Lemma l2_fill_ok b i l sd size :
  l2_wf b -> levels_ b !! i = Some l -> order_count l = 0 -> sd <> SideNone -> 0 < size < 2 ^ 64 ->
  l2_step b (improve_best sd (Z.of_nat i)
    (b <| levels_ := <[i := l <| lv_side := sd |> <| order_count := 1 |>
                              <| aggregate_size := size |>]> (levels_ b) |>
       <| live_orders_ ::= inc |>)) i (Some (sd, size)).
Proof.
  intros H Hl Hc Hsd Hsz.
  set (l' := l <| lv_side := sd |> <| order_count := 1 |> <| aggregate_size := size |>).
  destruct (l2_best _ H) as [Hb Ha].
  match goal with |- context [improve_best _ _ ?x] => set (b1 := x) end.
  change (Some (sd, size)) with (l2_entry l').
  eapply (l2_step_intro b b1 _ i l l'); try done.
  - right. done.
  - rewrite (l2_entry_none l Hc), (l2_entry_some l') by done. cbn.
    pose proof (l2_live_range b H). unfold inc, u64. rewrite wrap_small; [lia|unfold in_u; lia].
  - apply improve_best_same.
  - apply (improve_best_ok b1 (levels_ b) i l l'); try done.
    intros s _. by apply populated_empty.
Qed.

(** A populated level gets a new total on the same side. *)
Lemma l2_resize_ok b i l size :
  l2_wf b -> levels_ b !! i = Some l -> order_count l <> 0 -> 0 < size < 2 ^ 64 ->
  l2_step b (improve_best (lv_side l) (Z.of_nat i)
    (b <| levels_ := <[i := l <| aggregate_size := size |>]> (levels_ b) |>))
    i (Some (lv_side l, size)).
Proof.
  intros H Hl Hc Hsz. destruct (l2_levels_ok _ H i l Hl) as [(? & _)|(H1 & Hs & _)]; [done|].
  set (l' := l <| aggregate_size := size |>). destruct (l2_best _ H) as [Hb Ha].
  match goal with |- context [improve_best _ _ ?x] => set (b1 := x) end.
  assert (l2_entry l' = Some (lv_side l, size)) as <- by (by rewrite (l2_entry_some l')).
  eapply (l2_step_intro b b1 _ i l l'); try done.
  - right. done.
  - rewrite (l2_entry_some l H1), (l2_entry_some l') by done. cbn. lia.
  - apply improve_best_same.
  - apply (improve_best_ok b1 (levels_ b) i l l'); try done; [cbn; lia|].
    intros s Hne. eapply populated_other; [|done]. cbn in Hne. congruence.
Qed.

(** A populated level changes side. *)
Lemma l2_flip_ok b i l sd size :
  l2_wf b -> levels_ b !! i = Some l -> order_count l <> 0 -> sd <> SideNone -> lv_side l <> sd ->
  0 < size < 2 ^ 64 ->
  exists b', retreat_best (lv_side l) (Z.of_nat i)
    (b <| levels_ := <[i := l <| lv_side := sd |> <| aggregate_size := size |>]> (levels_ b) |>)
      = Some b' /\ l2_step b (improve_best sd (Z.of_nat i) b') i (Some (sd, size)).
Proof.
  intros H Hl Hc Hsd Hne Hsz. destruct (l2_levels_ok _ H i l Hl) as [(? & _)|(H1 & Hs & _)]; [done|].
  set (l' := l <| lv_side := sd |> <| aggregate_size := size |>). destruct (l2_best _ H) as [Hb Ha].
  match goal with |- context [retreat_best _ _ ?x] => set (b1 := x) end.
  destruct (flip_best_ok b1 (levels_ b) i l l') as (b' & E & Hsame & Hok); try done; [lia|cbn; lia|].
  exists b'. split; [done|].
  assert (l2_entry l' = Some (sd, size)) as <- by (by rewrite (l2_entry_some l')).
  eapply (l2_step_intro b b1 _ i l l'); try done.
  - right. done.
  - rewrite (l2_entry_some l H1), (l2_entry_some l') by done. cbn. lia.
  - pose proof (improve_best_same sd (Z.of_nat i) b') as I.
    unfold same_rest, same_core in *. intuition congruence.
Qed.

Lemma l2_wf_stats b f : l2_wf b -> l2_wf (b <| stats_ ::= f |>).
Proof. intros []. by split. Qed.

(** Counting after the step. *)
Lemma l2_step_count b b' i e (f : OrderBookStats -> OrderBookStats) :
  l2_step b b' i e ->
  l2_wf (b' <| stats_ ::= f |>) /\ l2_abs (b' <| stats_ ::= f |>) = <[i := e]> (l2_abs b) /\
  cfg_ (b' <| stats_ ::= f |>) = cfg_ b /\ stats_ (b' <| stats_ ::= f |>) = f (stats_ b) /\
  crossed_at_last_boundary_ (b' <| stats_ ::= f |>) = crossed_at_last_boundary_ b.
Proof.
  intros ([] & A & C & S & X). split; [by split|]. split; [exact A|]. split; [exact C|].
  split; [|exact X]. cbn. by rewrite S.
Qed.

Lemma set_level_step b sd price size :
  l2_wf b -> sd <> SideNone -> 0 <= size < 2 ^ 64 ->
  exists b', set_level sd price size b = Some b' /\ l2_wf b' /\ cfg_ b' = cfg_ b /\
    l2_abs b' = l2_set (cfg_ b) sd price size (l2_abs b) /\
    stats_ b' = l2_stats (cfg_ b) price size (stats_ b) /\
    crossed_at_last_boundary_ b' = crossed_at_last_boundary_ b.
Proof.
  intros H Hsd Hsz. unfold set_level, l2_set, l2_stats, a_out_of_band.
  pose proof (to_index_range (cfg_ b) price (l2_cfg _ H)) as Hr. pose proof (l2_len _ H).
  destruct (decide (to_index (cfg_ b) price < 0)) as [Hn|Hn].
  { rewrite bool_decide_true by done. eexists. split; [done|].
    split; [by do 2 apply l2_wf_stats|done]. }
  rewrite bool_decide_false by done.
  destruct (Z_of_nat_complete (to_index (cfg_ b) price)) as [i Ei]; [lia|]. rewrite Ei, Nat2Z.id.
  destruct (lookup_lt_is_Some_2 (levels_ b) i) as [l Hl]; [lia|].
  rewrite vget_nat, Hl. cbn [mbind option_bind].
  assert (forall x, (levels_ b).[Z.of_nat i := x] = Some (<[i := x]> (levels_ b))) as Hset
    by (intros; rewrite vset_in by lia; by rewrite Nat2Z.id).
  destruct (decide (size = 0)) as [->|Hz].
  - case_decide as Hc.
    + rewrite Hset. cbn [mbind option_bind]. destruct (l2_remove_ok b i l H Hl Hc) as (b' & -> & S).
      cbn [mbind option_bind]. eexists. split; [done|].
      apply (l2_step_count _ _ _ _ (fun s => s <| deletes ::= inc |> <| applied ::= inc |>)) in S. tauto.
    + cbn [mbind option_bind]. eexists. split; [done|].
      destruct (l2_levels_ok _ H i l Hl) as [(Hc0 & _)|[? _]]; [|lia].
      assert (<[i:=None]> (l2_abs b) = l2_abs b) as ->.
      { apply list_insert_id. unfold l2_abs. rewrite list_lookup_fmap, Hl. cbn.
        by rewrite (l2_entry_none l Hc0). }
      split; [by do 2 apply l2_wf_stats|done].
  - assert (0 < size < 2 ^ 64) as Hsz' by lia.
    destruct (decide (order_count l = 0)) as [Hc|Hc]; [|destruct (decide (lv_side l = sd)) as [Hs|Hs]].
    + rewrite Hset. cbn [mbind option_bind]. eexists. split; [done|].
      pose proof (l2_fill_ok b i l sd size H Hl Hc Hsd Hsz') as S.
      apply (l2_step_count _ _ _ _ (fun s => s <| adds ::= inc |> <| applied ::= inc |>)) in S. tauto.
    + rewrite Hset. cbn [mbind option_bind]. subst sd. eexists. split; [done|].
      pose proof (l2_resize_ok b i l size H Hl Hc Hsz') as S.
      apply (l2_step_count _ _ _ _ (fun s => s <| adds ::= inc |> <| applied ::= inc |>)) in S. tauto.
    + rewrite Hset. cbn [mbind option_bind].
      destruct (l2_flip_ok b i l sd size H Hl Hc Hsd Hs Hsz') as (b' & -> & S).
      cbn [mbind option_bind]. eexists. split; [done|].
      apply (l2_step_count _ _ _ _ (fun s => s <| adds ::= inc |> <| applied ::= inc |>)) in S. tauto.
Qed.

(** A level of an L2 book shows its entry. *)
Lemma l2_shows b : l2_wf b -> shows b (l2_queue <$> l2_abs b).
Proof.
  intros H. unfold l2_abs. split; [by rewrite !length_fmap|]. intros i l Hl.
  exists (l2_queue (l2_entry l)). split; [by rewrite !list_lookup_fmap, Hl|].
  unfold level_view, a_level, l2_entry.
  destruct (l2_levels_ok _ H i l Hl) as [(H0 & Hs & Ht)|(H1 & Hs & Ht)].
  - rewrite decide_True by done. split; [intros s _; by apply populated_empty|].
    by rewrite Ht, H0.
  - rewrite decide_False by lia. split.
    + intros s _. unfold populated. by rewrite H1.
    + cbn. rewrite H1. f_equal. unfold u64. rewrite wrap_small; [lia|unfold in_u; lia].
Qed.

(** ** A fresh L2 book and sequences of updates *)

Record l2_op := mkL2 { op_side : Side; op_price : Z; op_size : Z }.

Definition l2_op_ok (o : l2_op) : Prop := op_side o <> SideNone /\ 0 <= op_size o < 2 ^ 64.

#[export] Instance l2_op_ok_dec o : Decision (l2_op_ok o).
Proof. unfold l2_op_ok. apply _. Defined.

Definition set_levels (ops : list l2_op) (b : OrderBook) : option OrderBook :=
  iterM (fun o => set_level (op_side o) (op_price o) (op_size o)) ops b.

Definition l2_sets (c : OrderBookConfig) (ops : list l2_op) (ls : l2_levels) : l2_levels :=
  fold_left (fun ls o => l2_set c (op_side o) (op_price o) (op_size o) ls) ops ls.

Definition l2_empty (c : OrderBookConfig) : l2_levels := replicate (Z.to_nat (num_levels c)) None.

Lemma l2_new_wf c : cfg_ok (clamp_config c) -> l2_wf (OrderBook_new c).
Proof.
  intros Hc. pose proof (num_levels_pos _ Hc). split; cbn.
  - done.
  - rewrite length_replicate. lia.
  - intros i l [-> _]%lookup_replicate. by left.
  - apply (new_top c Hc).
  - unfold l2_abs. cbn. rewrite fmap_replicate. by induction (Z.to_nat _).
Qed.

Lemma set_levels_ok ops b :
  l2_wf b -> Forall l2_op_ok ops ->
  exists b', set_levels ops b = Some b' /\ l2_wf b' /\ cfg_ b' = cfg_ b /\
    l2_abs b' = l2_sets (cfg_ b) ops (l2_abs b) /\
    crossed_at_last_boundary_ b' = crossed_at_last_boundary_ b /\
    crossed_observed (stats_ b') = crossed_observed (stats_ b).
Proof.
  intros W Ho. revert b W. induction Ho as [|o ops [Hs Hz] _ IH]; intros b W; [by exists b|].
  destruct (set_level_step b (op_side o) (op_price o) (op_size o) W Hs Hz)
    as (b1 & E & W1 & C1 & A1 & S1 & X1).
  destruct (IH b1 W1) as (b2 & E2 & W2 & C2 & A2 & X2 & O2). exists b2.
  unfold set_levels. cbn [iterM]. rewrite E. cbn [mbind option_bind].
  split; [done|]. split; [done|]. split; [congruence|]. rewrite A2, C1, A1. split; [done|].
  split; [congruence|]. rewrite O2, S1. unfold l2_stats.
  by destruct (a_out_of_band _ _); [|case_decide].
Qed.

(** ** Event boundaries *)

(** Feed events: each a batch of updates followed by the crossed-book check. *)
Fixpoint l2_events (evs : list (list l2_op)) (b : OrderBook) : option OrderBook :=
  match evs with
  | [] => Some b
  | ops :: evs => b ← set_levels ops b; l2_events evs (observe_event_boundary b)
  end.

(** Whether the book is crossed at each boundary. *)
Fixpoint l2_flags (c : OrderBookConfig) (evs : list (list l2_op)) (ls : l2_levels) : list bool :=
  match evs with
  | [] => []
  | ops :: evs => let ls := l2_sets c ops ls in
      a_crossed c (l2_queue <$> ls) :: l2_flags c evs ls
  end.

(** Boundaries at which the book is crossed and was not at the one before. *)
Fixpoint rising (prev : bool) (l : list bool) : Z :=
  match l with [] => 0 | x :: l => (if x && negb prev then 1 else 0) + rising x l end.

Lemma rising_range p l : 0 <= rising p l <= Z.of_nat (length l).
Proof.
  revert p. induction l as [|x l IH]; intros p; cbn [rising length]; [lia|].
  specialize (IH x). destruct (x && negb p); lia.
Qed.

Lemma l2_flags_length c evs ls : length (l2_flags c evs ls) = length evs.
Proof. revert ls. induction evs; intros ls; cbn; auto. Qed.

Lemma observe_ok b :
  l2_wf b ->
  let x := a_crossed (cfg_ b) (l2_queue <$> l2_abs b) in
  let b' := observe_event_boundary b in
  l2_wf b' /\ cfg_ b' = cfg_ b /\ l2_abs b' = l2_abs b /\ crossed_at_last_boundary_ b' = x /\
  crossed_observed (stats_ b') =
    if x && negb (crossed_at_last_boundary_ b) then inc (crossed_observed (stats_ b))
    else crossed_observed (stats_ b).
Proof.
  intros W x b'. assert (is_crossed b = x) as Hx.
  { eapply is_crossed_spec; [by apply l2_shows|apply W|apply W]. }
  unfold b', observe_event_boundary. rewrite Hx. destruct W.
  destruct (x && negb (crossed_at_last_boundary_ b)); (split; [by split|done]).
Qed.

Lemma l2_events_ok evs b :
  l2_wf b -> Forall (Forall l2_op_ok) evs ->
  0 <= crossed_observed (stats_ b) -> crossed_observed (stats_ b) + Z.of_nat (length evs) < 2 ^ 64 ->
  exists b', l2_events evs b = Some b' /\ l2_wf b' /\ cfg_ b' = cfg_ b /\
    l2_abs b' = l2_sets (cfg_ b) (concat evs) (l2_abs b) /\
    crossed_observed (stats_ b') = crossed_observed (stats_ b) +
      rising (crossed_at_last_boundary_ b) (l2_flags (cfg_ b) evs (l2_abs b)).
Proof.
  intros W Ho. revert b W. induction Ho as [|ops evs Hops _ IH]; intros b W H0 Hb.
  { exists b. cbn. repeat (split; [done|]). lia. }
  cbn [l2_events length] in *.
  destruct (set_levels_ok ops b W Hops) as (b1 & -> & W1 & C1 & A1 & X1 & O1). cbn [mbind option_bind].
  destruct (observe_ok b1 W1) as (W2 & C2 & A2 & X2 & O2).
  set (b2 := observe_event_boundary b1) in *. rewrite C1, A1 in *. rewrite X1, O1 in O2.
  assert (crossed_observed (stats_ b2) = crossed_observed (stats_ b) +
    (if a_crossed (cfg_ b) (l2_queue <$> l2_sets (cfg_ b) ops (l2_abs b)) &&
        negb (crossed_at_last_boundary_ b) then 1 else 0)) as O3.
  { rewrite O2. destruct (_ && _); [|lia]. unfold inc, u64. rewrite wrap_small; [done|].
    unfold in_u. lia. }
  destruct (IH b2 W2) as (b' & -> & W' & C' & A' & O').
  { rewrite O3. destruct (_ && _); lia. }
  { rewrite O3. destruct (_ && _); lia. }
  exists b'. split; [done|]. split; [done|]. split; [congruence|].
  rewrite C2, A2, X2 in *. split.
  - rewrite A'. cbn [concat]. unfold l2_sets. by rewrite fold_left_app.
  - rewrite O', O3. cbn [l2_flags rising]. lia.
Qed.

(** ** Theorems *)

Definition demo_l2 : list (list l2_op) :=
  [[mkL2 Buy 103 40; mkL2 Sell 105 10]; [mkL2 Buy 105 7]; [mkL2 Sell 104 2]; [mkL2 Sell 104 0]].

Lemma demo_l2_ok : Forall (Forall l2_op_ok) demo_l2.
Proof. apply (bool_decide_unpack _). vm_compute. exact I. Qed.

(** C29. [set_level] is an assignment.  On a well-formed L2 book it returns, it
    assigns the slot's entry (removal, new entry, new total or change of side)
    and nothing else, it counts what it did, and the cached best prices stay
    those of the highest bid and the lowest ask. *)
Theorem set_level_assigns b sd price size :
  l2_wf b -> sd <> SideNone -> 0 <= size < 2 ^ 64 ->
  exists b', set_level sd price size b = Some b' /\ l2_wf b' /\
    l2_abs b' = l2_set (cfg_ b) sd price size (l2_abs b) /\
    stats_ b' = l2_stats (cfg_ b) price size (stats_ b) /\
    best_bid b' = Some (a_best (a_bids (cfg_ b) (l2_queue <$> l2_abs b'))) /\
    best_ask b' = Some (a_best (a_asks (cfg_ b) (l2_queue <$> l2_abs b'))).
Proof.
  intros W Hs Hz. destruct (set_level_step b sd price size W Hs Hz) as (b' & E & W' & C & A & S & _).
  exists b'. rewrite <- C at 3 4. repeat (split; [done|]).
  split; [eapply best_bid_spec|eapply best_ask_spec]; (apply l2_shows || apply W'); done.
Qed.

Lemma set_level_assigns_witness :
  exists b b', set_levels (concat demo_l2) (OrderBook_new small_config) = Some b /\
    set_level Buy 104 9 b = Some b' /\ best_bid b' = Some (mkBookLevel 105 7 1 true).
Proof.
  destruct (set_levels_ok (concat demo_l2) (OrderBook_new small_config)
    (l2_new_wf _ small_config_ok)) as (b & E & W & C & A & _).
  { apply (bool_decide_unpack _). vm_compute. exact I. }
  destruct (set_level_assigns b Buy 104 9 W) as (b' & E' & _ & A' & _ & B & _);
    [discriminate|vm_compute; split; congruence|].
  exists b, b'. split; [exact E|]. split; [exact E'|]. rewrite B, A', A, C. clear. vm_compute.
  reflexivity.
Defined.

(** A run of feed events on a fresh L2 book: it returns, the last update of
    every price wins, and the crossed counter is the number of times the book
    became crossed between two event boundaries - transient crossings inside an
    event are not counted. *)
Theorem l2_run_boundaries c evs :
  cfg_ok (clamp_config c) -> Forall (Forall l2_op_ok) evs -> Z.of_nat (length evs) < 2 ^ 64 ->
  let c' := clamp_config c in
  exists b, l2_events evs (OrderBook_new c) = Some b /\
    l2_abs b = l2_sets c' (concat evs) (l2_empty c') /\
    best_bid b = Some (a_best (a_bids c' (l2_queue <$> l2_abs b))) /\
    best_ask b = Some (a_best (a_asks c' (l2_queue <$> l2_abs b))) /\
    crossed_observed (stats_ b) = rising false (l2_flags c' evs (l2_empty c')).
Proof.
  intros Hc Ho Hl c'. assert (l2_abs (OrderBook_new c) = l2_empty c') as Ha
    by (unfold l2_abs; cbn; by rewrite fmap_replicate).
  destruct (l2_events_ok evs (OrderBook_new c)) as (b & E & W & C & A & O);
    [by apply l2_new_wf|done|done|done|].
  rewrite Ha in A, O. exists b. split; [done|]. split; [done|].
  change c' with (cfg_ (OrderBook_new c)). rewrite <- C.
  split; [eapply best_bid_spec; [by apply l2_shows|apply W]|].
  split; [eapply best_ask_spec; [by apply l2_shows|apply W]|]. by rewrite C.
Qed.

Lemma l2_run_boundaries_witness :
  exists b, l2_events demo_l2 (OrderBook_new small_config) = Some b /\
    crossed_observed (stats_ b) = 1.
Proof.
  destruct (l2_run_boundaries small_config demo_l2 small_config_ok demo_l2_ok eq_refl)
    as (b & E & _ & _ & _ & O).
  exists b. split; [exact E|]. rewrite O. clear. vm_compute. reflexivity.
Defined.

(** Removal ignores the side.  With a bid resting at a price, an ask-side
    update of size zero at that price (the levels of an update message carry
    such removals) deletes the bid. *)
Theorem l2_ask_removal_deletes_bid b price i n :
  l2_wf b -> to_index (cfg_ b) price = Z.of_nat i -> l2_abs b !! i = Some (Some (Buy, n)) ->
  exists b', set_level Sell price 0 b = Some b' /\ l2_abs b' !! i = Some None.
Proof.
  intros W Hi Hl. destruct (set_level_step b Sell price 0 W) as (b' & E & _ & _ & A & _); [done|lia|].
  exists b'. split; [done|]. rewrite A. unfold l2_set. rewrite Hi, decide_False, Nat2Z.id by lia.
  rewrite list_lookup_insert_eq by by eapply lookup_lt_Some. done.
Qed.

Lemma l2_ask_removal_deletes_bid_witness :
  exists b b', set_level Buy 103 40 (OrderBook_new small_config) = Some b /\
    set_level Sell 103 0 b = Some b' /\ l2_abs b' !! 3%nat = Some None.
Proof.
  destruct (set_level_step (OrderBook_new small_config) Buy 103 40 (l2_new_wf _ small_config_ok))
    as (b & E & W & C & A & _); [discriminate|lia|].
  destruct (l2_ask_removal_deletes_bid b 103 3 40 W) as (b' & E' & A').
  - rewrite C. vm_compute. reflexivity.
  - rewrite A. vm_compute. reflexivity.
  - exists b, b'. exact (conj E (conj E' A')).
Defined.
