(* ===== verification/Exchange.v ===== *)
(** * The exchange's book

    The specification the live feed is measured by: two maps from prices to
    quantities, one per side, which a level of an update sets, or removes when its
    quantity is zero.  The L2 book of [set_level] has one slot per price for both
    sides, and a removal does not look at the side ([BookL2]).  [ex_shown] relates
    the two inside the band; it is kept by updates that never touch a price while the
    other side rests there ([one_sided]). *)

From stdpp Require Import base list gmap numbers.
From S2P Require Import Prelude MarketEvent OrderPool OrderBook BookSpec OrderBookWf.
From S2P Require Import OrderBookBest BookLadder OrderBookProps BookL2.

(** ** Specification *)

Record Exchange := mkExchange { ex_bids : gmap Z Z; ex_asks : gmap Z Z }.

Definition ex_side (sd : Side) (E : Exchange) : gmap Z Z :=
  match sd with Buy => ex_bids E | Sell => ex_asks E | SideNone => ∅ end.

Definition opposite (sd : Side) : Side :=
  match sd with Buy => Sell | Sell => Buy | SideNone => SideNone end.

Definition put_level (price size : Z) (m : gmap Z Z) : gmap Z Z :=
  if decide (size = 0) then delete price m else <[price := size]> m.

Definition ex_apply (E : Exchange) (o : l2_op) : Exchange :=
  match op_side o with
  | Buy => mkExchange (put_level (op_price o) (op_size o) (ex_bids E)) (ex_asks E)
  | Sell => mkExchange (ex_bids E) (put_level (op_price o) (op_size o) (ex_asks E))
  | SideNone => E
  end.

Definition ex_apply_all (ops : list l2_op) (E : Exchange) : Exchange := fold_left ex_apply ops E.

Definition in_band (c : OrderBookConfig) (p : Z) : Prop := min_price_ticks c <= p <= max_price_ticks c.

#[export] Instance in_band_dec c p : Decision (in_band c p).
Proof. unfold in_band. apply _. Defined.

(** No price of the band has a bid and an ask. *)
Definition ex_apart (c : OrderBookConfig) (E : Exchange) : Prop :=
  forall p, in_band c p -> ex_bids E !! p = None \/ ex_asks E !! p = None.

(** No update touches a price of the band while the other side rests there. *)
Fixpoint one_sided (c : OrderBookConfig) (ops : list l2_op) (E : Exchange) : Prop :=
  match ops with
  | [] => True
  | o :: ops => (in_band c (op_price o) -> ex_side (opposite (op_side o)) E !! op_price o = None) /\
      one_sided c ops (ex_apply E o)
  end.

(** The slots hold the levels of the band, of both sides, and nothing else. *)
Definition ex_shown (c : OrderBookConfig) (E : Exchange) (ls : l2_levels) : Prop :=
  length ls = Z.to_nat (num_levels c) /\
  forall i sd q, (i < length ls)%nat ->
    ls !! i = Some (Some (sd, q)) <-> ex_side sd E !! to_price c (Z.of_nat i) = Some q.

Definition no_worse (sd : Side) (p p' : Z) : Prop := match sd with Sell => p <= p' | _ => p' <= p end.

(** [b] is the best level of a side in the band, or says that there is none. *)
Definition ex_best (c : OrderBookConfig) (sd : Side) (E : Exchange) (b : BookLevel) : Prop :=
  if valid b
  then in_band c (bl_price_ticks b) /\ ex_side sd E !! bl_price_ticks b = Some (bl_aggregate_size b) /\
    forall p q, in_band c p -> ex_side sd E !! p = Some q -> no_worse sd (bl_price_ticks b) p
  else forall p, in_band c p -> ex_side sd E !! p = None.

(** ** Prices and slots, with a tick of one *)

Section Shown.
Context (c : OrderBookConfig) (Htick : tick c = 1).

Lemma band_levels : num_levels c = max_price_ticks c - min_price_ticks c + 1.
Proof. unfold num_levels. by rewrite Htick, Z.quot_1_r. Qed.

Lemma price_slot p : in_band c p -> to_index c p = p - min_price_ticks c.
Proof. unfold in_band, to_index. intros H. rewrite decide_False by lia. by rewrite Htick, Z.quot_1_r. Qed.

Lemma price_outside p : ~ in_band c p -> to_index c p = -1.
Proof. unfold in_band, to_index. intros H. by rewrite decide_True by lia. Qed.

Lemma price_of_slot i : to_price c i = min_price_ticks c + i.
Proof. unfold to_price. rewrite Htick. lia. Qed.

Lemma slot_in_band i : (i < Z.to_nat (num_levels c))%nat -> in_band c (to_price c (Z.of_nat i)).
Proof. rewrite band_levels, price_of_slot. unfold in_band. lia. Qed.

(** ** The slots of an exchange *)

Definition ex_slot (E : Exchange) (p : Z) : option (Side * Z) :=
  match ex_bids E !! p with
  | Some q => Some (Buy, q)
  | None => (fun q => (Sell, q)) <$> ex_asks E !! p
  end.

Definition ex_slots (E : Exchange) : l2_levels :=
  (fun i => ex_slot E (to_price c i)) <$> seqZ 0 (num_levels c).

Lemma ex_slots_shown E : ex_apart c E -> ex_shown c E (ex_slots E).
Proof.
  intros Ha. unfold ex_slots. split; [by rewrite length_fmap, length_seqZ|].
  intros i sd q Hi. rewrite length_fmap, length_seqZ in Hi.
  rewrite list_lookup_fmap, lookup_seqZ_lt by lia. cbn [fmap option_fmap option_map].
  rewrite Z.add_0_l. pose proof (Ha _ (slot_in_band i Hi)) as H. unfold ex_slot.
  destruct (ex_bids E !! _) as [b|] eqn:Eb; destruct (ex_asks E !! _) as [a|] eqn:Ea;
    destruct H as [H|H]; try discriminate H; destruct sd; cbn [ex_side fmap option_fmap option_map];
    rewrite ?Eb, ?Ea, ?lookup_empty; split; intros [=]; by subst.
Qed.

Lemma ex_empty_shown : ex_shown c (mkExchange ∅ ∅) (l2_empty c).
Proof.
  split; [by unfold l2_empty; rewrite length_replicate|]. intros i sd q Hi. unfold l2_empty in *.
  rewrite length_replicate in Hi. rewrite lookup_replicate_2 by done.
  split; [done|]. destruct sd; cbn [ex_side ex_bids ex_asks]; by rewrite lookup_empty.
Qed.

Lemma ex_shown_unique E ls1 ls2 : ex_shown c E ls1 -> ex_shown c E ls2 -> ls1 = ls2.
Proof.
  intros [L1 H1] [L2 H2]. apply list_eq. intros i.
  destruct (decide (i < length ls1)%nat) as [Hi|Hi]; [|by rewrite !lookup_ge_None_2 by lia].
  destruct (lookup_lt_is_Some_2 ls1 i Hi) as [e1 E1]. destruct (lookup_lt_is_Some_2 ls2 i) as [e2 E2]; [lia|].
  rewrite E1, E2. destruct e1 as [[sd q]|].
  - apply H1 in E1; [|done]. apply H2 in E1; [congruence|lia].
  - destruct e2 as [[sd q]|]; [|done]. apply H2 in E2; [|lia]. apply H1 in E2; [congruence|lia].
Qed.

(** ** Updates *)

Lemma put_level_lookup p s m p' :
  put_level p s m !! p' = if decide (p' = p) then if decide (s = 0) then None else Some s else m !! p'.
Proof.
  unfold put_level. repeat case_decide; subst;
    by rewrite ?lookup_delete_eq, ?lookup_delete_ne, ?lookup_insert_eq, ?lookup_insert_ne.
Qed.

Lemma ex_apply_side sd E o p :
  op_side o <> SideNone ->
  ex_side sd (ex_apply E o) !! p =
    if decide (sd = op_side o /\ p = op_price o)
    then if decide (op_size o = 0) then None else Some (op_size o) else ex_side sd E !! p.
Proof.
  intros Ho. unfold ex_apply.
  destruct sd, (op_side o); try done; cbn [ex_side ex_bids ex_asks];
    try (by rewrite decide_False by (by intros [? _])); rewrite put_level_lookup;
    (destruct (decide (p = op_price o)); [by rewrite (decide_True (P := _ /\ _)) by done|by rewrite (decide_False (P := _ /\ _)) by tauto]).
Qed.

Lemma ex_apply_shown E o ls :
  l2_op_ok o -> (in_band c (op_price o) -> ex_side (opposite (op_side o)) E !! op_price o = None) ->
  ex_shown c E ls -> ex_shown c (ex_apply E o) (l2_set c (op_side o) (op_price o) (op_size o) ls).
Proof.
  intros [Ho Hz] Hs [L H].
  destruct (decide (in_band c (op_price o))) as [Hb|Hb].
  2:{ unfold l2_set. rewrite (price_outside _ Hb), decide_True by lia. split; [done|]. intros i sd q Hi.
      rewrite H, ex_apply_side, decide_False; [done| |done|done].
      intros [_ Hp]. apply Hb. rewrite <- Hp. apply slot_in_band. lia. }
  specialize (Hs Hb). unfold l2_set. rewrite (price_slot _ Hb), decide_False by (unfold in_band in Hb; lia).
  split; [by rewrite length_insert|]. intros i sd q Hi. rewrite length_insert in Hi.
  rewrite ex_apply_side by done. rewrite price_of_slot.
  destruct (decide (op_price o = min_price_ticks c + Z.of_nat i)) as [Hp|Hp].
  - replace (Z.to_nat (op_price o - min_price_ticks c)) with i by lia. rewrite list_lookup_insert_eq by done.
    rewrite <- Hp. destruct (decide (sd = op_side o)) as [->|Hne].
    + rewrite (decide_True (P := _ /\ _)) by done. case_decide; split; congruence.
    + rewrite (decide_False (P := _ /\ _)) by (by intros [? _]).
      assert (ex_side sd E !! op_price o = None) as ->.
      { destruct sd; [apply lookup_empty| |]; by destruct (op_side o). }
      case_decide; split; congruence.
  - rewrite list_lookup_insert_ne by (unfold in_band in Hb; lia).
    rewrite decide_False by (intros [_ ?]; congruence). rewrite <- price_of_slot. by apply H.
Qed.

Lemma ex_apply_all_shown ops E ls :
  Forall l2_op_ok ops -> one_sided c ops E -> ex_shown c E ls ->
  ex_shown c (ex_apply_all ops E) (l2_sets c ops ls).
Proof.
  intros Ho. revert E ls. induction Ho as [|o ops Ho _ IH]; intros E ls Hs H; [done|].
  destruct Hs as [Hs Hr]. apply (IH (ex_apply E o)); [exact Hr|]. by apply ex_apply_shown.
Qed.

Lemma one_sided_app ops1 ops2 E :
  one_sided c (ops1 ++ ops2) E <-> one_sided c ops1 E /\ one_sided c ops2 (ex_apply_all ops1 E).
Proof.
  revert E. induction ops1 as [|o ops1 IH]; intros E; cbn [app one_sided]; [tauto|].
  rewrite IH. unfold ex_apply_all. cbn [fold_left]. tauto.
Qed.

(** ** The best prices *)

Lemma shown_entry b E i l :
  cfg_ b = c -> ex_shown c E (l2_abs b) -> levels_ b !! i = Some l -> l2_level_ok l ->
  forall sd, sd <> SideNone ->
  (populated sd l = true -> ex_side sd E !! to_price c (Z.of_nat i) = Some (aggregate_size l)) /\
  (populated sd l = false -> ex_side sd E !! to_price c (Z.of_nat i) = None).
Proof.
  intros <- [L H] Hl Hok sd Hsd. assert (i < length (l2_abs b))%nat as Hi.
  { unfold l2_abs. rewrite length_fmap. by eapply lookup_lt_Some. }
  assert (l2_abs b !! i = Some (l2_entry l)) as El by (unfold l2_abs; by rewrite list_lookup_fmap, Hl).
  unfold populated. split; intros Hp.
  - apply andb_prop in Hp as [H1%bool_decide_eq_true H2%bool_decide_eq_true]. apply H; [done|].
    rewrite El. unfold l2_entry. rewrite decide_False by lia. by rewrite H2.
  - destruct (ex_side sd E !! _) as [q|] eqn:Eq; [|done]. apply H in Eq; [|done]. rewrite El in Eq.
    unfold l2_entry in Eq. case_decide as Hz; [done|]. injection Eq as E1 E2.
    destruct Hok as [(? & _)|(H1 & _)]; [done|].
    apply andb_false_iff in Hp as [Hp|Hp]; apply bool_decide_eq_false in Hp; [lia|done].
Qed.

Lemma shown_level b p :
  l2_wf b -> cfg_ b = c -> in_band c p ->
  exists i l, p = to_price c (Z.of_nat i) /\ levels_ b !! i = Some l /\ l2_level_ok l.
Proof.
  intros W Eb Hp. pose proof (l2_len _ W) as L. rewrite Eb, band_levels in L. unfold in_band in Hp.
  destruct (lookup_lt_is_Some_2 (levels_ b) (Z.to_nat (p - min_price_ticks c))) as [l Hl]; [lia|].
  exists (Z.to_nat (p - min_price_ticks c)), l. rewrite price_of_slot. split; [lia|]. split; [done|].
  by eapply l2_levels_ok.
Qed.

Lemma best_bid_exchange b E :
  l2_wf b -> cfg_ b = c -> ex_shown c E (l2_abs b) -> exists bb, best_bid b = Some bb /\ ex_best c Buy E bb.
Proof.
  intros W Eb Hs. destruct (l2_best _ W) as [(H1 & H2 & H3) _]. unfold best_bid.
  assert (forall p q, in_band c p -> ex_bids E !! p = Some q -> p <= min_price_ticks c + best_bid_idx_ b) as Hmax.
  { intros p q Hp Hq. destruct (shown_level b p W Eb Hp) as (i & l & -> & Hl & Hok).
    destruct (shown_entry b E i l Eb Hs Hl Hok Buy) as [_ He]; [done|]. rewrite price_of_slot.
    destruct (populated Buy l) eqn:Ep; [specialize (H3 i l Hl Ep); lia|].
    specialize (He eq_refl). cbn [ex_side] in He. congruence. }
  case_decide as Hn.
  - eexists. split; [done|]. intros p Hp. destruct (ex_side Buy E !! p) as [q|] eqn:Eq; [|done].
    specialize (Hmax p q Hp Eq). unfold in_band in Hp. lia.
  - destruct H2 as (l & Hl & Hp); [lia|]. pose proof (lookup_lt_Some _ _ _ Hl) as Hlt.
    rewrite <- (Z2Nat.id (best_bid_idx_ b)), vget_nat, Hl by lia. cbn [mbind option_bind]. eexists. split; [done|].
    pose proof (l2_len _ W) as L. rewrite Eb, band_levels in L. pose proof (l2_levels_ok _ W _ _ Hl) as Hok.
    destruct (shown_entry b E _ l Eb Hs Hl Hok Buy) as [He _]; [done|]. unfold ex_best. cbn. rewrite Eb.
    split; [rewrite price_of_slot; unfold in_band; lia|]. split; [exact (He Hp)|].
    intros p q Hb Hq. rewrite price_of_slot. specialize (Hmax p q Hb Hq). lia.
Qed.

Lemma best_ask_exchange b E :
  l2_wf b -> cfg_ b = c -> ex_shown c E (l2_abs b) -> exists bb, best_ask b = Some bb /\ ex_best c Sell E bb.
Proof.
  intros W Eb Hs. destruct (l2_best _ W) as [_ (H1 & H2 & H3)]. unfold best_ask.
  assert (forall p q, in_band c p -> ex_asks E !! p = Some q ->
    0 <= best_ask_idx_ b /\ min_price_ticks c + best_ask_idx_ b <= p) as Hmin.
  { intros p q Hp Hq. destruct (shown_level b p W Eb Hp) as (i & l & -> & Hl & Hok).
    destruct (shown_entry b E i l Eb Hs Hl Hok Sell) as [_ He]; [done|]. rewrite price_of_slot.
    destruct (populated Sell l) eqn:Ep; [specialize (H3 i l Hl Ep); lia|].
    specialize (He eq_refl). cbn [ex_side] in He. congruence. }
  case_decide as Hn.
  - eexists. split; [done|]. intros p Hp. destruct (ex_side Sell E !! p) as [q|] eqn:Eq; [|done].
    specialize (Hmin p q Hp Eq). lia.
  - destruct H2 as (l & Hl & Hp); [lia|]. pose proof (lookup_lt_Some _ _ _ Hl) as Hlt.
    rewrite <- (Z2Nat.id (best_ask_idx_ b)), vget_nat, Hl by lia. cbn [mbind option_bind]. eexists. split; [done|].
    pose proof (l2_len _ W) as L. rewrite Eb, band_levels in L. pose proof (l2_levels_ok _ W _ _ Hl) as Hok.
    destruct (shown_entry b E _ l Eb Hs Hl Hok Sell) as [He _]; [done|]. unfold ex_best. cbn. rewrite Eb.
    split; [rewrite price_of_slot; unfold in_band; lia|]. split; [exact (He Hp)|].
    intros p q Hb Hq. rewrite price_of_slot. specialize (Hmin p q Hb Hq). lia.
Qed.

End Shown.

(** An ask-side removal behind a bid at the same price: the exchange has the bid, the
    slot is empty. *)
Theorem ask_removal_diverges c E ls p q :
  tick c = 1 -> in_band c p -> length ls = Z.to_nat (num_levels c) -> q <> 0 ->
  let ops := [mkL2 Buy p q; mkL2 Sell p 0] in
  ex_bids (ex_apply_all ops E) !! p = Some q /\
  l2_sets c ops ls !! Z.to_nat (p - min_price_ticks c) = Some None /\
  ~ ex_shown c (ex_apply_all ops E) (l2_sets c ops ls).
Proof.
  intros Ht Hb Hl Hq ops.
  assert (ex_bids (ex_apply_all ops E) !! p = Some q) as Eb.
  { cbn. unfold put_level. rewrite (decide_False (P := q = 0)) by done. by rewrite lookup_insert_eq. }
  assert (Z.to_nat (p - min_price_ticks c) < length ls)%nat as Hi.
  { rewrite Hl, (band_levels c Ht). unfold in_band in Hb. lia. }
  assert (l2_sets c ops ls !! Z.to_nat (p - min_price_ticks c) = Some None) as El.
  { cbn. unfold l2_set. rewrite (price_slot c Ht p Hb). unfold in_band in Hb. rewrite !(decide_False (P := _ < 0)) by lia.
    by rewrite list_insert_insert_eq, list_lookup_insert_eq. }
  split; [exact Eb|]. split; [exact El|]. intros [_ H].
  assert (l2_sets c ops ls !! Z.to_nat (p - min_price_ticks c) = Some (Some (Buy, q))) as E1; [|congruence].
  apply H; [by eapply lookup_lt_Some|]. cbn [ex_side]. rewrite (price_of_slot c Ht).
  replace (_ + _) with p by (unfold in_band in Hb; lia). exact Eb.
Qed.
