(* ===== verification/Sequencer.v ===== *)
(** * Sequencing and gap recovery

    [src/sequencer.cpp]: [offer], [pop_ready], [resync_to_snapshot].  The
    consumer's use of them (apply the offered event, then drain [pop_ready]) is
    [receive].

    The specification is the set of sequence numbers received so far: whatever
    order and however often the numbers of a window arrive (two redundant feeds,
    retransmissions), the events come out exactly once, in sequence order, up to
    the first number still missing; the stream is stale exactly while a received
    number lies beyond it. *)

From stdpp Require Import base list gmap numbers sets fin_sets.
From S2P Require Import Prelude MarketEvent.

Record SequencerConfig := mkSeqConfig { start_seq : Z; reorder_capacity : Z }.

Record SequencerStats := mkSeqStats {
  accepted : Z;
  duplicates : Z;
  buffered_released : Z;
  gap_episodes : Z;
  missing_total : Z;
  reorder_overflow : Z;
  snapshot_recoveries : Z }.

#[export] Instance SequencerStats_settable : Settable SequencerStats := fun s =>
  mkSeqStats (accepted s) (duplicates s) (buffered_released s) (gap_episodes s)
    (missing_total s) (reorder_overflow s) (snapshot_recoveries s).

Inductive Disposition := Apply | Drop | Buffered | Overflow.

#[export] Instance Disposition_eq_dec : EqDecision Disposition.
Proof. solve_decision. Defined.

Record Sequencer := mkSequencer {
  sq_cfg_ : SequencerConfig;
  expected_ : Z;
  stale_ : bool;
  needs_snapshot_ : bool;
  reorder_ : gmap Z MarketEvent;
  sq_stats_ : SequencerStats }.

#[export] Instance Sequencer_settable : Settable Sequencer := fun s =>
  mkSequencer (sq_cfg_ s) (expected_ s) (stale_ s) (needs_snapshot_ s) (reorder_ s) (sq_stats_ s).

Definition Sequencer_new (c : SequencerConfig) : Sequencer :=
  mkSequencer c (start_seq c) false false ∅ (mkSeqStats 0 0 0 0 0 0 0).

(** [++x] on a 64-bit counter, and [++stats_.m]. *)
Definition inc64 (n : Z) : Z := u64 (n + 1).

Definition buffered (s : Sequencer) : Z := Z.of_nat (size (reorder_ s)).

Definition offer (seq : Z) (ev : MarketEvent) (s : Sequencer) : Disposition * Sequencer :=
  if decide (seq < expected_ s) then
    (Drop, s <| sq_stats_ ::= fun t => t <| duplicates ::= inc64 |> |>)
  else if decide (seq = expected_ s) then
    (Apply, s <| expected_ ::= inc64 |> <| sq_stats_ ::= fun t => t <| accepted ::= inc64 |> |>)
  else
    let s := if stale_ s then s else
      s <| sq_stats_ ::= fun t => t <| gap_episodes ::= inc64 |>
                            <| missing_total ::= fun m => u64 (m + (seq - expected_ s)) |> |>
        <| stale_ := true |> in
    if decide (buffered s >= reorder_capacity (sq_cfg_ s)) then
      (Overflow, s <| sq_stats_ ::= fun t => t <| reorder_overflow ::= inc64 |> |>
                   <| needs_snapshot_ := true |>)
    else
      (* [emplace]: an entry already present stays *)
      (Buffered, s <| reorder_ ::= fun m => if m !! seq is Some _ then m else <[seq := ev]> m |>).

(** [None] is the source's [false]. *)
Definition pop_ready (s : Sequencer) : option MarketEvent * Sequencer :=
  match reorder_ s !! expected_ s with
  | None => (None, if decide (reorder_ s = ∅) then s <| stale_ := false |> else s)
  | Some ev =>
      let s := s <| reorder_ ::= delete (expected_ s) |> <| expected_ ::= inc64 |>
                 <| sq_stats_ ::= fun t => t <| accepted ::= inc64 |> <| buffered_released ::= inc64 |> |> in
      (Some ev, if decide (reorder_ s = ∅) then s <| stale_ := false |> else s)
  end.

Definition resync_to_snapshot (snapshot_seq : Z) (s : Sequencer) : Sequencer :=
  s <| reorder_ := ∅ |> <| expected_ := u64 (snapshot_seq + 1) |> <| stale_ := false |>
    <| needs_snapshot_ := false |> <| sq_stats_ ::= fun t => t <| snapshot_recoveries ::= inc64 |> |>.

(** [while (pop_ready(ev)) apply(ev)]: every successful call removes an entry, so
    one more call than there are entries is enough. *)
Fixpoint drain_fuel (fuel : nat) (s : Sequencer) : list MarketEvent * Sequencer :=
  match fuel with
  | O => ([], s)
  | S fuel =>
      match pop_ready s with
      | (None, s) => ([], s)
      | (Some ev, s) => let '(evs, s) := drain_fuel fuel s in (ev :: evs, s)
      end
  end.

Definition drain (s : Sequencer) : list MarketEvent * Sequencer :=
  drain_fuel (S (size (reorder_ s))) s.

(** What the consumer does with one arrival when no snapshot is needed: the
    events it applies. *)
Definition receive (seq : Z) (ev : MarketEvent) (s : Sequencer) : list MarketEvent * Sequencer :=
  match offer seq ev s with
  | (Apply, s) => let '(evs, s) := drain s in (ev :: evs, s)
  | (_, s) => ([], s)
  end.

Fixpoint receive_all (msgs : list (Z * MarketEvent)) (s : Sequencer)
    : list MarketEvent * Sequencer :=
  match msgs with
  | [] => ([], s)
  | (seq, ev) :: msgs =>
      let '(out, s) := receive seq ev s in
      let '(outs, s) := receive_all msgs s in (out ++ outs, s)
  end.

(** ** Specification *)

(** The first number from [e] on that is not in [R], looking at [n] numbers. *)
Fixpoint advance (n : nat) (R : gset Z) (e : Z) : Z :=
  match n with
  | O => e
  | S n => if decide (e ∈ R) then advance n R (e + 1) else e
  end.

(** The state of the specification: next number, numbers received and not older. *)
Definition a_receive (q : Z) (st : Z * gset Z) : Z * gset Z :=
  let '(e, R) := st in
  if decide (q < e) then (e, R) else
  let R := {[q]} ∪ R in
  (advance (S (size R)) R e, R).

Definition a_receive_all (qs : list Z) (st : Z * gset Z) : Z * gset Z :=
  fold_left (fun st q => a_receive q st) qs st.

(** ** The first missing number *)

(** [q] is the first number from [e] on that is missing in [R]. *)
Definition first_missing (e : Z) (R : gset Z) (q : Z) : Prop :=
  e <= q /\ q ∉ R /\ forall x, e <= x < q -> x ∈ R.

Lemma first_missing_unique e R q q' :
  first_missing e R q -> first_missing e R q' -> q = q'.
Proof.
  intros (H1 & H2 & H3) (H1' & H2' & H3').
  destruct (Z.lt_trichotomy q q') as [?|[?|?]]; [|done|].
  - exfalso. apply H2, H3'. lia.
  - exfalso. apply H2', H3. lia.
Qed.

Lemma advance_first n R e :
  (size R < n)%nat -> first_missing e R (advance n R e).
Proof.
  revert e. cut (forall e : Z, (size (filter (fun x => (e <= x)%Z) R) < n)%nat ->
    first_missing e R (advance n R e)).
  { intros H e Hn. apply H. eapply Nat.le_lt_trans; [|exact Hn]. apply subseteq_size. set_solver. }
  induction n as [|n IH]; intros e Hn; [lia|]. cbn. case_decide as He.
  - destruct (IH (e + 1)) as (H1 & H2 & H3).
    { assert (filter (fun x => e + 1 <= x) R ⊂ filter (fun x => e <= x) R) as Hs%subset_size; [|lia].
      split; [set_solver by lia|]. intros Hsub. specialize (Hsub e). rewrite !elem_of_filter in Hsub.
      destruct Hsub as [? _]; [done|lia]. }
    split; [lia|]. split; [done|]. intros x Hx. destruct (decide (x = e)) as [->|]; [done|].
    apply H3. lia.
  - split; [lia|]. split; [done|]. lia.
Qed.

(** ** The drain loop *)

Section Msgs.
(** The feed: the event of every sequence number. *)
Context (msg : Z -> MarketEvent).

(** [s] has received the numbers of [R] beyond [e] and nothing else is pending. *)
Record pending (s : Sequencer) (e : Z) (R : gset Z) : Prop := {
  pd_expected : expected_ s = e;
  pd_reorder q : reorder_ s !! q = if decide (q ∈ R /\ e <= q) then Some (msg q) else None }.

Lemma pending_empty s e R :
  pending s e R -> reorder_ s = ∅ <-> forall q, q ∈ R -> q < e.
Proof.
  intros [_ Hr]. split.
  - intros E q Hq. specialize (Hr q). rewrite E, lookup_empty in Hr. case_decide; [done|].
    destruct (decide (e <= q)); [tauto|lia].
  - intros H. apply map_eq. intros q. rewrite Hr, lookup_empty.
    rewrite decide_False; [done|]. intros [Hq%H ?]. lia.
Qed.

(** Numbers stay below [B], so no counter of the sequence wraps. *)
Lemma drain_fuel_ok n s e R :
  pending s e R -> 0 <= e -> (forall q, q ∈ R -> q < 2 ^ 64 - 1) ->
  (size (reorder_ s) < n)%nat ->
  exists e' s', drain_fuel n s = (msg <$> seqZ e (e' - e), s') /\
    first_missing e R e' /\ pending s' e' R /\ sq_cfg_ s' = sq_cfg_ s /\
    needs_snapshot_ s' = needs_snapshot_ s /\
    (stale_ s' = true <-> stale_ s = true /\ exists q, q ∈ R /\ e' < q).
Proof.
  revert s e. induction n as [|n IH]; intros s e Hp H0 HB Hn; [lia|].
  pose proof Hp as [He Hr]. cbn [drain_fuel]. unfold pop_ready. rewrite He.
  pose proof (Hr e) as Hre. case_decide as Hin; rewrite Hre.
  - set (s1 := s <| reorder_ ::= delete e |> <| expected_ ::= inc64 |>
                 <| sq_stats_ ::= fun t => t <| accepted ::= inc64 |> <| buffered_released ::= inc64 |> |>).
    set (s2 := if decide (reorder_ s1 = ∅) then s1 <| stale_ := false |> else s1).
    assert (inc64 e = e + 1) as Hinc.
    { unfold inc64, u64. rewrite wrap_small; [done|]. destruct Hin as [Hin _].
      specialize (HB e Hin). unfold in_u. lia. }
    assert (pending s1 (e + 1) R) as Hp1.
    { split; [cbn; by rewrite He|]. intros q. cbn. rewrite lookup_delete, Hr.
      repeat case_decide; try done; try lia; naive_solver lia. }
    assert (reorder_ s2 = reorder_ s1 /\ sq_cfg_ s2 = sq_cfg_ s /\ needs_snapshot_ s2 = needs_snapshot_ s
      /\ expected_ s2 = expected_ s1) as (E1 & E2 & E3 & E4) by (unfold s2; by case_decide).
    assert (pending s2 (e + 1) R) as Hp2.
    { destruct Hp1. split; [by rewrite E4|]. by rewrite E1. }
    destruct (IH s2 (e + 1) Hp2) as (e' & s' & -> & (F1 & F2 & F3) & P & C & N & St); [lia|done| |].
    { rewrite E1. cbn. rewrite map_size_delete_Some by by eexists.
      assert (size (reorder_ s) <> 0%nat); [|lia]. apply (map_size_ne_0_lookup_2 _ e). by eexists. }
    exists e', s'. split.
    { rewrite (seqZ_cons e (e' - e)) by lia.
      replace (Z.pred (e' - e)) with (e' - (e + 1)) by lia. done. }
    split; [|split; [done|split; [congruence|split; [congruence|]]]].
    + split; [lia|]. split; [done|]. intros x Hx. destruct (decide (x = e)) as [->|]; [tauto|].
      apply F3. lia.
    + rewrite St. unfold s2. case_decide as Hem; [|done]. cbn. split; [by intros []|].
      intros (_ & q & Hq & Hlt). pose proof (proj1 (pending_empty _ _ _ Hp1) Hem q Hq). lia.
  - set (s1 := if decide (reorder_ s = ∅) then s <| stale_ := false |> else s).
    exists e, s1. rewrite Z.sub_diag. split; [done|]. split.
    { split; [done|]. split; [|lia]. intros ?. by apply Hin. }
    assert (reorder_ s1 = reorder_ s /\ expected_ s1 = expected_ s /\ sq_cfg_ s1 = sq_cfg_ s /\
      needs_snapshot_ s1 = needs_snapshot_ s) as (E1 & E2 & E3 & E4) by (unfold s1; by case_decide).
    split; [split; [congruence|by rewrite E1]|]. split; [done|]. split; [done|].
    unfold s1. case_decide as Hem.
    + cbn. split; [done|]. intros (_ & q & Hq & Hlt).
      pose proof (proj1 (pending_empty _ _ _ Hp) Hem q Hq). lia.
    + split; [|tauto]. intros Hst. split; [done|].
      destruct (map_choose _ Hem) as (q & x & Hx). rewrite Hr in Hx. case_decide as Hq; [|done].
      exists q. split; [tauto|]. destruct (decide (q = e)) as [->|]; [tauto|lia].
Qed.

(** ** One arrival *)

(** The whole state after the arrivals [R]; [cap] is the reorder capacity. *)
Record seq_inv (s : Sequencer) (start e : Z) (R : gset Z) : Prop := {
  si_pending : pending s e R;
  si_first : first_missing start R e;
  si_pos : 0 <= start;
  si_range q : q ∈ R -> start <= q < 2 ^ 64 - 1 /\ q < e + reorder_capacity (sq_cfg_ s);
  si_stale : stale_ s = true <-> exists q, q ∈ R /\ e < q;
  si_snapshot : needs_snapshot_ s = false }.

(** Fewer numbers than the capacity can be pending. *)
Lemma pending_size s start e R :
  seq_inv s start e R -> 1 <= reorder_capacity (sq_cfg_ s) -> buffered s < reorder_capacity (sq_cfg_ s).
Proof.
  intros [[He Hr] (_ & F2 & _) _ Hrg _ _] Hc. unfold buffered.
  set (cap := reorder_capacity (sq_cfg_ s)) in *.
  rewrite <- size_dom.
  assert (dom (reorder_ s) ⊆ (list_to_set (seqZ (e + 1) (cap - 1)) : gset Z)) as Hs%subseteq_size.
  { intros q [x Hx]%elem_of_dom. rewrite Hr in Hx. case_decide as Hq; [|done].
    apply elem_of_list_to_set, elem_of_seqZ. destruct Hq as [Hq ?]. specialize (Hrg q Hq).
    destruct (decide (q = e)) as [->|]; [done|lia]. }
  rewrite size_list_to_set, length_seqZ in Hs by apply NoDup_seqZ. lia.
Qed.

(** The arrival of the expected number [e]. *)
Lemma receive_expected s start e R :
  seq_inv s start e R -> start <= e -> e < 2 ^ 64 - 1 -> 1 <= reorder_capacity (sq_cfg_ s) ->
  exists e' s', receive e (msg e) s = (msg <$> seqZ e (e' - e), s') /\ e <= e' /\
    seq_inv s' start e' ({[e]} ∪ R) /\ sq_cfg_ s' = sq_cfg_ s.
Proof.
  intros I Hq Hq64 Hcap. destruct I as [[He Hr] (F1 & F2 & F3) H0 Hrg Hst Hns].
  unfold receive, offer. rewrite He, decide_False, decide_True by lia.
  match goal with |- context [drain ?x] => set (s1 := x) end.
  assert (forall x, x ∈ {[e]} ∪ R -> start <= x < 2 ^ 64 - 1 /\ x < e + reorder_capacity (sq_cfg_ s)) as Hrg'.
  { intros x [->%elem_of_singleton|Hx]%elem_of_union; [lia|auto]. }
  assert (pending s1 (e + 1) ({[e]} ∪ R)) as Hp1.
  { split.
    - cbn. rewrite He. unfold inc64, u64. rewrite wrap_small; [done|unfold in_u; lia].
    - intros x. cbn. rewrite Hr. apply decide_ext. rewrite elem_of_union, elem_of_singleton.
      assert (x ∈ R -> x <> e) by (by intros ? ->). intuition lia. }
  destruct (drain_fuel_ok (S (size (reorder_ s1))) s1 (e + 1) ({[e]} ∪ R) Hp1)
    as (e' & s' & E & (G1 & G2 & G3) & P & C & N & St); [lia|intros x Hx; specialize (Hrg' x Hx); lia|lia|].
  exists e', s'. unfold drain. rewrite E. split.
  { rewrite (seqZ_cons e (e' - e)) by lia.
    replace (Z.pred (e' - e)) with (e' - (e + 1)) by lia. done. }
  split; [lia|]. split; [|done]. split; [done| |done| | |by rewrite N].
  - split; [lia|]. split; [done|]. intros x Hx.
    destruct (decide (x < e)); [apply elem_of_union_r, F3; lia|].
    destruct (decide (x = e)) as [->|]; [set_solver|]. apply G3. lia.
  - intros x Hx. rewrite C. cbn. specialize (Hrg' x Hx). lia.
  - rewrite St. cbn. rewrite Hst. split; [tauto|]. intros (x & Hx & Hlt). split; [|by eauto].
    exists x. split; [|lia]. apply elem_of_union in Hx as [->%elem_of_singleton|?]; [lia|done].
Qed.

(** The arrival of a number beyond [e]. *)
Lemma receive_early s start e R q :
  seq_inv s start e R -> start <= q -> q < 2 ^ 64 - 1 -> q < e + reorder_capacity (sq_cfg_ s) ->
  1 <= reorder_capacity (sq_cfg_ s) -> e < q ->
  exists s', receive q (msg q) s = ([], s') /\ seq_inv s' start e ({[q]} ∪ R) /\
    sq_cfg_ s' = sq_cfg_ s.
Proof.
  intros I Hq Hq64 Hwin Hcap Hlt. pose proof (pending_size _ _ _ _ I Hcap) as Hsize.
  destruct I as [[He Hr] (F1 & F2 & F3) H0 Hrg Hst Hns].
  unfold receive, offer. rewrite He, decide_False, decide_False by lia.
  assert (forall x, x ∈ {[q]} ∪ R <-> x = q \/ x ∈ R) as Hu by set_solver.
  set (s1 := if stale_ s then s else _).
  assert (reorder_ s1 = reorder_ s /\ sq_cfg_ s1 = sq_cfg_ s /\ needs_snapshot_ s1 = false /\
    expected_ s1 = e /\ stale_ s1 = true) as (E1 & E2 & E3 & E4 & E5).
  { unfold s1. by destruct (stale_ s) eqn:?. }
  rewrite decide_False by (unfold buffered in *; rewrite E1, E2; lia).
  eexists _. split; [done|]. split; [|done]. split; [|split; [done|split]|done| | |done].
  - split; [done|]. intros x. cbn. rewrite E1, Hr.
    destruct (decide (q ∈ R /\ e <= q)) as [Hin|Hin].
    + rewrite Hr. apply decide_ext. rewrite Hu. destruct Hin. naive_solver.
    + rewrite lookup_insert, Hr. destruct (decide (q = x)) as [<-|Hqx].
      * rewrite decide_True; [done|]. rewrite Hu. split; [by left|lia].
      * apply decide_ext. rewrite Hu. naive_solver.
  - intros [->|?]%Hu; [lia|done].
  - intros x Hx. apply elem_of_union_r, F3. lia.
  - cbn. rewrite E2. intros x [->|Hx]%Hu; [done|auto].
  - cbn. rewrite E5. split; [|done]. intros _. exists q. split; [set_solver|lia].
Qed.

(** The interval of numbers delivered is between [e] and [e']. *)
Lemma seq_receive s start e R q :
  seq_inv s start e R -> start <= q -> q < 2 ^ 64 - 1 -> q < e + reorder_capacity (sq_cfg_ s) ->
  1 <= reorder_capacity (sq_cfg_ s) ->
  exists e' s', receive q (msg q) s = (msg <$> seqZ e (e' - e), s') /\ e <= e' /\
    seq_inv s' start e' ({[q]} ∪ R) /\ sq_cfg_ s' = sq_cfg_ s.
Proof.
  intros I Hq Hq64 Hwin Hcap. destruct (Z.lt_trichotomy q e) as [Hlt|[->|Hlt]].
  - destruct I as [[He Hr] (F1 & F2 & F3) H0 Hrg Hst Hns].
    assert ({[q]} ∪ R = R) as -> by (assert (q ∈ R) by (apply F3; lia); set_solver).
    exists e, (s <| sq_stats_ ::= fun t => t <| duplicates ::= inc64 |> |>).
    unfold receive, offer. rewrite He, decide_True, Z.sub_diag by lia.
    split; [done|]. split; [lia|]. split; [|done]. by split.
  - by apply receive_expected.
  - destruct (receive_early s start e R q) as (s' & E & I' & C); [done..|].
    exists e, s'. rewrite Z.sub_diag. split; [exact E|]. split; [lia|done].
Qed.

(** ** Sequences of arrivals *)

(** Every arrival is within the capacity of the first number missing. *)
Fixpoint windowed (start cap : Z) (qs : list Z) (st : Z * gset Z) : Prop :=
  match qs with
  | [] => True
  | q :: qs => (start <= q < 2 ^ 64 - 1 /\ q < st.1 + cap) /\ windowed start cap qs (a_receive q st)
  end.

Lemma a_receive_step s start e R q e' s' :
  seq_inv s start e R -> seq_inv s' start e' ({[q]} ∪ R) -> start <= q ->
  seq_inv s' start (a_receive q (e, R)).1 (a_receive q (e, R)).2 /\ e' = (a_receive q (e, R)).1.
Proof.
  intros I I' Hq. destruct I as [_ (F1 & F2 & F3) _ _ _ _]. unfold a_receive.
  destruct (decide (q < e)) as [Hlt|Hge]; cbn [fst snd].
  - assert ({[q]} ∪ R = R) as E by (assert (q ∈ R) by (apply F3; lia); set_solver).
    rewrite E in I'. assert (e' = e) as ->; [|done].
    eapply first_missing_unique; [apply I'|]. by repeat split.
  - assert (e' = advance (S (size ({[q]} ∪ R))) ({[q]} ∪ R) e) as Ee.
    { eapply first_missing_unique; [apply I'|].
      destruct (advance_first (S (size ({[q]} ∪ R))) ({[q]} ∪ R) e) as (G1 & G2 & G3); [lia|].
      split; [lia|]. split; [done|]. intros x Hx. destruct (decide (x < e)); [|apply G3; lia].
      apply elem_of_union_r, F3. lia. }
    by rewrite <- Ee.
Qed.

Lemma receive_all_ok qs s start e R :
  seq_inv s start e R -> 1 <= reorder_capacity (sq_cfg_ s) ->
  windowed start (reorder_capacity (sq_cfg_ s)) qs (e, R) ->
  let st := a_receive_all qs (e, R) in
  exists s', receive_all ((fun q => (q, msg q)) <$> qs) s = (msg <$> seqZ e (st.1 - e), s') /\
    e <= st.1 /\ seq_inv s' start st.1 st.2.
Proof.
  intros I Hc. revert s e R I Hc. induction qs as [|q qs IH]; intros s e R I Hc Hw.
  { exists s. cbn. rewrite Z.sub_diag. split; [done|]. split; [lia|done]. }
  destruct Hw as [[Hq Hw] Hws]. cbn [fst] in Hw.
  destruct (seq_receive s start e R q I) as (e1 & s1 & E & Hle & I1 & C1); [lia..|].
  destruct (a_receive_step s start e R q e1 s1 I I1) as [I2 ->]; [lia|].
  cbn [fmap list_fmap receive_all]. rewrite E.
  unfold a_receive_all. cbn [fold_left].
  destruct (a_receive q (e, R)) as [e2 R2] eqn:Ea. cbn [fst snd] in *.
  destruct (IH s1 e2 R2 I2) as (s' & E' & Hle' & I'); [by rewrite C1|by rewrite C1|].
  exists s'. unfold a_receive_all in *. rewrite E'.
  destruct (fold_left _ qs (e2, R2)) as [e3 R3]. cbn [fst snd] in *.
  split; [|split; [lia|done]]. f_equal. rewrite <- fmap_app. f_equal.
  replace (e3 - e) with ((e2 - e) + (e3 - e2)) by lia.
  rewrite seqZ_app by lia. by replace (e + (e2 - e)) with e2 by lia.
Qed.
End Msgs.

(** A sequencer waiting for [start] with nothing pending: a new one, or one
    that was just resynchronised. *)
Record fresh (s : Sequencer) (start : Z) : Prop := {
  fr_expected : expected_ s = start;
  fr_reorder : reorder_ s = ∅;
  fr_stale : stale_ s = false;
  fr_snapshot : needs_snapshot_ s = false }.

Lemma fresh_new c : fresh (Sequencer_new c) (start_seq c).
Proof. by split. Qed.

Lemma fresh_resync k s : fresh (resync_to_snapshot k s) (u64 (k + 1)).
Proof. by split. Qed.

Lemma fresh_inv msg s start : fresh s start -> 0 <= start -> seq_inv msg s start start ∅.
Proof.
  intros [] H0. split; try done.
  - split; [done|]. intros q. rewrite fr_reorder0, lookup_empty. rewrite decide_False; set_solver.
  - split; [done|]. split; [set_solver|]. lia.
  - rewrite fr_stale0. split; [done|]. intros (q & Hq & _). set_solver.
Qed.

Lemma windowed_covering start cap n qs e R :
  0 <= start -> start + n < 2 ^ 64 -> n <= cap -> start <= e ->
  (forall q, q ∈ qs -> start <= q < start + n) -> windowed start cap qs (e, R).
Proof.
  intros H0 Hn Hc. revert e R. induction qs as [|q qs IH]; intros e R He Hq; [done|].
  cbn [windowed fst]. assert (start <= q < start + n) as Hb by (apply Hq; by left).
  split; [lia|]. unfold a_receive. case_decide; [apply IH; [done|]; intros; apply Hq; by right|].
  apply IH; [|intros; apply Hq; by right].
  destruct (advance_first (S (size ({[q]} ∪ R))) ({[q]} ∪ R) e) as (G1 & _); [lia|]. lia.
Qed.

Lemma a_receive_all_elem qs e R :
  (forall x, x ∈ qs -> x < e -> x ∈ R) ->
  (forall x, x ∈ (a_receive_all qs (e, R)).2 <-> x ∈ R \/ x ∈ qs).
Proof.
  unfold a_receive_all. revert e R. induction qs as [|q qs IH]; intros e R Hlt x; cbn [fold_left].
  { set_solver. }
  unfold a_receive. fold a_receive. destruct (decide (q < e)) as [Hq|Hq].
  - rewrite IH by (intros; apply Hlt; [by right|done]). rewrite elem_of_cons.
    assert (q ∈ R) by (apply Hlt; [by left|done]). naive_solver.
  - set (e1 := advance _ _ e).
    destruct (advance_first (S (size ({[q]} ∪ R))) ({[q]} ∪ R) e) as (G1 & G2 & G3); [lia|].
    rewrite IH; [set_solver|]. intros y Hy Hlt'.
    destruct (decide (y < e)); [apply elem_of_union_r, Hlt; [by right|done]|]. apply G3. lia.
Qed.

Lemma offer_buffered seq ev s s' :
  offer seq ev s = (Buffered, s') ->
  reorder_ s' = if reorder_ s !! seq is Some _ then reorder_ s else <[seq := ev]> (reorder_ s).
Proof.
  unfold offer. case_decide; [done|]. case_decide; [done|]. case_decide; [done|].
  intros [= <-]. cbn. by destruct (stale_ s).
Qed.

(** ** Theorems *)


Definition demo_msg (q : Z) : MarketEvent := event0 <| ev_order_ref := q |>.
Definition demo_seq : Sequencer := Sequencer_new (mkSeqConfig 1 4).


(** C30. Arbitration of redundant feeds.  Let the arrivals be any interleaving of
    copies of the same messages (two UDP feeds, retransmissions): every number
    of a range no longer than the reorder capacity arrives at least once, in
    any order and any number of times.  Then the events are applied exactly
    once, in order, all of them, and the gap is closed: the stream is not stale
    and nothing stays buffered. *)
Theorem arbitration msg s start n qs :
  fresh s start -> 0 <= start -> 0 <= n -> start + n < 2 ^ 64 ->
  n <= reorder_capacity (sq_cfg_ s) -> 1 <= reorder_capacity (sq_cfg_ s) ->
  (forall q, q ∈ qs <-> start <= q < start + n) ->
  exists s', receive_all ((fun q => (q, msg q)) <$> qs) s = (msg <$> seqZ start n, s') /\
    expected_ s' = start + n /\ stale_ s' = false /\ reorder_ s' = ∅.
Proof.
  intros Hf H0 Hn Hn64 Hc Hc1 Hq.
  destruct (receive_all_ok msg qs s start start ∅) as (s' & E & Hle & I); [by apply fresh_inv|done| |].
  { eapply windowed_covering; try done. intros q ?. by apply Hq. }
  assert (forall x, x ∈ (a_receive_all qs (start, ∅)).2 <-> start <= x < start + n) as Hm.
  { intros x. rewrite a_receive_all_elem; [rewrite <- Hq; set_solver|]. intros y ?%Hq ?. lia. }
  destruct I as [P (F1 & F2 & F3) _ _ St Hns].
  assert ((a_receive_all qs (start, ∅)).1 = start + n) as He.
  { rewrite Hm in F2. set (e := (a_receive_all qs (start, ∅)).1) in *.
    destruct (decide (e < start + n)); [lia|]. destruct (decide (e = start + n)); [done|].
    specialize (F3 (start + n)). rewrite Hm in F3. lia. }
  rewrite He in *. exists s'. replace (start + n - start) with n in E by lia.
  split; [done|]. split; [apply P|].
  assert (forall q, q ∈ (a_receive_all qs (start, ∅)).2 -> q < start + n) as Hlt
    by (intros q; rewrite Hm; lia).
  split.
  - apply not_true_is_false. rewrite St. intros (q & Hqr & ?). specialize (Hlt q Hqr). lia.
  - by apply (pending_empty msg s' (start + n) _ P).
Qed.

Lemma arbitration_witness :
  exists s', receive_all ((fun q => (q, demo_msg q)) <$> [3; 1; 3; 1; 2; 4; 2]) demo_seq =
    (demo_msg <$> [1; 2; 3; 4], s') /\ stale_ s' = false.
Proof.
  destruct (arbitration demo_msg demo_seq 1 4 [3; 1; 3; 1; 2; 4; 2]) as (s' & E & _ & St & _).
  - apply (fresh_new (mkSeqConfig 1 4)).
  - lia.
  - lia.
  - lia.
  - cbn. lia.
  - cbn. lia.
  - intros q. rewrite !elem_of_cons, elem_of_nil. lia.
  - exists s'. exact (conj E St).
Defined.

(** A gap too large to buffer.  An arrival beyond the expected number while
    the reorder buffer is full changes nothing that was received, asks for a
    snapshot, and after the resynchronisation the sequencer is as good as new,
    waiting for the number after the snapshot. *)
Theorem overflow_recovery s seq ev k :
  expected_ s < seq -> reorder_capacity (sq_cfg_ s) <= buffered s ->
  exists s', offer seq ev s = (Overflow, s') /\ needs_snapshot_ s' = true /\ stale_ s' = true /\
    expected_ s' = expected_ s /\ reorder_ s' = reorder_ s /\
    receive seq ev s = ([], s') /\
    (0 <= k < 2 ^ 64 - 1 -> fresh (resync_to_snapshot k s') (k + 1)).
Proof.
  intros Hlt Hfull. unfold receive, offer.
  rewrite decide_False by lia. rewrite decide_False by lia.
  set (s1 := if stale_ s then s else _).
  assert (reorder_ s1 = reorder_ s /\ sq_cfg_ s1 = sq_cfg_ s /\ expected_ s1 = expected_ s /\
    stale_ s1 = true) as (E1 & E2 & E3 & E4) by (unfold s1; by destruct (stale_ s) eqn:?).
  rewrite decide_True by (unfold buffered in *; rewrite E1, E2; lia).
  eexists. split; [done|]. repeat (split; [done|]). intros Hk. split; try done.
  cbn. unfold u64. rewrite wrap_small; [done|unfold in_u; lia].
Qed.

Lemma overflow_recovery_witness :
  exists s s', receive_all ((fun q => (q, demo_msg q)) <$> [3; 4; 5; 6]) demo_seq = ([], s) /\
    offer 7 (demo_msg 7) s = (Overflow, s') /\ fresh (resync_to_snapshot 20 s') 21.
Proof.
  eexists. destruct (overflow_recovery
    (receive_all ((fun q => (q, demo_msg q)) <$> [3; 4; 5; 6]) demo_seq).2 7 (demo_msg 7) 20)
    as (s' & E & _ & _ & _ & _ & _ & F).
  - vm_compute. reflexivity.
  - vm_compute. discriminate.
  - exists s'. split; [|split; [exact E|apply F; lia]]. vm_compute. reflexivity.
Defined.

(** A second message with a number that is already buffered does not
    overwrite the first one: the first stays. *)
Theorem buffered_first_wins s seq ev1 ev2 s1 s2 :
  reorder_ s !! seq = None ->
  offer seq ev1 s = (Buffered, s1) -> offer seq ev2 s1 = (Buffered, s2) ->
  reorder_ s2 = reorder_ s1 /\ reorder_ s2 !! seq = Some ev1.
Proof.
  intros Hn H1%offer_buffered H2%offer_buffered. rewrite Hn in H1.
  rewrite H1 in H2 at 1. rewrite lookup_insert_eq in H2.
  split; [done|]. rewrite H2, H1. apply lookup_insert_eq.
Qed.

Lemma buffered_first_wins_witness :
  exists s1 s2, offer 3 (demo_msg 100) demo_seq = (Buffered, s1) /\
    offer 3 (demo_msg 200) s1 = (Buffered, s2) /\ reorder_ s2 !! 3 = Some (demo_msg 100).
Proof.
  eexists _, _. split; [reflexivity|]. split; [reflexivity|].
  refine (proj2 (buffered_first_wins demo_seq 3 (demo_msg 100) (demo_msg 200) _ _ _ _ _)); reflexivity.
Defined.
