(* ===== verification/Publisher.v ===== *)
(** * The publisher of top-of-book changes

    [include/feedhandler/publisher.hpp]: [on_update] compares the best levels of
    the book with the ones published last and emits a delta when price, size or
    validity moved.  The number of orders of a level is not part of a delta. *)

From stdpp Require Import base list gmap numbers.
From S2P Require Import Prelude MarketEvent OrderPool OrderBook BookSpec OrderBookWf.
From S2P Require Import OrderBookRefine OrderBookProps.

Record Publisher := mkPublisher {
  updates_ : Z;
  l1_deltas_ : Z;
  last_bid_ : BookLevel;
  last_ask_ : BookLevel }.

#[export] Instance Publisher_settable : Settable Publisher := fun p =>
  mkPublisher (updates_ p) (l1_deltas_ p) (last_bid_ p) (last_ask_ p).

Definition Publisher_new : Publisher := mkPublisher 0 0 no_level no_level.

Definition same (a b : BookLevel) : bool :=
  bool_decide (valid a = valid b) && bool_decide (bl_price_ticks a = bl_price_ticks b) &&
  bool_decide (bl_aggregate_size a = bl_aggregate_size b).

Definition on_update (book : OrderBook) (p : Publisher) : option (bool * Publisher) :=
  let p := p <| updates_ ::= inc |> in
  bid ← best_bid book;
  ask ← best_ask book;
  let changed := negb (same bid (last_bid_ p)) || negb (same ask (last_ask_ p)) in
  Some (changed,
    if changed then p <| l1_deltas_ ::= inc |> <| last_bid_ := bid |> <| last_ask_ := ask |> else p).

(** ** The published quantity *)

Definition l1 (x : BookLevel) : bool * Z * Z :=
  (valid x, bl_price_ticks x, bl_aggregate_size x).

Lemma same_l1 a b : same a b = bool_decide (l1 a = l1 b).
Proof.
  unfold same, l1. apply eq_bool_prop_intro. rewrite !andb_True, !bool_decide_spec.
  split; [intros [[-> ->] ->]; done|]. by intros [= -> -> ->].
Qed.

(** A book's top, and the subscriber's copy of it. *)
Definition top (b : OrderBook) : option ((bool * Z * Z) * (bool * Z * Z)) :=
  bid ← best_bid b; ask ← best_ask b; Some (l1 bid, l1 ask).

Definition published (p : Publisher) : (bool * Z * Z) * (bool * Z * Z) :=
  (l1 (last_bid_ p), l1 (last_ask_ p)).

(** The publisher over a sequence of book states: the deltas it emits. *)
Fixpoint publish_all (bs : list OrderBook) (p : Publisher)
    : option (list ((bool * Z * Z) * (bool * Z * Z)) * Publisher) :=
  match bs with
  | [] => Some ([], p)
  | b :: bs =>
      '(changed, p) ← on_update b p;
      '(out, p') ← publish_all bs p;
      Some ((if changed : bool then [published p] else []) ++ out, p')
  end.

(** The changes of a sequence, starting from [x]. *)
Fixpoint changes {A} `{EqDecision A} (x : A) (l : list A) : list A :=
  match l with
  | [] => []
  | y :: l => if decide (y = x) then changes x l else y :: changes y l
  end.

Lemma on_update_ok b p t :
  top b = Some t ->
  exists p', on_update b p = Some (negb (bool_decide (t = published p)), p') /\ published p' = t /\
    updates_ p' = inc (updates_ p) /\
    l1_deltas_ p' = if bool_decide (t = published p) then l1_deltas_ p else inc (l1_deltas_ p).
Proof.
  unfold top, on_update. destruct (best_bid b) as [bid|]; [|done].
  destruct (best_ask b) as [ask|]; [|done]. cbn. intros [= <-].
  assert (negb (same bid (last_bid_ p)) || negb (same ask (last_ask_ p)) =
    negb (bool_decide ((l1 bid, l1 ask) = published p))) as ->.
  { rewrite <- negb_andb, !same_l1. f_equal. unfold published.
    generalize (l1 bid), (l1 ask), (l1 (last_bid_ p)), (l1 (last_ask_ p)).
    intros. repeat case_bool_decide; naive_solver. }
  eexists. split; [done|]. case_bool_decide; cbn; done.
Qed.

(** The publisher emits exactly the changes.  Over any sequence of books
    whose best levels can be read, the deltas are the top-of-book values that
    differ from the previous one (nothing lost, nothing repeated), their number
    is counted, and what was published last is the last book's top. *)
Theorem publisher_emits_changes bs ts p :
  Forall2 (fun b t => top b = Some t) bs ts ->
  0 <= l1_deltas_ p -> l1_deltas_ p + Z.of_nat (length bs) < 2 ^ 64 ->
  exists p', publish_all bs p = Some (changes (published p) ts, p') /\
    published p' = default (published p) (list.last ts) /\
    l1_deltas_ p' = l1_deltas_ p + Z.of_nat (length (changes (published p) ts)).
Proof.
  intros H. revert p. induction H as [|b t bs ts Hbt _ IH]; intros p H0 Hb.
  { exists p. cbn. repeat (split; [done|]). lia. }
  cbn [length] in Hb. destruct (on_update_ok b p t Hbt) as (p1 & E & P1 & U1 & D1).
  assert (0 <= l1_deltas_ p1 <= l1_deltas_ p + 1) as Hd.
  { rewrite D1. case_bool_decide; [lia|]. unfold inc, u64. rewrite wrap_small; unfold in_u; lia. }
  destruct (IH p1) as (p' & E' & P' & D'); [lia|lia|].
  exists p'. cbn [publish_all]. rewrite E. cbn [mbind option_bind]. rewrite E'. cbn [mbind option_bind].
  cbn [changes]. rewrite P1 in *. split; [|split].
  - case_bool_decide as Ht; [rewrite decide_True by done|rewrite decide_False by done]; cbn.
    + by rewrite Ht.
    + done.
  - rewrite P'. rewrite last_cons. by destruct (list.last ts).
  - rewrite D', D1. case_bool_decide as Ht.
    + rewrite decide_True by done. by rewrite Ht.
    + rewrite decide_False by done. cbn [length]. unfold inc, u64.
      rewrite wrap_small; [lia|unfold in_u; lia].
Qed.

Lemma publisher_emits_changes_witness :
  exists b1 b2 p', apply_all demo_events (OrderBook_new small_config) = Some b1 /\
    apply (ev_exec 3 5) b1 = Some b2 /\
    publish_all [OrderBook_new small_config; b1; b1; b2] Publisher_new =
      Some ([((true, 104, 26), (true, 106, 3)); ((true, 104, 21), (true, 106, 3))], p').
Proof.
  destruct (apply_all demo_events (OrderBook_new small_config)) as [b1|] eqn:E1;
    [|vm_compute in E1; discriminate].
  destruct (apply (ev_exec 3 5) b1) as [b2|] eqn:E2;
    [|vm_compute in E1; injection E1 as <-; vm_compute in E2; discriminate].
  destruct (publisher_emits_changes [OrderBook_new small_config; b1; b1; b2]
    [((false, 0, 0), (false, 0, 0)); ((true, 104, 26), (true, 106, 3));
     ((true, 104, 26), (true, 106, 3)); ((true, 104, 21), (true, 106, 3))] Publisher_new)
    as (p' & E & _).
  - vm_compute in E1. injection E1 as <-. vm_compute in E2. injection E2 as <-.
    repeat constructor.
  - vm_compute. discriminate.
  - vm_compute. reflexivity.
  - exists b1, b2, p'. split; [reflexivity|]. split; [exact E2|exact E].
Defined.
