(* ===== verification/SpscRing.v ===== *)
(** * The single-producer single-consumer ring buffer

    [include/feedhandler/spsc_ring_buffer.hpp].  The two threads run
    interleaved, one memory access per step; the atomic indices are 64-bit words
    that wrap.  The C++ memory model enters in two places:

    - an acquire load of the other thread's index may return any value stored
      since the last one this thread saw ([seen_head], [seen_tail]): loads are
      coherent but possibly stale;
    - loading a value published by a release store makes the accesses made before
      that store happen before everything after the load, and nothing else does.
      A slot access that conflicts with an access of the other thread it is not
      ordered with is a data race ([write_race], [read_race]).

    [pushed] and [popped] are the histories of completed operations. *)

From stdpp Require Import base list numbers.
From S2P Require Import Prelude.

(** Where a thread is inside [push] or [pop]. *)
Inductive prod_pc (T : Type) := PIdle | PWrite (x : T) | PStore (x : T).
Inductive cons_pc (T : Type) := CIdle | CRead | CStore (x : T).
Arguments PIdle {T}.
Arguments PWrite {T}.
Arguments PStore {T}.
Arguments CIdle {T}.
Arguments CRead {T}.
Arguments CStore {T}.

Record Ring (T : Type) := mkRing {
  (* the members of the source *)
  head_ : Z;
  tail_ : Z;
  cached_tail_ : Z;
  cached_head_ : Z;
  buffer_ : list T;
  (* program counters *)
  ppc : prod_pc T;
  cpc : cons_pc T;
  (* histories *)
  pushed : list T;
  popped : list T;
  seen_head : Z;
  seen_tail : Z }.
Arguments mkRing {T}.
Arguments head_ {T}.
Arguments tail_ {T}.
Arguments cached_tail_ {T}.
Arguments cached_head_ {T}.
Arguments buffer_ {T}.
Arguments ppc {T}.
Arguments cpc {T}.
Arguments pushed {T}.
Arguments popped {T}.
Arguments seen_head {T}.
Arguments seen_tail {T}.

#[export] Instance Ring_settable T : Settable (Ring T) := fun r =>
  mkRing (head_ r) (tail_ r) (cached_tail_ r) (cached_head_ r) (buffer_ r) (ppc r) (cpc r)
    (pushed r) (popped r) (seen_head r) (seen_tail r).

Section Ring.
Context {T : Type} (x0 : T) (Capacity : Z).

Definition kMask : Z := Capacity - 1.

Definition slot (i : Z) : Z := Z.land i kMask.

Definition ring_new : Ring T :=
  mkRing 0 0 0 0 (replicate (Z.to_nat Capacity) x0) PIdle CIdle [] [] 0 0.

(** Completed operations, as unbounded counts. *)
Definition n_pushed (r : Ring T) : Z := Z.of_nat (length (pushed r)).
Definition n_popped (r : Ring T) : Z := Z.of_nat (length (popped r)).

(** ** The steps of [push] *)

(** [tail - cached_head_ >= Capacity]. *)
Definition looks_full (r : Ring T) : bool :=
  bool_decide (u64 (tail_ r - cached_head_ r) >= Capacity).

(** The load of [tail_] and the check, where the acquire load of [head_], if it
    is reached, sees the consumer after [v] completed pops.  The second result is
    the answer, when the operation has ended. *)
Definition push_check (x : T) (v : Z) (r : Ring T) : Ring T * option bool :=
  if looks_full r then
    let r := r <| cached_head_ := u64 v |> <| seen_head := v |> in
    if looks_full r then (r, Some false) else (r <| ppc := PWrite x |>, None)
  else (r <| ppc := PWrite x |>, None).

(** [buffer_[tail & kMask] = item]. *)
Definition push_write (x : T) (r : Ring T) : option (Ring T) :=
  b ← (buffer_ r).[slot (tail_ r) := x];
  Some (r <| buffer_ := b |> <| ppc := PStore x |>).

(** [tail_.store(tail + 1, release); return true]. *)
Definition push_store (x : T) (r : Ring T) : Ring T :=
  r <| tail_ ::= fun t => u64 (t + 1) |> <| pushed ::= fun l => l ++ [x] |> <| ppc := PIdle |>.

(** ** The steps of [pop] *)

Definition looks_empty (r : Ring T) : bool := bool_decide (head_ r = cached_tail_ r).

Definition pop_check (v : Z) (r : Ring T) : Ring T * option bool :=
  if looks_empty r then
    let r := r <| cached_tail_ := u64 v |> <| seen_tail := v |> in
    if looks_empty r then (r, Some false) else (r <| cpc := CRead |>, None)
  else (r <| cpc := CRead |>, None).

(** [out = buffer_[head & kMask]]. *)
Definition pop_read (r : Ring T) : option (Ring T) :=
  x ← (buffer_ r).[slot (head_ r)];
  Some (r <| cpc := CStore x |>).

Definition pop_store (x : T) (r : Ring T) : Ring T :=
  r <| head_ ::= fun h => u64 (h + 1) |> <| popped ::= fun l => l ++ [x] |> <| cpc := CIdle |>.

(** What [size_approx] computes from the two index words it loaded. *)
Definition size_approx (tail head : Z) : Z := u64 (tail - head).

(** ** Interleavings *)

(** What a step did, as seen from outside. *)
Inductive label := LPushFull | LPushed (x : T) | LPopEmpty | LPopped (x : T) | LTau.

Inductive step : Ring T -> label -> Ring T -> Prop :=
  | step_push_check r x v r' res :
      ppc r = PIdle -> seen_head r <= v <= n_popped r ->
      push_check x v r = (r', res) ->
      step r (if res is Some _ then LPushFull else LTau) r'
  | step_push_write r x r' :
      ppc r = PWrite x -> push_write x r = Some r' -> step r LTau r'
  | step_push_store r x :
      ppc r = PStore x -> step r (LPushed x) (push_store x r)
  | step_pop_check r v r' res :
      cpc r = CIdle -> seen_tail r <= v <= n_pushed r ->
      pop_check v r = (r', res) ->
      step r (if res is Some _ then LPopEmpty else LTau) r'
  | step_pop_read r r' :
      cpc r = CRead -> pop_read r = Some r' -> step r LTau r'
  | step_pop_store r x :
      cpc r = CStore x -> step r (LPopped x) (pop_store x r).

Inductive reachable : Ring T -> Prop :=
  | reach_new : reachable ring_new
  | reach_step r l r' : reachable r -> step r l r' -> reachable r'.

(** ** Data races *)

(** Slot accesses performed so far. *)
Definition writes (r : Ring T) : Z := n_pushed r + match ppc r with PStore _ => 1 | _ => 0 end.
Definition reads (r : Ring T) : Z := n_popped r + match cpc r with CStore _ => 1 | _ => 0 end.

(** The producer is about to write a slot, and a read of that slot has been
    performed that is not ordered before the write: the reads numbered below
    [seen_head] are. *)
Definition write_race (r : Ring T) : Prop :=
  (exists x, ppc r = PWrite x) /\
  exists j, 0 <= j < reads r /\ slot j = slot (tail_ r) /\ seen_head r <= j.

(** The consumer is about to read a slot, and a write of that slot has been
    performed that is not ordered before the read. *)
Definition read_race (r : Ring T) : Prop :=
  cpc r = CRead /\
  exists j, 0 <= j < writes r /\ slot j = slot (head_ r) /\ seen_tail r <= j.

(** ** The invariant *)

Context (k : Z) (Hk : 1 <= k < 64) (Hcap : Capacity = 2 ^ k).

Record ring_inv (r : Ring T) : Prop := {
  ri_head : head_ r = u64 (n_popped r);
  ri_tail : tail_ r = u64 (n_pushed r);
  ri_chead : cached_head_ r = u64 (seen_head r);
  ri_ctail : cached_tail_ r = u64 (seen_tail r);
  ri_order : 0 <= seen_head r <= n_popped r /\ n_popped r <= seen_tail r <= n_pushed r;
  ri_room : n_pushed r <= seen_head r + Capacity;
  ri_len : Z.of_nat (length (buffer_ r)) = Capacity;
  ri_data i x : n_popped r <= Z.of_nat i -> pushed r !! i = Some x ->
    (buffer_ r).[Z.of_nat i mod Capacity] = Some x;
  ri_popped : popped r `prefix_of` pushed r;
  ri_ppc : match ppc r with
    | PIdle => True
    | PWrite _ => n_pushed r < seen_head r + Capacity
    | PStore x => n_pushed r < seen_head r + Capacity /\
        (buffer_ r).[n_pushed r mod Capacity] = Some x
    end;
  ri_cpc : match cpc r with
    | CIdle => True
    | CRead => n_popped r < seen_tail r
    | CStore x => n_popped r < seen_tail r /\ pushed r !! length (popped r) = Some x
    end }.

Lemma capacity_pos : 2 <= Capacity < 2 ^ 64.
Proof.
  rewrite Hcap. split.
  - change 2 with (2 ^ 1) at 1. apply Z.pow_le_mono_r; lia.
  - apply Z.pow_lt_mono_r; lia.
Qed.

Lemma slot_mod i : slot i = i mod Capacity.
Proof.
  unfold slot, kMask. rewrite Hcap. replace (2 ^ k - 1) with (Z.ones k) by (rewrite Z.ones_equiv; lia).
  by rewrite Z.land_ones by lia.
Qed.

Lemma slot_u64 i : slot (u64 i) = i mod Capacity.
Proof.
  rewrite slot_mod. unfold u64, wrap. rewrite Hcap. apply Z.mod_mod_divide.
  exists (2 ^ (64 - k)). rewrite <- Z.pow_add_r by lia. f_equal. lia.
Qed.

Lemma u64_sub_small a b : 0 <= a - b < 2 ^ 64 -> u64 (u64 a - u64 b) = a - b.
Proof.
  intros H. unfold u64. rewrite wrap_sub_l, wrap_sub_r. apply wrap_small. exact H.
Qed.

Lemma u64_eq_small a b : 0 <= b - a < 2 ^ 64 -> u64 a = u64 b <-> a = b.
Proof.
  intros H. split; [|by intros ->]. intros E.
  pose proof (u64_sub_small b a H) as S. rewrite E, Z.sub_diag in S. change (u64 0) with 0 in S. lia.
Qed.

Lemma mod_ne a b : 0 < a - b < Capacity -> a mod Capacity <> b mod Capacity.
Proof.
  intros H E. pose proof capacity_pos. assert ((a - b) mod Capacity = 0) as Hz.
  { rewrite Zminus_mod, E, Z.sub_diag. apply Zmod_0_l. }
  rewrite Z.mod_small in Hz; lia.
Qed.

Lemma mod_range i : 0 <= i mod Capacity < Capacity.
Proof. apply Z.mod_pos_bound. pose proof capacity_pos. lia. Qed.

(** The check of [push] is exact on what the producer has seen. *)
Lemma looks_full_spec r w h :
  tail_ r = u64 w -> cached_head_ r = u64 h -> 0 <= w - h < 2 ^ 64 ->
  looks_full r = bool_decide (h + Capacity <= w).
Proof.
  intros Ht Hh Hr. unfold looks_full. rewrite Ht, Hh, u64_sub_small by done.
  apply bool_decide_ext. lia.
Qed.

Lemma looks_empty_spec r h t :
  head_ r = u64 h -> cached_tail_ r = u64 t -> 0 <= t - h < 2 ^ 64 ->
  looks_empty r = bool_decide (h = t).
Proof.
  intros Hh Ht Hr. unfold looks_empty. rewrite Hh, Ht. apply bool_decide_ext. by apply u64_eq_small.
Qed.

Lemma inv_bounds r :
  ring_inv r -> 0 <= n_pushed r - seen_head r < 2 ^ 64 /\ 0 <= seen_tail r - n_popped r < 2 ^ 64 /\
    n_pushed r <= n_popped r + Capacity.
Proof. intros []. pose proof capacity_pos. lia. Qed.

Lemma inv_new : ring_inv ring_new.
Proof.
  pose proof capacity_pos. split; try done.
  - unfold n_pushed. cbn [length pushed seen_head ring_new]. lia.
  - cbn [buffer_ ring_new]. rewrite length_replicate. lia.
Qed.

(** The part of the invariant the checks of [push] and [pop] touch. *)
Lemma inv_seen_head r v :
  ring_inv r -> ppc r = PIdle -> seen_head r <= v <= n_popped r ->
  ring_inv (r <| cached_head_ := u64 v |> <| seen_head := v |>).
Proof.
  intros [] Hp Hv. split; try done.
  - change (0 <= v <= n_popped r /\ n_popped r <= seen_tail r <= n_pushed r). lia.
  - change (n_pushed r <= v + Capacity). lia.
  - cbn. by rewrite Hp.
Qed.

Lemma inv_seen_tail r v :
  ring_inv r -> cpc r = CIdle -> seen_tail r <= v <= n_pushed r ->
  ring_inv (r <| cached_tail_ := u64 v |> <| seen_tail := v |>).
Proof.
  intros [] Hp Hv. split; try done.
  - change (0 <= seen_head r <= n_popped r /\ n_popped r <= v <= n_pushed r). lia.
  - cbn. by rewrite Hp.
Qed.

Lemma inv_pwrite r x :
  ring_inv r -> n_pushed r < seen_head r + Capacity -> ring_inv (r <| ppc := PWrite x |>).
Proof. intros [] H. by split. Qed.

Lemma inv_cread r :
  ring_inv r -> n_popped r < seen_tail r -> ring_inv (r <| cpc := CRead |>).
Proof. intros [] H. by split. Qed.

Lemma push_check_inv r x v r' res :
  ring_inv r -> ppc r = PIdle -> seen_head r <= v <= n_popped r ->
  push_check x v r = (r', res) ->
  ring_inv r' /\ (res = Some false /\ n_pushed r' = v + Capacity /\ v = seen_head r' \/
                  res = None /\ ppc r' = PWrite x) /\
  pushed r' = pushed r /\ popped r' = popped r /\ cpc r' = cpc r.
Proof.
  intros I Hp Hv. destruct (inv_bounds r I) as (B1 & _ & B3). unfold push_check.
  rewrite (looks_full_spec r (n_pushed r) (seen_head r)) by (apply I || done).
  case_bool_decide as H1.
  - pose proof (inv_seen_head r v I Hp Hv) as I1. set (r1 := r <| cached_head_ := u64 v |> <| seen_head := v |>) in *.
    destruct (inv_bounds r1 I1) as (C1 & _). pose proof (ri_room _ I1) as Hroom.
    rewrite (looks_full_spec r1 (n_pushed r1) (seen_head r1)) by (apply I1 || done).
    change (seen_head r1) with v in *. case_bool_decide as H2; intros [= <- <-].
    + split; [done|]. split; [|done]. left. split; [done|]. split; [lia|done].
    + split; [apply inv_pwrite; [done|]; change (seen_head r1) with v; lia|].
      split; [by right|done].
  - intros [= <- <-]. split; [apply inv_pwrite; [done|lia]|]. split; [by right|done].
Qed.

Lemma pop_check_inv r v r' res :
  ring_inv r -> cpc r = CIdle -> seen_tail r <= v <= n_pushed r ->
  pop_check v r = (r', res) ->
  ring_inv r' /\ (res = Some false /\ n_popped r' = v /\ v = seen_tail r' \/
                  res = None /\ cpc r' = CRead) /\
  pushed r' = pushed r /\ popped r' = popped r /\ ppc r' = ppc r.
Proof.
  intros I Hp Hv. destruct (inv_bounds r I) as (_ & B2 & B3). unfold pop_check.
  rewrite (looks_empty_spec r (n_popped r) (seen_tail r)) by (apply I || done).
  case_bool_decide as H1.
  - pose proof (inv_seen_tail r v I Hp Hv) as I1.
    set (r1 := r <| cached_tail_ := u64 v |> <| seen_tail := v |>) in *.
    destruct (inv_bounds r1 I1) as (_ & C2 & _). pose proof (ri_order _ I1) as Hord.
    rewrite (looks_empty_spec r1 (n_popped r1) (seen_tail r1)) by (apply I1 || done).
    change (seen_tail r1) with v in *. case_bool_decide as H2; intros [= <- <-].
    + split; [done|]. split; [|done]. left. done.
    + split; [apply inv_cread; [done|]; change (seen_tail r1) with v; lia|].
      split; [by right|done].
  - intros [= <- <-]. pose proof (ri_order _ I). split; [apply inv_cread; [done|lia]|].
    split; [by right|done].
Qed.

Lemma push_write_inv r x :
  ring_inv r -> ppc r = PWrite x ->
  exists r', push_write x r = Some r' /\ ring_inv r' /\ pushed r' = pushed r /\ popped r' = popped r.
Proof.
  intros I Hp. pose proof I as []. rewrite Hp in *. unfold push_write.
  rewrite ri_tail0, slot_u64. pose proof (mod_range (n_pushed r)).
  rewrite vset_in by lia. cbn [mbind option_bind]. eexists. split; [done|].
  split; [|done].
  assert (forall i y, n_popped r <= Z.of_nat i -> pushed r !! i = Some y ->
    (<[Z.to_nat (n_pushed r mod Capacity):=x]> (buffer_ r)).[Z.of_nat i mod Capacity] = Some y) as Hdata.
  { intros i y Hi Hy. rewrite <- (ri_data0 i y Hi Hy). eapply vget_vset_ne; [by apply vset_in; lia|].
    apply mod_ne. apply lookup_lt_Some in Hy. unfold n_pushed in *. lia. }
  split; try done.
  - cbn. by rewrite length_insert.
  - cbn. split; [done|]. eapply vget_vset_eq. apply vset_in. lia.
Qed.

Lemma push_store_inv r x :
  ring_inv r -> ppc r = PStore x -> ring_inv (push_store x r).
Proof.
  intros [] Hp. rewrite Hp in *. destruct ri_ppc0 as [Hroom Hx].
  assert (n_pushed (push_store x r) = n_pushed r + 1) as En
    by (unfold n_pushed; cbn; rewrite length_app; cbn; lia).
  split; rewrite ?En; try done; cbn.
  - rewrite ri_tail0. unfold u64. by rewrite wrap_add_l.
  - change (n_popped (push_store x r)) with (n_popped r). lia.
  - lia.
  - intros i y Hi [Hy|[Hi' Hy]]%lookup_app_Some; [by apply ri_data0|].
    apply list_lookup_singleton_Some in Hy as [Hi0 <-].
    replace (Z.of_nat i) with (n_pushed r) by (unfold n_pushed; lia). done.
  - by apply prefix_app_r.
  - destruct (cpc r); [done..|]. destruct ri_cpc0 as [? ?]. split; [done|]. by apply lookup_app_l_Some.
Qed.

Lemma pop_read_inv r :
  ring_inv r -> cpc r = CRead ->
  exists x, pop_read r = Some (r <| cpc := CStore x |>) /\ ring_inv (r <| cpc := CStore x |>).
Proof.
  intros I Hp. pose proof I as []. rewrite Hp in *. unfold pop_read. rewrite ri_head0, slot_u64.
  destruct (lookup_lt_is_Some_2 (pushed r) (length (popped r))) as [x Hx].
  { unfold n_popped, n_pushed in *. lia. }
  unfold n_popped in *. rewrite (ri_data0 _ x) by done. exists x. split; [done|].
  by split.
Qed.

Lemma pop_store_inv r x :
  ring_inv r -> cpc r = CStore x -> ring_inv (pop_store x r).
Proof.
  intros [] Hp. rewrite Hp in *. destruct ri_cpc0 as [Hlt Hx].
  assert (n_popped (pop_store x r) = n_popped r + 1) as En
    by (unfold n_popped; cbn; rewrite length_app; cbn; lia).
  split; rewrite ?En; try done; cbn.
  - rewrite ri_head0. unfold u64. by rewrite wrap_add_l.
  - change (n_pushed (pop_store x r)) with (n_pushed r). lia.
  - intros i y Hi Hy. apply ri_data0; [lia|done].
  - destruct ri_popped0 as [l Hl]. rewrite Hl in Hx |- *.
    rewrite lookup_app_r, Nat.sub_diag in Hx by lia. destruct l as [|y l]; [done|]. cbn in Hx.
    simplify_eq. exists l. by rewrite <- app_assoc.
Qed.

Lemma step_inv r l r' : ring_inv r -> step r l r' -> ring_inv r'.
Proof.
  intros I H. destruct H as [r x v r' res Hp Hv E|r x r' Hp E|r x Hp|r v r' res Hp Hv E|r r' Hp E|r x Hp].
  - apply (push_check_inv r x v r' res I Hp Hv E).
  - destruct (push_write_inv r x I Hp) as (r2 & E2 & ? & _). congruence.
  - by apply push_store_inv.
  - apply (pop_check_inv r v r' res I Hp Hv E).
  - destruct (pop_read_inv r I Hp) as (x & E2 & ?). congruence.
  - by apply pop_store_inv.
Qed.

Lemma reachable_inv r : reachable r -> ring_inv r.
Proof. induction 1; [apply inv_new|by eapply step_inv]. Qed.

(** ** Consequences *)

Lemma inv_no_write_race r : ring_inv r -> ~ write_race r.
Proof.
  intros [] ([x Hp] & j & [Hj0 Hj] & Hs & Hseen). rewrite Hp in *.
  rewrite ri_tail0, slot_u64, slot_mod in Hs.
  assert (j <= n_popped r) as Hjr.
  { unfold reads in Hj. destruct (cpc r); lia. }
  apply (mod_ne (n_pushed r) j); [|done]. split; [|lia].
  unfold reads in Hj. destruct (cpc r); [lia|lia|]. destruct ri_cpc0. lia.
Qed.

Lemma inv_no_read_race r : ring_inv r -> ~ read_race r.
Proof.
  intros [] (Hp & j & [Hj0 Hj] & Hs & Hseen). rewrite Hp in *.
  rewrite ri_head0, slot_u64, slot_mod in Hs.
  apply (mod_ne j (n_popped r)); [|done]. split; [lia|].
  unfold writes in Hj. destruct (ppc r); [lia|lia|]. destruct ri_ppc0. lia.
Qed.
End Ring.

(** ** One thread running alone *)

Section Solo.
Context {T : Type} (x0 : T) (k : Z) (Hk : 1 <= k < 64).
Notation C := (2 ^ k).

(** [push] without interference: all its steps, the load seeing the present. *)
Definition push (x : T) (r : Ring T) : option (bool * Ring T) :=
  match push_check C x (n_popped r) r with
  | (r, Some b) => Some (b, r)
  | (r, None) => r ← push_write C x r; Some (true, push_store x r)
  end.

Definition pop (r : Ring T) : option (option T * Ring T) :=
  match pop_check (n_pushed r) r with
  | (r, Some _) => Some (None, r)
  | (r, None) =>
      r ← pop_read C r;
      match cpc r with CStore x => Some (Some x, pop_store x r) | _ => None end
  end.

(** The items in flight. *)
Definition contents (r : Ring T) : list T := drop (length (popped r)) (pushed r).

(** A ring between operations. *)
Definition idle (r : Ring T) : Prop := ring_inv C r /\ ppc r = PIdle /\ cpc r = CIdle.

Lemma contents_length r : ring_inv C r -> Z.of_nat (length (contents r)) = n_pushed r - n_popped r.
Proof.
  intros []. unfold contents, n_pushed, n_popped in *. rewrite length_drop. lia.
Qed.

Lemma push_solo x r :
  idle r ->
  exists r', push x r = Some (bool_decide (Z.of_nat (length (contents r)) < C), r') /\ idle r' /\
    contents r' = if decide (Z.of_nat (length (contents r)) < C) then contents r ++ [x] else contents r.
Proof.
  intros (I & Hp & Hc). rewrite (contents_length r I). unfold push.
  destruct (push_check C x (n_popped r) r) as [r1 res] eqn:E.
  pose proof (ri_order _ _ I) as Hord.
  destruct (push_check_inv C k Hk eq_refl r x (n_popped r) r1 res I Hp ltac:(lia) E)
    as (I1 & Hres & Epu & Epo & Ec).
  assert (n_pushed r1 = n_pushed r) as En by (unfold n_pushed; by rewrite Epu).
  destruct Hres as [(-> & Hfull & _)|(-> & Hpw)].
  - rewrite bool_decide_eq_false_2, decide_False by lia. exists r1. split; [done|].
    unfold contents. rewrite Epu, Epo. split; [|done]. split; [done|].
    split; [|congruence]. revert E. unfold push_check. repeat case_match; by intros [= <-].
  - destruct (push_write_inv C k Hk eq_refl r1 x I1 Hpw) as (r2 & E2 & I2 & Epu2 & Epo2).
    rewrite E2. cbn [mbind option_bind].
    assert (ppc r2 = PStore x /\ cpc r2 = cpc r1) as [Hps Hc2].
    { revert E2. unfold push_write. destruct (vset _ _ _); cbn; [|done]. by intros [= <-]. }
    pose proof (push_store_inv C k Hk r2 x I2 Hps) as I3.
    assert (n_pushed r < n_popped r + C).
    { destruct (inv_bounds C k Hk eq_refl _ I3) as (_ & _ & B).
      unfold n_pushed, n_popped, push_store in B. cbn in B.
      rewrite length_app, Epu2, Epo2, Epu, Epo in B. cbn in B. unfold n_pushed, n_popped. lia. }
    rewrite bool_decide_eq_true_2, decide_True by lia. eexists. split; [done|]. split.
    + split; [done|]. split; [done|]. cbn. congruence.
    + unfold contents, push_store. cbn. rewrite Epu2, Epo2, Epu, Epo. rewrite drop_app_le; [done|].
      unfold n_pushed, n_popped in *. lia.
Qed.

Lemma pop_solo r :
  idle r ->
  exists r', pop r = Some (head (contents r), r') /\ idle r' /\ contents r' = tail (contents r).
Proof.
  intros (I & Hp & Hc). unfold pop.
  destruct (pop_check (n_pushed r) r) as [r1 res] eqn:E.
  pose proof (ri_order _ _ I) as Hord.
  destruct (pop_check_inv C k Hk eq_refl r (n_pushed r) r1 res I Hc ltac:(lia) E)
    as (I1 & Hres & Epu & Epo & Ep).
  assert (contents r1 = contents r) as Ect by (unfold contents; by rewrite Epu, Epo).
  destruct Hres as [(-> & Hem & _)|(-> & Hcr)].
  - exists r1. pose proof (contents_length r I) as Hl.
    assert (n_popped r1 = n_popped r) as En by (unfold n_popped; by rewrite Epo).
    assert (contents r = []) as E0 by (apply length_zero_iff_nil; lia).
    rewrite Ect, E0. split; [done|]. split; [|done]. split; [done|]. split; [congruence|].
    revert E. unfold pop_check. repeat case_match; by intros [= <-].
  - destruct (pop_read_inv C k Hk eq_refl r1 I1 Hcr) as (x & E2 & I2). rewrite E2.
    cbn [mbind option_bind cpc rset]. pose proof (ri_cpc _ _ I2) as [_ Hx]. cbn in Hx.
    rewrite <- Ect. unfold contents. rewrite (drop_S _ _ _ Hx). cbn. eexists. split; [done|].
    split.
    + split; [apply (pop_store_inv C k eq_refl _ x I2); done|]. cbn. split; [congruence|done].
    + cbn. by rewrite length_app, Nat.add_1_r.
Qed.
End Solo.

(** ** The channel *)

Inductive Backpressure := Block | Drop.

#[export] Instance Backpressure_eq_dec : EqDecision Backpressure.
Proof. solve_decision. Defined.

(** [pending] is the item [send] is working on, [offered] what was sent so far. *)
Record Chan (T : Type) := mkChan {
  ring_ : Ring T;
  dropped_ : Z;
  ch_pending : option T;
  offered : list T }.
Arguments mkChan {T}.
Arguments ring_ {T}.
Arguments dropped_ {T}.
Arguments ch_pending {T}.
Arguments offered {T}.

Section Channel.
Context {T : Type} (x0 : T) (k : Z) (Hk : 1 <= k < 64) (policy : Backpressure).
Notation C := (2 ^ k).

Definition chan_new : Chan T := mkChan (ring_new x0 C) 0 None [].

(** [send]: a failed [push] is counted and given up under [Drop], and tried
    again under [Block]. *)
Inductive chan_step : Chan T -> Chan T -> Prop :=
  | ch_send c x :
      ch_pending c = None ->
      chan_step c (mkChan (ring_ c) (dropped_ c) (Some x) (offered c ++ [x]))
  | ch_check c x v r res :
      ch_pending c = Some x -> ppc (ring_ c) = PIdle ->
      seen_head (ring_ c) <= v <= n_popped (ring_ c) ->
      push_check C x v (ring_ c) = (r, res) ->
      chan_step c
        (match res, policy with
         | Some _, Drop => mkChan r (u64 (dropped_ c + 1)) None (offered c)
         | _, _ => mkChan r (dropped_ c) (ch_pending c) (offered c)
         end)
  | ch_write c x r :
      ppc (ring_ c) = PWrite x -> push_write C x (ring_ c) = Some r ->
      chan_step c (mkChan r (dropped_ c) (ch_pending c) (offered c))
  | ch_store c x :
      ppc (ring_ c) = PStore x ->
      chan_step c (mkChan (push_store x (ring_ c)) (dropped_ c) None (offered c))
  | ch_receive c v r res :
      cpc (ring_ c) = CIdle -> seen_tail (ring_ c) <= v <= n_pushed (ring_ c) ->
      pop_check v (ring_ c) = (r, res) ->
      chan_step c (mkChan r (dropped_ c) (ch_pending c) (offered c))
  | ch_read c r :
      cpc (ring_ c) = CRead -> pop_read C (ring_ c) = Some r ->
      chan_step c (mkChan r (dropped_ c) (ch_pending c) (offered c))
  | ch_done c x :
      cpc (ring_ c) = CStore x ->
      chan_step c (mkChan (pop_store x (ring_ c)) (dropped_ c) (ch_pending c) (offered c)).

Inductive chan_reachable : Chan T -> Prop :=
  | chan_reach_new : chan_reachable chan_new
  | chan_reach_step c c' : chan_reachable c -> chan_step c c' -> chan_reachable c'.

(** Counting up to [2 ^ 64] drops. *)
Record chan_inv (c : Chan T) : Prop := {
  ci_ring : ring_inv C (ring_ c);
  ci_pc : match ppc (ring_ c) with
          | PIdle => True | PWrite x | PStore x => ch_pending c = Some x end;
  ci_block : policy = Block -> dropped_ c = 0 /\
    offered c = pushed (ring_ c) ++ option_list (ch_pending c);
  ci_drop : exists kept, pushed (ring_ c) `sublist_of` kept /\
    offered c = kept ++ option_list (ch_pending c) /\
    dropped_ c = u64 (Z.of_nat (length kept) - n_pushed (ring_ c)) }.

Lemma chan_inv_new : chan_inv chan_new.
Proof.
  split; cbn; try done.
  - by eapply inv_new.
  - exists []. done.
Qed.

Lemma push_check_frame x v (r : Ring T) r' res :
  push_check C x v r = (r', res) ->
  pushed r' = pushed r /\ popped r' = popped r /\ cpc r' = cpc r /\
  ppc r' = if res then ppc r else PWrite x.
Proof. unfold push_check. intros E. repeat case_match; by simplify_eq. Qed.

Lemma pop_check_frame v (r : Ring T) r' res :
  pop_check v r = (r', res) -> pushed r' = pushed r /\ ppc r' = ppc r.
Proof. unfold pop_check. intros E. repeat case_match; by simplify_eq. Qed.

Lemma push_write_frame x (r r' : Ring T) :
  push_write C x r = Some r' -> pushed r' = pushed r /\ ppc r' = PStore x.
Proof.
  unfold push_write. destruct (vset _ _ _); cbn; [|done]. by intros [= <-].
Qed.

Lemma pop_read_frame (r r' : Ring T) :
  pop_read C r = Some r' -> pushed r' = pushed r /\ ppc r' = ppc r.
Proof. unfold pop_read. destruct (vget _ _); cbn; [|done]. by intros [= <-]. Qed.

(** A step that touches neither the history of pushes nor the item in hand. *)
Lemma chan_inv_frame c r :
  chan_inv c -> ring_inv C r -> pushed r = pushed (ring_ c) ->
  match ppc r with PIdle => True | PWrite x | PStore x => ch_pending c = Some x end ->
  chan_inv (mkChan r (dropped_ c) (ch_pending c) (offered c)).
Proof.
  intros [] I E Hp. split; try done; cbn; unfold n_pushed; by rewrite E.
Qed.

Lemma chan_step_inv c c' : chan_inv c -> chan_step c c' -> chan_inv c'.
Proof.
  intros I H. pose proof I as [IR Hpc Hb Hd]. destruct H as
    [c x Hn|c x v r res Hpe Hp Hv E|c x r Hp E|c x Hp|c v r res Hc Hv E|c r Hc E|c x Hc].
  - split; cbn; try done.
    + rewrite Hn in Hpc. by destruct (ppc (ring_ c)).
    + intros ->. destruct Hb as [? ->]; [done|]. by rewrite Hn, app_nil_r.
    + destruct Hd as (kept & ? & -> & ?). exists kept. by rewrite Hn, app_nil_r.
  - destruct (push_check_frame _ _ _ _ _ E) as (Epu & _ & _ & Epc).
    destruct (push_check_inv C k Hk eq_refl _ x v r res IR Hp Hv E) as (I1 & _).
    destruct res as [b|]; [destruct policy eqn:Hpol|].
    + apply chan_inv_frame; [done..|]. by rewrite Epc, Hp.
    + split; cbn; try done.
      * by rewrite Epc, Hp.
      * intros Hbl. congruence.
      * destruct Hd as (kept & Hsub & Ho & Hdr). exists (kept ++ [x]). rewrite Epu.
        split; [by apply sublist_inserts_r|]. rewrite Ho, Hpe, app_nil_r. split; [done|].
        rewrite Hdr. unfold u64, n_pushed. rewrite wrap_add_l, Epu, length_app. f_equal. cbn. lia.
    + apply chan_inv_frame; [done..|]. by rewrite Epc.
  - destruct (push_write_frame _ _ _ E) as [Epu Epc]. rewrite Hp in Hpc.
    destruct (push_write_inv C k Hk eq_refl _ x IR Hp) as (r2 & E2 & I2 & _). simplify_eq.
    apply chan_inv_frame; [done..|]. by rewrite Epc.
  - rewrite Hp in Hpc. pose proof (push_store_inv C k Hk _ x IR Hp) as I2.
    split; cbn; try done.
    + intros ->. destruct Hb as [? ->]; [done|]. by rewrite Hpc, app_nil_r.
    + destruct Hd as (kept & Hsub & -> & ->). exists (kept ++ [x]). rewrite Hpc, app_nil_r.
      split; [by apply sublist_app|]. split; [done|]. f_equal. unfold n_pushed. cbn.
      rewrite !length_app. cbn. lia.
  - destruct (pop_check_frame _ _ _ _ E) as [Epu Epc].
    destruct (pop_check_inv C k Hk eq_refl _ v r res IR Hc Hv E) as (I1 & _).
    apply chan_inv_frame; [done..|]. by rewrite Epc.
  - destruct (pop_read_frame _ _ E) as [Epu Epc].
    destruct (pop_read_inv C k Hk eq_refl _ IR Hc) as (x & E2 & I2). simplify_eq.
    apply chan_inv_frame; done.
  - apply chan_inv_frame; [done| |done|done].
    by apply (pop_store_inv C k eq_refl _ x IR).
Qed.

Lemma chan_reachable_inv c : chan_reachable c -> chan_inv c.
Proof. induction 1; [apply chan_inv_new|by eapply chan_step_inv]. Qed.

(** Executable schedules: [Prod v] ([Cons v]) lets the producer (consumer) make
    one step, an acquire load seeing [v]. *)
Inductive command := Send (x : T) | Prod (v : Z) | Cons (v : Z).

Definition chan_exec (a : command) (c : Chan T) : option (Chan T) :=
  let ret r := Some (mkChan r (dropped_ c) (ch_pending c) (offered c)) in
  match a with
  | Send x => if ch_pending c is Some _ then None
              else Some (mkChan (ring_ c) (dropped_ c) (Some x) (offered c ++ [x]))
  | Prod v =>
      match ppc (ring_ c), ch_pending c with
      | PIdle, Some x =>
          if decide (seen_head (ring_ c) <= v <= n_popped (ring_ c)) then
            let '(r, res) := push_check C x v (ring_ c) in
            Some (match res, policy with
                  | Some _, Drop => mkChan r (u64 (dropped_ c + 1)) None (offered c)
                  | _, _ => mkChan r (dropped_ c) (ch_pending c) (offered c)
                  end)
          else None
      | PIdle, None => None
      | PWrite x, _ => r ← push_write C x (ring_ c); ret r
      | PStore x, _ => Some (mkChan (push_store x (ring_ c)) (dropped_ c) None (offered c))
      end
  | Cons v =>
      match cpc (ring_ c) with
      | CIdle => if decide (seen_tail (ring_ c) <= v <= n_pushed (ring_ c))
                 then ret (pop_check v (ring_ c)).1 else None
      | CRead => r ← pop_read C (ring_ c); ret r
      | CStore x => ret (pop_store x (ring_ c))
      end
  end.

Lemma chan_exec_sound a c c' : chan_exec a c = Some c' -> chan_step c c'.
Proof.
  unfold chan_exec. destruct a as [x|v|v].
  - destruct (ch_pending c) eqn:E; [done|]. intros [= <-]. by apply ch_send.
  - destruct (ppc (ring_ c)) eqn:Hp; [destruct (ch_pending c) as [x|] eqn:Hx; [|done]| |].
    + case_decide; [|done]. destruct (push_check C x v (ring_ c)) as [r res] eqn:E. intros [= <-].
      rewrite <- Hx. by eapply ch_check.
    + destruct (push_write C x (ring_ c)) eqn:E; cbn; [|done]. intros [= <-]. by eapply ch_write.
    + intros [= <-]. by apply ch_store.
  - destruct (cpc (ring_ c)) eqn:Hc.
    + case_decide; [|done]. intros [= <-]. destruct (pop_check v (ring_ c)) as [r res] eqn:E.
      by eapply ch_receive.
    + destruct (pop_read C (ring_ c)) eqn:E; cbn; [|done]. intros [= <-]. by eapply ch_read.
    + intros [= <-]. by apply ch_done.
Qed.

Lemma chan_run_sound l c c' :
  chan_reachable c -> iterM chan_exec l c = Some c' -> chan_reachable c'.
Proof.
  revert c. induction l as [|a l IH]; cbn; intros c H; [by intros [= <-]|].
  destruct (chan_exec a c) as [c1|] eqn:E; cbn; [|done]. apply IH.
  eapply chan_reach_step; [done|]. by apply chan_exec_sound in E.
Qed.
End Channel.

Arguments Send {T}.
Arguments Prod {T}.
Arguments Cons {T}.

(** ** Theorems *)

(** One push, all but the last step, from a fresh ring of four slots. *)
Definition demo_ring : Ring Z :=
  mkRing 0 0 0 0 [7; 0; 0; 0] (PStore 7) CIdle [] [] 0 0.

Lemma demo_ring_reachable : reachable 0 (2 ^ 2) demo_ring.
Proof.
  eapply reach_step; [eapply reach_step; [apply reach_new|]|].
  - eapply (step_push_check _ _ 7 0); [reflexivity|cbn; unfold n_popped; cbn; lia|reflexivity].
  - eapply step_push_write; [reflexivity|reflexivity].
Qed.

(** C13. No data race and no access outside the buffer.  In every reachable
    state of the two threads - indices wrapping at 2^64, acquire loads possibly
    stale - a slot access about to happen is ordered after every conflicting
    access of the other thread, and it is inside the buffer. *)
Theorem spsc_race_free {T} (x0 : T) k r :
  1 <= k < 64 -> reachable x0 (2 ^ k) r ->
  ~ write_race (2 ^ k) r /\ ~ read_race (2 ^ k) r /\
  (forall x, ppc r = PWrite x -> is_Some (push_write (2 ^ k) x r)) /\
  (cpc r = CRead -> is_Some (pop_read (2 ^ k) r)).
Proof.
  intros Hk H%(reachable_inv x0 (2 ^ k) k Hk eq_refl).
  split; [by eapply inv_no_write_race|]. split; [by eapply inv_no_read_race|]. split.
  - intros x Hx. destruct (push_write_inv (2 ^ k) k Hk eq_refl r x H Hx) as (? & -> & _). by eexists.
  - intros Hx. destruct (pop_read_inv (2 ^ k) k Hk eq_refl r H Hx) as (? & -> & _). by eexists.
Qed.

Lemma spsc_race_free_witness :
  reachable 0 (2 ^ 2) demo_ring /\ ~ write_race (2 ^ 2) demo_ring /\ ~ read_race (2 ^ 2) demo_ring.
Proof.
  split; [exact demo_ring_reachable|].
  destruct (spsc_race_free 0 2 demo_ring ltac:(lia) demo_ring_reachable) as (W & R & _).
  exact (conj W R).
Defined.

(** C14. First in, first out, bounded.  In every reachable state what was popped
    is a prefix of what was pushed (nothing lost, duplicated or reordered), at
    most [Capacity] items are in flight, and the index words are the counts
    modulo 2^64.  [size_approx], called by the producer or by the consumer with a
    possibly stale load of the other's index, is never above [Capacity]. *)
Theorem spsc_fifo {T} (x0 : T) k r :
  1 <= k < 64 -> reachable x0 (2 ^ k) r ->
  popped r `prefix_of` pushed r /\ n_pushed r - n_popped r <= 2 ^ k /\
  tail_ r = u64 (n_pushed r) /\ head_ r = u64 (n_popped r) /\
  (forall v, seen_head r <= v <= n_popped r -> 0 <= size_approx (tail_ r) (u64 v) <= 2 ^ k) /\
  (forall v, seen_tail r <= v <= n_pushed r -> 0 <= size_approx (u64 v) (head_ r) <= 2 ^ k).
Proof.
  intros Hk H%(reachable_inv x0 (2 ^ k) k Hk eq_refl).
  pose proof (capacity_pos (2 ^ k) k Hk eq_refl) as Hc.
  destruct (inv_bounds (2 ^ k) k Hk eq_refl r H) as (_ & _ & B). destruct H.
  unfold size_approx. rewrite ri_head0, ri_tail0.
  repeat (split; [done || lia|]). split; intros v Hv; rewrite u64_sub_small by lia; lia.
Qed.

Lemma spsc_fifo_witness :
  reachable 0 (2 ^ 2) (push_store 7 demo_ring) /\ tail_ (push_store 7 demo_ring) = 1 /\
  popped (push_store 7 demo_ring) `prefix_of` pushed (push_store 7 demo_ring).
Proof.
  assert (reachable 0 (2 ^ 2) (push_store 7 demo_ring)) as H.
  { eapply reach_step; [exact demo_ring_reachable|]. by apply step_push_store. }
  destruct (spsc_fifo 0 2 _ ltac:(lia) H) as (P & _ & E & _ & _).
  split; [exact H|]. split; [exact E|exact P].
Defined.

(** The answers of [push] and [pop].  [push] says full only when the pushes
    were [Capacity] ahead of a count of pops the consumer really published, and
    [pop] says empty only when it has popped everything the producer had
    published: a refusal may come late, but never from an impossible state. *)
Theorem spsc_refusals_justified {T} (x0 : T) k r l r' :
  1 <= k < 64 -> reachable x0 (2 ^ k) r -> step (2 ^ k) r l r' ->
  (l = LPushFull -> exists v, 0 <= v <= n_popped r /\ n_pushed r = v + 2 ^ k) /\
  (l = LPopEmpty -> exists v, 0 <= v <= n_pushed r /\ n_popped r = v) /\
  (forall x, l = LPopped x -> pushed r !! length (popped r) = Some x).
Proof.
  intros Hk I%(reachable_inv x0 (2 ^ k) k Hk eq_refl) H. pose proof (ri_order _ _ I) as Ho.
  destruct H as [r x v r' res Hp Hv E|r x r' Hp E|r x Hp|r v r' res Hp Hv E|r r' Hp E|r x Hp];
    try (split; [done|split; [done|]]; try done).
  - destruct (push_check_inv _ k Hk eq_refl r x v r' res I Hp Hv E) as (_ & Hres & Epu & _).
    split; [|split; [by destruct res|intros y; by destruct res]].
    destruct res; [|done]. intros _. destruct Hres as [(_ & Hf & _)|[? _]]; [|done].
    exists v. unfold n_pushed in *. rewrite Epu in Hf. lia.
  - destruct (pop_check_inv _ k Hk eq_refl r v r' res I Hp Hv E) as (_ & Hres & _ & Epo & _).
    split; [by destruct res|]. split; [|intros y; by destruct res].
    destruct res; [|done]. intros _. destruct Hres as [(_ & Hf & _)|[? _]]; [|done].
    exists v. unfold n_popped in *. rewrite Epo in Hf. lia.
  - intros y [= <-]. pose proof (ri_cpc _ _ I) as Hc. rewrite Hp in Hc. by destruct Hc.
Qed.

Lemma spsc_refusals_justified_witness :
  exists r', step (2 ^ 2) demo_ring LPopEmpty r' /\
    exists v, 0 <= v <= n_pushed demo_ring /\ n_popped demo_ring = v.
Proof.
  assert (exists r', step (2 ^ 2) demo_ring LPopEmpty r') as [r' H].
  { eexists. eapply (step_pop_check _ demo_ring 0 _ (Some false)); [reflexivity| |reflexivity].
    unfold n_pushed. cbn. lia. }
  exists r'. split; [exact H|].
  destruct (spsc_refusals_justified 0 2 demo_ring LPopEmpty r' ltac:(lia) demo_ring_reachable H)
    as (_ & E & _).
  exact (E eq_refl).
Defined.

(** Undisturbed, the ring is a bounded queue: [push] succeeds exactly when
    fewer than [Capacity] items are in flight and appends, [pop] succeeds exactly
    when there is one and removes the oldest. *)
Theorem spsc_solo_queue {T} k (x : T) r :
  1 <= k < 64 -> idle k r ->
  (exists r', push k x r = Some (bool_decide (Z.of_nat (length (contents r)) < 2 ^ k), r') /\ idle k r' /\
    contents r' = if decide (Z.of_nat (length (contents r)) < 2 ^ k) then contents r ++ [x] else contents r) /\
  (exists r', pop k r = Some (head (contents r), r') /\ idle k r' /\ contents r' = tail (contents r)).
Proof. intros Hk Hi. split; [by apply push_solo|by apply pop_solo]. Qed.

Lemma spsc_solo_queue_witness :
  exists r', push 1 9 (ring_new 0 (2 ^ 1)) = Some (true, r') /\ contents r' = [9].
Proof.
  destruct (spsc_solo_queue 1 9 (ring_new 0 (2 ^ 1)) ltac:(lia)) as [(r' & E & _ & C) _].
  - split; [apply (inv_new 0 (2 ^ 1) 1); [lia|reflexivity]|done].
  - exists r'. split; [exact E|exact C].
Defined.

(** The channel never loses data without counting it.  Under [Block]
    everything offered is in the ring's history in order, but the item in hand,
    and nothing is dropped; under [Drop] what entered the ring is a
    subsequence of what was offered and the counter is exactly the number of
    items missing. *)
Theorem channel_accounting {T} (x0 : T) k policy c :
  1 <= k < 64 -> chan_reachable x0 k policy c ->
  (policy = Block -> dropped_ c = 0 /\ offered c = pushed (ring_ c) ++ option_list (ch_pending c)) /\
  exists kept, pushed (ring_ c) `sublist_of` kept /\
    offered c = kept ++ option_list (ch_pending c) /\
    dropped_ c = u64 (Z.of_nat (length kept) - n_pushed (ring_ c)).
Proof.
  intros Hk H%(chan_reachable_inv x0 k Hk policy). by destruct H.
Qed.

(** Three sends to a channel of two slots whose consumer never runs. *)
Definition demo_chan : Chan Z :=
  mkChan (mkRing 0 2 0 0 [5; 6] PIdle CIdle [5; 6] [] 0 0) 1 None [5; 6; 8].

Lemma demo_chan_reachable : chan_reachable 0 1 Drop demo_chan.
Proof.
  apply (chan_run_sound 0 1 Drop
    [Send 5; Prod 0; Prod 0; Prod 0; Send 6; Prod 0; Prod 0; Prod 0; Send 8; Prod 0]
    (chan_new 0 1)); [apply chan_reach_new|vm_compute; reflexivity].
Qed.

Lemma channel_accounting_witness :
  exists kept, [5; 6] `sublist_of` kept /\ [5; 6; 8] = kept ++ [] /\ 1 = u64 (Z.of_nat (length kept) - 2).
Proof.
  destruct (channel_accounting 0 1 Drop demo_chan ltac:(lia) demo_chan_reachable) as (_ & E).
  exact E.
Defined.
