(* ===== verification/Instrumentation.v ===== *)
(** * The latency histogram

    [LatencyHistogram], [ThroughputCounter] and [RateSampler] of
    [include/feedhandler/instrumentation.hpp]: the geometry computed by [init],
    the index functions, [record], [value_at_percentile], [snapshot], [reset].

    The counters are relaxed atomics with one writer; the model is the writer's
    sequence of calls.  Percentiles are computed in IEEE binary64, here with the
    Standard Library's [SpecFloat]. *)

From Stdlib Require Import SpecFloat.
From stdpp Require Import base list numbers.
From S2P Require Import Prelude.

Record LatencyHistogram := mkHist {
  highest_ : Z;
  unit_magnitude_ : Z;
  sub_bucket_half_count_magnitude_ : Z;
  leading_zero_count_base_ : Z;
  sub_bucket_count_ : Z;
  sub_bucket_half_count_ : Z;
  sub_bucket_mask_ : Z;
  bucket_count_ : Z;
  counts_len_ : Z;
  counts_ : list Z;
  total_count_ : Z;
  sum_ : Z;
  min_ : Z;
  max_ : Z }.

#[export] Instance LatencyHistogram_settable : Settable LatencyHistogram := fun h =>
  mkHist (highest_ h) (unit_magnitude_ h) (sub_bucket_half_count_magnitude_ h)
    (leading_zero_count_base_ h) (sub_bucket_count_ h) (sub_bucket_half_count_ h)
    (sub_bucket_mask_ h) (bucket_count_ h) (counts_len_ h) (counts_ h) (total_count_ h)
    (sum_ h) (min_ h) (max_ h).

Definition u64_max : Z := 2 ^ 64 - 1.

(** ** Geometry *)

(** [while (x < v) { x <<= 1; ++m; }]. *)
Fixpoint ceil_log2_loop (fuel : nat) (x v m : Z) : option Z :=
  if decide (x < v) then
    match fuel with O => None | S fuel => ceil_log2_loop fuel (u64 (x * 2)) v (m + 1) end
  else Some m.

Definition ceil_log2 (v : Z) : option Z := ceil_log2_loop 64 1 v 0.

Fixpoint buckets_needed_loop (fuel : nat) (smallest_untrackable value needed : Z) : option Z :=
  if decide (smallest_untrackable <= value) then
    if decide (smallest_untrackable > Z.shiftr u64_max 1) then Some (needed + 1) else
    match fuel with
    | O => None
    | S fuel => buckets_needed_loop fuel (u64 (smallest_untrackable * 2)) value (needed + 1)
    end
  else Some needed.

Definition buckets_needed (sub_bucket_count unit_magnitude value : Z) : option Z :=
  buckets_needed_loop 64 (u64 (Z.shiftl sub_bucket_count unit_magnitude)) value 1.

(** The smallest value [init] must tell apart: [2 * 10^sig]. *)
Definition largest_for (sig : nat) : Z := Nat.iter sig (fun l => u64 (l * 10)) 2.

Definition init (highest : Z) (sig : nat) : option LatencyHistogram :=
  let highest := if decide (highest < 2) then 2 else highest in
  let unit_magnitude := 0 in
  sub_bucket_count_magnitude ← ceil_log2 (largest_for sig);
  let half_magnitude := if decide (sub_bucket_count_magnitude > 1)
                        then sub_bucket_count_magnitude - 1 else 0 in
  let sub_bucket_count := u32 (Z.shiftl 1 (half_magnitude + 1)) in
  let half_count := Z.shiftr sub_bucket_count 1 in
  let mask := Z.shiftl (sub_bucket_count - 1) unit_magnitude in
  bucket_count ← buckets_needed sub_bucket_count unit_magnitude highest;
  let counts_len := (bucket_count + 1) * (sub_bucket_count / 2) in
  Some (mkHist highest unit_magnitude half_magnitude (64 - unit_magnitude - (half_magnitude + 1))
    sub_bucket_count half_count mask bucket_count counts_len
    (replicate (Z.to_nat counts_len) 0) 0 0 u64_max 0).

(** ** Indices *)

(** [__builtin_clzll], for a non-zero argument. *)
Definition clz64 (v : Z) : Z := 63 - Z.log2 v.

Definition get_bucket_index (h : LatencyHistogram) (v : Z) : Z :=
  leading_zero_count_base_ h - clz64 (Z.lor v (sub_bucket_mask_ h)).

Definition get_sub_bucket_index (h : LatencyHistogram) (v bucket_index : Z) : Z :=
  Z.shiftr v (bucket_index + unit_magnitude_ h).

Definition counts_index (h : LatencyHistogram) (bucket_index sub_bucket_index : Z) : Z :=
  let bucket_base := Z.shiftl (bucket_index + 1) (sub_bucket_half_count_magnitude_ h) in
  bucket_base + (sub_bucket_index - sub_bucket_half_count_ h).

Definition counts_index_for (h : LatencyHistogram) (v : Z) : Z :=
  let bi := get_bucket_index h v in counts_index h bi (get_sub_bucket_index h v bi).

Definition value_from_sub (h : LatencyHistogram) (bucket_index sub_bucket_index : Z) : Z :=
  u64 (Z.shiftl sub_bucket_index (bucket_index + unit_magnitude_ h)).

Definition value_from_index (h : LatencyHistogram) (index : Z) : Z :=
  let bucket_index := Z.shiftr index (sub_bucket_half_count_magnitude_ h) - 1 in
  let sub_bucket_index :=
    Z.land index (sub_bucket_half_count_ h - 1) + sub_bucket_half_count_ h in
  if decide (bucket_index < 0)
  then value_from_sub h 0 (sub_bucket_index - sub_bucket_half_count_ h)
  else value_from_sub h bucket_index sub_bucket_index.

Definition size_of_equivalent_range (h : LatencyHistogram) (v : Z) : Z :=
  u64 (Z.shiftl 1 (unit_magnitude_ h + get_bucket_index h v)).

Definition lowest_equivalent (h : LatencyHistogram) (v : Z) : Z :=
  let bi := get_bucket_index h v in value_from_sub h bi (get_sub_bucket_index h v bi).

Definition highest_equivalent (h : LatencyHistogram) (v : Z) : Z :=
  u64 (u64 (lowest_equivalent h v + size_of_equivalent_range h v) - 1).

(** ** Recording and reading *)

(** The clamping of [record]. *)
Definition clamp_value (h : LatencyHistogram) (value_ns : Z) : Z :=
  let v := if decide (value_ns < 1) then 1 else value_ns in
  if decide (v > highest_ h) then highest_ h else v.

Definition record (value_ns : Z) (h : LatencyHistogram) : option LatencyHistogram :=
  let v := clamp_value h value_ns in
  c ← (counts_ h).[counts_index_for h v];
  cs ← (counts_ h).[counts_index_for h v := u64 (c + 1)];
  Some (h <| counts_ := cs |> <| total_count_ ::= fun n => u64 (n + 1) |>
          <| sum_ ::= fun s => u64 (s + v) |>
          <| min_ ::= fun m => if decide (v < m) then v else m |>
          <| max_ ::= fun m => if decide (v > m) then v else m |>).

(** The loop of [value_at_percentile] from index [i]. *)
Fixpoint scan_counts (cs : list Z) (i running target : Z) : option Z :=
  match cs with
  | [] => None
  | c :: cs =>
      let running := u64 (running + c) in
      if decide (running >= target) then Some i else scan_counts cs (i + 1) running target
  end.

(** The value with [target] samples at or below it. *)
Definition value_at_rank (h : LatencyHistogram) (target : Z) : Z :=
  match scan_counts (counts_ h) 0 0 target with
  | Some i => highest_equivalent h (value_from_index h i)
  | None => max_ h
  end.

(** Binary64 arithmetic of [std::ceil((p / 100.0) * static_cast<double>(total))]. *)
Definition f64 (z : Z) : spec_float := binary_normalize 53 1024 z 0 false.

(** [std::ceil] and the conversion to an unsigned integer, on non-negative finite
    numbers; of others the conversion is undefined, and the code asks only for the
    percentiles 50, 90, 99, 99.9 and 99.99. *)
Definition ceil_f64 (x : spec_float) : Z :=
  match x with
  | S754_finite false m e =>
      if decide (0 <= e) then Z.pos m * 2 ^ e else - ((- Z.pos m) / 2 ^ (- e))
  | _ => 0
  end.

Definition percentile_target (p : spec_float) (total : Z) : Z :=
  let target := u64 (ceil_f64 (SFmul 53 1024 (SFdiv 53 1024 p (f64 100)) (f64 total))) in
  let target := if decide (target < 1) then 1 else target in
  if decide (target > total) then total else target.

Definition value_at_percentile (h : LatencyHistogram) (p : spec_float) : Z :=
  let total := total_count_ h in
  if decide (total = 0) then 0 else value_at_rank h (percentile_target p total).

Record LatencySnapshot := mkSnapshot {
  count : Z; min_ns : Z; max_ns : Z; mean_ns : spec_float;
  p50_ns : Z; p90_ns : Z; p99_ns : Z; p999_ns : Z; p9999_ns : Z }.

(** The doubles nearest to 99.9 and 99.99. *)
Definition f99_9 : spec_float := SFdiv 53 1024 (f64 999) (f64 10).
Definition f99_99 : spec_float := SFdiv 53 1024 (f64 9999) (f64 100).

Definition snapshot (h : LatencyHistogram) : LatencySnapshot :=
  if decide (total_count_ h = 0) then mkSnapshot 0 0 0 (S754_zero false) 0 0 0 0 0 else
  mkSnapshot (total_count_ h) (min_ h) (max_ h)
    (SFdiv 53 1024 (f64 (sum_ h)) (f64 (total_count_ h)))
    (value_at_percentile h (f64 50)) (value_at_percentile h (f64 90))
    (value_at_percentile h (f64 99)) (value_at_percentile h f99_9) (value_at_percentile h f99_99).

Definition reset (h : LatencyHistogram) : LatencyHistogram :=
  h <| counts_ := replicate (Z.to_nat (counts_len_ h)) 0 |> <| total_count_ := 0 |>
    <| sum_ := 0 |> <| min_ := u64_max |> <| max_ := 0 |>.

(** [ThroughputCounter]. *)
Definition counter_add (n c : Z) : Z := u64 (c + n).

(** [RateSampler]: the reading of the clock and the count of the sample before. *)
Record RateSampler := mkSampler { last_ : Z; last_count_ : Z }.

(** A sampler made at time [now]. *)
Definition sampler0 (now : Z) : RateSampler := mkSampler now 0.

(** [RateSampler::sample] at time [now] (both in nanoseconds): the rate per second
    since the sample before. *)
Definition rate_sample (now current_count : Z) (r : RateSampler) : spec_float * RateSampler :=
  let dt := SFdiv 53 1024 (f64 (now - last_ r)) (f64 1000000000) in
  let rate := if SFltb (S754_zero false) dt then SFdiv 53 1024 (f64 (u64 (current_count - last_count_ r))) dt
              else S754_zero false in
  (rate, mkSampler now current_count).

(** [PipelineMetricsSnapshot] *)
Record PipelineMetricsSnapshot := mkMetrics {
  pm_latency : LatencySnapshot;
  pm_messages : Z;
  pm_throughput_msgs_per_s : spec_float;
  pm_queue_occupancy : Z;
  pm_queue_capacity : Z;
  pm_drops : Z;
}.

(** The next interval begins where this one ended, and a clock that stands still
    gives the rate 0. *)
Lemma rate_sample_intervals now n r :
  last_count_ (rate_sample now n r).2 = n /\ last_ (rate_sample now n r).2 = now /\
  (now = last_ r -> (rate_sample now n r).1 = S754_zero false).
Proof.
  split_and!; [done|done|]. intros ->. unfold rate_sample. cbn [fst]. by rewrite Z.sub_diag.
Qed.

Example rate_sample_example :
  let '(r, s) := rate_sample 500000000 2000 (sampler0 0) in
  (r, (rate_sample 3000000000 1000000 s).1) = (f64 4000, f64 399200).
Proof. vm_compute. reflexivity. Qed.

Example small_run :
  (h ← init 60000000000 3; h ← record 100 h; h ← record 5000 h; h ← record 7 h; h ← record 5001 h;
   Some (value_at_percentile h (f64 50), value_at_percentile h (f64 90), p999_ns (snapshot h),
         total_count_ h, sum_ h, min_ h, max_ h, counts_len_ h))
  = Some (100, 5003, 5003, 4, 10108, 7, 5001, 27648).
Proof. vm_compute. reflexivity. Qed.

(** ** The geometry is right *)

Record geom (h : LatencyHistogram) (m : Z) : Prop := {
  ge_m : 0 <= m <= 17;
  ge_unit : unit_magnitude_ h = 0;
  ge_mag : sub_bucket_half_count_magnitude_ h = m;
  ge_base : leading_zero_count_base_ h = 63 - m;
  ge_half : sub_bucket_half_count_ h = 2 ^ m;
  ge_mask : sub_bucket_mask_ h = Z.ones (m + 1);
  ge_highest : 2 <= highest_ h < 2 ^ 64;
  ge_buckets : 1 <= bucket_count_ h /\ m + bucket_count_ h <= 64 /\
    highest_ h < 2 ^ (m + bucket_count_ h);
  ge_len : counts_len_ h = (bucket_count_ h + 1) * 2 ^ m }.

Lemma ceil_log2_largest sig :
  (sig <= 5)%nat ->
  exists k, ceil_log2 (largest_for sig) = Some k /\ 1 <= k <= 18 /\ 2 * 10 ^ Z.of_nat sig <= 2 ^ k.
Proof.
  intros H. do 6 (destruct sig as [|sig]; [eexists; split; [vm_compute; reflexivity|vm_compute; split; [split|]; congruence]|]).
  lia.
Qed.

Lemma buckets_needed_loop_ok fuel m value n :
  0 <= m -> 1 <= n -> m + n <= 63 -> 0 <= value < 2 ^ 64 -> 63 - (m + n) < Z.of_nat fuel ->
  exists k, buckets_needed_loop fuel (2 ^ (m + n)) value n = Some k /\
    n <= k /\ m + k <= 64 /\ value < 2 ^ (m + k).
Proof.
  revert n. induction fuel as [|fuel IH]; intros n Hm Hn Hmn Hv Hf; [lia|].
  cbn [buckets_needed_loop]. case_decide as H1; [|exists n; split; [done|]; lia].
  change (Z.shiftr u64_max 1) with (2 ^ 63 - 1). case_decide as H2.
  - exists (n + 1). split; [done|]. split; [lia|]. split; [lia|].
    assert (m + n = 63) as E.
    { destruct (decide (m + n = 63)); [done|].
      assert (2 ^ (m + n) < 2 ^ 63) by (apply Z.pow_lt_mono_r; lia). lia. }
    replace (m + (n + 1)) with 64 by lia. lia.
  - assert (m + n <= 62) as E.
    { destruct (decide (m + n <= 62)); [done|]. assert (m + n = 63) as E63 by lia.
      rewrite E63 in H2. lia. }
    assert (u64 (2 ^ (m + n) * 2) = 2 ^ (m + (n + 1))) as ->.
    { rewrite Z.add_assoc, (Z.pow_add_r 2 (m + n) 1) by lia. unfold u64. apply wrap_small.
      change (2 ^ 1) with 2. split; [lia|]. change (2 ^ 64) with (2 ^ 63 * 2).
      assert (2 ^ (m + n) < 2 ^ 63) by (apply Z.pow_lt_mono_r; lia). lia. }
    destruct (IH (n + 1)) as (k & -> & ? & ? & ?); [lia..|]. exists k. split; [done|]. lia.
Qed.

Lemma init_ok highest sig :
  in_u 64 highest -> (sig <= 5)%nat ->
  exists h m, init highest sig = Some h /\ geom h m /\ 10 ^ Z.of_nat sig <= 2 ^ m /\
    highest_ h = Z.max 2 highest /\ counts_ h = replicate (Z.to_nat (counts_len_ h)) 0 /\
    total_count_ h = 0 /\ sum_ h = 0 /\ min_ h = u64_max /\ max_ h = 0.
Proof.
  intros Hh Hsig. unfold in_u in Hh. unfold init.
  destruct (ceil_log2_largest sig Hsig) as (k & -> & Hk & Hp). cbn [mbind option_bind].
  set (m := if decide (k > 1) then k - 1 else 0).
  assert (m = k - 1) as Em by (unfold m; case_decide; lia).
  assert (u32 (Z.shiftl 1 (m + 1)) = 2 ^ (m + 1)) as ->.
  { rewrite Z.shiftl_1_l. unfold u32. apply wrap_small. unfold in_u. split; [lia|].
    apply Z.pow_lt_mono_r; lia. }
  set (hi := if decide (highest < 2) then 2 else highest).
  assert (hi = Z.max 2 highest) as Ehi by (unfold hi; case_decide; lia).
  unfold buckets_needed. rewrite !Z.shiftl_0_r.
  assert (u64 (2 ^ (m + 1)) = 2 ^ (m + 1)) as ->.
  { unfold u64. apply wrap_small. split; [lia|]. apply Z.pow_lt_mono_r; lia. }
  destruct (buckets_needed_loop_ok 64 m hi 1) as (n & -> & Hn1 & Hn2 & Hn3); [lia..|].
  cbn [mbind option_bind]. eexists _, m. split; [done|].
  assert (2 ^ (m + 1) = 2 * 2 ^ m) as E2 by (rewrite Z.pow_add_r by lia; change (2 ^ 1) with 2; lia).
  split; [split; cbn; try done|].
  - lia.
  - lia.
  - rewrite E2, Z.shiftr_div_pow2 by lia. change (2 ^ 1) with 2. rewrite (Z.mul_comm 2). by rewrite Z.div_mul.
  - rewrite Z.ones_equiv. lia.
  - lia.
  - rewrite E2, (Z.mul_comm 2). by rewrite Z.div_mul.
  - split; [|done].
    assert (2 ^ k = 2 * 2 ^ m) as Ek by (rewrite <- E2; f_equal; lia). lia.
Qed.

(** ** The index of a value *)

Section Geometry.
Context (h : LatencyHistogram) (m : Z) (G : geom h m).

(** The bucket of a value: its binary exponent above the linear range. *)
Definition bucket (v : Z) : Z := Z.max 0 (Z.log2 v - m).

Lemma bucket_index_spec v : 0 <= v -> get_bucket_index h v = bucket v.
Proof.
  intros Hv. unfold get_bucket_index, clz64, bucket. destruct G.
  rewrite ge_base0, ge_mask0. assert (0 < 2 ^ (m + 1)) by (apply Z.pow_pos_nonneg; lia).
  rewrite Z.log2_lor by (rewrite ?Z.ones_equiv; lia).
  assert (Z.log2 (Z.ones (m + 1)) = m) as ->.
  { rewrite Z.ones_equiv, Z.log2_pred_pow2 by lia. lia. }
  lia.
Qed.

Lemma sub_index_spec v : get_sub_bucket_index h v (bucket v) = v / 2 ^ bucket v.
Proof.
  unfold get_sub_bucket_index. rewrite (ge_unit _ _ G), Z.add_0_r.
  apply Z.shiftr_div_pow2. unfold bucket. lia.
Qed.

(** The sub-bucket of a value: below [2^(m+1)], and at least [2^m] outside the linear range. *)
Lemma sub_range v :
  1 <= v ->
  0 <= v / 2 ^ bucket v < 2 ^ (m + 1) /\ (0 < bucket v -> 2 ^ m <= v / 2 ^ bucket v).
Proof.
  intros Hv. pose proof (ge_m _ _ G) as Hm. pose proof (Z.log2_spec v) as [L1 L2]; [lia|].
  assert (0 <= bucket v) by (unfold bucket; lia).
  assert (0 < 2 ^ bucket v) by (apply Z.pow_pos_nonneg; lia).
  split; [split|].
  - apply Z.div_pos; lia.
  - apply Z.div_lt_upper_bound; [lia|]. rewrite <- Z.pow_add_r by lia.
    eapply Z.lt_le_trans; [exact L2|]. apply Z.pow_le_mono_r; unfold bucket; lia.
  - intros Hb. apply Z.div_le_lower_bound; [lia|]. rewrite <- Z.pow_add_r by lia.
    etrans; [|exact L1]. apply Z.pow_le_mono_r; unfold bucket in *; lia.
Qed.

Definition idx (v : Z) : Z := bucket v * 2 ^ m + v / 2 ^ bucket v.

Lemma counts_index_spec v : 1 <= v -> counts_index_for h v = idx v.
Proof.
  intros Hv. unfold counts_index_for. rewrite bucket_index_spec by lia.
  rewrite sub_index_spec. unfold counts_index, idx. rewrite (ge_mag _ _ G), (ge_half _ _ G).
  pose proof (ge_m _ _ G). rewrite Z.shiftl_mul_pow2 by lia. lia.
Qed.

Lemma pow_m_pos : 0 < 2 ^ m.
Proof. apply Z.pow_pos_nonneg; [lia|]. apply G. Qed.

Lemma bucket_mono v w : v <= w -> bucket v <= bucket w.
Proof. intros H. unfold bucket. pose proof (Z.log2_le_mono v w H). lia. Qed.

(** Larger values do not have smaller indices. *)
Lemma idx_mono v w : 1 <= v -> v <= w -> idx v <= idx w.
Proof.
  intros Hv Hw. unfold idx. pose proof pow_m_pos. pose proof (ge_m _ _ G).
  destruct (decide (bucket v = bucket w)) as [->|Hne].
  - assert (0 < 2 ^ bucket w) by (apply Z.pow_pos_nonneg; unfold bucket; lia).
    pose proof (Z.div_le_mono v w (2 ^ bucket w)). lia.
  - pose proof (bucket_mono v w Hw). destruct (sub_range v Hv) as [[_ S1] _].
    destruct (sub_range w) as [_ S2]; [lia|].
    assert (2 ^ m <= w / 2 ^ bucket w) by (apply S2; unfold bucket in *; lia).
    rewrite Z.pow_add_r in S1 by lia. change (2 ^ 1) with 2 in S1. nia.
Qed.

Lemma idx_range v : 1 <= v <= highest_ h -> 0 <= idx v < counts_len_ h.
Proof.
  intros Hv. pose proof pow_m_pos. pose proof (ge_m _ _ G). destruct (ge_buckets _ _ G) as (B1 & B2 & B3).
  destruct (sub_range v) as [[S1 S2] _]; [lia|]. rewrite (ge_len _ _ G).
  assert (bucket v <= bucket_count_ h - 1) as Hb.
  { unfold bucket. assert (Z.log2 v < m + bucket_count_ h); [|lia]. apply Z.log2_lt_pow2; lia. }
  assert (0 <= bucket v) by (unfold bucket; lia).
  rewrite Z.pow_add_r in S2 by lia. change (2 ^ 1) with 2 in S2. unfold idx. nia.
Qed.

(** ** Equivalent values *)

Definition low (v : Z) : Z := (v / 2 ^ bucket v) * 2 ^ bucket v.
Definition high (v : Z) : Z := low v + 2 ^ bucket v - 1.

Lemma low_high v : 1 <= v -> low v <= v <= high v.
Proof.
  intros Hv. unfold high, low. assert (0 < 2 ^ bucket v) by (apply Z.pow_pos_nonneg; unfold bucket; lia).
  pose proof (Z.div_mod v (2 ^ bucket v)). pose proof (Z.mod_pos_bound v (2 ^ bucket v)). lia.
Qed.

(** The width of a value's class: within [2^-m] of the value. *)
Lemma class_width v : 1 <= v -> (high v - low v) * 2 ^ m <= v.
Proof.
  intros Hv. unfold high. pose proof pow_m_pos. destruct (decide (0 < bucket v)) as [Hb|Hb].
  - pose proof (low_high v Hv) as [Hl _]. destruct (sub_range v Hv) as [_ S]. specialize (S Hb).
    unfold low in *. assert (0 < 2 ^ bucket v) by (apply Z.pow_pos_nonneg; lia). nia.
  - replace (bucket v) with 0 by (unfold bucket in *; lia). cbn. lia.
Qed.

(** The bottom of a class is in the class. *)
Lemma low_class v :
  1 <= v -> 1 <= low v /\ bucket (low v) = bucket v /\ low (low v) = low v.
Proof.
  intros Hv. pose proof (ge_m _ _ G).
  assert (1 <= low v /\ bucket (low v) = bucket v) as [H1 Hb].
  { destruct (decide (0 < bucket v)) as [Hb|Hb].
    - destruct (sub_range v Hv) as [_ S]. specialize (S Hb).
      assert (0 < 2 ^ bucket v) by (apply Z.pow_pos_nonneg; lia).
      assert (2 ^ (m + bucket v) <= low v) as Hl
        by (rewrite Z.pow_add_r by lia; unfold low; apply Z.mul_le_mono_nonneg_r; lia).
      assert (0 < 2 ^ (m + bucket v)) by (apply Z.pow_pos_nonneg; lia). split; [lia|].
      assert (m + bucket v <= Z.log2 (low v)) by (apply Z.log2_le_pow2; lia).
      pose proof (Z.log2_le_mono (low v) v (proj1 (low_high v Hv))). unfold bucket in *. lia.
    - assert (low v = v) as E.
      { unfold low. replace (bucket v) with 0 by (unfold bucket in *; lia). cbn [Z.pow].
        rewrite Z.div_1_r. lia. }
      rewrite E. done. }
  split; [done|]. split; [done|]. unfold low at 1. rewrite Hb. unfold low.
  rewrite Z.div_mul; [done|]. assert (0 < 2 ^ bucket v) by (apply Z.pow_pos_nonneg; unfold bucket; lia). lia.
Qed.

Lemma high_bound v : 1 <= v < 2 ^ 64 -> high v < 2 ^ 64.
Proof.
  intros Hv. destruct (decide (0 < bucket v)) as [Hb|Hb].
  - pose proof (ge_m _ _ G). destruct (sub_range v) as [[_ S] _]; [lia|].
    assert (m + 1 + bucket v <= 64) as Hmb.
    { unfold bucket in *. assert (Z.log2 v < 64) by (apply Z.log2_lt_pow2; lia). lia. }
    unfold high, low. assert (0 < 2 ^ bucket v) by (apply Z.pow_pos_nonneg; lia).
    assert ((v / 2 ^ bucket v + 1) * 2 ^ bucket v <= 2 ^ (m + 1) * 2 ^ bucket v)
      by (apply Z.mul_le_mono_nonneg_r; lia).
    rewrite <- Z.pow_add_r in * by lia.
    assert (2 ^ (m + 1 + bucket v) <= 2 ^ 64) by (apply Z.pow_le_mono_r; lia). lia.
  - unfold high, low. replace (bucket v) with 0 by (unfold bucket in *; lia). cbn [Z.pow].
    rewrite Z.div_1_r. lia.
Qed.

Lemma lowest_spec v : 1 <= v < 2 ^ 64 -> lowest_equivalent h v = low v.
Proof.
  intros Hv. unfold lowest_equivalent. rewrite bucket_index_spec by lia. rewrite sub_index_spec.
  unfold value_from_sub. rewrite (ge_unit _ _ G), Z.add_0_r.
  assert (0 <= bucket v) by (unfold bucket; lia). rewrite Z.shiftl_mul_pow2 by done.
  pose proof (low_high v) as Hl. unfold u64. apply wrap_small. unfold in_u. fold (low v).
  destruct (sub_range v) as [[? _] _]; [lia|].
  split; [unfold low; apply Z.mul_nonneg_nonneg; [done|lia]|lia].
Qed.

Lemma highest_spec v : 1 <= v < 2 ^ 64 -> highest_equivalent h v = high v.
Proof.
  intros Hv. unfold highest_equivalent. rewrite lowest_spec by done.
  unfold size_of_equivalent_range. rewrite (ge_unit _ _ G), bucket_index_spec by lia.
  cbn [Z.add]. rewrite Z.shiftl_1_l. unfold u64.
  rewrite wrap_add_r, wrap_sub_l.
  replace (low v + 2 ^ bucket v - 1) with (high v) by (unfold high; lia).
  apply wrap_small. unfold in_u. pose proof (high_bound v Hv). pose proof (low_high v). lia.
Qed.
End Geometry.

(** ** The histogram of a list of samples *)

Definition cnt (P : Z -> bool) (vs : list Z) : Z := Z.of_nat (length (List.filter P vs)).

Definition sum_list (vs : list Z) : Z := foldr Z.add 0 vs.

(** [vs] are the recorded (clamped) values. *)
Record hist_ok (h : LatencyHistogram) (m : Z) (vs : list Z) : Prop := {
  ho_geom : geom h m;
  ho_len : Z.of_nat (length (counts_ h)) = counts_len_ h;
  ho_vals v : v ∈ vs -> 1 <= v <= highest_ h;
  ho_counts i c : counts_ h !! i = Some c -> c = cnt (fun v => idx m v =? Z.of_nat i) vs;
  ho_bound : Z.of_nat (length vs) < 2 ^ 64;
  ho_total : total_count_ h = Z.of_nat (length vs);
  ho_sum : sum_ h = u64 (sum_list vs);
  ho_min : min_ h = foldr Z.min u64_max vs;
  ho_max : max_ h = foldr Z.max 0 vs }.

Lemma cnt_cons P v vs : cnt P (v :: vs) = (if P v then 1 else 0) + cnt P vs.
Proof. unfold cnt. cbn. destruct (P v); cbn [length]; lia. Qed.

Lemma cnt_le P vs : 0 <= cnt P vs <= Z.of_nat (length vs).
Proof. induction vs as [|v vs IH]; [done|]. rewrite cnt_cons. cbn [length]. destruct (P v); lia. Qed.

Lemma cnt_mono (P Q : Z -> bool) vs :
  (forall v, v ∈ vs -> P v = true -> Q v = true) -> cnt P vs <= cnt Q vs.
Proof.
  induction vs as [|v vs IH]; intros H; [done|]. rewrite !cnt_cons.
  assert (cnt P vs <= cnt Q vs) by (apply IH; intros; apply H; [by right|done]).
  pose proof (H v ltac:(by left)). destruct (P v), (Q v); lia.
Qed.

Lemma cnt_split (P Q R : Z -> bool) vs :
  (forall v, (if R v then 1 else 0) = (if P v then 1 else 0) + (if Q v then 1 else 0) :> Z) ->
  cnt R vs = cnt P vs + cnt Q vs.
Proof.
  intros H. induction vs as [|v vs IH]; [done|]. rewrite !cnt_cons, H, IH. lia.
Qed.

Lemma cnt_pos P vs : 0 < cnt P vs -> exists v, v ∈ vs /\ P v = true.
Proof.
  induction vs as [|v vs IH]; [done|]. rewrite cnt_cons. destruct (P v) eqn:E.
  - intros _. exists v. split; [by left|done].
  - intros H. destruct IH as (x & ? & ?); [lia|]. exists x. split; [by right|done].
Qed.

Lemma cnt_all P vs : (forall v, v ∈ vs -> P v = true) -> cnt P vs = Z.of_nat (length vs).
Proof.
  induction vs as [|v vs IH]; intros H; [done|]. rewrite cnt_cons, H by by left.
  rewrite IH by (intros; apply H; by right). cbn [length]. lia.
Qed.

Lemma init_hist_ok highest sig :
  in_u 64 highest -> (sig <= 5)%nat ->
  exists h m, init highest sig = Some h /\ hist_ok h m [] /\ 10 ^ Z.of_nat sig <= 2 ^ m /\
    highest_ h = Z.max 2 highest.
Proof.
  intros Hh Hs. destruct (init_ok highest sig Hh Hs) as (h & m & E & G & Hm & Hhi & Hc & Ht & Hsu & Hmi & Hma).
  exists h, m. split; [done|]. split; [|done].
  assert (0 <= counts_len_ h).
  { rewrite (ge_len _ _ G). pose proof (pow_m_pos h m G). pose proof (ge_buckets _ _ G). nia. }
  split; try done.
  - rewrite Hc, length_replicate. lia.
  - by intros v ?%elem_of_nil.
  - intros i c. rewrite Hc. by intros [-> _]%lookup_replicate.
Qed.

Lemma clamp_range h m v : geom h m -> 1 <= clamp_value h v <= highest_ h.
Proof.
  intros G. pose proof (ge_highest _ _ G). unfold clamp_value.
  destruct (decide (v < 1)); case_decide; lia.
Qed.

Lemma record_ok h m vs x :
  hist_ok h m vs -> Z.of_nat (length vs) + 1 < 2 ^ 64 ->
  exists h', record x h = Some h' /\ hist_ok h' m (clamp_value h x :: vs) /\ highest_ h' = highest_ h.
Proof.
  intros [G Hlen Hv Hc Hb Ht Hs Hmi Hma] Hb'. pose proof (clamp_range h m x G) as Hx.
  unfold record. set (v := clamp_value h x) in *.
  pose proof (idx_range h m G v Hx) as Hi. rewrite (counts_index_spec h m G) by lia.
  destruct (proj2 (vget_is_Some (counts_ h) (idx m v))) as [c Ec]; [lia|].
  rewrite Ec. cbn [mbind option_bind]. rewrite vset_in by lia. cbn [mbind option_bind].
  eexists. split; [done|]. split; [|done].
  apply vget_Some in Ec as [_ Ec].
  split; cbn -[Z.pow]; try done.
  - destruct G. by split.
  - by rewrite length_insert.
  - intros w [->|Hw]%elem_of_cons; [done|auto].
  - intros i c' Hi'. rewrite cnt_cons. destruct (decide (Z.to_nat (idx m v) = i)) as [<-|Hne].
    + rewrite list_lookup_insert_eq in Hi' by by eapply lookup_lt_Some.
      injection Hi' as <-. rewrite (Hc _ _ Ec). rewrite Z2Nat.id by lia. rewrite Z.eqb_refl.
      pose proof (cnt_le (fun v0 => idx m v0 =? idx m v) vs).
      unfold u64. rewrite wrap_small; [lia|unfold in_u; lia].
    + rewrite list_lookup_insert_ne in Hi' by done. rewrite (Hc _ _ Hi').
      destruct (Z.eqb_spec (idx m v) (Z.of_nat i)) as [E|E]; [|lia]. exfalso. lia.
  - cbn [length]. lia.
  - rewrite Ht. unfold u64. rewrite wrap_small; [cbn [length]; lia|unfold in_u; lia].
  - rewrite Hs. unfold u64. rewrite wrap_add_l. f_equal. unfold sum_list. lia.
  - rewrite Hmi. case_decide; lia.
  - rewrite Hma. case_decide; lia.
Qed.

(** A histogram of the right shape, whatever it counts. *)
Definition hist_shape (h : LatencyHistogram) : Prop :=
  exists m, geom h m /\ Z.of_nat (length (counts_ h)) = counts_len_ h.

Lemma record_total h x : hist_shape h -> exists h', record x h = Some h' /\ hist_shape h'.
Proof.
  intros (m & G & Hlen). pose proof (clamp_range h m x G) as Hx.
  unfold record. set (v := clamp_value h x) in *.
  pose proof (idx_range h m G v Hx) as Hi. rewrite (counts_index_spec h m G) by lia.
  destruct (proj2 (vget_is_Some (counts_ h) (idx m v))) as [c Ec]; [lia|].
  rewrite Ec. cbn [mbind option_bind]. rewrite vset_in by lia. cbn [mbind option_bind].
  eexists. split; [done|]. exists m. split; [by destruct G|]. cbn. by rewrite length_insert.
Qed.

Definition record_all (xs : list Z) (h : LatencyHistogram) : option LatencyHistogram :=
  iterM record xs h.

Lemma record_all_ok xs h m vs :
  hist_ok h m vs -> Z.of_nat (length vs) + Z.of_nat (length xs) < 2 ^ 64 ->
  exists h', record_all xs h = Some h' /\
    hist_ok h' m (reverse (clamp_value h <$> xs) ++ vs) /\ highest_ h' = highest_ h.
Proof.
  revert h vs. induction xs as [|x xs IH]; intros h vs H Hb; [by exists h|].
  cbn [length] in Hb. destruct (record_ok h m vs x H) as (h1 & E & H1 & Hh1); [lia|].
  destruct (IH h1 _ H1) as (h2 & E2 & H2 & Hh2); [cbn [length]; lia|].
  exists h2. unfold record_all. cbn [iterM]. rewrite E. cbn [mbind option_bind].
  split; [done|]. rewrite fmap_cons, reverse_cons, <- app_assoc. split; [|congruence].
  replace (clamp_value h1 <$> xs) with (clamp_value h <$> xs) in H2; [done|].
  apply list_fmap_ext. intros _ y _. unfold clamp_value. by rewrite Hh1.
Qed.

(** ** Percentiles *)

Section Percentile.
Context (h : LatencyHistogram) (m : Z) (vs : list Z) (H : hist_ok h m vs).

(** Samples in the first [i] classes. *)
Definition below (i : Z) : Z := cnt (fun v => idx m v <? i) vs.

Lemma below_next i c :
  counts_ h !! i = Some c -> below (Z.of_nat i + 1) = below (Z.of_nat i) + c.
Proof.
  intros Hc. rewrite (ho_counts _ _ _ H i c Hc). apply cnt_split. intros v.
  destruct (Z.ltb_spec (idx m v) (Z.of_nat i + 1)), (Z.ltb_spec (idx m v) (Z.of_nat i)),
    (Z.eqb_spec (idx m v) (Z.of_nat i)); lia.
Qed.

Lemma below_all : below (counts_len_ h) = Z.of_nat (length vs).
Proof.
  apply cnt_all. intros v Hv. apply Z.ltb_lt.
  destruct (idx_range h m (ho_geom _ _ _ H) v); [by apply (ho_vals _ _ _ H)|done].
Qed.

Lemma scan_counts_ok cs i target :
  drop i (counts_ h) = cs -> (i <= length (counts_ h))%nat ->
  below (Z.of_nat i) < target <= Z.of_nat (length vs) ->
  exists j, scan_counts cs (Z.of_nat i) (below (Z.of_nat i)) target = Some j /\
    0 <= j < counts_len_ h /\ below j < target <= below (j + 1).
Proof.
  revert i. induction cs as [|c cs IH]; intros i Hd Hi Ht.
  { apply (f_equal length) in Hd. rewrite length_drop in Hd. cbn in Hd.
    replace (Z.of_nat i) with (counts_len_ h) in Ht by (rewrite <- (ho_len _ _ _ H); lia).
    rewrite below_all in Ht. lia. }
  cbn [scan_counts].
  assert (counts_ h !! i = Some c) as Hc.
  { rewrite <- (Nat.add_0_r i), <- lookup_drop, Hd. done. }
  pose proof (below_next i c Hc) as Hn.
  assert (0 <= below (Z.of_nat i + 1) < 2 ^ 64) as Hr.
  { pose proof (cnt_le (fun v => idx m v <? Z.of_nat i + 1) vs). pose proof (ho_bound _ _ _ H).
    unfold below. lia. }
  rewrite <- Hn. unfold u64. rewrite wrap_small by exact Hr. case_decide as Hge.
  - exists (Z.of_nat i). split; [done|]. split; [|lia].
    rewrite <- (ho_len _ _ _ H). apply lookup_lt_Some in Hc. lia.
  - replace (Z.of_nat i + 1) with (Z.of_nat (S i)) in * by lia.
    apply IH; [|by apply lookup_lt_Some in Hc|lia].
    rewrite (drop_S _ _ _ Hc) in Hd. by simplify_eq.
Qed.

(** The class of an index that holds a sample. *)
Lemma value_from_index_spec v :
  1 <= v <= highest_ h -> value_from_index h (idx m v) = low m v.
Proof.
  intros Hv. pose proof (ho_geom _ _ _ H) as G. pose proof (ge_m _ _ G). pose proof (pow_m_pos h m G).
  pose proof (ge_highest _ _ G).
  destruct (sub_range h m G v) as [[S1 S2] S3]; [lia|].
  rewrite Z.pow_add_r in S2 by lia. change (2 ^ 1) with 2 in S2.
  assert (0 <= bucket m v) as Hb by (unfold bucket; lia).
  unfold value_from_index. rewrite (ge_mag _ _ G), (ge_half _ _ G).
  replace (2 ^ m - 1) with (Z.ones m) by (rewrite Z.ones_equiv; lia).
  rewrite Z.shiftr_div_pow2, Z.land_ones by lia.
  assert (forall b s, 0 <= b -> 0 <= s -> b = bucket m v -> s = v / 2 ^ bucket m v ->
    value_from_sub h b s = low m v) as Hval.
  { intros b s _ _ -> ->. unfold value_from_sub. rewrite (ge_unit _ _ G), Z.add_0_r.
    rewrite Z.shiftl_mul_pow2 by done. fold (low m v). apply wrap_small.
    pose proof (low_high m v) as Hl. unfold in_u. split; [|lia].
    unfold low. apply Z.mul_nonneg_nonneg; lia. }
  unfold idx. destruct (decide (v / 2 ^ bucket m v < 2 ^ m)) as [Hlin|Hlin].
  - assert (bucket m v = 0) as E by (destruct (decide (0 < bucket m v)); [specialize (S3 ltac:(done)); lia|lia]).
    rewrite decide_True.
    + assert ((bucket m v * 2 ^ m + v / 2 ^ bucket m v) mod 2 ^ m + 2 ^ m - 2 ^ m =
        v / 2 ^ bucket m v) as ->; [|apply Hval; lia].
      rewrite E in *. rewrite Z.mul_0_l, Z.add_0_l, Z.mod_small by lia. lia.
    + rewrite E, Z.mul_0_l, Z.add_0_l. rewrite E in *. rewrite Z.div_small by lia. lia.
  - set (s := v / 2 ^ bucket m v) in *.
    assert ((bucket m v * 2 ^ m + s) / 2 ^ m = bucket m v + 1) as Ed.
    { symmetry. apply Z.div_unique with (s - 2 ^ m); lia. }
    assert ((bucket m v * 2 ^ m + s) mod 2 ^ m = s - 2 ^ m) as Em.
    { symmetry. apply Z.mod_unique with (bucket m v + 1); lia. }
    rewrite Ed, Em, decide_False by lia. apply Hval; lia.
Qed.

(** The value with a given rank: the top of the class of a sample. *)
Lemma value_at_rank_ok target :
  1 <= target <= Z.of_nat (length vs) ->
  exists x, x ∈ vs /\ value_at_rank h target = high m x /\
    cnt (fun v => v <? low m x) vs < target <= cnt (fun v => v <=? high m x) vs.
Proof.
  intros Ht. pose proof (ho_geom _ _ _ H) as G.
  assert (below 0 = 0) as H0.
  { unfold below. apply Z.le_antisymm; [|apply cnt_le].
    transitivity (cnt (fun _ => false) vs); [|clear; induction vs as [|v l IH]; [done|by rewrite cnt_cons]].
    apply cnt_mono. intros v Hv Hlt%Z.ltb_lt.
    pose proof (idx_range h m G v (ho_vals _ _ _ H v Hv)). lia. }
  destruct (scan_counts_ok (counts_ h) 0 target) as (j & E & Hj & Hlo & Hhi);
    [done|lia|change (Z.of_nat 0) with 0; rewrite H0; lia|].
  change (Z.of_nat 0) with 0 in E. rewrite H0 in E. unfold value_at_rank. rewrite E.
  destruct (lookup_lt_is_Some_2 (counts_ h) (Z.to_nat j)) as [c Hc].
  { pose proof (ho_len _ _ _ H). lia. }
  pose proof (below_next _ _ Hc) as Hn. rewrite Z2Nat.id in Hn by lia.
  rewrite (ho_counts _ _ _ H _ _ Hc) in Hn. rewrite Z2Nat.id in Hn by lia.
  destruct (cnt_pos (fun v => idx m v =? j) vs) as (x & Hx & Ej%Z.eqb_eq); [lia|].
  pose proof (ho_vals _ _ _ H x Hx) as Hxr. pose proof (ge_highest _ _ G).
  exists x. split; [done|]. subst j. rewrite (value_from_index_spec x Hxr).
  destruct (low_class h m G x) as (Hl1 & Eb & El); [lia|].
  pose proof (low_high m x) as Hlh. rewrite (highest_spec h m G) by lia.
  assert (high m (low m x) = high m x) as Eh by (unfold high; by rewrite El, Eb).
  split; [exact Eh|]. split.
  - eapply Z.le_lt_trans; [|exact Hlo]. apply cnt_mono. intros v Hv Hlt%Z.ltb_lt.
    pose proof (ho_vals _ _ _ H v Hv) as Hvr. apply Z.ltb_lt.
    pose proof (idx_mono h m G v x ltac:(lia) ltac:(lia)).
    destruct (decide (idx m v = idx m x)) as [Ei|]; [|lia].
    pose proof (value_from_index_spec v Hvr) as Ev.
    rewrite Ei, (value_from_index_spec x Hxr) in Ev. pose proof (low_high m v ltac:(lia)). lia.
  - etrans; [exact Hhi|]. apply cnt_mono. intros v Hv Hlt%Z.ltb_lt.
    pose proof (ho_vals _ _ _ H v Hv) as Hvr. apply Z.leb_le.
    destruct (decide (idx m v = idx m x)) as [Ei|].
    + pose proof (value_from_index_spec v Hvr) as Ev.
      rewrite Ei, (value_from_index_spec x Hxr) in Ev.
      destruct (low_class h m G v) as (_ & Ebv & Elv); [lia|].
      pose proof (low_high m v ltac:(lia)). unfold high in *. rewrite <- Ebv, <- Ev, Eb in *. lia.
    + destruct (decide (v <= x)); [lia|]. pose proof (idx_mono h m G x v ltac:(lia) ltac:(lia)). lia.
Qed.
End Percentile.

(** ** Theorems *)

Lemma percentile_target_range p total : 1 <= total -> 1 <= percentile_target p total <= total.
Proof. intros Ht. unfold percentile_target. repeat case_decide; lia. Qed.

Lemma reset_hist_ok h m vs : hist_ok h m vs -> hist_ok (reset h) m [].
Proof.
  intros [G Hlen _ _ _ _ _ _ _]. pose proof (pow_m_pos h m G) as Hp. pose proof (ge_buckets _ _ G) as Hb.
  pose proof (ge_len _ _ G) as Hl. assert (0 <= counts_len_ h) by (rewrite Hl; nia).
  split; try done.
  - by destruct G.
  - cbn. rewrite length_replicate. lia.
  - intros v ?%elem_of_nil. done.
  - intros i c [-> _]%lookup_replicate. done.
Qed.

(** Recording.  For every configuration of the constructor and every
    sequence of values the writes stay inside [counts_], nothing is lost, and
    the counters are those of the clamped values: every class counts its
    samples, with the total, the wrapped sum, the minimum and the maximum. *)
Theorem histogram_records highest sig xs :
  in_u 64 highest -> (sig <= 5)%nat -> Z.of_nat (length xs) < 2 ^ 64 ->
  exists h0 h m, init highest sig = Some h0 /\ record_all xs h0 = Some h /\
    let vs := reverse (clamp_value h0 <$> xs) in
    total_count_ h = Z.of_nat (length xs) /\ sum_ h = u64 (sum_list vs) /\
    min_ h = foldr Z.min u64_max vs /\ max_ h = foldr Z.max 0 vs /\
    (forall i c, counts_ h !! i = Some c ->
      c = cnt (fun v => idx m v =? Z.of_nat i) vs).
Proof.
  intros Hh Hs Hx. destruct (init_hist_ok highest sig Hh Hs) as (h0 & m & E0 & H0 & _).
  destruct (record_all_ok xs h0 m [] H0) as (h & E & H & _); [cbn; lia|].
  rewrite app_nil_r in H. exists h0, h, m. split; [done|]. split; [done|]. destruct H.
  rewrite ho_total0, length_reverse, length_fmap. done.
Qed.

Lemma histogram_records_witness :
  exists h0 h, init 60000000000 3 = Some h0 /\ record_all [100; 5000; 7; 5001] h0 = Some h /\
    total_count_ h = 4.
Proof.
  destruct (histogram_records 60000000000 3 [100; 5000; 7; 5001]) as (h0 & h & m & E0 & E & T & _).
  - split; [discriminate|reflexivity].
  - lia.
  - reflexivity.
  - exists h0, h. exact (conj E0 (conj E T)).
Defined.

(** Resolution.  Every trackable value lies in its class, its index is
    inside [counts_], and the class is no wider than the value divided by
    [10^sig]: values are told apart to [sig] significant figures. *)
Theorem histogram_resolution highest sig v :
  in_u 64 highest -> (sig <= 5)%nat -> 1 <= v <= Z.max 2 highest ->
  exists h, init highest sig = Some h /\
    0 <= counts_index_for h v < counts_len_ h /\
    lowest_equivalent h v <= v <= highest_equivalent h v /\
    (highest_equivalent h v - lowest_equivalent h v) * 10 ^ Z.of_nat sig <= v /\
    value_from_index h (counts_index_for h v) = lowest_equivalent h v.
Proof.
  intros Hh Hs Hv. destruct (init_hist_ok highest sig Hh Hs) as (h & m & E & H & Hm & Hhi).
  pose proof (ho_geom _ _ _ H) as G. pose proof (ge_highest _ _ G). exists h. split; [done|].
  rewrite (counts_index_spec h m G) by lia. rewrite (lowest_spec h m G), (highest_spec h m G) by lia.
  split; [apply (idx_range h m G); lia|]. split; [apply low_high; lia|]. split.
  - pose proof (class_width h m G v ltac:(lia)). pose proof (low_high m v ltac:(lia)). nia.
  - apply (value_from_index_spec h m [] H). lia.
Qed.

Lemma histogram_resolution_witness :
  exists h, init 60000000000 3 = Some h /\ lowest_equivalent h 123456 <= 123456 <= highest_equivalent h 123456.
Proof.
  destruct (histogram_resolution 60000000000 3 123456) as (h & E & _ & L & _).
  - split; [discriminate|reflexivity].
  - lia.
  - vm_compute. split; discriminate.
  - exists h. exact (conj E L).
Defined.

(** C31. Percentiles.  With at least one sample, the value reported for [p] is the
    top of the class of a recorded sample, above it by at most a part in
    [10^sig]; with [t] the rank [p] asks for, fewer than [t] samples are below
    the sample's class and at least [t] are not above it. *)
Theorem histogram_percentile highest sig xs p :
  in_u 64 highest -> (sig <= 5)%nat -> 0 < Z.of_nat (length xs) < 2 ^ 64 ->
  exists h0 h x, init highest sig = Some h0 /\ record_all xs h0 = Some h /\
    let vs := clamp_value h0 <$> xs in
    let t := percentile_target p (Z.of_nat (length xs)) in
    let r := value_at_percentile h p in
    x ∈ vs /\ x <= r /\ (r - x) * 10 ^ Z.of_nat sig <= x /\
    cnt (fun v => v <? lowest_equivalent h x) vs < t <= cnt (fun v => v <=? r) vs.
Proof.
  intros Hh Hs Hx. destruct (init_hist_ok highest sig Hh Hs) as (h0 & m & E0 & H0 & Hm & Hhi0).
  destruct (record_all_ok xs h0 m [] H0) as (h & E & H & Hhi); [cbn; lia|].
  rewrite app_nil_r in H. set (vs := clamp_value h0 <$> xs) in *.
  assert (Z.of_nat (length (reverse vs)) = Z.of_nat (length xs)) as Hlen
    by (unfold vs; by rewrite length_reverse, length_fmap).
  destruct (value_at_rank_ok h m (reverse vs) H (percentile_target p (Z.of_nat (length xs))))
    as (x & Hin & Hr & Hlo & Hup); [rewrite Hlen; apply percentile_target_range; lia|].
  assert (forall P, cnt P (reverse vs) = cnt P vs) as Hrev.
  { intros P. clear. induction vs as [|v vs IH]; [done|]. rewrite reverse_cons, cnt_cons, <- IH.
    unfold cnt. rewrite List.filter_app, length_app. cbn. destruct (P v); cbn; lia. }
  rewrite !Hrev in *. rewrite elem_of_reverse in Hin.
  pose proof (ho_geom _ _ _ H) as G. pose proof (ge_highest _ _ G).
  assert (1 <= x <= highest_ h) as Hxr by (apply (ho_vals _ _ _ H); by rewrite elem_of_reverse).
  assert (value_at_percentile h p = high m x) as Er.
  { unfold value_at_percentile. rewrite (ho_total _ _ _ H), Hlen, decide_False by lia. done. }
  exists h0, h, x. split; [done|]. split; [done|]. cbv zeta. rewrite Er.
  rewrite (lowest_spec h m G) by lia. pose proof (low_high m x ltac:(lia)).
  split; [done|]. split; [lia|]. split; [|done].
  pose proof (class_width h m G x ltac:(lia)). nia.
Qed.

Lemma histogram_percentile_witness :
  exists h0 h x, init 60000000000 3 = Some h0 /\ record_all [100; 5000; 7; 5001] h0 = Some h /\
    x <= value_at_percentile h (f64 50).
Proof.
  destruct (histogram_percentile 60000000000 3 [100; 5000; 7; 5001] (f64 50))
    as (h0 & h & x & E0 & E & _ & L & _).
  - split; [discriminate|reflexivity].
  - lia.
  - split; reflexivity.
  - exists h0, h, x. exact (conj E0 (conj E L)).
Defined.
