(* ===== verification/ItchGen.v ===== *)
(** * The synthetic feed generator

    [tools/itch_gen.cpp]: the message writers, the set of live orders and the
    main loop.  The random engine is an argument: [uni k lo hi] is the value of
    the [k]-th draw of [uniform_int_distribution(lo, hi)], of which only the
    range is used.  The output stream is the list of bytes written. *)

From stdpp Require Import base list gmap numbers.
From S2P Require Import Prelude MarketEvent ByteRead ItchParser FeedSource OrderBook.
From S2P Require Import BookSpec.

Record Live := mkLive { lv_ref : Z; lv_bs : byte; lv_px : Z; lv_sz : Z }.

#[export] Instance Live_settable : Settable Live := fun l =>
  mkLive (lv_ref l) (lv_bs l) (lv_px l) (lv_sz l).

(** [ItchWriter] and the variables of [main]. *)
Record Gen := mkGen {
  g_out : list byte;      (** the bytes written to the stream *)
  g_buf : list byte;      (** [buf_] *)
  g_count : Z;            (** [count_] *)
  g_ts : Z;
  next_ref : Z;
  match_ : Z;
  live : list Live;
  draws : nat }.

#[export] Instance Gen_settable : Settable Gen := fun g =>
  mkGen (g_out g) (g_buf g) (g_count g) (g_ts g) (next_ref g) (match_ g) (live g) (draws g).

Definition kLocate : Z := 1.
Definition kMid : Z := 1000000.
Definition kBand : Z := 50.
Definition kMaxLive : Z := 20000.

Definition gen_new : Gen := mkGen [] (replicate 64 x00) 0 34200000000000 1 1 [] 0.

(** [memcpy(b + off, l, l.size())]. *)
Fixpoint store_bytes (b : list byte) (off : Z) (l : list byte) : option (list byte) :=
  match l with
  | [] => Some b
  | x :: l => b ← b.[off := x]; store_bytes b (off + 1) l
  end.

Section Gen.
Context (uni : nat -> Z -> Z -> Z) (sym : list byte).

Definition draw (lo hi : Z) (g : Gen) : Z * Gen := (uni (draws g) lo hi, g <| draws ::= S |>).

(** [emit]: the length, then [len] bytes of the buffer. *)
Definition emit (len : Z) (g : Gen) : option Gen :=
  hdr ← store_be16 [x00; x00] 0 (u16 len);
  Some (g <| g_out ::= fun o => o ++ hdr ++ take (Z.to_nat len) (g_buf g) |>
          <| g_count ::= fun n => u64 (n + 1) |>).

(** [hdr]: type, locate, tracking number, and the clock moved on. *)
Definition hdr (type : byte) (g : Gen) : option Gen :=
  b ← (g_buf g).[0 := type];
  b ← store_be16 b 1 kLocate;
  b ← store_be16 b 3 0;
  let '(dt, g) := draw 1 1000 g in
  let ts := u64 (g_ts g + dt) in
  b ← store_be48 b 5 ts;
  Some (g <| g_buf := b |> <| g_ts := ts |>).

Definition emit_system (code : byte) (g : Gen) : option Gen :=
  g ← hdr x53 g;
  b ← (g_buf g).[11 := code];
  emit 12 (g <| g_buf := b |>).

Definition emit_add (o : Live) (g : Gen) : option Gen :=
  g ← hdr x41 g;
  b ← store_be64 (g_buf g) 11 (lv_ref o);
  b ← b.[19 := lv_bs o];
  b ← store_be32 b 20 (lv_sz o);
  b ← store_bytes b 24 sym;
  b ← store_be32 b 32 (u32 (lv_px o));
  emit 36 (g <| g_buf := b |>).

Definition emit_exec (ref shares : Z) (g : Gen) : option Gen :=
  g ← hdr x45 g;
  b ← store_be64 (g_buf g) 11 ref;
  b ← store_be32 b 19 shares;
  b ← store_be64 b 23 (match_ g);
  emit 31 (g <| g_buf := b |> <| match_ ::= fun m => u64 (m + 1) |>).

Definition emit_cancel (ref shares : Z) (g : Gen) : option Gen :=
  g ← hdr x58 g;
  b ← store_be64 (g_buf g) 11 ref;
  b ← store_be32 b 19 shares;
  emit 23 (g <| g_buf := b |>).

Definition emit_delete (ref : Z) (g : Gen) : option Gen :=
  g ← hdr x44 g;
  b ← store_be64 (g_buf g) 11 ref;
  emit 19 (g <| g_buf := b |>).

Definition emit_replace (orig neu sz px : Z) (g : Gen) : option Gen :=
  g ← hdr x55 g;
  b ← store_be64 (g_buf g) 11 orig;
  b ← store_be64 b 19 neu;
  b ← store_be32 b 27 sz;
  b ← store_be32 b 31 (u32 px);
  emit 35 (g <| g_buf := b |>).

Definition byte_B : byte := x42.
Definition byte_S : byte := x53.

Definition emit_trade (g : Gen) : option Gen :=
  g ← hdr x50 g;
  b ← store_be64 (g_buf g) 11 0;
  let '(u, g) := draw 0 1 g in
  b ← b.[19 := if decide (u <> 0) then byte_B else byte_S];
  let '(k, g) := draw 1 5 g in
  b ← store_be32 b 20 (u32 (k * 100));
  b ← store_bytes b 24 sym;
  b ← store_be32 b 32 (u32 kMid);
  b ← store_be64 b 36 (match_ g);
  emit 44 (g <| g_buf := b |> <| match_ ::= fun m => u64 (m + 1) |>).

Definition random_price (side : byte) (g : Gen) : Z * Gen :=
  let '(k, g) := draw 0 kBand g in
  (if decide (side = byte_B) then kMid - 1 - k else kMid + 1 + k, g).

Definition do_add (g : Gen) : option Gen :=
  let ref := next_ref g in
  let g := g <| next_ref ::= fun n => u64 (n + 1) |> in
  let '(u, g) := draw 0 1 g in
  let side := if decide (u <> 0) then byte_B else byte_S in
  let '(px, g) := random_price side g in
  let '(k, g) := draw 1 10 g in
  let o := mkLive ref side px (u32 (k * 100)) in
  g ← emit_add o g;
  Some (g <| live ::= fun l => l ++ [o] |>).

(** [live[idx] = live.back(); live.pop_back();] *)
Definition remove_at (idx : Z) (l : list Live) : option (list Live) :=
  x ← l.[Z.of_nat (length l) - 1];
  l ← l.[idx := x];
  Some (take (length l - 1) l).

(** An execution or a cancellation of part of a live order. *)
Definition gen_reduce (emit_reduce : Z -> Z -> Gen -> option Gen) (g : Gen) : option Gen :=
  let '(i, g) := draw 0 (Z.of_nat (length (live g)) - 1) g in
  o ← (live g).[i];
  let '(r, g) := draw 1 (lv_sz o) g in
  let shares := u32 r in
  g ← emit_reduce (lv_ref o) shares g;
  if decide (shares >= lv_sz o) then
    l ← remove_at i (live g);
    Some (g <| live := l |>)
  else
    l ← (live g).[i := o <| lv_sz ::= fun s => u32 (s - shares) |>];
    Some (g <| live := l |>).

Definition gen_delete (g : Gen) : option Gen :=
  let '(i, g) := draw 0 (Z.of_nat (length (live g)) - 1) g in
  o ← (live g).[i];
  g ← emit_delete (lv_ref o) g;
  l ← remove_at i (live g);
  Some (g <| live := l |>).

Definition gen_replace (g : Gen) : option Gen :=
  let '(i, g) := draw 0 (Z.of_nat (length (live g)) - 1) g in
  let neu := next_ref g in
  let g := g <| next_ref ::= fun n => u64 (n + 1) |> in
  o ← (live g).[i];
  let '(px, g) := random_price (lv_bs o) g in
  let '(k, g) := draw 1 10 g in
  let sz := u32 (k * 100) in
  g ← emit_replace (lv_ref o) neu sz px g;
  l ← (live g).[i := mkLive neu (lv_bs o) px sz];
  Some (g <| live := l |>).

(** One turn of the main loop. *)
Definition gen_step (g : Gen) : option Gen :=
  let too_many := decide (Z.of_nat (length (live g)) >= kMaxLive) in
  let too_few := decide (Z.of_nat (length (live g)) < 8) in
  let '(roll, g) := draw 0 99 g in
  let roll := if too_few then 0 else if too_many then 60 else roll in
  if decide (roll < 50) then do_add g
  else if decide (roll < 68) then gen_reduce emit_exec g
  else if decide (roll < 80) then gen_reduce emit_cancel g
  else if decide (roll < 92) then gen_delete g
  else if decide (roll < 99) then gen_replace g
  else emit_trade g.

(** [while (w.count() < messages)]: every turn writes one message. *)
Fixpoint gen_loop (fuel : nat) (messages : Z) (g : Gen) : option Gen :=
  if decide (g_count g < messages) then
    match fuel with O => None | S fuel => g ← gen_step g; gen_loop fuel messages g end
  else Some g.

Definition gen_main (messages : Z) : option Gen :=
  g ← emit_system x4f gen_new;
  g ← gen_loop (Z.to_nat messages) messages g;
  emit_system x43 g.
End Gen.

(** Eight characters, padded with spaces. *)
Definition gen_sym (symbol : list byte) : list byte := take 8 (symbol ++ replicate 8 x20).
