(* ===== verification/ItchGenWrite.v ===== *)
(** * The generator's messages decode

    Every writer of [ItchGen] appends one frame to the file, and the decoder of
    [ItchParser] reads back from it the event that was meant: the encoder side of
    the wire format agrees with the decoder side, field by field. *)

From Stdlib Require Import Strings.Ascii.
From stdpp Require Import base list gmap numbers.
From S2P Require Import Prelude MarketEvent ByteRead ItchParser FeedSource ItchGen.

(** ** Stores into the buffer *)

Lemma vset_store (b : list byte) off x : b.[off := x] = store_be 1 b off (Z_of_byte x).
Proof.
  cbn [store_be]. change (8 * Z.of_nat 0) with 0. rewrite Z.shiftr_0_r.
  unfold store_u8. rewrite byte_of_Z_of_byte. by destruct (b.[off := x]).
Qed.

Lemma store_be_some n p off v :
  0 <= off -> off + Z.of_nat n <= Z.of_nat (length p) ->
  exists p', store_be n p off v = Some p' /\ length p' = length p.
Proof.
  intros H0 Hl. destruct (store_be_is_Some n p off v H0 Hl) as [p' E]. exists p'.
  split; [done|]. by apply store_be_Some in E as [? _].
Qed.

Lemma store_bytes_some l b off :
  0 <= off -> off + Z.of_nat (length l) <= Z.of_nat (length b) ->
  exists b', store_bytes b off l = Some b' /\ length b' = length b /\
    forall i, b'.[i] = if decide (off <= i < off + Z.of_nat (length l))
                       then l !! Z.to_nat (i - off) else b.[i].
Proof.
  revert b off. induction l as [|x l IH]; intros b off H0 Hl; cbn [store_bytes].
  { exists b. split; [done|]. split; [done|]. intros i. cbn. by rewrite decide_False by lia. }
  cbn [length] in Hl. rewrite vset_in by lia. cbn [mbind option_bind].
  set (b1 := <[Z.to_nat off:=x]> b).
  assert (b.[off := x] = Some b1) as E1 by (apply vset_in; lia).
  assert (length b1 = length b) as L1 by by eapply vset_length.
  destruct (IH b1 (off + 1)) as (b' & E & L & H); [lia|lia|].
  exists b'. split; [done|]. split; [lia|]. intros i. rewrite H. cbn [length].
  destruct (decide (off + 1 <= i < off + 1 + Z.of_nat (length l))).
  - rewrite decide_True by lia. replace (Z.to_nat (i - off)) with (S (Z.to_nat (i - (off + 1)))) by lia.
    done.
  - destruct (decide (i = off)) as [->|].
    + rewrite decide_True by lia. rewrite Z.sub_diag. by eapply vget_vset_eq.
    + rewrite decide_False by lia. by eapply vget_vset_ne.
Qed.

(** Reading eight bytes back. *)
Lemma store_bytes_read l b off b' :
  store_bytes b off l = Some b' -> length l = 8%nat -> 0 <= off ->
  off + 8 <= Z.of_nat (length b) -> mapM (fun k => b'.[off + k]) (seqZ 0 8) = Some l.
Proof.
  intros E Hl H0 Hb. destruct (store_bytes_some l b off) as (b2 & E2 & _ & H); [lia|lia|].
  rewrite E in E2. injection E2 as <-.
  apply mapM_Some. apply Forall2_same_length_lookup_2; [by rewrite Hl|].
  intros i k x Hk Hx. apply lookup_seqZ in Hk as [-> Hi]. rewrite H, decide_True by lia.
  replace (Z.to_nat (off + (0 + Z.of_nat i) - off)) with i by lia. done.
Qed.

Lemma load_store_bytes n l b off off' b' acc :
  store_bytes b off' l = Some b' -> 0 <= off' -> off' + Z.of_nat (length l) <= Z.of_nat (length b) ->
  off + Z.of_nat n <= off' \/ off' + Z.of_nat (length l) <= off ->
  load_be n b' off acc = load_be n b off acc.
Proof.
  intros E H0 Hl Hd. destruct (store_bytes_some l b off') as (b2 & E2 & _ & H); [lia|lia|].
  rewrite E in E2. injection E2 as <-. apply load_be_ext. intros i Hi. rewrite H.
  by rewrite decide_False by lia.
Qed.

(** The eight bytes beside a store. *)
Lemma mapM_store_other m p off off' v p' :
  store_be m p off' v = Some p' -> off + 8 <= off' \/ off' + Z.of_nat m <= off ->
  mapM (fun k => p'.[off + k]) (seqZ 0 8) = mapM (fun k => p.[off + k]) (seqZ 0 8).
Proof.
  intros [_ Hg]%store_be_Some Hd. apply mapM_bytes_ext. intros i Hi. rewrite Hg.
  by rewrite decide_False by lia.
Qed.

(** ** Frames *)

(** From [g] to [g'] one frame that decodes to [ev] was written. *)
Record wrote (g g' : Gen) (ev : MarketEvent) : Prop := {
  wr_frame : exists p, g_out g' = g_out g ++ frame_bytes p /\ Z.of_nat (length p) < 65536 /\
    parse p (Z.of_nat (length p)) event0 = Some (Ok, ev);
  wr_count : g_count g' = u64 (g_count g + 1);
  wr_buf : length (g_buf g') = 64%nat;
  wr_ref : next_ref g' = next_ref g;
  wr_live : live g' = live g }.

Lemma emit_ok len g ev :
  0 <= len <= 64 -> length (g_buf g) = 64%nat -> parse (g_buf g) len event0 = Some (Ok, ev) ->
  exists g', emit len g = Some g' /\ wrote g g' ev /\ g_ts g' = g_ts g /\ match_ g' = match_ g.
Proof.
  intros Hl Hb Hp. unfold emit.
  assert (exists h, store_be16 [x00; x00] 0 (u16 len) = Some h /\
    h ++ take (Z.to_nat len) (g_buf g) = frame_bytes (take (Z.to_nat len) (g_buf g))) as (h & Eh & Ef).
  { unfold frame_bytes. rewrite length_take, Hb, Nat.min_l by lia. rewrite Z2Nat.id by lia.
    unfold u16. rewrite wrap_small by (unfold in_u; lia). eexists. split; [reflexivity|]. done. }
  rewrite Eh. cbn [mbind option_bind]. eexists. split; [done|]. split; [|done].
  split; try done. exists (take (Z.to_nat len) (g_buf g)). cbn [g_out rset]. rewrite <- Ef.
  split; [done|]. rewrite length_take, Hb, Nat.min_l, Z2Nat.id by lia. split; [lia|].
  rewrite <- Hp. apply parse_ext; [|lia]. intros i Hi. unfold vget. case_decide; [|done].
  rewrite lookup_take_lt; [done|lia].
Qed.

Lemma wrote_from g g1 g' ev :
  g_out g1 = g_out g -> g_count g1 = g_count g -> next_ref g1 = next_ref g -> live g1 = live g ->
  wrote g1 g' ev -> wrote g g' ev.
Proof. intros Ho Hc Hr Hl []. split; congruence || (by rewrite <- Ho). Qed.

(** The event with what every header holds. *)
Definition stamped (ts : Z) : MarketEvent :=
  event0 <| ev_stock_locate := kLocate |> <| ev_timestamp_ns := wrap 48 ts |>.

Lemma decode_side_B : decode_side (wrap 8 (Z_of_byte byte_B)) = Buy.
Proof. reflexivity. Qed.
Lemma decode_side_S : decode_side (wrap 8 (Z_of_byte byte_S)) = Sell.
Proof. reflexivity. Qed.

(** A buffer with a header. *)
Record headed (b : list byte) (type : byte) (ts : Z) : Prop := {
  hd_len : length b = 64%nat;
  hd_type : load_be 1 b 0 0 = Some (Z_of_byte type);
  hd_loc : load_be 2 b 1 0 = Some kLocate;
  hd_ts : load_be 6 b 5 0 = Some (wrap 48 ts) }.

Lemma headed_store n b off v b' type ts :
  headed b type ts -> store_be n b off v = Some b' -> 11 <= off -> headed b' type ts.
Proof.
  intros [] E Ho. pose proof (store_be_Some _ _ _ _ _ E) as [Hl _].
  split; [congruence| | |];
    match goal with |- load_be ?k _ ?o _ = _ => rewrite (load_store_other k n b o off v b' 0 E) by lia end;
    done.
Qed.

Lemma headed_bytes l b off b' type ts :
  headed b type ts -> store_bytes b off l = Some b' -> length l = 8%nat -> 11 <= off <= 56 ->
  headed b' type ts.
Proof.
  intros [] E Hl Ho. destruct (store_bytes_some l b off) as (b2 & E2 & Hl2 & _); [lia|lia|].
  rewrite E in E2. injection E2 as <-.
  split; [congruence| | |];
    match goal with |- load_be ?k _ ?o _ = _ =>
      rewrite (load_store_bytes k l b o off b' 0 E) by lia end; done.
Qed.

Lemma parse_headed b type ts len ev :
  headed b type ts -> message_length (ascii_of_byte type) = len -> len <> 0 ->
  parse_body (ascii_of_byte type) b (stamped ts) = Some ev ->
  parse b len event0 = Some (Ok, ev).
Proof.
  intros [] Hn H0 Hb. unfold parse. rewrite decide_False by done.
  rewrite load_u8_spec, hd_type0. cbn [mbind option_bind]. unfold char_of.
  rewrite byte_of_Z_of_byte, Hn. rewrite !decide_False by lia.
  unfold decode_header. autorewrite with be. rewrite hd_loc0. cbn [mbind option_bind].
  rewrite hd_ts0. cbn [mbind option_bind]. unfold stamped in Hb. by rewrite Hb.
Qed.

Section Writers.
Context (uni : nat -> Z -> Z -> Z) (sym : list byte) (Hsym : length sym = 8%nat).

Lemma hdr_ok type g :
  length (g_buf g) = 64%nat ->
  exists g', hdr uni type g = Some g' /\ headed (g_buf g') type (g_ts g') /\
    g_out g' = g_out g /\ g_count g' = g_count g /\ next_ref g' = next_ref g /\
    live g' = live g /\ match_ g' = match_ g.
Proof.
  intros Hb. unfold hdr. rewrite vset_store.
  destruct (store_be_some 1 (g_buf g) 0 (Z_of_byte type)) as (b1 & E1 & L1); [lia|lia|].
  rewrite E1. cbn [mbind option_bind]. autorewrite with be.
  destruct (store_be_some 2 b1 1 kLocate) as (b2 & E2 & L2); [lia|lia|].
  rewrite E2. cbn [mbind option_bind]. autorewrite with be.
  destruct (store_be_some 2 b2 3 0) as (b3 & E3 & L3); [lia|lia|].
  rewrite E3. cbn [mbind option_bind]. unfold draw. autorewrite with be.
  set (ts := u64 _). destruct (store_be_some 6 b3 5 ts) as (b4 & E4 & L4); [lia|lia|].
  rewrite E4. cbn [mbind option_bind]. eexists. split; [done|]. split; [|done].
  cbn [g_buf g_ts rset]. split; [lia| | |].
  - rewrite (load_store_other 1 6 b3 0 5 _ _ 0 E4), (load_store_other 1 2 b2 0 3 _ _ 0 E3),
      (load_store_other 1 2 b1 0 1 _ _ 0 E2), (load_store_same 1 _ _ _ _ E1) by lia.
    f_equal. apply wrap_small, Z_of_byte_range.
  - rewrite (load_store_other 2 6 b3 1 5 _ _ 0 E4), (load_store_other 2 2 b2 1 3 _ _ 0 E3),
      (load_store_same 2 _ _ _ _ E2) by lia. done.
  - by rewrite (load_store_same 6 _ _ _ _ E4).
Qed.

(** Run the next store of a writer, keep what it says of the header. *)
#[local] Ltac run_store :=
  rewrite ?vset_store; autorewrite with be;
  lazymatch goal with
  | H : headed ?b ?t ?ts |- context [store_be ?n ?b ?off ?v ≫= _] =>
      let b' := fresh "b" in let E := fresh "E" in let H' := fresh "Hh" in
      destruct (store_be_some n b off v) as (b' & E & _);
      [lia|rewrite (hd_len _ _ _ H); lia|];
      rewrite E; cbn [mbind option_bind];
      pose proof (headed_store n b off v b' t ts H E ltac:(lia)) as H'
  | H : headed ?b ?t ?ts |- context [store_bytes ?b ?off sym ≫= _] =>
      let b' := fresh "b" in let E := fresh "E" in let H' := fresh "Hh" in
      destruct (store_bytes_some sym b off) as (b' & E & _);
      [lia|rewrite (hd_len _ _ _ H), Hsym; lia|];
      rewrite E; cbn [mbind option_bind];
      pose proof (headed_bytes sym b off b' t ts H E Hsym ltac:(lia)) as H'
  end.

(** Read a field back: from its own store, beside the others. *)
#[local] Ltac read_back :=
  repeat match goal with
  | E : store_be ?n ?b ?off ?v = Some ?b' |- context [load_be ?n ?b' ?off 0] =>
      rewrite (load_store_same n b off v b' E)
  | E : store_be ?m ?b ?off' ?v = Some ?b' |- context [load_be ?n ?b' ?off 0] =>
      rewrite (load_store_other n m b off off' v b' 0 E) by lia
  | H : headed ?b _ _, E : store_bytes ?b ?off' sym = Some ?b' |- context [load_be ?n ?b' ?off 0] =>
      rewrite (load_store_bytes n sym b off off' b' 0 E) by (rewrite ?Hsym, ?(hd_len _ _ _ H); lia)
  | H : headed ?b _ _, E : store_bytes ?b ?off sym = Some ?b' |-
      context [mapM (fun k => ?b'.[?off + k]) _] =>
      rewrite (store_bytes_read sym b off b' E Hsym) by (rewrite ?(hd_len _ _ _ H); lia)
  | E : store_be ?m ?b ?off' ?v = Some ?b' |- context [mapM (fun k => ?b'.[?off + k]) _] =>
      rewrite (mapM_store_other m b off off' v b' E) by lia
  end; cbn [mbind option_bind].

(** The message is in the buffer [Hh] speaks of: emit it and decode it. *)
#[local] Ltac emit_it g Hh reader :=
  lazymatch type of Hh with
  | headed ?b ?type _ =>
    lazymatch goal with
    | |- context [emit ?len ?g1] =>
      edestruct (emit_ok len g1) as (g' & Ee & W & T & M');
      [ lia | apply Hh
      | eapply (parse_headed b type); [exact Hh|reflexivity|discriminate|];
        let t := eval compute in (ascii_of_byte type) in change (ascii_of_byte type) with t;
        cbn [parse_body]; reader; autorewrite with be; read_back; reflexivity
      | exists g'; split; [exact Ee|]; rewrite T;
        split; [by eapply (wrote_from g); [..|exact W]|by rewrite M'] ]
    end
  end.

Lemma emit_delete_ok ref g :
  length (g_buf g) = 64%nat ->
  exists g', emit_delete uni ref g = Some g' /\
    wrote g g' (stamped (g_ts g') <| ev_type := Delete |> <| ev_order_ref := wrap 64 ref |>) /\
    match_ g' = match_ g.
Proof.
  intros Hb. unfold emit_delete. destruct (hdr_ok x44 g Hb) as (g1 & E & H & O & C & R & L & M).
  rewrite E. cbn [mbind option_bind]. run_store. emit_it g Hh ltac:(unfold parse_delete).
Qed.

Lemma emit_exec_ok ref shares g :
  length (g_buf g) = 64%nat ->
  exists g', emit_exec uni ref shares g = Some g' /\
    wrote g g' (stamped (g_ts g') <| ev_type := Execute |> <| ev_order_ref := wrap 64 ref |>
      <| ev_size := wrap 32 shares |> <| ev_match_number := wrap 64 (match_ g) |>) /\
    match_ g' = u64 (match_ g + 1).
Proof.
  intros Hb. unfold emit_exec. destruct (hdr_ok x45 g Hb) as (g1 & E & H & O & C & R & L & M).
  rewrite <- M. rewrite E. cbn [mbind option_bind]. do 3 run_store. emit_it g Hh1 ltac:(unfold parse_execute).
Qed.

Lemma emit_cancel_ok ref shares g :
  length (g_buf g) = 64%nat ->
  exists g', emit_cancel uni ref shares g = Some g' /\
    wrote g g' (stamped (g_ts g') <| ev_type := Cancel |> <| ev_order_ref := wrap 64 ref |>
      <| ev_size := wrap 32 shares |>) /\
    match_ g' = match_ g.
Proof.
  intros Hb. unfold emit_cancel. destruct (hdr_ok x58 g Hb) as (g1 & E & H & O & C & R & L & M).
  rewrite E. cbn [mbind option_bind]. do 2 run_store. emit_it g Hh0 ltac:(unfold parse_cancel).
Qed.

Lemma emit_replace_ok orig neu sz px g :
  length (g_buf g) = 64%nat ->
  exists g', emit_replace uni orig neu sz px g = Some g' /\
    wrote g g' (stamped (g_ts g') <| ev_type := Replace |> <| ev_order_ref := wrap 64 orig |>
      <| ev_new_order_ref := wrap 64 neu |> <| ev_size := wrap 32 sz |>
      <| ev_price_ticks := wrap 32 (u32 px) |>) /\
    match_ g' = match_ g.
Proof.
  intros Hb. unfold emit_replace. destruct (hdr_ok x55 g Hb) as (g1 & E & H & O & C & R & L & M).
  rewrite E. cbn [mbind option_bind]. do 4 run_store. emit_it g Hh2 ltac:(unfold parse_replace).
Qed.

Lemma emit_add_ok o g :
  length (g_buf g) = 64%nat ->
  exists g', emit_add uni sym o g = Some g' /\
    wrote g g' (stamped (g_ts g') <| ev_type := Add |> <| ev_order_ref := wrap 64 (lv_ref o) |>
      <| ev_side := decode_side (wrap 8 (Z_of_byte (lv_bs o))) |> <| ev_size := wrap 32 (lv_sz o) |>
      <| ev_symbol := sym |> <| ev_price_ticks := wrap 32 (u32 (lv_px o)) |>) /\
    match_ g' = match_ g.
Proof.
  intros Hb. unfold emit_add. destruct (hdr_ok x41 g Hb) as (g1 & E & H & O & C & R & L & M).
  rewrite E. cbn [mbind option_bind]. do 5 run_store. emit_it g Hh3 ltac:(unfold parse_add, copy_symbol).
Qed.

Lemma emit_system_ok code g :
  length (g_buf g) = 64%nat ->
  exists g', emit_system uni code g = Some g' /\
    wrote g g' (stamped (g_ts g') <| ev_type := SystemEvent |>) /\ match_ g' = match_ g.
Proof.
  intros Hb. unfold emit_system. destruct (hdr_ok x53 g Hb) as (g1 & E & H & O & C & R & L & M).
  rewrite E. cbn [mbind option_bind]. run_store. emit_it g Hh ltac:(idtac).
Qed.

Lemma emit_trade_ok g :
  length (g_buf g) = 64%nat ->
  exists g' sd sz, emit_trade uni sym g = Some g' /\
    wrote g g' (stamped (g_ts g') <| ev_type := Trade |> <| ev_order_ref := 0 |>
      <| ev_side := sd |> <| ev_size := sz |> <| ev_symbol := sym |> <| ev_price_ticks := kMid |>
      <| ev_match_number := wrap 64 (match_ g) |>) /\ in_u 32 sz /\ sd <> SideNone /\
    match_ g' = u64 (match_ g + 1).
Proof.
  intros Hb. unfold emit_trade. destruct (hdr_ok x50 g Hb) as (g1 & E & H & O & C & R & L & M).
  rewrite <- M. rewrite E. cbn [mbind option_bind]. unfold draw. run_store.
  set (sd := if decide _ then _ else _).
  run_store. do 4 run_store.
  assert (exists g', emit 44 (g1 <| draws ::= S |> <| draws ::= S |> <| g_buf := b4 |>
      <| match_ ::= fun m => u64 (m + 1) |>) = Some g' /\
    wrote g g' (stamped (g_ts g') <| ev_type := Trade |> <| ev_order_ref := 0 |>
      <| ev_side := decode_side (wrap 8 (Z_of_byte sd)) |>
      <| ev_size := wrap 32 (u32 (uni (S (draws g1)) 1 5 * 100)) |> <| ev_symbol := sym |>
      <| ev_price_ticks := kMid |> <| ev_match_number := wrap 64 (match_ g1) |>) /\
    match_ g' = u64 (match_ g1 + 1)) as (g' & Ee & W & Hm).
  { emit_it g Hh4 ltac:(unfold parse_trade, copy_symbol). }
  eexists g', _, _. split; [exact Ee|]. split; [exact W|]. split; [apply wrap_range; lia|].
  split; [unfold sd; by case_decide|exact Hm].
Qed.
End Writers.

(** C26. The encoder and the decoder agree.  From any state of the generator each
    writer appends exactly one frame to the file, and decoding its payload gives
    back the fields that were written (truncated to the width of their slot), the
    generator's stock locate and its clock. *)
Theorem writers_roundtrip uni sym g :
  length sym = 8%nat -> length (g_buf g) = 64%nat ->
  (forall o, exists g', emit_add uni sym o g = Some g' /\
    wrote g g' (stamped (g_ts g') <| ev_type := Add |> <| ev_order_ref := wrap 64 (lv_ref o) |>
      <| ev_side := decode_side (u8 (Z_of_byte (lv_bs o))) |> <| ev_size := wrap 32 (lv_sz o) |>
      <| ev_symbol := sym |> <| ev_price_ticks := wrap 32 (u32 (lv_px o)) |>)) /\
  (forall ref sh, exists g', emit_exec uni ref sh g = Some g' /\
    wrote g g' (stamped (g_ts g') <| ev_type := Execute |> <| ev_order_ref := wrap 64 ref |>
      <| ev_size := wrap 32 sh |> <| ev_match_number := wrap 64 (match_ g) |>)) /\
  (forall ref sh, exists g', emit_cancel uni ref sh g = Some g' /\
    wrote g g' (stamped (g_ts g') <| ev_type := Cancel |> <| ev_order_ref := wrap 64 ref |>
      <| ev_size := wrap 32 sh |>)) /\
  (forall ref, exists g', emit_delete uni ref g = Some g' /\
    wrote g g' (stamped (g_ts g') <| ev_type := Delete |> <| ev_order_ref := wrap 64 ref |>)) /\
  (forall orig neu sz px, exists g', emit_replace uni orig neu sz px g = Some g' /\
    wrote g g' (stamped (g_ts g') <| ev_type := Replace |> <| ev_order_ref := wrap 64 orig |>
      <| ev_new_order_ref := wrap 64 neu |> <| ev_size := wrap 32 sz |>
      <| ev_price_ticks := wrap 32 (u32 px) |>)).
Proof.
  intros Hs Hb. split; [|split; [|split; [|split]]].
  - intros o. destruct (emit_add_ok uni sym Hs o g Hb) as (g' & E & W & _). by exists g'.
  - intros ref sh. destruct (emit_exec_ok uni sym Hs ref sh g Hb) as (g' & E & W & _). by exists g'.
  - intros ref sh. destruct (emit_cancel_ok uni sym Hs ref sh g Hb) as (g' & E & W & _). by exists g'.
  - intros ref. destruct (emit_delete_ok uni sym Hs ref g Hb) as (g' & E & W & _). by exists g'.
  - intros o n sz px. destruct (emit_replace_ok uni sym Hs o n sz px g Hb) as (g' & E & W & _).
    by exists g'.
Qed.

Lemma writers_roundtrip_witness :
  exists g', emit_delete (fun _ lo _ => lo) 7 gen_new = Some g' /\
    wrote gen_new g' (stamped (g_ts g') <| ev_type := Delete |> <| ev_order_ref := 7 |>).
Proof.
  destruct (writers_roundtrip (fun _ lo _ => lo) (gen_sym []) gen_new) as (_ & _ & _ & H & _).
  - reflexivity.
  - reflexivity.
  - exact (H 7).
Defined.
