(* ===== verification/ItchGenProps.v ===== *)
(** * The generated feed is clean

    Whatever the random draws (each inside the range asked for), [gen_main] of
    [tools/itch_gen.cpp] returns, and the file it writes decodes to events after
    which the order book holds exactly the generator's live orders, with no
    unknown reference, no price outside the band, and never crossed or locked. *)

From Stdlib Require Import Strings.Ascii.
From stdpp Require Import base list gmap numbers.
From S2P Require Import Prelude MarketEvent ByteRead ItchParser FeedSource OrderPool.
From S2P Require Import OrderBook BookSpec OrderBookWf OrderBookBest OrderBookProps.
From S2P Require Import BookOrders ItchGen ItchGenWrite.

(** A live order of the generator, as an order of the book. *)
Definition order_of_live (o : Live) : AOrder :=
  mkAOrder (lv_ref o) (lv_px o) (lv_sz o) (if decide (lv_bs o = byte_B) then Buy else Sell).

(** A live order of [g]: an old reference, a price in the half-band of its side. *)
Definition live_ok (next : Z) (o : Live) : Prop :=
  1 <= lv_ref o < next /\ 1 <= lv_sz o <= 1000 /\
  (lv_bs o = byte_B /\ kMid - 1 - kBand <= lv_px o <= kMid - 1 \/
   lv_bs o = byte_S /\ kMid + 1 <= lv_px o <= kMid + 1 + kBand).

(** The payload of a frame decodes to an event. *)
Definition decodes_to (p : list byte) (ev : MarketEvent) : Prop :=
  Z.of_nat (length p) < 65536 /\ parse p (Z.of_nat (length p)) event0 = Some (Ok, ev).

(** What a source promises of a random engine: a draw is inside its range. *)
Definition in_range (uni : nat -> Z -> Z -> Z) : Prop :=
  forall k lo hi, lo <= hi -> lo <= uni k lo hi <= hi.

(** The band of the book holds the generator's prices, one tick per slot. *)
Record fits (c : OrderBookConfig) : Prop := {
  fit_cfg : cfg_ok c;
  fit_tick : tick c = 1;
  fit_min : min_price_ticks c <= kMid - 1 - kBand;
  fit_max : kMid + 1 + kBand <= max_price_ticks c }.

Lemma fits_index c px :
  fits c -> kMid - 1 - kBand <= px <= kMid + 1 + kBand ->
  0 <= to_index c px < num_levels c.
Proof.
  intros [] Hp. unfold kMid, kBand in *. split; [|by apply to_index_range].
  unfold to_index. rewrite decide_False by lia. rewrite fit_tick0, Z.quot_1_r. lia.
Qed.

Lemma live_ok_mono n n' o : n <= n' -> live_ok n o -> live_ok n' o.
Proof. unfold live_ok. intros ? (? & ? & ?). split; [lia|done]. Qed.

Lemma live_ok_banded n l : Forall (live_ok n) l -> Forall (banded kMid) (order_of_live <$> l).
Proof.
  intros H. apply list.Forall_fmap. eapply list.Forall_impl; [exact H|].
  intros o (_ & _ & Hp). unfold banded, order_of_live. cbn.
  destruct Hp as [[-> ?]|[-> ?]]; [left|right]; split; (done || unfold kMid in *; lia).
Qed.

Lemma live_ok_price n o : live_ok n o -> kMid - 1 - kBand <= lv_px o <= kMid + 1 + kBand.
Proof. intros (_ & _ & [[_ ?]|[_ ?]]); unfold kMid, kBand in *; lia. Qed.

Section Props.
Context (c : OrderBookConfig) (Hfit : fits (clamp_config c)).
Notation c' := (clamp_config c).

Record gen_inv (g : Gen) (evs : list MarketEvent) (b : OrderBook) : Prop := {
  gi_file : exists ps, g_out g = concat (map frame_bytes ps) /\ Forall2 decodes_to ps evs;
  gi_count : g_count g = Z.of_nat (length evs);
  gi_buf : length (g_buf g) = 64%nat;
  gi_ref : 1 <= next_ref g <= Z.of_nat (length evs) + 1;
  gi_live : Forall (live_ok (next_ref g)) (live g);
  gi_nodup : NoDup (lv_ref <$> live g);
  gi_book : clean c kMid evs b (order_of_live <$> live g) }.

Lemma gen_inv_new : gen_inv gen_new [] (OrderBook_new c).
Proof.
  split; try done.
  - exists []. by split.
  - by apply list.NoDup_nil.
  - apply clean_new, Hfit.
Qed.

Lemma refs_nodup l : NoDup (lv_ref <$> l) -> NoDup (a_ref <$> (order_of_live <$> l)).
Proof. by rewrite <- list_fmap_compose. Qed.

Lemma abs_length evs b L : clean c kMid evs b L -> Z.of_nat (length (abs b)) = num_levels c'.
Proof.
  intros []. destruct cl_wf as (pss & free & W). unfold abs. rewrite length_fmap, (wf_len _ _ _ W).
  by rewrite cl_cfg.
Qed.

(** One message: the frame decodes, the event keeps the book clean, and the
    generator's list of live orders follows. *)
Lemma inv_step g g1 g' g2 evs b ev :
  gen_inv g evs b -> Z.of_nat (length evs) < 2 ^ 32 - 1 ->
  g_out g1 = g_out g -> g_count g1 = g_count g -> wrote g1 g' ev ->
  g_out g2 = g_out g' -> g_count g2 = g_count g' -> g_buf g2 = g_buf g' ->
  in_u 32 (ev_size ev) -> next_ref g <= next_ref g2 <= next_ref g + 1 ->
  concat (a_apply c' ev (abs b)) ≡ₚ order_of_live <$> live g2 ->
  counts_clean c ev (abs b) -> Forall (live_ok (next_ref g2)) (live g2) ->
  NoDup (lv_ref <$> live g2) ->
  exists b', gen_inv g2 (evs ++ [ev]) b'.
Proof.
  intros [] Hb Ho Hc [] Ho2 Hc2 Hb2 Hsz Hnr HL HC HF HN.
  destruct (clean_step c kMid (fit_tick _ Hfit) evs b _ ev (order_of_live <$> live g2) gi_book0)
    as [b' Hcl]; try done.
  { by eapply live_ok_banded. }
  exists b'. destruct gi_file0 as (ps & Hps & Hd). destruct wr_frame as (p & Hp & Hlen & Hparse).
  split; try done.
  - exists (ps ++ [p]). rewrite map_app, concat_app. cbn [map concat]. rewrite app_nil_r.
    split; [congruence|]. apply Forall2_app; [done|]. by repeat constructor.
  - rewrite Hc2, wr_count, Hc, gi_count0, length_app. cbn. unfold u64.
    rewrite wrap_small; [lia|unfold in_u; lia].
  - congruence.
  - rewrite length_app. cbn. lia.
Qed.

Lemma counts_other ev ls :
  ev_type ev = SystemEvent \/ ev_type ev = Trade -> counts_clean c ev ls.
Proof. intros [E|E] s; unfold a_counts; by rewrite E. Qed.

Lemma counts_known ev ls :
  is_Some (a_lookup (ev_order_ref ev) ls) ->
  ev_type ev = Execute \/ ev_type ev = Cancel \/ ev_type ev = Delete ->
  counts_clean c ev ls.
Proof.
  intros Hk E s. unfold a_counts. rewrite bool_decide_eq_true_2 by done.
  by destruct E as [E|[E|E]]; rewrite E.
Qed.

Lemma counts_priced ev ls :
  0 <= to_index c' (ev_price_ticks ev) ->
  ev_type ev = Add \/ ev_type ev = Replace /\ is_Some (a_lookup (ev_order_ref ev) ls) ->
  counts_clean c ev ls.
Proof.
  intros Hi E s. unfold a_counts, a_out_of_band. rewrite (bool_decide_eq_false_2 (_ < 0)) by lia.
  destruct E as [E|[E Hk]]; rewrite E; [done|]. by rewrite bool_decide_eq_true_2.
Qed.

Context (uni : nat -> Z -> Z -> Z) (Huni : in_range uni).
Context (sym : list byte) (Hsym : length sym = 8%nat).

(** A drawn price is in the half-band of the side. *)
Lemma random_price_ok bs g :
  bs = byte_B \/ bs = byte_S ->
  let px := (random_price uni bs g).1 in
  (bs = byte_B /\ kMid - 1 - kBand <= px <= kMid - 1 \/
   bs = byte_S /\ kMid + 1 <= px <= kMid + 1 + kBand) /\
  (random_price uni bs g).2 = g <| draws ::= S |>.
Proof.
  intros Hs. unfold random_price, draw. cbn [fst snd]. split; [|done].
  pose proof (Huni (draws g) 0 kBand ltac:(done)). destruct Hs as [-> | ->].
  - left. rewrite decide_True by done. split; [done|]. unfold kMid, kBand in *. lia.
  - right. rewrite decide_False by done. split; [done|]. unfold kMid, kBand in *. lia.
Qed.

Lemma price_u32 px : kMid - 1 - kBand <= px <= kMid + 1 + kBand -> wrap 32 (u32 px) = px.
Proof.
  unfold kMid, kBand, u32. intros. rewrite wrap_wrap. apply wrap_small. unfold in_u. lia.
Qed.

(** Nothing the book or the list of live orders depends on. *)
Lemma quiet_step g g' evs b ev :
  gen_inv g evs b -> Z.of_nat (length evs) < 2 ^ 32 - 1 -> wrote g g' ev ->
  ev_type ev = SystemEvent \/ ev_type ev = Trade -> in_u 32 (ev_size ev) ->
  exists b', gen_inv g' (evs ++ [ev]) b'.
Proof.
  intros I Hb W Ht Hs. pose proof (wr_ref _ _ _ W) as Hr. pose proof (wr_live _ _ _ W) as Hl.
  eapply (inv_step g g g' g'); try done; rewrite ?Hr, ?Hl; [lia| |by apply counts_other|apply I..].
  rewrite <- (cl_orders _ _ _ _ _ (gi_book _ _ _ I)). unfold a_apply. by destruct Ht as [-> | ->].
Qed.

Lemma live_known g evs b o :
  gen_inv g evs b -> o ∈ live g ->
  a_lookup (lv_ref o) (abs b) = Some (order_of_live o).
Proof.
  intros I Ho. change (lv_ref o) with (a_ref (order_of_live o)).
  eapply flat_lookup; [apply (cl_orders _ _ _ _ _ (gi_book _ _ _ I))| |].
  - by apply refs_nodup, I.
  - by apply list_elem_of_fmap_2.
Qed.

Lemma fresh_unknown g evs b r :
  gen_inv g evs b -> next_ref g <= r -> r ∉ a_ref <$> (order_of_live <$> live g).
Proof.
  intros I Hr (x & E & (o & -> & Ho)%list_elem_of_fmap)%list_elem_of_fmap.
  pose proof (gi_live _ _ _ I) as Hl. rewrite list.Forall_forall in Hl.
  destruct (Hl o Ho) as [? _]. cbn in E. lia.
Qed.

Lemma flat_band evs b L o n :
  clean c kMid evs b L -> live_ok n o ->
  0 <= to_index c' (lv_px o) < Z.of_nat (length (abs b)).
Proof.
  intros Hcl Ho. rewrite (abs_length _ _ _ Hcl). by eapply fits_index, live_ok_price.
Qed.

Lemma add_orders g evs b ev o n :
  gen_inv g evs b -> ev_type ev = Add -> order_of ev = order_of_live o -> live_ok n o ->
  next_ref g <= lv_ref o ->
  concat (a_apply c' ev (abs b)) ≡ₚ order_of_live <$> (live g ++ [o]) /\
  counts_clean c ev (abs b).
Proof.
  intros I Ht Ho Hl Hr. pose proof (flat_band _ _ _ _ _ (gi_book _ _ _ I) Hl) as Hi. split.
  - unfold a_apply. rewrite Ht, Ho, fmap_app, (comm app). cbn [fmap list_fmap app].
    eapply flat_add; [apply (cl_orders _ _ _ _ _ (gi_book _ _ _ I))|exact Hi|].
    by eapply fresh_unknown.
  - apply counts_priced; [|by left]. change (ev_price_ticks ev) with (a_price (order_of ev)).
    rewrite Ho. apply Hi.
Qed.

Lemma nodup_snoc g evs b o :
  gen_inv g evs b -> next_ref g <= lv_ref o -> NoDup (lv_ref <$> (live g ++ [o])).
Proof.
  intros I Hr. rewrite fmap_app. apply list.NoDup_app. split; [apply I|]. split.
  - intros x (y & -> & Hy)%list_elem_of_fmap E%list_elem_of_singleton.
    pose proof (gi_live _ _ _ I) as Hl. rewrite list.Forall_forall in Hl. destruct (Hl y Hy). lia.
  - by apply list.NoDup_singleton.
Qed.

Lemma side_of_byte bs :
  bs = byte_B \/ bs = byte_S ->
  decode_side (wrap 8 (Z_of_byte bs)) = if decide (bs = byte_B) then Buy else Sell.
Proof. by intros [-> | ->]. Qed.

Lemma add_step g evs b :
  gen_inv g evs b -> Z.of_nat (length evs) < 2 ^ 32 - 1 ->
  exists g' ev b', do_add uni sym g = Some g' /\ gen_inv g' (evs ++ [ev]) b'.
Proof.
  intros I Hb. unfold do_add, draw. cbn [draws rset].
  set (g0 := g <| next_ref ::= _ |> <| draws ::= S |>).
  set (side := if decide _ then byte_B else byte_S).
  assert (side = byte_B \/ side = byte_S) as Hside by (unfold side; case_decide; auto).
  destruct (random_price_ok side g0 Hside) as [Hpx Eg].
  destruct (random_price uni side g0) as [px g1]. cbn [fst snd] in *. subst g1.
  pose proof (Huni (draws (g0 <| draws ::= S |>)) 1 10 ltac:(done)) as Hk.
  set (k := uni _ 1 10) in *. set (o := mkLive _ side px _).
  pose proof (gi_ref _ _ _ I) as Hr.
  assert (u64 (next_ref g + 1) = next_ref g + 1) as Hn1 by (apply wrap_small; unfold in_u; lia).
  assert (live_ok (next_ref g + 1) o) as Ho.
  { unfold live_ok, o. cbn [lv_ref lv_sz lv_bs lv_px]. split; [lia|]. split; [|exact Hpx].
    unfold u32. rewrite wrap_small; unfold in_u; lia. }
  edestruct (emit_add_ok uni sym Hsym o) as (g' & E & W & _); [|rewrite E; cbn [mbind option_bind]].
  { apply (gi_buf _ _ _ I). }
  rewrite price_u32 in W by by eapply live_ok_price.
  match type of W with wrote _ _ ?e => set (ev := e) in W end.
  destruct (add_orders g evs b ev o (next_ref g + 1)) as [HL HC]; try done.
  { unfold order_of, ev, order_of_live, o. cbn [ev_order_ref ev_price_ticks ev_size ev_side rset
      stamped event0 lv_ref lv_px lv_sz lv_bs]. unfold u32. rewrite wrap_wrap, side_of_byte by done.
    rewrite (wrap_small 64); [done|unfold in_u; lia]. }
  pose proof (wr_ref _ _ _ W) as Hr'. pose proof (wr_live _ _ _ W) as Hl'. cbn in Hr', Hl'.
  rewrite Hn1 in Hr'.
  destruct (inv_step g (g0 <| draws ::= S |> <| draws ::= S |>) g' (g' <| live ::= fun l => l ++ [o] |>) evs b ev) as [b' I'];
    try done; cbn [live next_ref rset]; rewrite ?Hl', ?Hr'; try done.
  - cbn. apply wrap_range. lia.
  - lia.
  - apply list.Forall_app. split; [|by constructor].
    eapply list.Forall_impl; [apply I|]. intros x Hx. eapply live_ok_mono; [|exact Hx]. lia.
  - by eapply nodup_snoc.
  - eexists _, ev, b'. split; [done|exact I'].
Qed.

(** ** A live order is changed or removed *)

(** The list without its [i]-th element, up to order. *)
Lemma pick_ok (l : list Live) i o :
  l.[i] = Some o -> exists rest, l ≡ₚ o :: rest /\
    (forall o', exists l', l.[i := o'] = Some l' /\ l' ≡ₚ o' :: rest) /\
    exists l', remove_at i l = Some l' /\ l' ≡ₚ rest.
Proof.
  intros Hi. pose proof (vget_lt _ _ _ Hi) as Hlt. apply vget_Some in Hi as [H0 Hi].
  assert (exists l1 l2, l = l1 ++ o :: l2 /\ length l1 = Z.to_nat i) as (l1 & l2 & -> & L1).
  { exists (take (Z.to_nat i) l), (drop (S (Z.to_nat i)) l). split; [symmetry; by apply take_drop_middle|].
    rewrite length_take. lia. }
  exists (l1 ++ l2). split; [by rewrite Permutation_middle|].
  assert (forall o', (l1 ++ o :: l2).[i := o'] = Some (l1 ++ o' :: l2)) as Hset.
  { intros o'. rewrite vset_in by lia. f_equal. rewrite insert_app_r_alt by lia.
    by rewrite L1, Nat.sub_diag. }
  split. { intros o'. eexists. split; [apply Hset|]. by rewrite Permutation_middle. }
  unfold remove_at. clear Hlt Hi H0 L1. destruct l2 as [|x l2' _] using rev_ind.
  - assert ((l1 ++ [o]).[Z.of_nat (length (l1 ++ [o])) - 1] = Some o) as ->.
    { rewrite length_app. cbn [length]. replace (_ - 1) with (Z.of_nat (length l1)) by lia.
      rewrite vget_nat, lookup_app_r, Nat.sub_diag by lia. done. }
    cbn [mbind option_bind]. rewrite Hset. cbn [mbind option_bind]. eexists. split; [done|].
    rewrite length_app. cbn [length]. rewrite take_app_le, take_ge, app_nil_r by lia. done.
  - assert (forall y, length (l1 ++ y :: l2' ++ [x]) = S (length (l1 ++ y :: l2'))) as Hlen.
    { intros y. rewrite !length_app. cbn [length]. rewrite length_app. cbn [length]. lia. }
    assert ((l1 ++ o :: l2' ++ [x]).[Z.of_nat (length (l1 ++ o :: l2' ++ [x])) - 1] = Some x) as ->.
    { rewrite Hlen. replace (_ - 1) with (Z.of_nat (length (l1 ++ o :: l2'))) by lia.
      rewrite vget_nat, app_comm_cons, app_assoc, lookup_app_r, Nat.sub_diag by lia. done. }
    cbn [mbind option_bind]. rewrite Hset. cbn [mbind option_bind]. eexists. split; [done|].
    rewrite Hlen. replace (S _ - 1)%nat with (length (l1 ++ x :: l2'))
      by (rewrite !length_app; cbn [length]; lia).
    rewrite app_comm_cons, app_assoc, take_app_length.
    rewrite (comm app l2' [x]). done.
Qed.

Definition orders_after (b : OrderBook) (ev : MarketEvent) (L : list Live) : Prop :=
  concat (a_apply c' ev (abs b)) ≡ₚ order_of_live <$> L /\ counts_clean c ev (abs b).

(** The orders of the book, one of them in front. *)
Lemma front g evs b o rest :
  gen_inv g evs b -> live g ≡ₚ o :: rest ->
  concat (abs b) ≡ₚ order_of_live o :: (order_of_live <$> rest) /\
  NoDup (a_ref <$> order_of_live o :: (order_of_live <$> rest)).
Proof.
  intros I Hp. pose proof (cl_orders _ _ _ _ _ (gi_book _ _ _ I)) as Ho.
  rewrite Hp in Ho. split; [exact Ho|].
  change (order_of_live o :: _) with (order_of_live <$> o :: rest).
  rewrite <- Hp. by apply refs_nodup, I.
Qed.

Lemma remove_orders g evs b ev o rest :
  gen_inv g evs b -> live g ≡ₚ o :: rest -> ev_order_ref ev = lv_ref o ->
  ev_type ev = Delete \/ (ev_type ev = Execute \/ ev_type ev = Cancel) /\ lv_sz o <= ev_size ev ->
  orders_after b ev rest.
Proof.
  intros I Hp Hr Ht. destruct (front _ _ _ _ _ I Hp) as [Ho Hn].
  assert (o ∈ live g) as Hin by (rewrite Hp; by left). split.
  - unfold a_apply. change (lv_ref o) with (a_ref (order_of_live o)) in Hr.
    destruct Ht as [-> | [[-> | ->] Hs]]; rewrite Hr; unfold a_remove, a_reduce.
    + by rewrite (flat_update _ _ Ho Hn _ [] _ _ eq_refl).
    + rewrite (flat_update _ _ Ho Hn _ [] _ _ eq_refl). by rewrite decide_True by done.
    + rewrite (flat_update _ _ Ho Hn _ [] _ _ eq_refl). by rewrite decide_True by done.
  - apply counts_known; [|tauto]. rewrite Hr, (live_known _ _ _ _ I Hin). by eexists.
Qed.

Lemma reduce_orders g evs b ev o rest :
  gen_inv g evs b -> live g ≡ₚ o :: rest -> ev_order_ref ev = lv_ref o ->
  ev_type ev = Execute \/ ev_type ev = Cancel -> ev_size ev < lv_sz o ->
  orders_after b ev (o <| lv_sz ::= fun s => s - ev_size ev |> :: rest).
Proof.
  intros I Hp Hr Ht Hs. destruct (front _ _ _ _ _ I Hp) as [Ho Hn].
  assert (o ∈ live g) as Hin by (rewrite Hp; by left). split.
  - unfold a_apply. change (lv_ref o) with (a_ref (order_of_live o)) in Hr.
    destruct Ht as [-> | ->]; rewrite Hr; unfold a_reduce;
      rewrite (flat_update _ _ Ho Hn _ [] _ _ eq_refl);
      rewrite decide_False by (change (a_size (order_of_live o)) with (lv_sz o); lia); done.
  - apply counts_known; [|tauto]. rewrite Hr, (live_known _ _ _ _ I Hin). by eexists.
Qed.

Lemma replace_orders g evs b ev o rest n :
  gen_inv g evs b -> live g ≡ₚ o :: rest -> ev_type ev = Replace -> ev_order_ref ev = lv_ref o ->
  let o' := mkLive (ev_new_order_ref ev) (lv_bs o) (ev_price_ticks ev) (ev_size ev) in
  live_ok n o' -> next_ref g <= ev_new_order_ref ev ->
  orders_after b ev (o' :: rest).
Proof.
  intros I Hp Ht Hr o' Hl Hnew. destruct (front _ _ _ _ _ I Hp) as [Ho Hn].
  assert (o ∈ live g) as Hin by (rewrite Hp; by left).
  pose proof (flat_band _ _ _ _ _ (gi_book _ _ _ I) Hl) as Hi.
  pose proof (live_known _ _ _ _ I Hin) as Hk. split.
  - unfold a_apply. rewrite Ht. unfold a_replace. rewrite Hr, Hk. unfold a_remove.
    change (lv_ref o) with (a_ref (order_of_live o)).
    cbn [fmap list_fmap]. eapply (flat_add c').
    + rewrite (flat_update _ _ Ho Hn _ [] _ _ eq_refl). done.
    + rewrite length_a_update. exact Hi.
    + cbn [a_ref]. pose proof (fresh_unknown _ _ _ _ I Hnew) as Hf. rewrite Hp in Hf.
      cbn [fmap list_fmap] in Hf. rewrite elem_of_cons in Hf. tauto.
  - apply counts_priced; [apply Hi|]. right. split; [done|]. rewrite Hr, Hk. by eexists.
Qed.

Lemma live_parts g evs b o rest :
  gen_inv g evs b -> live g ≡ₚ o :: rest ->
  live_ok (next_ref g) o /\ Forall (live_ok (next_ref g)) rest /\
  lv_ref o ∉ lv_ref <$> rest /\ NoDup (lv_ref <$> rest).
Proof.
  intros I Hp. pose proof (gi_live _ _ _ I) as Hl. pose proof (gi_nodup _ _ _ I) as Hn.
  rewrite Hp in Hl, Hn. apply list.Forall_cons in Hl as [? ?].
  rewrite fmap_cons in Hn. apply list.NoDup_cons in Hn as [? ?]. done.
Qed.

(** A message about one live order. *)
Lemma order_step g g1 g' g2 evs b ev L :
  gen_inv g evs b -> Z.of_nat (length evs) < 2 ^ 32 - 1 ->
  g_out g1 = g_out g -> g_count g1 = g_count g -> wrote g1 g' ev ->
  g_out g2 = g_out g' -> g_count g2 = g_count g' -> g_buf g2 = g_buf g' ->
  in_u 32 (ev_size ev) -> next_ref g <= next_ref g2 <= next_ref g + 1 ->
  live g2 ≡ₚ L -> orders_after b ev L -> Forall (live_ok (next_ref g2)) L -> NoDup (lv_ref <$> L) ->
  exists b', gen_inv g2 (evs ++ [ev]) b'.
Proof.
  intros I Hb Ho Hc W Ho2 Hc2 Hb2 Hs Hnr Hp [HL HC] HF HN.
  apply (inv_step g g1 g' g2 evs b ev); rewrite ?Hp; done.
Qed.

(** The writers of a reduction. *)
Definition reducer (emit_reduce : Z -> Z -> Gen -> option Gen) : Prop :=
  forall ref shares g, length (g_buf g) = 64%nat -> in_u 64 ref -> in_u 32 shares ->
  exists g' ev, emit_reduce ref shares g = Some g' /\ wrote g g' ev /\
    (ev_type ev = Execute \/ ev_type ev = Cancel) /\ ev_order_ref ev = ref /\ ev_size ev = shares.

Lemma exec_reducer : reducer (emit_exec uni).
Proof.
  intros ref shares g Hb Hr Hs. destruct (emit_exec_ok uni sym Hsym ref shares g Hb) as (g' & E & W & _).
  eexists g', _. split; [exact E|]. split; [exact W|]. cbn. rewrite !wrap_small by done. auto.
Qed.

Lemma cancel_reducer : reducer (emit_cancel uni).
Proof.
  intros ref shares g Hb Hr Hs. destruct (emit_cancel_ok uni sym Hsym ref shares g Hb) as (g' & E & W & _).
  eexists g', _. split; [exact E|]. split; [exact W|]. cbn. rewrite !wrap_small by done. auto.
Qed.

Notation steps g evs r :=
  (exists g' ev b', r = Some g' /\ gen_inv g' (evs ++ [ev]) b') (only parsing).

Lemma reduce_step emit_reduce g evs b :
  reducer emit_reduce -> gen_inv g evs b -> Z.of_nat (length evs) < 2 ^ 32 - 1 ->
  0 < Z.of_nat (length (live g)) ->
  steps g evs (gen_reduce uni emit_reduce g).
Proof.
  intros He I Hb Hlen. unfold gen_reduce, draw. cbn [draws rset live].
  pose proof (Huni (draws g) 0 (Z.of_nat (length (live g)) - 1) ltac:(lia)) as Hi.
  set (i := uni _ 0 _) in *.
  destruct (proj2 (vget_is_Some (live g) i)) as [o Ho]; [lia|].
  rewrite Ho. cbn [mbind option_bind].
  destruct (pick_ok _ _ _ Ho) as (rest & Hp & Hset & Hrem).
  destruct (live_parts _ _ _ _ _ I Hp) as (Hlo & Hlr & Hnr & Hnd).
  pose proof Hlo as ([? ?] & Hsz & Hpx). pose proof (gi_ref _ _ _ I).
  pose proof (Huni (S (draws g)) 1 (lv_sz o) ltac:(lia)) as Hsh.
  set (shares := uni (S _) 1 _) in *.
  assert (u32 shares = shares) as Eu by (apply wrap_small; unfold in_u; lia). rewrite Eu.
  destruct (He (lv_ref o) shares (g <| draws ::= S |> <| draws ::= S |>))
    as (g' & ev & E & W & Ht & Hr & Hs).
  { apply I. } { unfold in_u. lia. } { unfold in_u. lia. }
  rewrite E. cbn [mbind option_bind].
  pose proof (wr_ref _ _ _ W) as Hr'. pose proof (wr_live _ _ _ W) as Hl'. cbn in Hr', Hl'.
  rewrite Hl'. case_decide as Hge.
  - destruct Hrem as (l' & -> & Hl2). cbn [mbind option_bind].
    destruct (order_step g (g <| draws ::= S |> <| draws ::= S |>) g' (g' <| live := l' |>) evs b ev rest)
      as [b' I']; try done; cbn [next_ref rset]; rewrite ?Hr', ?Hs; try done; [unfold in_u; lia|lia| |].
    + eapply remove_orders; [done|done|done|]. right. split; [done|lia].
    + eexists _, ev, b'. split; [done|exact I'].
  - destruct (Hset (o <| lv_sz ::= fun s => u32 (s - shares) |>)) as (l' & -> & Hl2).
    cbn [mbind option_bind].
    assert (o <| lv_sz ::= fun s => u32 (s - shares) |> = o <| lv_sz ::= fun s => s - ev_size ev |>) as Eo.
    { rewrite Hs. change (mkLive (lv_ref o) (lv_bs o) (lv_px o) (u32 (lv_sz o - shares)) =
        mkLive (lv_ref o) (lv_bs o) (lv_px o) (lv_sz o - shares)).
      unfold u32. rewrite wrap_small; [done|unfold in_u; lia]. }
    rewrite Eo in Hl2.
    destruct (order_step g (g <| draws ::= S |> <| draws ::= S |>) g' (g' <| live := l' |>) evs b ev
        (o <| lv_sz ::= fun s => s - ev_size ev |> :: rest))
      as [b' I']; try done; cbn [next_ref rset]; rewrite ?Hr'; try done; [rewrite Hs; unfold in_u; lia|lia| | | |].
    + eapply reduce_orders; [done|done|done|done|lia].
    + constructor; [|done]. unfold live_ok. cbn. repeat split; (done || lia).
    + cbn. by constructor.
    + eexists _, ev, b'. split; [done|exact I'].
Qed.

Lemma delete_step g evs b :
  gen_inv g evs b -> Z.of_nat (length evs) < 2 ^ 32 - 1 -> 0 < Z.of_nat (length (live g)) ->
  steps g evs (gen_delete uni g).
Proof.
  intros I Hb Hlen. unfold gen_delete, draw. cbn [draws rset live].
  pose proof (Huni (draws g) 0 (Z.of_nat (length (live g)) - 1) ltac:(lia)) as Hi.
  set (i := uni _ 0 _) in *.
  destruct (proj2 (vget_is_Some (live g) i)) as [o Ho]; [lia|].
  rewrite Ho. cbn [mbind option_bind].
  destruct (pick_ok _ _ _ Ho) as (rest & Hp & _ & l' & Hrem & Hl2).
  destruct (live_parts _ _ _ _ _ I Hp) as (Hlo & Hlr & Hnr & Hnd).
  pose proof Hlo as ([? ?] & _). pose proof (gi_ref _ _ _ I).
  destruct (emit_delete_ok uni sym Hsym (lv_ref o) (g <| draws ::= S |>)) as (g' & E & W & _).
  { apply I. }
  rewrite E. cbn [mbind option_bind].
  match type of W with wrote _ _ ?e => set (ev := e) in W end.
  pose proof (wr_ref _ _ _ W) as Hr'. pose proof (wr_live _ _ _ W) as Hl'. cbn in Hr', Hl'.
  rewrite Hl', Hrem. cbn [mbind option_bind].
  destruct (order_step g (g <| draws ::= S |>) g' (g' <| live := l' |>) evs b ev rest)
    as [b' I']; try done; cbn [next_ref rset]; rewrite ?Hr'; try done; [lia| |].
  - eapply remove_orders; [done|done| |by left]. cbn. apply wrap_small. unfold in_u. lia.
  - eexists _, ev, b'. split; [done|exact I'].
Qed.

Lemma replace_step g evs b :
  gen_inv g evs b -> Z.of_nat (length evs) < 2 ^ 32 - 1 -> 0 < Z.of_nat (length (live g)) ->
  steps g evs (gen_replace uni g).
Proof.
  intros I Hb Hlen. unfold gen_replace, draw. cbn [draws rset live next_ref].
  pose proof (Huni (draws g) 0 (Z.of_nat (length (live g)) - 1) ltac:(lia)) as Hi.
  set (i := uni _ 0 _) in *.
  destruct (proj2 (vget_is_Some (live g) i)) as [o Ho]; [lia|].
  rewrite Ho. cbn [mbind option_bind].
  destruct (pick_ok _ _ _ Ho) as (rest & Hp & Hset & _).
  destruct (live_parts _ _ _ _ _ I Hp) as (Hlo & Hlr & Hnr & Hnd).
  pose proof Hlo as ([? ?] & Hsz & Hpx). pose proof (gi_ref _ _ _ I).
  assert (u64 (next_ref g + 1) = next_ref g + 1) as Hn1 by (apply wrap_small; unfold in_u; lia).
  set (g0 := g <| draws ::= S |> <| next_ref ::= _ |>).
  destruct (random_price_ok (lv_bs o) g0) as [Hpn Eg]; [tauto|].
  destruct (random_price uni (lv_bs o) g0) as [px g1]. cbn [fst snd] in *. subst g1.
  pose proof (Huni (draws (g0 <| draws ::= S |>)) 1 10 ltac:(done)) as Hk.
  set (k := uni _ 1 10) in *.
  assert (u32 (k * 100) = k * 100) as Ek by (apply wrap_small; unfold in_u; lia). rewrite Ek.
  destruct (emit_replace_ok uni sym Hsym (lv_ref o) (next_ref g) (k * 100) px (g0 <| draws ::= S |> <| draws ::= S |>))
    as (g' & E & W & _).
  { apply I. }
  rewrite E. cbn [mbind option_bind].
  assert (live_ok (next_ref g + 1) (mkLive (next_ref g) (lv_bs o) px (k * 100))) as Hnew.
  { unfold live_ok. cbn. split; [lia|]. split; [lia|done]. }
  rewrite price_u32 in W by by eapply (live_ok_price _ _ Hnew).
  rewrite (wrap_small 64 (lv_ref o)) in W by (unfold in_u; lia).
  rewrite (wrap_small 64 (next_ref g)) in W by (unfold in_u; lia).
  rewrite (wrap_small 32 (k * 100)) in W by (unfold in_u; lia).
  match type of W with wrote _ _ ?e => set (ev := e) in W end.
  pose proof (wr_ref _ _ _ W) as Hr'. pose proof (wr_live _ _ _ W) as Hl'. cbn in Hr', Hl'.
  rewrite Hn1 in Hr'. rewrite Hl'. destruct (Hset (mkLive (next_ref g) (lv_bs o) px (k * 100))) as (l' & -> & Hl2).
  cbn [mbind option_bind].
  destruct (order_step g (g0 <| draws ::= S |> <| draws ::= S |>) g' (g' <| live := l' |>) evs b ev
      (mkLive (next_ref g) (lv_bs o) px (k * 100) :: rest))
    as [b' I']; try done; cbn [next_ref rset]; rewrite ?Hr'; try done.
  - cbn. unfold in_u. lia.
  - lia.
  - exact (replace_orders g evs b ev o rest (next_ref g + 1) I Hp eq_refl eq_refl Hnew ltac:(cbn; lia)).
  - constructor; [done|]. eapply list.Forall_impl; [exact Hlr|]. intros x Hx.
    eapply live_ok_mono; [|exact Hx]. lia.
  - rewrite fmap_cons. constructor; [|done]. cbn [lv_ref].
    intros (x & Ex & Hx)%list_elem_of_fmap. rewrite list.Forall_forall in Hlr.
    destruct (Hlr x Hx). lia.
  - eexists _, ev, b'. split; [done|exact I'].
Qed.

(** ** The main loop *)

Lemma inv_draw g evs b : gen_inv g evs b -> gen_inv (g <| draws ::= S |>) evs b.
Proof. by intros []. Qed.

Lemma trade_step g evs b :
  gen_inv g evs b -> Z.of_nat (length evs) < 2 ^ 32 - 1 -> steps g evs (emit_trade uni sym g).
Proof.
  intros I Hb. destruct (emit_trade_ok uni sym Hsym g (gi_buf _ _ _ I)) as (g' & sd & sz & E & W & Hsz & _).
  edestruct (quiet_step g g' evs b) as [b' I']; [done|done|exact W|by right|exact Hsz|].
  eexists g', _, b'. split; [exact E|exact I'].
Qed.

Lemma system_step code g evs b :
  gen_inv g evs b -> Z.of_nat (length evs) < 2 ^ 32 - 1 -> steps g evs (emit_system uni code g).
Proof.
  intros I Hb. destruct (emit_system_ok uni sym Hsym code g (gi_buf _ _ _ I)) as (g' & E & W & _).
  edestruct (quiet_step g g' evs b) as [b' I']; [done|done|exact W|by left|by cbn|].
  eexists g', _, b'. split; [exact E|exact I'].
Qed.

Lemma gen_step_ok g evs b :
  gen_inv g evs b -> Z.of_nat (length evs) < 2 ^ 32 - 1 -> steps g evs (gen_step uni sym g).
Proof.
  intros I Hb. apply inv_draw in I. unfold gen_step. cbn [draw].
  set (g1 := g <| draws ::= S |>) in *. change (live g) with (live g1).
  destruct (decide (Z.of_nat (length (live g1)) < 8)) as [Hf|Hf].
  { rewrite decide_True by done. by eapply add_step. }
  set (roll := if decide (_ >= kMaxLive) then 60 else _).
  assert (0 < Z.of_nat (length (live g1))) as Hlen by lia.
  repeat case_decide; [eapply add_step|eapply reduce_step|eapply reduce_step|eapply delete_step
    |eapply replace_step|eapply trade_step];
    first [exact I|exact Hb|exact Hlen|exact exec_reducer|exact cancel_reducer].
Qed.

Lemma gen_loop_ok n messages g evs b :
  gen_inv g evs b -> messages <= Z.of_nat (length evs) + Z.of_nat n ->
  Z.of_nat (length evs) + Z.of_nat n < 2 ^ 32 ->
  exists g' evs' b', gen_loop uni sym n messages g = Some g' /\ gen_inv g' evs' b' /\
    Z.of_nat (length evs') = Z.max messages (Z.of_nat (length evs)).
Proof.
  revert g evs b. induction n as [|n IH]; intros g evs b I Hm Hb; cbn [gen_loop];
    rewrite (gi_count _ _ _ I).
  - rewrite decide_False by lia. eexists g, evs, b. split; [done|]. split; [done|]. lia.
  - case_decide as Hlt; [|eexists g, evs, b; split; [done|]; split; [done|lia]].
    destruct (gen_step_ok g evs b I) as (g1 & ev & b1 & E & I1); [lia|].
    rewrite E. cbn [mbind option_bind].
    destruct (IH g1 (evs ++ [ev]) b1 I1) as (g2 & evs2 & b2 & E2 & I2 & L2).
    + rewrite length_app. cbn. lia.
    + rewrite length_app. cbn. lia.
    + eexists g2, evs2, b2. split; [exact E2|]. split; [exact I2|]. rewrite L2, length_app. cbn. lia.
Qed.

Lemma gen_main_ok messages :
  0 <= messages < 2 ^ 32 - 2 ->
  exists g evs b, gen_main uni sym messages = Some g /\ gen_inv g evs b /\
    Z.of_nat (length evs) = Z.max 1 messages + 1.
Proof.
  intros Hm. unfold gen_main.
  destruct (system_step x4f gen_new [] _ gen_inv_new) as (g0 & ev0 & b0 & E0 & I0); [done|].
  rewrite E0. cbn [mbind option_bind].
  destruct (gen_loop_ok (Z.to_nat messages) messages g0 _ b0 I0) as (g1 & evs1 & b1 & E1 & I1 & L1).
  { cbn. lia. } { cbn. lia. }
  rewrite E1. cbn [mbind option_bind]. cbn in L1.
  destruct (system_step x43 g1 _ b1 I1) as (g2 & ev2 & b2 & E2 & I2); [lia|].
  eexists g2, _, b2. split; [exact E2|]. split; [exact I2|]. rewrite length_app. cbn. lia.
Qed.
End Props.

(** C23. The synthetic feed is clean.  For every sequence of random draws inside
    their ranges and every message count, the generator returns; the file is a
    sequence of frames that all decode; and the order book that applies the
    decoded events ends with exactly the generator's live orders, having seen no
    unknown reference, no price outside the band, no locked price and no crossed
    book. *)
Theorem generated_feed_clean uni sym c messages :
  in_range uni -> length sym = 8%nat -> fits (clamp_config c) -> 0 <= messages < 2 ^ 32 - 2 ->
  exists g ps evs b, gen_main uni sym messages = Some g /\
    g_out g = concat (map frame_bytes ps) /\ Forall2 decodes_to ps evs /\
    Z.of_nat (length evs) = Z.max 1 messages + 1 /\
    apply_all evs (OrderBook_new c) = Some b /\ concat (abs b) ≡ₚ order_of_live <$> live g /\
    unknown_ref (stats_ b) = 0 /\ rejected_out_of_band (stats_ b) = 0 /\
    crossed_observed (stats_ b) = 0 /\
    never_locked (clamp_config c) evs (no_orders (clamp_config c)).
Proof.
  intros Hu Hs Hf Hm. destruct (gen_main_ok c Hf uni Hu sym Hs messages Hm) as (g & evs & b & E & [] & L).
  destruct gi_file0 as (ps & Ho & Hd), gi_book0. exists g, ps, evs, b. repeat (split; [done|]). done.
Qed.

(** A random engine that always draws the least (the greatest) value. *)
Definition draw_low (k : nat) (lo hi : Z) : Z := lo.
Definition band_config : OrderBookConfig := mkConfig 999900 1000100 1 16.

Lemma band_config_fits : fits (clamp_config band_config).
Proof. split; [by apply clamp_config_ok|done..]. Qed.

Lemma generated_feed_clean_witness :
  exists g evs b, gen_main draw_low (gen_sym [x53; x59]) 12 = Some g /\
    length (live g) = 11%nat /\ Z.of_nat (length evs) = 13 /\
    apply_all evs (OrderBook_new band_config) = Some b /\
    concat (abs b) ≡ₚ order_of_live <$> live g /\ unknown_ref (stats_ b) = 0.
Proof.
  destruct (generated_feed_clean draw_low (gen_sym [x53; x59]) band_config 12)
    as (g & ps & evs & b & E & _ & _ & L & R & P & U & _).
  - intros k lo hi H. unfold draw_low. split; [apply Z.le_refl|exact H].
  - reflexivity.
  - exact band_config_fits.
  - split; [discriminate|reflexivity].
  - exists g, evs, b. split; [exact E|]. split; [|exact (conj L (conj R (conj P U)))].
    assert (length <$> (live <$> gen_main draw_low (gen_sym [x53; x59]) 12) = Some 11%nat) as H
      by (vm_compute; reflexivity).
    rewrite E in H. by injection H.
Defined.
