(* ===== verification/Pipeline.v ===== *)
(** * The two-thread pipeline

    [src/pipeline.cpp], [run_pipeline].  Thread A ([produce]) decodes frames,
    stamps them, optionally holds one back to open a sequence gap, and sends
    them through the channel; thread B ([handle]) sequences them, applies them to
    the book and publishes.  What crosses the channel ([carried]) is a list: under
    [Block] everything that was sent, in order; under [Drop] what did not meet a full
    ring, which is an input, as it depends on the two threads.  Their interleavings
    over the channel are the subject of [PipelineThreads], where every run that ends is
    shown to compute this one.

    The clock is an input: every message comes with the times the source reads
    while it handles it.  Waiting (pacing, [consumer_spin], the idle loop) has
    no effect on the data; of the pacing the decision when to wait is modelled. *)

From Stdlib Require Import SpecFloat.
From stdpp Require Import base list gmap numbers sets fin_sets.
From S2P Require Import Prelude MarketEvent ByteRead ItchParser FeedSource.
From S2P Require Import Instrumentation SpscRing OrderPool OrderBook BookSpec.
From S2P Require Import OrderBookWf OrderBookBest OrderBookRefine BookLadder.
From S2P Require Import OrderBookProps Publisher Sequencer.

Definition kRingCapacity : Z := 2 ^ 16.

Record PipelineMsg := mkMsg {
  event : MarketEvent;
  recv_ns : Z;
  sequence : Z }.

(** [pc_speed_multiplier] and [pc_offered_rate] are doubles. *)
Record PipelineConfig := mkPipeConfig {
  pc_book : OrderBookConfig;
  pc_backpressure : Backpressure;
  pc_speed_multiplier : spec_float;
  pc_offered_rate : spec_float;
  inject_gap_at : Z;
  gap_reorder_distance : Z;
  consumer_spin : Z }.

(** ** Thread A *)

Definition positive (x : spec_float) : bool := SFltb (S754_zero false) x.

(** [static_cast<std::uint64_t>(x)] of a non-negative double below [2^64]. *)
Definition trunc_f64 (x : spec_float) : Z :=
  match x with
  | S754_finite false m e => if decide (0 <= e) then Z.pos m * 2 ^ e else Z.pos m / 2 ^ (- e)
  | _ => 0
  end.

Definition rate_interval_ns (cfg : PipelineConfig) : spec_float :=
  if positive (pc_offered_rate cfg) then SFdiv 53 1024 (f64 1000000000) (pc_offered_rate cfg)
  else S754_zero false.

Definition rate_batch (cfg : PipelineConfig) : Z :=
  if positive (pc_offered_rate cfg)
  then Z.max 1 (Z.min 4096 (trunc_f64 (SFdiv 53 1024 (f64 64000) (rate_interval_ns cfg))))
  else 1.

Record Pacer := mkPacer {
  have_base : bool;
  base_event_ts : Z;
  base_wall : Z }.

(** [maybe_pace]: the time to wait for, if any; [now] is the clock. *)
Definition maybe_pace (cfg : PipelineConfig) (produced ev_ts now : Z) (p : Pacer)
    : option Z * Pacer :=
  if positive (pc_offered_rate cfg) then
    let p := if have_base p then p else mkPacer true (base_event_ts p) now in
    (if decide (produced mod rate_batch cfg = 0)
     then Some (u64 (base_wall p + trunc_f64 (SFmul 53 1024 (f64 produced) (rate_interval_ns cfg))))
     else None, p)
  else if positive (pc_speed_multiplier cfg) then
    if have_base p then
      if decide (ev_ts < base_event_ts p) then (None, p) else
      (Some (u64 (base_wall p +
         trunc_f64 (SFdiv 53 1024 (f64 (ev_ts - base_event_ts p)) (pc_speed_multiplier cfg)))), p)
    else (None, mkPacer true ev_ts now)
  else (None, p).

Record Producer := mkProducer {
  pacer : Pacer;
  produced_ : Z;
  holding : bool;
  held : PipelineMsg;
  release_at : Z;
  parse_errors : Z }.

#[export] Instance Producer_settable : Settable Producer := fun p =>
  mkProducer (pacer p) (produced_ p) (holding p) (held p) (release_at p) (parse_errors p).

Definition msg0 : PipelineMsg := mkMsg event0 0 0.

Definition Producer_new : Producer := mkProducer (mkPacer false 0 0) 0 false msg0 0 0.

(** One turn of the loop, with the times read by the pacer and for the stamp:
    what it sends. *)
Definition produce (cfg : PipelineConfig) (f : RawFrame) (now1 now2 : Z) (p : Producer)
    : option (list PipelineMsg * Producer) :=
  r ← parse (f_data f) (f_len f) event0;
  match r with
  | (Ok, ev) =>
      let p := p <| pacer := (maybe_pace cfg (produced_ p) (ev_timestamp_ns ev) now1 (pacer p)).2 |>
                 <| produced_ ::= fun n => u64 (n + 1) |> in
      let m := mkMsg ev now2 (f_sequence f) in
      if decide (inject_gap_at cfg <> 0 /\ gap_reorder_distance cfg <> 0 /\ holding p = false /\
                 f_sequence f = inject_gap_at cfg)
      then Some ([], p <| holding := true |> <| held := m |>
                       <| release_at := u64 (f_sequence f + gap_reorder_distance cfg) |>)
      else if decide (holding p = true /\ f_sequence f >= release_at p)
      then Some ([m; held p], p <| holding := false |>)
      else Some ([m], p)
  | _ => Some ([], p <| parse_errors ::= fun n => u64 (n + 1) |>)
  end.

(** The loop, and the held frame at the end of the stream. *)
Fixpoint produce_loop (cfg : PipelineConfig) (fs : list (RawFrame * Z * Z)) (p : Producer)
    : option (list PipelineMsg * Producer) :=
  match fs with
  | [] => Some (if holding p then [held p] else [], p)
  | (f, now1, now2) :: fs =>
      '(out, p) ← produce cfg f now1 now2 p;
      '(outs, p) ← produce_loop cfg fs p;
      Some (out ++ outs, p)
  end.

Definition produce_all (cfg : PipelineConfig) (fs : list (RawFrame * Z * Z))
    : option (list PipelineMsg * Producer) := produce_loop cfg fs Producer_new.

(** ** Thread B *)

Record Consumer := mkConsumer {
  c_book : OrderBook;
  c_seq : Sequencer;
  c_pub : Publisher;
  c_hist : LatencyHistogram;
  msgs : Z;
  recovery_max : Z;
  recovery_last : Z;
  gap_open_ns : Z;
  was_stale : bool }.

#[export] Instance Consumer_settable : Settable Consumer := fun c =>
  mkConsumer (c_book c) (c_seq c) (c_pub c) (c_hist c) (msgs c) (recovery_max c) (recovery_last c)
    (gap_open_ns c) (was_stale c).

Definition default_seq_config : SequencerConfig := mkSeqConfig 1 4096.

Definition Consumer_new (cfg : PipelineConfig) : option Consumer :=
  hist ← Instrumentation.init 60000000000 3;
  Some (mkConsumer (OrderBook_new (pc_book cfg)) (Sequencer_new default_seq_config) Publisher_new
    hist 0 0 0 0 false).

Abbreviation bookpub := (OrderBook * Publisher)%type.

Definition apply_ev (e : MarketEvent) (bp : bookpub) : option bookpub :=
  book ← apply e bp.1;
  '(_, pub) ← on_update book bp.2;
  Some (book, pub).

(** [while (seq.pop_ready(r)) apply_ev(r);] *)
Fixpoint pump (fuel : nat) (s : Sequencer) (bp : bookpub) : option (Sequencer * bookpub) :=
  match fuel with
  | O => Some (s, bp)
  | S fuel =>
      match pop_ready s with
      | (None, s) => Some (s, bp)
      | (Some r, s) => bp ← apply_ev r bp; pump fuel s bp
      end
  end.

(** The bookkeeping of [handle] when the stream turns stale or recovers. *)
Definition note_stale (t_gap : Z) (c : Consumer) : Consumer :=
  let st := stale_ (c_seq c) in
  let c := if st && negb (was_stale c) then c <| gap_open_ns := t_gap |> else c in
  let c := if negb st && was_stale c then
             let last := u64 (t_gap - gap_open_ns c) in
             c <| recovery_last := last |>
               <| recovery_max ::= fun x => if decide (last > x) then last else x |>
           else c in
  c <| was_stale := st |>.

(** [handle]; [t_lat] and [t_gap] are the clock readings for the latency and for
    the recovery time. *)
Definition handle (m : PipelineMsg) (t_lat t_gap : Z) (c : Consumer) : option Consumer :=
  let c := c <| msgs ::= fun n => u64 (n + 1) |> in
  let '(d, s) := offer (sequence m) (event m) (c_seq c) in
  let c := c <| c_seq := s |> in
  c ← (match d with
       | Sequencer.Apply =>
           bp ← apply_ev (event m) (c_book c, c_pub c);
           '(s, bp) ← pump (S (size (reorder_ s))) s bp;
           hist ← Instrumentation.record (u64 (t_lat - recv_ns m)) (c_hist c);
           Some (c <| c_seq := s |> <| c_book := bp.1 |> <| c_pub := bp.2 |> <| c_hist := hist |>)
       | Sequencer.Overflow =>
           book ← OrderBook.reset (c_book c);
           bp ← apply_ev (event m) (book, c_pub c);
           Some (c <| c_seq := resync_to_snapshot (sequence m) s |>
                   <| c_book := bp.1 |> <| c_pub := bp.2 |>)
       | _ => Some c
       end);
  Some (note_stale t_gap c).

Definition consume_all (ms : list (PipelineMsg * Z * Z)) (c : Consumer) : option Consumer :=
  iterM (fun x => handle x.1.1 x.1.2 x.2) ms c.

(** ** Results *)

Record PipelineResult := mkResult {
  res_book_stats : OrderBookStats;
  res_seq_stats : SequencerStats;
  res_latency : LatencySnapshot;
  res_messages : Z;
  res_parse_errors : Z;
  res_drops : Z;
  res_l1_deltas : Z;
  res_recovery_max_ns : Z;
  res_recovery_last_ns : Z;
  final_bid : BookLevel;
  final_ask : BookLevel;
  final_live_orders : Z;
  top_bids : list BookLevel;
  top_asks : list BookLevel }.

Definition assemble (p : Producer) (drops : Z) (c : Consumer) : option PipelineResult :=
  bid ← best_bid (c_book c);
  ask ← best_ask (c_book c);
  bids ← depth_bids (c_book c) 5;
  asks ← depth_asks (c_book c) 5;
  Some (mkResult (stats_ (c_book c)) (sq_stats_ (c_seq c)) (snapshot (c_hist c)) (msgs c)
    (parse_errors p) drops (l1_deltas_ (c_pub c)) (recovery_max c) (recovery_last c)
    bid ask (live_orders_ (c_book c)) bids asks).

(** The messages that enter the ring; [full i] says whether the [i]-th meets a full
    one. *)
Fixpoint entered {A} (full : nat -> bool) (ms : list A) : list A :=
  match ms with
  | [] => []
  | m :: ms => (if full O then [] else [m]) ++ entered (fun i => full (S i)) ms
  end.

(** What thread B gets of what thread A sends, and the drop counter: [Block] waits
    when the ring is full, [Drop] loses the message and counts it. *)
Definition carried {A} (policy : Backpressure) (full : nat -> bool) (ms : list A) : list A * Z :=
  match policy with
  | Block => (ms, 0)
  | SpscRing.Drop => let got := entered full ms in
      (got, u64 (Z.of_nat (length ms) - Z.of_nat (length got)))
  end.

(** A run; [clk] gives the consumer's clock readings for the [i]-th message it gets. *)
Definition run_pipeline (cfg : PipelineConfig) (fs : list (RawFrame * Z * Z)) (clk : nat -> Z * Z)
    (full : nat -> bool) : option (PipelineResult * Consumer) :=
  '(sent, p) ← produce_all cfg fs;
  c ← Consumer_new cfg;
  let '(got, drops) := carried (pc_backpressure cfg) full sent in
  c ← consume_all (imap (fun i m => (m, (clk i).1, (clk i).2)) got) c;
  r ← assemble p drops c;
  Some (r, c).

(** ** Thread B delivers what the sequencer delivers *)

Lemma pump_drain n s evs s' bp bp' :
  drain_fuel n s = (evs, s') -> iterM apply_ev evs bp = Some bp' -> pump n s bp = Some (s', bp').
Proof.
  revert s evs bp. induction n as [|n IH]; intros s evs bp; cbn [drain_fuel pump].
  { by intros [= <- <-] [= <-]. }
  destruct (pop_ready s) as [[r|] s1]; [|by intros [= <- <-] [= <-]].
  destruct (drain_fuel n s1) as [evs1 s2] eqn:E. intros [= <- <-]. cbn [iterM].
  destruct (apply_ev r bp) as [bp1|]; cbn [mbind option_bind]; [|done]. by apply IH.
Qed.

(** At most [n] latencies were recorded. *)
Definition hist_upto (h : LatencyHistogram) (n : Z) : Prop :=
  exists m vs, hist_ok h m vs /\ Z.of_nat (length vs) <= n.

Lemma note_stale_same t c :
  let c' := note_stale t c in
  c_book c' = c_book c /\ c_pub c' = c_pub c /\ c_seq c' = c_seq c /\ msgs c' = msgs c /\
  c_hist c' = c_hist c /\ was_stale c' = stale_ (c_seq c).
Proof. unfold note_stale. cbv zeta. repeat case_match; done. Qed.

Lemma handle_step m t1 t2 c outs s' bp n :
  receive (sequence m) (event m) (c_seq c) = (outs, s') -> needs_snapshot_ s' = false ->
  iterM apply_ev outs (c_book c, c_pub c) = Some bp -> hist_upto (c_hist c) n -> n + 1 < 2 ^ 64 ->
  exists c', handle m t1 t2 c = Some c' /\ (c_book c', c_pub c') = bp /\ c_seq c' = s' /\
    msgs c' = u64 (msgs c + 1) /\ hist_upto (c_hist c') (n + 1) /\ was_stale c' = stale_ s'.
Proof.
  intros Hr Hns Hbp (hm & vs & Hh & Hlen) Hn. unfold receive in Hr. unfold handle.
  cbn [c_seq rset]. destruct (offer (sequence m) (event m) (c_seq c)) as [d s1] eqn:Eo.
  assert (hist_upto (c_hist c) (n + 1)) as Hh1 by (exists hm, vs; split; [done|lia]).
  destruct d.
  - destruct (drain s1) as [evs s2] eqn:Ed. injection Hr as <- <-. unfold drain in Ed.
    cbn [iterM] in Hbp. cbn [c_book c_pub c_hist rset].
    destruct (apply_ev (event m) (c_book c, c_pub c)) as [bp1|]; cbn [mbind option_bind] in *; [|done].
    rewrite (pump_drain _ _ _ _ _ _ Ed Hbp). cbn [mbind option_bind].
    destruct (record_ok (c_hist c) hm vs (u64 (t1 - recv_ns m)) Hh) as (hist' & Er & Hh' & _); [lia|].
    rewrite Er. cbn [mbind option_bind]. destruct bp as [book' pub'].
    assert (hist_upto hist' (n + 1)) by (eexists hm, _; split; [done|cbn [length]; lia]).
    eexists. split; [done|].
    edestruct note_stale_same as (E1 & E2 & E3 & E4 & E5 & E6).
    rewrite E1, E2, E3, E4, E5, E6. done.
  - injection Hr as <- <-. injection Hbp as <-. cbn [mbind option_bind c_seq rset].
    eexists. split; [done|]. edestruct note_stale_same as (E1 & E2 & E3 & E4 & E5 & E6).
    rewrite E1, E2, E3, E4, E5, E6. done.
  - injection Hr as <- <-. injection Hbp as <-. cbn [mbind option_bind c_seq rset].
    eexists. split; [done|]. edestruct note_stale_same as (E1 & E2 & E3 & E4 & E5 & E6).
    rewrite E1, E2, E3, E4, E5, E6. done.
  - exfalso. injection Hr as <- <-. revert Eo. unfold offer. repeat (case_decide; [done|]).
    case_decide; [|done]. intros [= <-]. done.
Qed.

Lemma iterM_app_some {A S} (f : A -> S -> option S) l1 l2 s s2 :
  iterM f (l1 ++ l2) s = Some s2 -> exists s1, iterM f l1 s = Some s1 /\ iterM f l2 s1 = Some s2.
Proof.
  revert s. induction l1 as [|x l1 IH]; cbn; intros s; [by eauto|].
  destruct (f x s); cbn; [apply IH|done].
Qed.

(** The consumer over a list of messages whose numbers stay in the window: it
    applies the messages of the numbers [e], ..., in order. *)
Lemma consume_ok msg ms c start e R bp n :
  seq_inv msg (c_seq c) start e R -> sq_cfg_ (c_seq c) = default_seq_config ->
  (forall x, x ∈ ms -> event x.1.1 = msg (sequence x.1.1)) ->
  windowed start 4096 ((fun x => sequence x.1.1) <$> ms) (e, R) ->
  let e' := (a_receive_all ((fun x => sequence x.1.1) <$> ms) (e, R)).1 in
  iterM apply_ev (msg <$> seqZ e (e' - e)) (c_book c, c_pub c) = Some bp ->
  hist_upto (c_hist c) n -> msgs c = n -> 0 <= n -> n + Z.of_nat (length ms) < 2 ^ 64 ->
  exists c', consume_all ms c = Some c' /\ (c_book c', c_pub c') = bp /\
    seq_inv msg (c_seq c') start e' (a_receive_all ((fun x => sequence x.1.1) <$> ms) (e, R)).2 /\
    msgs c' = n + Z.of_nat (length ms) /\ hist_upto (c_hist c') (n + Z.of_nat (length ms)).
Proof.
  revert c e R n. induction ms as [|[[m t1] t2] ms IH]; intros c e R n I Hcfg Hev Hw e' Hbp Hh Hm Hn Hb.
  { unfold e' in *. cbn in Hbp. rewrite Z.sub_diag in Hbp. cbn in Hbp. injection Hbp as <-.
    exists c. cbn. rewrite Z.add_0_r. repeat (split; [done|]). done. }
  cbn [fmap list_fmap windowed fst snd] in Hw. destruct Hw as [[Hq Hwin] Hw]. cbn [fst] in Hwin.
  cbn [length] in Hb.
  destruct (seq_receive msg (c_seq c) start e R (sequence m) I) as (e1 & s1 & Er & Hle & I1 & C1);
    [lia|lia|rewrite Hcfg; cbn; lia|rewrite Hcfg; cbn; lia|].
  destruct (a_receive_step msg (c_seq c) start e R (sequence m) e1 s1 I I1) as [I2 Ee]; [lia|].
  unfold e', a_receive_all in *. cbn [fmap list_fmap fold_left fst snd] in *.
  destruct (a_receive (sequence m) (e, R)) as [e2 R2] eqn:Ea. cbn [fst snd] in *. subst e1.
  assert (e2 <= (a_receive_all ((fun x => sequence x.1.1) <$> ms) (e2, R2)).1) as Hle2.
  { destruct (receive_all_ok msg ((fun x => sequence x.1.1) <$> ms) s1 start e2 R2 I2) as (? & _ & ? & _);
      [rewrite C1, Hcfg; cbn; lia|rewrite C1, Hcfg; exact Hw|done]. }
  unfold a_receive_all in Hle2. set (e3 := (fold_left _ _ (e2, R2)).1) in *.
  replace (e3 - e) with ((e2 - e) + (e3 - e2)) in Hbp by lia.
  rewrite seqZ_app, fmap_app in Hbp by lia. replace (e + (e2 - e)) with e2 in Hbp by lia.
  apply iterM_app_some in Hbp as (bp1 & Hbp1 & Hbp2).
  assert (event m = msg (sequence m)) as Hem by (apply (Hev (m, t1, t2)); by left).
  destruct (handle_step m t1 t2 c (msg <$> seqZ e (e2 - e)) s1 bp1 n) as (c1 & E1 & B1 & S1 & M1 & H1 & _);
    [by rewrite Hem|apply I1|exact Hbp1|done|lia|].
  unfold consume_all. cbn [iterM fst snd]. rewrite E1. cbn [mbind option_bind].
  destruct (IH c1 e2 R2 (n + 1)) as (c' & E & B & Is & M & Hh'); try done.
  - by rewrite S1.
  - by rewrite S1, C1.
  - intros x Hx. apply Hev. by right.
  - by rewrite B1.
  - rewrite M1, Hm. unfold u64. rewrite wrap_small; [done|unfold in_u; lia].
  - lia.
  - lia.
  - exists c'. split; [exact E|]. split; [done|]. split; [exact Is|].
    cbn [length]. split; [lia|]. replace (n + Z.of_nat (S (length ms))) with (n + 1 + Z.of_nat (length ms)) by lia.
    done.
Qed.

(** ** What thread A sends *)

(** A frame that does not decode. *)
Definition undecodable (f : RawFrame) : Prop :=
  exists st e, parse (f_data f) (f_len f) event0 = Some (st, e) /\ st <> Ok.

Section Sends.
Context (cfg : PipelineConfig) (msg : Z -> MarketEvent).
Notation g := (inject_gap_at cfg).
Notation d := (gap_reorder_distance cfg).

(** Frames numbered [n], [n + 1], ... that decode to the events [msg] gives. *)
Fixpoint decodes (n : Z) (fs : list (RawFrame * Z * Z)) : Prop :=
  match fs with
  | [] => True
  | (f, _, _) :: fs =>
      f_sequence f = n /\ parse (f_data f) (f_len f) event0 = Some (Ok, msg n) /\
      0 <= f_len f <= Z.of_nat (length (f_data f)) /\ decodes (n + 1) fs
  end.

(** Messages carry the event of their number. *)
Definition carries (ms : list PipelineMsg) : Prop :=
  forall m, m ∈ ms -> event m = msg (sequence m).

Definition active : Prop := g <> 0 /\ d <> 0.

(** Sending [fs] from [p] gives messages numbered [qs]. *)
Definition sends (fs : list (RawFrame * Z * Z)) (p : Producer) (qs : list Z) : Prop :=
  exists ms p', produce_loop cfg fs p = Some (ms, p') /\ sequence <$> ms = qs /\ carries ms /\
    parse_errors p' = parse_errors p.

Lemma sends_cons f n1 n2 fs p out p1 qs :
  produce cfg f n1 n2 p = Some (out, p1) -> carries out -> parse_errors p1 = parse_errors p ->
  sends fs p1 qs -> sends ((f, n1, n2) :: fs) p ((sequence <$> out) ++ qs).
Proof.
  intros E Hc Hp (ms & p' & E' & Hq & Hc' & Hp'). exists (out ++ ms), p'.
  cbn [produce_loop]. rewrite E. cbn [mbind option_bind]. rewrite E'. cbn [mbind option_bind].
  split; [done|]. rewrite fmap_app, Hq. split; [done|]. split; [|congruence].
  intros m [?|?]%elem_of_app; auto.
Qed.

(** Nothing is held and the gap is not ahead: the frames go out as they come. *)
Lemma sends_plain fs n p :
  decodes n fs -> holding p = false -> (active -> g < n) -> sends fs p (seqZ n (Z.of_nat (length fs))).
Proof.
  revert n p. induction fs as [|[[f n1] n2] fs IH]; intros n p Hd Hp Hg.
  { exists [], p. cbn. rewrite Hp. repeat (split; [done|]). split; [|done]. by intros m ?%elem_of_nil. }
  destruct Hd as (Hn & Hparse & _ & Hd). cbn [length].
  rewrite (seqZ_cons n) by lia. replace (Z.pred (Z.of_nat (S (length fs)))) with (Z.of_nat (length fs)) by lia.
  change (n :: ?l) with ([n] ++ l).
  assert (carries [mkMsg (msg n) n2 n]) as Hc by (by intros m ->%list_elem_of_singleton).
  unfold produce. refine (sends_cons f n1 n2 fs p [mkMsg (msg n) n2 n] _ _ _ Hc _ _).
  - unfold produce. rewrite Hparse. cbn [mbind option_bind]. rewrite decide_False.
    + rewrite decide_False by (cbn; rewrite Hp; by intros []). rewrite Hn. reflexivity.
    + intros (H1 & H2 & _ & H3). specialize (Hg (conj H1 H2)). lia.
  - done.
  - apply IH; [done|done|]. intros Ha%Hg. lia.
Qed.

(** The held frame of the gap goes out behind the frame numbered [g + d], or at
    the end. *)
Lemma sends_holding fs n p :
  decodes n fs -> holding p = true -> event (held p) = msg g -> sequence (held p) = g ->
  release_at p = g + d -> g < n <= g + d ->
  let j := Z.min (Z.of_nat (length fs)) (g + d - n + 1) in
  sends fs p (seqZ n j ++ [g] ++ seqZ (n + j) (Z.of_nat (length fs) - j)).
Proof.
  revert n p. induction fs as [|[[f n1] n2] fs IH]; intros n p Hd Hp He Hs Hr Hn j.
  { exists [held p], p. unfold j. cbn [produce_loop length]. rewrite Hp. split; [done|].
    rewrite Z.min_l by lia. cbn. rewrite Hs. split; [done|]. split; [|done].
    intros m ->%list_elem_of_singleton. congruence. }
  destruct Hd as (Hq & Hparse & _ & Hd). cbn [length] in *.
  assert (forall p', sends fs p' (seqZ (n + 1) (Z.of_nat (length fs))) -> True) as _ by done.
  assert (carries [mkMsg (msg n) n2 n]) as Hc by (by intros m ->%list_elem_of_singleton).
  rewrite (seqZ_cons n) by lia.
  destruct (decide (n = g + d)) as [Hrel|Hrel].
  - assert (j = 1) as -> by lia. change (Z.pred 1) with 0. cbn [app seqZ]. change (seqZ (Z.succ n) 0) with (@nil Z).
    replace (Z.of_nat (S (length fs)) - 1) with (Z.of_nat (length fs)) by lia.
    change (n :: ([] ++ g :: ?l)) with ([n; g] ++ l).
    replace [n; g] with (sequence <$> [mkMsg (msg n) n2 n; held p]) by (cbn; by rewrite Hs).
    eapply sends_cons.
    + unfold produce. rewrite Hparse. cbn [mbind option_bind]. rewrite decide_False.
      * rewrite decide_True; [rewrite Hq; reflexivity|]. cbn. rewrite Hp, Hr, Hq. split; [done|lia].
      * intros (_ & _ & Hf & _). cbn in Hf. congruence.
    + intros m [Em|Em%list_elem_of_singleton]%elem_of_cons; subst m; [done|congruence].
    + done.
    + apply sends_plain; [done|done|lia].
  - set (j' := Z.min (Z.of_nat (length fs)) (g + d - (n + 1) + 1)).
    assert (j = j' + 1) as -> by lia. replace (Z.pred (j' + 1)) with j' by lia.
    replace (Z.of_nat (S (length fs)) - (j' + 1)) with (Z.of_nat (length fs) - j') by lia.
    replace (n + (j' + 1)) with (n + 1 + j') by lia.
    change (Z.succ n) with (n + 1). change ((n :: ?l) ++ ?k) with ([n] ++ (l ++ k)).
    change [n] with (sequence <$> [mkMsg (msg n) n2 n]).
    eapply sends_cons; [|exact Hc| |].
    + unfold produce. rewrite Hparse. cbn [mbind option_bind]. rewrite decide_False.
      * rewrite decide_False; [rewrite Hq; reflexivity|]. cbn. rewrite Hp, Hr, Hq. intros []. lia.
      * intros (_ & _ & Hf & _). cbn in Hf. congruence.
    + done.
    + apply IH; try done. lia.
Qed.

(** The whole stream, with the gap ahead. *)
Lemma sends_gap fs n p :
  decodes n fs -> holding p = false -> active -> n <= g < n + Z.of_nat (length fs) ->
  0 <= g -> 1 <= d -> g + d < 2 ^ 64 ->
  let j := Z.min (n + Z.of_nat (length fs) - 1 - g) d in
  sends fs p (seqZ n (g - n) ++ seqZ (g + 1) j ++ [g] ++
    seqZ (g + 1 + j) (n + Z.of_nat (length fs) - 1 - g - j)).
Proof.
  revert n p. induction fs as [|[[f n1] n2] fs IH]; intros n p Hd Hp Ha Hg H0 Hd1 Hb j.
  { cbn in Hg. lia. }
  destruct Hd as (Hq & Hparse & _ & Hd). cbn [length] in *.
  destruct (decide (n = g)) as [->|Hne].
  - rewrite Z.sub_diag. change (seqZ g 0) with (@nil Z). cbn [app].
    set (p1 := p <| pacer := (maybe_pace cfg (produced_ p) (ev_timestamp_ns (msg g)) n1 (pacer p)).2 |>
                 <| produced_ ::= fun n => u64 (n + 1) |>).
    set (p2 := p1 <| holding := true |> <| held := mkMsg (msg g) n2 g |>
                  <| release_at := u64 (g + d) |>).
    assert (produce cfg f n1 n2 p = Some ([], p2)) as E.
    { unfold produce. rewrite Hparse. cbn [mbind option_bind]. rewrite Hq.
      rewrite decide_True; [done|]. destruct Ha. done. }
    change (seqZ (g + 1) j ++ ?x) with ((sequence <$> []) ++ (seqZ (g + 1) j ++ x)).
    eapply sends_cons; [exact E|by intros m ?%elem_of_nil|done|].
    assert (u64 (g + d) = g + d) as Eu by (unfold u64; rewrite wrap_small; [lia|unfold in_u; lia]).
    pose proof (sends_holding fs (g + 1) p2) as S. cbv zeta in S.
    replace (Z.min (Z.of_nat (length fs)) (g + d - (g + 1) + 1)) with j in S by lia.
    replace (g + Z.of_nat (Datatypes.S (length fs)) - 1 - g - j) with (Z.of_nat (length fs) - j) by lia.
    apply S; try done. lia.
  - rewrite (seqZ_cons n) by lia. replace (Z.pred (g - n)) with (g - (n + 1)) by lia.
    change ((n :: ?l) ++ ?k) with ([n] ++ (l ++ k)). change [n] with (sequence <$> [mkMsg (msg n) n2 n]).
    eapply sends_cons.
    + unfold produce. rewrite Hparse. cbn [mbind option_bind]. rewrite decide_False.
      * rewrite decide_False by (cbn; rewrite Hp; by intros []). rewrite Hq. reflexivity.
      * intros (_ & _ & _ & H3). lia.
    + by intros m ->%list_elem_of_singleton.
    + done.
    + change (Z.succ n) with (n + 1). unfold j. clear j.
      replace (n + Z.of_nat (Datatypes.S (length fs))) with (n + 1 + Z.of_nat (length fs)) in * by lia.
      apply IH; try done. lia.
Qed.
(** Sending with one frame that does not decode. *)
Lemma sends_bad fs1 f n1 n2 fs2 n k p :
  decodes n fs1 -> ~ active -> holding p = false -> parse_errors p = 0 ->
  undecodable f -> decodes k fs2 ->
  exists ms p', produce_loop cfg (fs1 ++ (f, n1, n2) :: fs2) p = Some (ms, p') /\
    sequence <$> ms = seqZ n (Z.of_nat (length fs1)) ++ seqZ k (Z.of_nat (length fs2)) /\
    carries ms /\ parse_errors p' = 1.
Proof.
  intros Hd1 Ha. revert n p Hd1. induction fs1 as [|[[f1 t1] t2] fs1 IH]; intros n p Hd1 Hp Hpe Hbad Hd2.
  - destruct Hbad as (st & e & Hpar & Hst).
    set (p1 := p <| parse_errors ::= fun n => u64 (n + 1) |>).
    assert (produce cfg f n1 n2 p = Some ([], p1)) as E.
    { unfold produce. rewrite Hpar. cbn [mbind option_bind]. by destruct st. }
    destruct (sends_plain fs2 k p1 Hd2) as (ms & p' & E2 & Hq & Hc & Hpe'); [done|done|].
    cbn [app produce_loop]. rewrite E. cbn [mbind option_bind]. rewrite E2. cbn [mbind option_bind].
    exists ms, p'. split; [done|]. split; [done|]. split; [done|].
    rewrite Hpe'. unfold p1. cbn. by rewrite Hpe.
  - destruct Hd1 as (Hn & Hpar & _ & Hd1). cbn [app produce_loop length].
    set (p1 := p <| pacer := (maybe_pace cfg (produced_ p) (ev_timestamp_ns (msg n)) t1 (pacer p)).2 |>
                 <| produced_ ::= fun n => u64 (n + 1) |>).
    assert (produce cfg f1 t1 t2 p = Some ([mkMsg (msg n) t2 n], p1)) as E.
    { unfold produce. rewrite Hpar. cbn [mbind option_bind]. rewrite decide_False.
      - rewrite decide_False by (cbn; rewrite Hp; by intros []). by rewrite Hn.
      - intros (H1 & H2 & _). by apply Ha. }
    rewrite E. cbn [mbind option_bind].
    destruct (IH (n + 1) p1) as (ms & p' & E2 & Hq & Hc & Hpe'); [done..|].
    rewrite E2. cbn [mbind option_bind]. eexists _, p'. split; [done|]. cbn [app fmap list_fmap sequence].
    rewrite Hq, (seqZ_cons n) by lia.
    replace (Z.pred (Z.of_nat (S (length fs1)))) with (Z.of_nat (length fs1)) by lia.
    split; [done|]. split; [|done]. intros m [->|?]%elem_of_cons; [done|auto].
Qed.
End Sends.

(** ** The window of the arrivals *)

Section Window.
Context (start cap : Z) (Hcap : 1 <= cap).

Lemma a_receive_spec q e R e' :
  e <= q -> first_missing e ({[q]} ∪ R) e' -> a_receive q (e, R) = (e', {[q]} ∪ R).
Proof.
  intros Hq Hf. unfold a_receive. rewrite decide_False by lia. f_equal.
  eapply first_missing_unique; [|exact Hf]. apply advance_first. lia.
Qed.

Lemma windowed_app l1 l2 st :
  windowed start cap l1 st -> windowed start cap l2 (a_receive_all l1 st) ->
  windowed start cap (l1 ++ l2) st.
Proof.
  revert st. induction l1 as [|q l1 IH]; intros st H1 H2; [done|].
  destruct H1 as [? H1]. split; [done|]. by apply IH.
Qed.

Lemma a_receive_all_app l1 l2 st :
  a_receive_all (l1 ++ l2) st = a_receive_all l2 (a_receive_all l1 st).
Proof. unfold a_receive_all. apply fold_left_app. Qed.

(** Numbers in order. *)
Lemma window_run k e R :
  (forall x, x ∈ R -> x < e) -> start <= e -> e + Z.of_nat k < 2 ^ 64 ->
  exists R', windowed start cap (seqZ e (Z.of_nat k)) (e, R) /\
    a_receive_all (seqZ e (Z.of_nat k)) (e, R) = (e + Z.of_nat k, R') /\
    forall x, x ∈ R' -> x < e + Z.of_nat k.
Proof.
  revert e R. induction k as [|k IH]; intros e R HR Hs Hb.
  { exists R. cbn. rewrite Z.add_0_r. done. }
  rewrite (seqZ_cons e) by lia. replace (Z.pred (Z.of_nat (S k))) with (Z.of_nat k) by lia.
  change (Z.succ e) with (e + 1).
  assert (a_receive e (e, R) = (e + 1, {[e]} ∪ R)) as Ea.
  { apply a_receive_spec; [done|]. split; [lia|]. split.
    - intros [?%elem_of_singleton|?%HR]%elem_of_union; lia.
    - intros x Hx. assert (x = e) as -> by lia. set_solver. }
  destruct (IH (e + 1) ({[e]} ∪ R)) as (R' & W & A & HR'); [|lia|lia|].
  { intros x [->%elem_of_singleton|?%HR]%elem_of_union; lia. }
  exists R'. cbn [windowed fst]. rewrite Ea. unfold a_receive_all in *. cbn [fold_left].
  rewrite Ea, A. replace (e + Z.of_nat (S k)) with (e + 1 + Z.of_nat k) by lia.
  split; [split; [lia|done]|done].
Qed.

(** Numbers behind the missing [e]. *)
Lemma window_hole k e q R :
  (forall x, x ∈ R <-> x < e /\ x ∈ R \/ e < x < q) -> start <= e -> e < q ->
  q + Z.of_nat k <= e + cap -> q + Z.of_nat k < 2 ^ 64 ->
  exists R', windowed start cap (seqZ q (Z.of_nat k)) (e, R) /\
    a_receive_all (seqZ q (Z.of_nat k)) (e, R) = (e, R') /\
    forall x, x ∈ R' <-> x < e /\ x ∈ R' \/ e < x < q + Z.of_nat k.
Proof.
  revert q R. induction k as [|k IH]; intros q R HR Hs Hq Hc Hb.
  { exists R. cbn. rewrite Z.add_0_r. done. }
  rewrite (seqZ_cons q) by lia. replace (Z.pred (Z.of_nat (S k))) with (Z.of_nat k) by lia.
  change (Z.succ q) with (q + 1).
  assert (a_receive q (e, R) = (e, {[q]} ∪ R)) as Ea.
  { apply a_receive_spec; [lia|]. split; [lia|]. split; [|lia].
    intros [?%elem_of_singleton|Hx]%elem_of_union; [lia|]. apply HR in Hx as [[? _]|?]; lia. }
  destruct (IH (q + 1) ({[q]} ∪ R)) as (R' & W & A & HR'); [|lia..|].
  { intros x. rewrite elem_of_union, elem_of_singleton, (HR x).
    destruct (decide (x = q)) as [->|]; [intuition lia|]. intuition lia. }
  exists R'. cbn [windowed fst]. rewrite Ea. unfold a_receive_all in *. cbn [fold_left].
  rewrite Ea, A. replace (q + Z.of_nat (S k)) with (q + 1 + Z.of_nat k) by lia.
  split; [split; [lia|done]|done].
Qed.

(** The missing number arrives. *)
Lemma window_fill e q R :
  (forall x, x ∈ R <-> x < e /\ x ∈ R \/ e < x < q) -> start <= e < 2 ^ 64 - 1 -> e < q ->
  windowed start cap [e] (e, R) /\ a_receive_all [e] (e, R) = (q, {[e]} ∪ R) /\
  forall x, x ∈ ({[e]} ∪ R : gset Z) -> x < q.
Proof.
  intros HR Hs Hq. split; [split; [cbn; lia|done]|]. split.
  - unfold a_receive_all. cbn [fold_left]. apply a_receive_spec; [lia|]. split; [lia|].
    split.
    + intros [?%elem_of_singleton|Hx]%elem_of_union; [lia|]. apply HR in Hx as [[? _]|?]; lia.
    + intros x Hx. apply elem_of_union. destruct (decide (x = e)) as [->|]; [set_solver|right].
      apply HR. lia.
  - intros x [->%elem_of_singleton|Hx]%elem_of_union; [lia|]. apply HR in Hx as [[? _]|?]; lia.
Qed.
End Window.

(** Nothing is in the received set that did not arrive. *)
Lemma received_elem qs st q :
  q ∈ (a_receive_all qs st).2 -> q ∈ st.2 \/ q ∈ qs.
Proof.
  revert st. induction qs as [|x qs IH]; intros st Hq; [by left|].
  unfold a_receive_all in *. cbn [fold_left] in Hq. apply IH in Hq as [Hq|Hq]; [|right; by right].
  destruct st as [e R]. unfold a_receive in Hq. case_decide; cbn [snd] in *; [by left|].
  apply elem_of_union in Hq as [->%elem_of_singleton|?]; [right; by left|by left].
Qed.

(** The order in which a gap of distance [j] at [g] sends [1 .. n]. *)
Definition gap_order (g j n : Z) : list Z :=
  seqZ 1 (g - 1) ++ seqZ (g + 1) j ++ [g] ++ seqZ (g + 1 + j) (n - g - j).

Lemma gap_order_window g j n cap :
  1 <= g -> 0 <= j -> g + j <= n -> n < 2 ^ 64 - 1 -> j < cap ->
  windowed 1 cap (gap_order g j n) (1, ∅) /\
  (a_receive_all (gap_order g j n) (1, ∅)).1 = n + 1.
Proof.
  intros Hg Hj Hn Hb Hc. unfold gap_order.
  destruct (window_run 1 cap ltac:(lia) (Z.to_nat (g - 1)) 1 ∅) as (R1 & W1 & A1 & H1);
    [set_solver|lia|lia|]. rewrite Z2Nat.id in * by lia. replace (1 + (g - 1)) with g in * by lia.
  destruct (window_hole 1 cap (Z.to_nat j) g (g + 1) R1) as (R2 & W2 & A2 & H2);
    [|lia..|].
  { intros x. split; [intros Hx; left; split; [by apply H1|done]|]. intros [[_ ?]|?]; [done|lia]. }
  rewrite Z2Nat.id in * by lia.
  destruct (window_fill 1 cap ltac:(lia) g (g + 1 + j) R2) as (W3 & A3 & H3); [done|lia|lia|].
  destruct (window_run 1 cap ltac:(lia) (Z.to_nat (n - g - j)) (g + 1 + j) ({[g]} ∪ R2))
    as (R4 & W4 & A4 & H4); [done|lia|lia|]. rewrite Z2Nat.id in * by lia.
  rewrite !a_receive_all_app, A1, A2, A3, A4. cbn [fst]. split; [|lia].
  repeat (apply windowed_app; rewrite ?A1, ?A2, ?A3; try done).
Qed.

(** ** The book behind the pipeline *)

Lemma apply_evs_ok evs b p :
  wf b -> top_ok b -> sizes_ok evs -> live_orders_ b + Z.of_nat (length evs) < 2 ^ 32 ->
  never_locked (cfg_ b) evs (abs b) ->
  exists bp, iterM apply_ev evs (b, p) = Some bp /\ wf bp.1 /\ top_ok bp.1 /\ cfg_ bp.1 = cfg_ b /\
    abs bp.1 = a_apply_all (cfg_ b) evs (abs b).
Proof.
  revert b p. induction evs as [|ev evs IH]; intros b p W T Hs Hb Hn.
  { exists (b, p). done. }
  apply list.Forall_cons in Hs as [Hsz Hs]. destruct Hn as [Hu Hn]. cbn [length] in Hb.
  destruct (apply_step b ev W Hsz) as (b1 & E & []); [lia|]. specialize (bs_top T Hu).
  destruct bs_top as [Hsd Hbo]. pose proof bs_wf as (pss & free & W1).
  pose proof (wf_shows _ _ _ W1 Hsd) as Hsh.
  destruct (on_update_ok b1 p (l1 (a_best (a_bids (cfg_ b1) (abs b1))), l1 (a_best (a_asks (cfg_ b1) (abs b1)))))
    as (p1 & Eu & _).
  { unfold top. by rewrite (best_bid_spec b1 (abs b1) Hsh Hbo), (best_ask_spec b1 (abs b1) Hsh Hbo). }
  assert (apply_ev ev (b, p) = Some (b1, p1)) as E1.
  { unfold apply_ev. cbn [fst snd]. rewrite E. cbn [mbind option_bind]. by rewrite Eu. }
  cbn [iterM]. rewrite E1. cbn [mbind option_bind].
  destruct (IH b1 p1) as (bp & E' & W' & T' & C' & A'); [done|done|done|lia| |].
  { by rewrite bs_cfg, bs_abs. }
  exists bp. split; [exact E'|]. rewrite bs_cfg, bs_abs in *. done.
Qed.

Lemma Consumer_new_ok cfg :
  exists c, Consumer_new cfg = Some c /\ c_book c = OrderBook_new (pc_book cfg) /\
    c_pub c = Publisher_new /\ c_seq c = Sequencer_new default_seq_config /\ msgs c = 0 /\
    hist_upto (c_hist c) 0.
Proof.
  unfold Consumer_new. destruct (init_hist_ok 60000000000 3) as (h & m & E & H & _);
    [split; [discriminate|reflexivity]|lia|].
  rewrite E. cbn [mbind option_bind]. eexists. split; [done|]. repeat (split; [done|]).
  exists m, []. split; [exact H|cbn; lia].
Qed.

(** The consumer's input, with its clock readings. *)
Definition timed (clk : nat -> Z * Z) (ms : list PipelineMsg) : list (PipelineMsg * Z * Z) :=
  imap (fun i m => (m, (clk i).1, (clk i).2)) ms.

Lemma timed_seq clk ms : (fun x => sequence x.1.1) <$> timed clk ms = sequence <$> ms.
Proof.
  unfold timed. revert clk. induction ms as [|m ms IH]; intros clk; [done|]. cbn. f_equal.
  apply (IH (fun i => clk (S i))).
Qed.

Lemma timed_length clk ms : length (timed clk ms) = length ms.
Proof. apply length_imap. Qed.

Lemma timed_elem clk ms x : x ∈ timed clk ms -> x.1.1 ∈ ms.
Proof.
  intros (i & m & -> & Hm)%elem_of_lookup_imap. cbn. by eapply list_elem_of_lookup_2.
Qed.

(** A run whose sent numbers stay in the window: thread B ends with the book of
    the events up to the first missing number. *)
Lemma run_window cfg msg fs clk full ms p e :
  pc_backpressure cfg = Block -> cfg_ok (clamp_config (pc_book cfg)) -> produce_all cfg fs = Some (ms, p) -> carries msg ms ->
  windowed 1 4096 (sequence <$> ms) (1, ∅) ->
  (a_receive_all (sequence <$> ms) (1, ∅)).1 = e ->
  let evs := msg <$> seqZ 1 (e - 1) in
  sizes_ok evs -> e < 2 ^ 32 -> Z.of_nat (length ms) < 2 ^ 32 ->
  never_locked (clamp_config (pc_book cfg)) evs (no_orders (clamp_config (pc_book cfg))) ->
  let c' := clamp_config (pc_book cfg) in
  let ls := a_apply_all c' evs (no_orders c') in
  exists r c, run_pipeline cfg fs clk full = Some (r, c) /\ abs (c_book c) = ls /\
    seq_inv msg (c_seq c) 1 e (a_receive_all (sequence <$> ms) (1, ∅)).2 /\
    res_messages r = Z.of_nat (length ms) /\ res_parse_errors r = parse_errors p /\
    final_live_orders r = Z.of_nat (length (concat ls)) /\ res_drops r = 0 /\
    final_bid r = a_best (a_bids c' ls) /\ final_ask r = a_best (a_asks c' ls) /\
    top_bids r = take 5 (a_bids c' ls) /\ top_asks r = take 5 (a_asks c' ls).
Proof.
  intros Hpol Hc Ep Hcar Hw He evs Hs Hb Hlen Hn c' ls.
  destruct (Consumer_new_ok cfg) as (c0 & E0 & B0 & P0 & S0 & M0 & H0).
  assert (seq_inv msg (c_seq c0) 1 1 ∅) as I0.
  { rewrite S0. apply fresh_inv; [apply (fresh_new default_seq_config)|lia]. }
  assert (1 <= e) as He1.
  { destruct (receive_all_ok msg (sequence <$> ms) (c_seq c0) 1 1 ∅ I0) as (? & _ & ? & _);
      [rewrite S0; cbn; lia|rewrite S0; exact Hw|lia]. }
  destruct (apply_evs_ok evs (OrderBook_new (pc_book cfg)) Publisher_new)
    as (bp & Ebp & W & T & C & A).
  - by apply new_wf.
  - by apply new_top.
  - done.
  - unfold evs. rewrite length_fmap, length_seqZ. cbn [live_orders_ OrderBook_new]. lia.
  - by rewrite new_abs.
  - rewrite new_abs in A by done.
    destruct (consume_ok msg (timed clk ms) c0 1 1 ∅ bp 0) as (c & E & Bc & Is & Mc & _).
    + done.
    + by rewrite S0.
    + intros x Hx. by apply Hcar, (timed_elem clk).
    + by rewrite timed_seq.
    + rewrite timed_seq, He, B0, P0. exact Ebp.
    + done.
    + done.
    + lia.
    + rewrite timed_length. lia.
    + rewrite timed_seq, He in Is. rewrite timed_length in Mc.
      assert (c_book c = bp.1) as Eb by (rewrite <- Bc; done).
      pose proof (wf_live_abs _ W) as Lv.
      destruct W as (pss & free & W). destruct T as [Hsd Hbo].
      pose proof (wf_shows _ _ _ W Hsd) as Hsh.
      unfold run_pipeline. rewrite Ep. cbn [mbind option_bind]. rewrite E0. cbn [mbind option_bind].
      rewrite Hpol. cbn [carried].
      change (imap _ ms) with (timed clk ms). rewrite E. cbn [mbind option_bind].
      unfold assemble. rewrite Eb, (best_bid_spec _ _ Hsh Hbo), (best_ask_spec _ _ Hsh Hbo).
      cbn [mbind option_bind].
      rewrite (depth_bids_spec _ _ Hsh Hbo), (depth_asks_spec _ _ Hsh Hbo). cbn [mbind option_bind].
      eexists _, c. split; [done|]. rewrite Eb. split; [exact A|]. split; [exact Is|].
      cbn [res_messages res_parse_errors res_drops final_live_orders final_bid final_ask top_bids top_asks].
      rewrite Lv, A, C. split; [lia|]. repeat (split; [reflexivity|]). reflexivity.
Qed.

Lemma decodes_sizes msg n fs : decodes msg n fs -> sizes_ok (msg <$> seqZ n (Z.of_nat (length fs))).
Proof.
  revert n. induction fs as [|[[f n1] n2] fs IH]; intros n Hd; [constructor|].
  destruct Hd as (_ & Hp & Hl & Hd). cbn [length]. rewrite (seqZ_cons n) by lia.
  replace (Z.pred (Z.of_nat (S (length fs)))) with (Z.of_nat (length fs)) by lia.
  constructor; [|by apply IH].
  destruct (parse_total (f_data f) (f_len f) event0 Hl) as (st & e & E & Hres).
  rewrite Hp in E. injection E as <- <-. destruct Hres as (b & _ & _ & _ & Hok).
  unfold event_ok in Hok. tauto.
Qed.


(** A whole run of the pipeline, with the book it ends with. *)
Lemma run_ends cfg msg fs clk full :
  let n := Z.of_nat (length fs) in
  let c' := clamp_config (pc_book cfg) in
  let evs := msg <$> seqZ 1 n in
  let ls := a_apply_all c' evs (no_orders c') in
  pc_backpressure cfg = Block -> cfg_ok c' -> decodes msg 1 fs -> n < 2 ^ 32 - 1 -> never_locked c' evs (no_orders c') ->
  (active cfg -> 1 <= inject_gap_at cfg <= n /\ 1 <= gap_reorder_distance cfg < 4096) ->
  exists r c, run_pipeline cfg fs clk full = Some (r, c) /\ abs (c_book c) = ls /\
    final_live_orders r = Z.of_nat (length (concat ls)) /\ res_drops r = 0 /\
    final_bid r = a_best (a_bids c' ls) /\ final_ask r = a_best (a_asks c' ls) /\
    top_bids r = take 5 (a_bids c' ls) /\ top_asks r = take 5 (a_asks c' ls) /\
    res_messages r = n /\ res_parse_errors r = 0 /\
    expected_ (c_seq c) = n + 1 /\ stale_ (c_seq c) = false.
Proof.
  intros n c' evs ls Hpol Hc Hd Hn Hlk Hg.
  assert (exists qs, sends cfg msg fs Producer_new qs /\ windowed 1 4096 qs (1, ∅) /\
    (a_receive_all qs (1, ∅)).1 = n + 1 /\ Z.of_nat (length qs) = n /\
    forall q, q ∈ qs -> q < n + 1) as (qs & (ms & p & E & Eqs & Hcar & Hpe) & Hw & He & Hlen & Hqs).
  { destruct (decide (inject_gap_at cfg <> 0 /\ gap_reorder_distance cfg <> 0)) as [Ha|Ha].
    - destruct (Hg Ha) as [Hg1 Hd1].
      set (g := inject_gap_at cfg) in *. set (d := gap_reorder_distance cfg) in *.
      exists (gap_order g (Z.min (n - g) d) n). split; [|split; [|split; [|split]]].
      + pose proof (sends_gap cfg msg fs 1 Producer_new Hd eq_refl Ha) as S. cbv zeta in S.
        fold g d n in S. replace (1 + n - 1 - g) with (n - g) in S by lia. apply S; lia.
      + apply gap_order_window; lia.
      + apply (gap_order_window g _ n 4096); lia.
      + unfold gap_order. rewrite !length_app, !length_seqZ. cbn [length]. lia.
      + unfold gap_order. intros q. rewrite !elem_of_app, !elem_of_seqZ, list_elem_of_singleton. lia.
    - exists (seqZ 1 n). split; [by apply sends_plain|].
      destruct (window_run 1 4096 ltac:(lia) (length fs) 1 ∅) as (R & W & A & _); [set_solver|lia|lia|].
      fold n in W, A. rewrite A. split; [done|]. split; [cbn; lia|]. rewrite length_seqZ.
      split; [lia|]. intros q ?%elem_of_seqZ. lia. }
  rewrite <- Eqs in *. rewrite length_fmap in Hlen.
  destruct (run_window cfg msg fs clk full ms p (n + 1)) as (r & c & Er & A & I & M & P & V & D & B1 & B2 & B3 & B4);
    rewrite ?Z.add_simpl_r; try done.
  - by apply decodes_sizes.
  - lia.
  - lia.
  - rewrite Z.add_simpl_r in *. exists r, c. rewrite M, P, Hpe. split; [done|]. split; [exact A|]. repeat (split; [done|]).
    split; [apply I|].
    apply not_true_is_false. rewrite (si_stale _ _ _ _ _ I). intros (q & Hq & Hlt).
    apply received_elem in Hq as [Hq%elem_of_empty|Hq]; [done|]. specialize (Hqs q Hq). lia.
Qed.

(** ** Theorems *)

(** C3. From frames to the market view, under [Block].  [n] consecutive frames that
    decode, of a feed that never locks a price (without that a best price can be
    wrong: [locked_price_dangling_bid]), and optionally a frame held back by the gap
    injection for fewer than 4096 frames (the reorder window): whatever the clocks,
    the run ends, and final best bid and ask and the depth are those of the events
    in feed order - the gap leaves no trace in the book, and the stream is not
    stale. *)
Theorem pipeline_end_to_end cfg msg fs clk full :
  let n := Z.of_nat (length fs) in
  let c' := clamp_config (pc_book cfg) in
  let evs := msg <$> seqZ 1 n in
  let ls := a_apply_all c' evs (no_orders c') in
  pc_backpressure cfg = Block -> cfg_ok c' -> decodes msg 1 fs -> n < 2 ^ 32 - 1 -> never_locked c' evs (no_orders c') ->
  (active cfg -> 1 <= inject_gap_at cfg <= n /\ 1 <= gap_reorder_distance cfg < 4096) ->
  exists r c, run_pipeline cfg fs clk full = Some (r, c) /\
    final_bid r = a_best (a_bids c' ls) /\ final_ask r = a_best (a_asks c' ls) /\
    top_bids r = take 5 (a_bids c' ls) /\ top_asks r = take 5 (a_asks c' ls) /\
    res_messages r = n /\ res_parse_errors r = 0 /\
    expected_ (c_seq c) = n + 1 /\ stale_ (c_seq c) = false.
Proof.
  intros n c' evs ls Hpol Hc Hd Hn Hlk Hg.
  destruct (run_ends cfg msg fs clk full) as (r & c & E & _ & _ & _ & R); [done..|].
  exists r, c. split; [exact E|exact R].
Qed.

(** Four orders around 104: buys of 100 at 103 and 102, a sell of 100 at 106,
    then the first buy is deleted. *)
Definition add_msg (ref side px : byte) : list byte :=
  [x41; x00; x01; x00; x00; x00; x00; x00; x00; x00; x05;
   x00; x00; x00; x00; x00; x00; x00; ref; side; x00; x00; x00; x64;
   x54; x45; x53; x54; x20; x20; x20; x20; x00; x00; x00; px].

Definition demo_payloads : list (list byte) :=
  [add_msg x07 x42 x67; add_msg x08 x42 x66; add_msg x09 x53 x6a; delete_msg].

Definition number_frames (n : Z) (ps : list (list byte)) : list (RawFrame * Z * Z) :=
  imap (fun i p => (mkFrame p (Z.of_nat (length p)) (n + Z.of_nat i), 0, 0)) ps.

Definition decoded (p : list byte) : MarketEvent :=
  if parse p (Z.of_nat (length p)) event0 is Some (Ok, e) then e else event0.

(** The event of the [n]-th payload, from 1. *)
Definition nth_event (ps : list (list byte)) (n : Z) : MarketEvent :=
  default event0 (decoded <$> ps.[n - 1]).

Definition demo_pipe (gap dist : Z) : PipelineConfig :=
  mkPipeConfig small_config Block (S754_zero false) (S754_zero false) gap dist 0.

Lemma pipeline_end_to_end_witness :
  exists r c, run_pipeline (demo_pipe 2 1) (number_frames 1 demo_payloads) (fun _ => (0, 0)) (fun _ => false) = Some (r, c) /\
    final_bid r = mkBookLevel 102 100 1 true /\ final_ask r = mkBookLevel 106 100 1 true /\
    res_messages r = 4 /\ stale_ (c_seq c) = false.
Proof.
  destruct (pipeline_end_to_end (demo_pipe 2 1) (nth_event demo_payloads) (number_frames 1 demo_payloads)
    (fun _ => (0, 0)) (fun _ => false)) as (r & c & E & B & A & _ & _ & M & _ & _ & S).
  - reflexivity.
  - exact small_config_ok.
  - vm_compute. repeat split; congruence.
  - reflexivity.
  - vm_compute. repeat split; repeat constructor.
  - intros _. vm_compute. repeat split; congruence.
  - exists r, c. split; [exact E|]. rewrite B, A. split; [clear; vm_compute; reflexivity|].
    split; [clear; vm_compute; reflexivity|]. exact (conj M S).
Defined.

(** C35. A frame that does not decode stalls the stream.  Under [Block], without an
    injected gap, on a feed that never locks a price: the bad frame's sequence number
    is never sent, so the sequencer waits for it: of the frames behind it (fewer than
    the reorder window) none reaches the book, and the run ends stale with the book
    of the frames before the bad one. *)
Theorem parse_error_stalls cfg msg fs1 f now1 now2 fs2 clk full :
  let n := Z.of_nat (length fs1) in
  let c' := clamp_config (pc_book cfg) in
  let evs := msg <$> seqZ 1 n in
  pc_backpressure cfg = Block -> cfg_ok c' -> ~ active cfg -> decodes msg 1 fs1 -> undecodable f -> decodes msg (n + 2) fs2 ->
  fs2 <> [] -> Z.of_nat (length fs2) < 4096 -> n < 2 ^ 31 -> never_locked c' evs (no_orders c') ->
  exists r c, run_pipeline cfg (fs1 ++ (f, now1, now2) :: fs2) clk full = Some (r, c) /\
    abs (c_book c) = a_apply_all c' evs (no_orders c') /\
    expected_ (c_seq c) = n + 1 /\ stale_ (c_seq c) = true /\
    res_messages r = n + Z.of_nat (length fs2) /\ res_parse_errors r = 1.
Proof.
  intros n c' evs Hpol Hc Ha Hd1 Hbad Hd2 Hne Hl2 Hn Hlk.
  assert (0 < Z.of_nat (length fs2)) as Hl0 by (destruct fs2; [done|cbn; lia]).
  destruct (sends_bad cfg msg fs1 f now1 now2 fs2 1 (n + 2) Producer_new)
    as (ms & p & E & Eqs & Hcar & Hpe); [done..|].
  destruct (window_run 1 4096 ltac:(lia) (length fs1) 1 ∅) as (R1 & W1 & A1 & H1);
    [set_solver|lia|lia|]. fold n in W1, A1, H1, Eqs.
  destruct (window_hole 1 4096 (length fs2) (n + 1) (n + 2) R1) as (R2 & W2 & A2 & H2);
    [|lia..|].
  { intros x. split; [|intros [[_ ?]|?]; [done|lia]]. intros Hx. left. split; [|done].
    specialize (H1 x Hx). lia. }
  replace (1 + n) with (n + 1) in A1 by lia.
  destruct (run_window cfg msg (fs1 ++ (f, now1, now2) :: fs2) clk full ms p (n + 1))
    as (r & c & Er & A & I & M & P & _); rewrite ?Z.add_simpl_r; try done.
  - rewrite Eqs. apply windowed_app; [done|]. by rewrite A1.
  - by rewrite Eqs, a_receive_all_app, A1, A2.
  - by apply decodes_sizes.
  - lia.
  - apply (f_equal length) in Eqs. rewrite length_fmap, length_app, !length_seqZ in Eqs. lia.
  - rewrite Z.add_simpl_r in A. exists r, c. split; [done|]. split; [done|].
    split; [apply I|]. rewrite M, P, Hpe. split; [|split; [|done]].
    + apply (si_stale _ _ _ _ _ I). exists (n + 2). rewrite Eqs, a_receive_all_app, A1, A2.
      cbn [snd]. rewrite H2. split; [right|]; lia.
    + apply (f_equal length) in Eqs. rewrite length_fmap, length_app, !length_seqZ in Eqs. lia.
Qed.

Lemma parse_error_stalls_witness :
  exists r c, run_pipeline (demo_pipe 0 0) (number_frames 1 [add_msg x07 x42 x67] ++
      (mkFrame [x41; x00] 2 2, 0, 0) :: number_frames 3 [add_msg x09 x53 x6a; delete_msg])
      (fun _ => (0, 0)) (fun _ => false) = Some (r, c) /\
    abs (c_book c) = a_apply_all small_config [decoded (add_msg x07 x42 x67)] (no_orders small_config) /\
    expected_ (c_seq c) = 2 /\ stale_ (c_seq c) = true /\ res_parse_errors r = 1.
Proof.
  pose (ps := [add_msg x07 x42 x67; []; add_msg x09 x53 x6a; delete_msg]).
  destruct (parse_error_stalls (demo_pipe 0 0) (nth_event ps) (number_frames 1 [add_msg x07 x42 x67])
    (mkFrame [x41; x00] 2 2) 0 0 (number_frames 3 [add_msg x09 x53 x6a; delete_msg]) (fun _ => (0, 0))
    (fun _ => false)) as (r & c & E & A & X & S & _ & P).
  - reflexivity.
  - exact small_config_ok.
  - intros [H _]. by apply H.
  - vm_compute. repeat split; congruence.
  - exists ShortBuffer, event0. split; [reflexivity|discriminate].
  - vm_compute. repeat split; congruence.
  - discriminate.
  - reflexivity.
  - reflexivity.
  - vm_compute. repeat split; repeat constructor.
  - exists r, c. exact (conj E (conj A (conj X (conj S P)))).
Defined.

(** One event on an empty book locks nothing. *)
Lemma uniform_single c ev : uniform (a_apply c ev (no_orders c)).
Proof.
  assert (uniform (no_orders c)) as H0.
  { unfold uniform, no_orders. apply Forall_replicate. constructor. }
  assert (forall o, a_lookup o (no_orders c) = None) as Hl.
  { intros o. unfold a_lookup, no_orders. by rewrite concat_replicate_nil. }
  assert (forall f r, a_update f r (no_orders c) = no_orders c) as Hu.
  { intros f r. unfold a_update, no_orders. by rewrite fmap_replicate. }
  unfold a_apply. destruct (ev_type ev); try done; unfold a_reduce, a_remove, a_replace;
    rewrite ?Hu, ?Hl; try done.
  unfold a_add. repeat (case_decide; [done|]). unfold uniform.
  unfold no_orders. rewrite list.Forall_forall. intros q Hq.
  apply list_elem_of_lookup in Hq as [i Hq]. revert Hq.
  destruct (decide (i = Z.to_nat (to_index c (ev_price_ticks ev)))) as [->|Hne].
  - rewrite list_lookup_alter_eq. destruct (replicate _ _ !! _) as [q0|] eqn:E; [|done].
    apply lookup_replicate in E as [-> _]. intros [= <-]. cbn [app].
    repeat (constructor; try done).
  - rewrite list_lookup_alter_ne by done. intros [-> _]%lookup_replicate. constructor.
Qed.

Lemma reset_rest b b' : reset b = Some b' -> cfg_ b' = cfg_ b /\ live_orders_ b' = 0.
Proof.
  unfold reset. destruct (reset_all (pool_ b)); cbn [mbind option_bind]; [|done]. by intros [= <-].
Qed.

(** An arrival beyond a full reorder buffer.  The consumer empties its book,
    applies that arrival alone and waits for the number after it; the numbers it
    was waiting for count as old, the stream is no longer stale. *)
Theorem overflow_restarts_book m t1 t2 c :
  wf (c_book c) -> in_u 32 (ev_size (event m)) -> 0 <= sequence m < 2 ^ 64 - 1 ->
  expected_ (c_seq c) < sequence m ->
  reorder_capacity (sq_cfg_ (c_seq c)) <= buffered (c_seq c) ->
  let cfg := cfg_ (c_book c) in
  exists c', handle m t1 t2 c = Some c' /\ wf (c_book c') /\ top_ok (c_book c') /\
    abs (c_book c') = a_apply cfg (event m) (no_orders cfg) /\
    fresh (c_seq c') (sequence m + 1) /\ stale_ (c_seq c') = false /\ was_stale c' = false /\
    c_hist c' = c_hist c.
Proof.
  intros W Hsz Hs Hlt Hfull cfg.
  assert (exists s', offer (sequence m) (event m) (c_seq c) = (Sequencer.Overflow, s') /\
    fresh (resync_to_snapshot (sequence m) s') (u64 (sequence m + 1))) as (s' & Eo & F).
  { unfold offer. rewrite !decide_False by lia. destruct (stale_ (c_seq c)) eqn:Est;
      (rewrite decide_True by (unfold buffered in *; cbn; lia)); eexists; (split; [done|apply fresh_resync]). }
  unfold u64 in F. rewrite wrap_small in F by (unfold in_u; lia).
  destruct W as (pss & free0 & W).
  destruct (reset_ok _ _ _ W) as (b1 & free1 & E1 & W1 & _ & _ & A1 & L1 & B1 & B2).
  assert (top_ok b1) as T1.
  { apply empty_top; [..|done|done]; rewrite ?L1, ?A1.
    - by intros lvl [-> _]%elem_of_replicate.
    - by intros q [-> _]%elem_of_replicate. }
  destruct (reset_rest _ _ E1) as [C1 N1].
  destruct (apply_evs_ok [event m] b1 (c_pub c)) as ([b2 pub2] & E2 & W2 & T2 & _ & A2).
  - by eexists _, _.
  - done.
  - by constructor.
  - rewrite N1. cbn. lia.
  - cbn. rewrite A1, C1. split; [apply uniform_single|done].
  - cbn in E2. destruct (apply_ev (event m) (b1, c_pub c)) as [bp|] eqn:E3; [|done].
    cbn in E2. injection E2 as ->. cbn [fst snd] in *.
    unfold handle. cbn [c_seq c_book c_pub rset]. rewrite Eo. cbn [mbind option_bind].
    rewrite E1. cbn [mbind option_bind c_pub c_book rset]. rewrite E3. cbn [mbind option_bind].
    eexists. split; [done|]. edestruct note_stale_same as (G1 & G2 & G3 & G4 & G5 & G6).
    rewrite G1, G3, G5, G6. cbn. rewrite A2, A1, C1. done.
Qed.

Lemma overflow_restarts_book_witness :
  exists c0 c1, Consumer_new (demo_pipe 0 0) = Some c0 /\
    handle (mkMsg (ev_add 5 Sell 105 9) 0 7) 0 0
      (c0 <| c_seq := (receive 3 (ev_add 4 Buy 101 5) (Sequencer_new (mkSeqConfig 1 1))).2 |>) = Some c1 /\
    abs (c_book c1) = a_apply small_config (ev_add 5 Sell 105 9) (no_orders small_config) /\
    expected_ (c_seq c1) = 8 /\ stale_ (c_seq c1) = false.
Proof.
  destruct (Consumer_new_ok (demo_pipe 0 0)) as (c0 & E0 & B0 & _).
  destruct (overflow_restarts_book (mkMsg (ev_add 5 Sell 105 9) 0 7) 0 0
      (c0 <| c_seq := (receive 3 (ev_add 4 Buy 101 5) (Sequencer_new (mkSeqConfig 1 1))).2 |>))
    as (c1 & E & _ & _ & A & F & S & _).
  - cbn [c_book rset]. rewrite B0. apply new_wf. exact small_config_ok.
  - cbn. unfold in_u. lia.
  - cbn. lia.
  - reflexivity.
  - vm_compute. discriminate.
  - cbn [c_book rset] in A. rewrite B0 in A.
    exists c0, c1. split; [exact E0|]. split; [exact E|]. split; [exact A|].
    split; [apply (fr_expected _ _ F)|exact S].
Defined.
