(* ===== verification/Pacing.v ===== *)
(** * Pacing a replay

    The clock of thread A in [src/pipeline.cpp]: [wait_until], and what
    [maybe_pace] makes of it over a run of [--speed].  Readings of the clock are
    arguments; what is relied on is that they do not run backwards and reach any
    time in the end.

    - [wait_until], [wait_until_returns]: the wait ends, at the first reading that
      has reached the target;
    - [replay_paced]: no message of a paced replay is stamped ahead of its time. *)

From Stdlib Require Import SpecFloat.
From stdpp Require Import base list gmap numbers.
From S2P Require Import Prelude MarketEvent ByteRead ItchParser FeedSource.
From S2P Require Import Instrumentation SpscRing OrderPool OrderBook Publisher Sequencer Pipeline.

(** ** Waiting *)

(** What a turn of the wait does with the time that remains (below [2^63], which is
    as far as [std::chrono::nanoseconds] goes). *)
Inductive Pause := SleepFor (ns : Z) | Relax.

Section Wait.
(** The reading of the clock in each turn. *)
Context (clock : nat -> Z).

(** The pauses of the turns, and the reading the wait ends at; [k] is the turn. *)
Fixpoint wait_until (fuel : nat) (target : Z) (k : nat) : option (list Pause * Z) :=
  match fuel with
  | O => None
  | S fuel =>
      let n := clock k in
      if decide (n >= target) then Some ([], n) else
      let rem := u64 (target - n) in
      '(ps, n') ← wait_until fuel target (S k);
      Some ((if decide (rem > 50000) then SleepFor (u64 (rem - 50000)) else Relax) :: ps, n')
  end.

Lemma wait_until_step fuel target k :
  wait_until (S fuel) target k =
    if decide (clock k >= target) then Some ([], clock k) else
    '(ps, n') ← wait_until fuel target (S k);
    Some ((if decide (u64 (target - clock k) > 50000) then SleepFor (u64 (u64 (target - clock k) - 50000))
           else Relax) :: ps, n').
Proof. reflexivity. Qed.

(** The wait ends at the first reading that has reached the target, and none of its
    sleeps goes beyond 50 microseconds ahead of it. *)
Theorem wait_until_returns target :
  (exists k, clock k >= target) -> (forall k, in_u 63 (clock k)) -> in_u 63 target ->
  exists fuel ps n, wait_until fuel target 0 = Some (ps, n) /\
    target <= n /\ n = clock (length ps) /\
    forall j p, ps !! j = Some p -> clock j < target /\
      match p with
      | SleepFor d => 0 < d /\ clock j + d = target - 50000
      | Relax => target - clock j <= 50000
      end.
Proof.
  intros [K HK] Hc Ht.
  assert (forall m k, (k + m = K)%nat -> exists ps n, wait_until (S m) target k = Some (ps, n) /\
    target <= n /\ n = clock (k + length ps)%nat /\
    forall j p, ps !! j = Some p -> clock (k + j)%nat < target /\
      match p with
      | SleepFor d => 0 < d /\ clock (k + j)%nat + d = target - 50000
      | Relax => target - clock (k + j)%nat <= 50000
      end) as W.
  { induction m as [|m IH]; intros k Hk; rewrite wait_until_step.
    - rewrite Nat.add_0_r in Hk. subst k. rewrite decide_True by done. exists [], (clock K).
      split; [done|]. split; [lia|]. split; [f_equal; cbn; lia|done].
    - case_decide as D.
      { exists [], (clock k). split; [done|]. split; [lia|]. split; [f_equal; cbn; lia|done]. }
      destruct (IH (S k) ltac:(lia)) as (ps & n & E & H1 & H2 & H3).
      rewrite E. cbn [mbind option_bind]. eexists _, n. split; [done|]. split; [done|].
      split; [rewrite H2; f_equal; cbn; lia|].
      assert (u64 (target - clock k) = target - clock k) as Er.
      { apply wrap_small. pose proof (Hc k). unfold in_u in *. lia. }
      intros [|j] p; cbn.
      + rewrite Nat.add_0_r. intros [= <-]. split; [lia|]. rewrite Er. case_decide; [|lia].
        unfold u64. rewrite wrap_small; [lia|]. pose proof (Hc k). unfold in_u in *. lia.
      + intros Ej. replace (k + S j)%nat with (S k + j)%nat by lia. by apply H3. }
  destruct (W K 0%nat eq_refl) as (ps & n & E & H). by exists (S K), ps, n.
Qed.
End Wait.

(** ** The times of a replay *)

(** When an event is due: its distance from the first one, sped up, behind the
    time of the first one. *)
Definition due (cfg : PipelineConfig) (ts0 wall0 ts : Z) : Z :=
  u64 (wall0 + trunc_f64 (SFdiv 53 1024 (f64 (ts - ts0)) (pc_speed_multiplier cfg))).

(** The readings of a run: thread A stamps a message behind the wait it was told. *)
Fixpoint waited (cfg : PipelineConfig) (fs : list (RawFrame * Z * Z)) (p : Producer) : Prop :=
  match fs with
  | [] => True
  | (f, now1, now2) :: fs =>
      in_u 64 now1 /\ now1 <= now2 /\
      (forall ev target, parse (f_data f) (f_len f) event0 = Some (Ok, ev) ->
       (maybe_pace cfg (produced_ p) (ev_timestamp_ns ev) now1 (pacer p)).1 = Some target -> target <= now2) /\
      forall out p', produce cfg f now1 now2 p = Some (out, p') -> waited cfg fs p'
  end.

(** The first event, and the reading of the clock at it. *)
Fixpoint first_decoded (fs : list (RawFrame * Z * Z)) : option (Z * Z) :=
  match fs with
  | [] => None
  | (f, now1, _) :: fs =>
      match parse (f_data f) (f_len f) event0 with
      | Some (Ok, ev) => Some (ev_timestamp_ns ev, now1)
      | _ => first_decoded fs
      end
  end.

Section Paced.
Context (cfg : PipelineConfig) (ts0 wall0 : Z).
Hypothesis no_rate : positive (pc_offered_rate cfg) = false.
Hypothesis speed : positive (pc_speed_multiplier cfg) = true.

Definition in_time (m : PipelineMsg) : Prop :=
  ts0 <= ev_timestamp_ns (event m) -> due cfg ts0 wall0 (ev_timestamp_ns (event m)) <= recv_ns m.

(** The first event is due at once. *)
Lemma due_first : in_u 64 wall0 -> due cfg ts0 wall0 ts0 = wall0.
Proof.
  intros H. unfold due. rewrite Z.sub_diag.
  assert (trunc_f64 (SFdiv 53 1024 (f64 0) (pc_speed_multiplier cfg)) = 0) as ->.
  { revert speed. by destruct (pc_speed_multiplier cfg) as [[]|[]| |[] m e]. }
  rewrite Z.add_0_r. by apply wrap_small.
Qed.

Record pace_inv (fs : list (RawFrame * Z * Z)) (p : Producer) : Prop := {
  pv_base : if have_base (pacer p) then base_event_ts (pacer p) = ts0 /\ base_wall (pacer p) = wall0
            else first_decoded fs = Some (ts0, wall0) \/ first_decoded fs = None;
  pv_held : holding p = true -> in_time (held p) }.

(** One turn. *)
Lemma produce_paced f now1 now2 fs p out p' :
  pace_inv ((f, now1, now2) :: fs) p -> waited cfg ((f, now1, now2) :: fs) p ->
  produce cfg f now1 now2 p = Some (out, p') ->
  pace_inv fs p' /\ waited cfg fs p' /\ Forall in_time out.
Proof.
  intros [B H] (H1 & H12 & Hw & Hn) E. specialize (Hn _ _ E). unfold produce in E.
  cbn [first_decoded] in B. destruct (parse (f_data f) (f_len f) event0) as [[[] ev]|] eqn:Ep; [| | |done].
  2,3: cbn in E; injection E as <- <-; split_and!; [by split|exact Hn|constructor].
  cbn [mbind option_bind] in E. specialize (Hw ev).
  set (m := mkMsg ev now2 (f_sequence f)) in E.
  destruct (maybe_pace cfg (produced_ p) (ev_timestamp_ns ev) now1 (pacer p)) as [target pc] eqn:Er.
  cbn [fst snd] in *.
  assert ((have_base pc = true /\ base_event_ts pc = ts0 /\ base_wall pc = wall0) /\ in_time m) as [Hb Hm].
  { clear E Hn. unfold maybe_pace in Er. rewrite no_rate, speed in Er. cbv iota in Er. unfold in_time. cbn [event recv_ns m].
    destruct (have_base (pacer p)) eqn:Eb.
    - destruct B as [B1 B2]. case_decide as D; injection Er as <- <-; (split; [done|]); [lia|]. intros _.
      specialize (Hw _ eq_refl eq_refl). unfold due. by rewrite B1, B2 in Hw.
    - injection Er as <- <-. destruct B as [B|B]; cbn in B; [|done]. injection B as E1 E2.
      rewrite E1, E2 in *. split; [done|]. intros _. rewrite due_first; done. }
  assert (forall h hd rl, (h = true -> in_time hd) ->
    pace_inv fs (mkProducer pc (u64 (produced_ p + 1)) h hd rl (parse_errors p))) as Inv.
  { intros h hd rl Hh. split; [|exact Hh]. cbn. destruct Hb as (-> & -> & ->). done. }
  case_decide; [|case_decide as D]; injection E as <- <-; (split; [apply Inv|split; [exact Hn|]]); try done.
  - by repeat constructor; [|apply H; destruct D].
  - by repeat constructor.
Qed.

Lemma produce_loop_paced fs p out p' :
  pace_inv fs p -> waited cfg fs p -> produce_loop cfg fs p = Some (out, p') -> Forall in_time out.
Proof.
  revert p out p'. induction fs as [|[[f now1] now2] fs IH]; intros p out p' I W E; cbn [produce_loop] in E.
  - injection E as <- <-. destruct (holding p) eqn:Eh; [|done]. constructor; [|done]. by apply (pv_held _ _ I).
  - apply bind_Some in E as ([o1 p1] & E1 & E). apply bind_Some in E as ([o2 p2] & E2 & E).
    injection E as <- <-. destruct (produce_paced _ _ _ _ _ _ _ I W E1) as (I1 & W1 & F).
    apply Forall_app. split; [exact F|by eapply IH].
Qed.
End Paced.

(** A paced replay is not early.  With [--speed] (and no offered rate), whatever gap
    is injected: every message is stamped no earlier than its time, the distance of
    its event from the first one divided by the speed, behind the reading of the
    clock at the first one.  An event older than the first one is sent at once. *)
Theorem replay_paced cfg fs out p ts0 wall0 :
  positive (pc_offered_rate cfg) = false -> positive (pc_speed_multiplier cfg) = true ->
  waited cfg fs Producer_new -> first_decoded fs = Some (ts0, wall0) ->
  produce_all cfg fs = Some (out, p) ->
  Forall (fun m => ts0 <= ev_timestamp_ns (event m) ->
    due cfg ts0 wall0 (ev_timestamp_ns (event m)) <= recv_ns m) out.
Proof.
  intros Hr Hs W E0 E. apply (produce_loop_paced cfg ts0 wall0 Hr Hs fs _ _ _) in E; [exact E| |exact W].
  split; [by left|done].
Qed.

Example wait_until_example :
  wait_until (fun k => nth k [0; 60000; 100000; 110000] 0) 4 110000 0 = Some ([SleepFor 60000; Relax; Relax], 110000).
Proof. vm_compute. reflexivity. Qed.

(** At double speed two events 100 apart are stamped 50 apart. *)
Example due_example :
  let cfg := mkPipeConfig default_config Block (f64 2) (S754_zero false) 0 0 0 in
  (due cfg 1000 7 1000, due cfg 1000 7 1100) = (7, 57).
Proof. vm_compute. reflexivity. Qed.
