(* ===== verification/PipelineThreads.v ===== *)
(** * The two threads of the pipeline

    [src/pipeline.cpp] again, as two threads: every frame, every atomic access of
    the channel's ring, every message and every look at [producer_done] is a step
    of its own, and the steps of the threads interleave in any order.  The runs
    that end give what the sequential [Pipeline.run_pipeline] computes
    ([threads_agree], [threads_are_runs]); every run can end.

    - Thread A: [t_frame], [t_eof], [t_send] (a call of [send]), [t_prod] (a step
      inside [send]), [t_done] ([producer_done.store]).
    - Thread B: [t_poll] ([producer_done.load]), [t_cons] (a step inside
      [receive]), [t_handle].

    The acquire load of [producer_done] may be stale while it reads [false].  The
    one that reads [true] makes all pushes visible, so the loads of [tail_] after
    it see the last count ([tail_bound]).

    [measure]: the measurements of a run; [peak_bounded]: the peak of the queue. *)

From Stdlib Require Import SpecFloat.
From stdpp Require Import base list gmap numbers.
From S2P Require Import Prelude MarketEvent ByteRead ItchParser FeedSource.
From S2P Require Import Instrumentation SpscRing OrderPool OrderBook BookSpec.
From S2P Require Import OrderBookWf OrderBookBest BookLadder OrderBookProps.
From S2P Require Import Publisher Sequencer Pipeline.

(** Where thread B is: before a look at [producer_done], in the loop that drains
    the channel, in the final drain, or behind it. *)
Inductive Phase := Polling | Draining | Final | Ended.

#[export] Instance Phase_eq_dec : EqDecision Phase.
Proof. solve_decision. Defined.

(** [w_todo] are the frames the source still has, with the times read for each;
    [w_out] the messages of the current turn of thread A that are not sent yet;
    [w_hand] the message thread B has received and not handled. *)
Record World := mkWorld {
  w_todo : list (RawFrame * Z * Z);
  w_prod : Producer;
  w_out : list PipelineMsg;
  w_eof : bool;
  producer_done : bool;
  w_chan : Chan PipelineMsg;
  w_phase : Phase;
  w_hand : option PipelineMsg;
  w_cons : Consumer }.

#[export] Instance World_settable : Settable World := fun w =>
  mkWorld (w_todo w) (w_prod w) (w_out w) (w_eof w) (producer_done w) (w_chan w) (w_phase w)
    (w_hand w) (w_cons w).

(** [kRingCapacity] is [2 ^ ring_bits]. *)
Definition ring_bits : Z := 16.

(** What a thread computes is never unfolded here. *)
#[local] Opaque Consumer_new handle produce.

Lemma chan_new_fields k :
  let c := chan_new msg0 k in
  offered c = [] /\ ch_pending c = None /\ popped (ring_ c) = [] /\ cpc (ring_ c) = CIdle.
Proof. repeat split. Qed.

#[local] Opaque chan_new.

Section Threads.
Context (cfg : PipelineConfig) (fs : list (RawFrame * Z * Z)) (clk : nat -> Z * Z).
Notation policy := (pc_backpressure cfg).
Notation exec := (chan_exec ring_bits policy).

(** The start of both threads. *)
Definition world_new (c0 : Consumer) : World :=
  mkWorld fs Producer_new [] false false (chan_new msg0 ring_bits) Polling None c0.

(** The least count of pushes a load of [tail_] can see. *)
Definition tail_bound (w : World) : Z :=
  match w_phase w with Final => n_pushed (ring_ (w_chan w)) | _ => 0 end.

(** After a step inside [receive]: a message in hand when the pop is complete,
    the end of the loop when the ring looks empty. *)
Definition after_cons (c : Chan PipelineMsg) (w : World) : World :=
  let w' := w <| w_chan := c |> in
  match cpc (ring_ (w_chan w)), cpc (ring_ c) with
  | CStore x, _ => w' <| w_hand := Some x |>
  | CIdle, CIdle => w' <| w_phase := match w_phase w with Final => Ended | _ => Polling end |>
  | _, _ => w'
  end.

Inductive tstep : World -> World -> Prop :=
  | t_frame w f now1 now2 todo out p :
      w_todo w = (f, now1, now2) :: todo -> w_out w = [] -> ch_pending (w_chan w) = None ->
      produce cfg f now1 now2 (w_prod w) = Some (out, p) ->
      tstep w (w <| w_todo := todo |> <| w_out := out |> <| w_prod := p |>)
  | t_eof w :
      w_todo w = [] -> w_out w = [] -> ch_pending (w_chan w) = None -> w_eof w = false ->
      tstep w (w <| w_eof := true |>
                 <| w_out := if holding (w_prod w) then [held (w_prod w)] else [] |>)
  | t_send w m out c :
      w_out w = m :: out -> exec (Send m) (w_chan w) = Some c ->
      tstep w (w <| w_out := out |> <| w_chan := c |>)
  | t_prod w v c :
      exec (Prod v) (w_chan w) = Some c ->
      tstep w (w <| w_chan := c |>)
  | t_done w :
      w_eof w = true -> w_out w = [] -> ch_pending (w_chan w) = None -> producer_done w = false ->
      tstep w (w <| producer_done := true |>)
  | t_poll w (seen : bool) :
      w_phase w = Polling -> (seen = true -> producer_done w = true) ->
      tstep w (w <| w_phase := if seen then Final else Draining |>)
  | t_cons w v c :
      w_phase w = Draining \/ w_phase w = Final -> w_hand w = None -> tail_bound w <= v ->
      exec (Cons v) (w_chan w) = Some c ->
      tstep w (after_cons c w)
  | t_handle w m c :
      w_hand w = Some m ->
      (let t := clk (length (popped (ring_ (w_chan w))) - 1) in handle m t.1 t.2 (w_cons w)) = Some c ->
      tstep w (w <| w_hand := None |> <| w_cons := c |>).

(** The worlds of a run, and the results behind [producer.join()]. *)
Inductive treachable : World -> Prop :=
  | treach_new c0 : Consumer_new cfg = Some c0 -> treachable (world_new c0)
  | treach_step w w' : treachable w -> tstep w w' -> treachable w'.

Definition finish (w : World) : option PipelineResult :=
  assemble (w_prod w) (dropped_ (w_chan w)) (w_cons w).

(** What thread A sees of the queue: [size_approx], its load of [head_] being [v]. *)
Definition occupancy (v : Z) (w : World) : Z :=
  let r := ring_ (w_chan w) in size_approx (tail_ r) (u64 v).

Definition may_see (v : Z) (w : World) : Prop :=
  let r := ring_ (w_chan w) in seen_head r <= v <= n_popped r.

(** [local_peak] behind a run of turns. *)
Definition peak_of (occs : list Z) : Z :=
  foldl (fun peak occ => if decide (occ > peak) then occ else peak) 0 occs.

(** The measurements in the result. *)
Record Measured := mkMeasured { elapsed_s : spec_float; throughput_msgs_per_s : spec_float; peak_queue : Z }.

(** [t0] and [t1] are in nanoseconds. *)
Definition measure (t0 t1 msgs : Z) (occs : list Z) : Measured :=
  let elapsed := SFdiv 53 1024 (f64 (t1 - t0)) (f64 1000000000) in
  mkMeasured elapsed
    (if positive elapsed then SFdiv 53 1024 (f64 msgs) elapsed else S754_zero false) (peak_of occs).

(** ** The invariant *)

(** What thread A still has to send. *)
Definition rest (w : World) : option (list PipelineMsg * Producer) :=
  if w_eof w then Some ([], w_prod w) else produce_loop cfg (w_todo w) (w_prod w).

(** [c0] is thread B at its start. *)
Record winv (c0 : Consumer) (w : World) : Prop := {
  wi_chan : chan_reachable msg0 ring_bits policy (w_chan w);
  wi_prod : produce_all cfg fs =
    '(out, p) ← rest w; Some (offered (w_chan w) ++ w_out w ++ out, p);
  wi_cons : exists h, popped (ring_ (w_chan w)) = h ++ option_list (w_hand w) /\
    consume_all (timed clk h) c0 = Some (w_cons w);
  wi_eof : w_eof w = true -> w_todo w = [];
  wi_done : producer_done w = true ->
    w_eof w = true /\ w_out w = [] /\ ch_pending (w_chan w) = None;
  wi_hand : w_hand w <> None -> cpc (ring_ (w_chan w)) = CIdle;
  wi_phase : match w_phase w with
    | Polling => w_hand w = None /\ cpc (ring_ (w_chan w)) = CIdle
    | Draining => True
    | Final => producer_done w = true
    | Ended => producer_done w = true /\ w_hand w = None /\ cpc (ring_ (w_chan w)) = CIdle /\
        popped (ring_ (w_chan w)) = pushed (ring_ (w_chan w))
    end }.

(** ** What the steps of the channel touch *)

Lemma bits_ok : 1 <= ring_bits < 64.
Proof. unfold ring_bits. lia. Qed.

Lemma chan_ok c : chan_reachable msg0 ring_bits policy c -> chan_inv ring_bits policy c.
Proof. apply chan_reachable_inv, bits_ok. Qed.

Lemma exec_reach a (c c' : Chan PipelineMsg) :
  chan_reachable msg0 ring_bits policy c -> exec a c = Some c' ->
  chan_reachable msg0 ring_bits policy c'.
Proof. intros H E. eapply chan_reach_step; [done|]. by eapply chan_exec_sound. Qed.

Lemma exec_send_frame m (c c' : Chan PipelineMsg) :
  exec (Send m) c = Some c' ->
  ring_ c' = ring_ c /\ offered c' = offered c ++ [m] /\ ch_pending c = None /\
  ch_pending c' = Some m.
Proof. cbn. destruct (ch_pending c) eqn:E; [done|]. by intros [= <-]. Qed.

Lemma exec_prod_frame v (c c' : Chan PipelineMsg) :
  chan_inv ring_bits policy c -> exec (Prod v) c = Some c' ->
  offered c' = offered c /\ popped (ring_ c') = popped (ring_ c) /\
  cpc (ring_ c') = cpc (ring_ c) /\ ch_pending c <> None.
Proof.
  intros [_ Hpc _ _] E. cbn in E. destruct (ppc (ring_ c)) as [|x|x].
  - destruct (ch_pending c) as [x|]; [|done]. case_decide; [|done].
    destruct (push_check _ x v (ring_ c)) as [r res] eqn:Ec.
    destruct (push_check_frame _ _ _ _ _ _ Ec) as (_ & Epo & Ecp & _).
    injection E as <-. repeat case_match; done.
  - destruct (push_write _ x (ring_ c)) as [r|] eqn:Ew; [|done]. injection E as <-. cbn.
    revert Ew. unfold push_write. destruct (vset _ _ _); cbn; [|done]. intros [= <-].
    rewrite Hpc. done.
  - injection E as <-. cbn. rewrite Hpc. done.
Qed.

(** A step inside [receive]. *)
Inductive cons_result (v : Z) (c c' : Chan PipelineMsg) : Prop :=
  | cr_empty : cpc (ring_ c) = CIdle -> cpc (ring_ c') = CIdle ->
      popped (ring_ c') = popped (ring_ c) -> n_popped (ring_ c) = v -> cons_result v c c'
  | cr_check : cpc (ring_ c) = CIdle -> cpc (ring_ c') = CRead ->
      popped (ring_ c') = popped (ring_ c) -> cons_result v c c'
  | cr_read x : cpc (ring_ c) = CRead -> cpc (ring_ c') = CStore x ->
      popped (ring_ c') = popped (ring_ c) -> cons_result v c c'
  | cr_store x : cpc (ring_ c) = CStore x -> cpc (ring_ c') = CIdle ->
      popped (ring_ c') = popped (ring_ c) ++ [x] -> cons_result v c c'.

Lemma exec_cons_frame v (c c' : Chan PipelineMsg) :
  chan_inv ring_bits policy c -> exec (Cons v) c = Some c' ->
  offered c' = offered c /\ pushed (ring_ c') = pushed (ring_ c) /\
  ppc (ring_ c') = ppc (ring_ c) /\ ch_pending c' = ch_pending c /\ cons_result v c c'.
Proof.
  intros [I _ _ _] E. cbn in E. destruct (cpc (ring_ c)) as [| |x] eqn:Hc.
  - case_decide as Hv; [|done]. destruct (pop_check v (ring_ c)) as [r res] eqn:Ec.
    destruct (pop_check_inv _ _ bits_ok eq_refl _ v r res I Hc Hv Ec) as (_ & Hr & Epu & Epo & Epp).
    injection E as <-. cbn. repeat (split; [done|]).
    destruct Hr as [(-> & Hn & _)|(-> & Hr)]; [|by apply cr_check].
    apply cr_empty; [done| |done|].
    + cbn. revert Ec. unfold pop_check. repeat case_match; by intros [= <-].
    + rewrite <- Hn. unfold n_popped. by rewrite Epo.
  - destruct (pop_read_inv _ _ bits_ok eq_refl _ I Hc) as (x & Er & _). rewrite Er in E.
    injection E as <-. cbn. repeat (split; [done|]). by eapply cr_read.
  - injection E as <-. cbn. repeat (split; [done|]). by eapply cr_store.
Qed.

(** ** The invariant holds *)

Section Invariant.
Context (c0 : Consumer).
Notation winv := (winv c0).

Lemma winv_start ch :
  chan_reachable msg0 ring_bits policy ch ->
  offered ch = [] -> popped (ring_ ch) = [] -> cpc (ring_ ch) = CIdle ->
  winv (mkWorld fs Producer_new [] false false ch Polling None c0).
Proof.
  intros Hc F1 F3 F4. split; cbn; try done.
  - rewrite F1. unfold rest, produce_all. cbn.
    by destruct (produce_loop cfg fs Producer_new) as [[out p]|].
  - exists []. by rewrite F3.
Qed.

Lemma winv_new : winv (world_new c0).
Proof.
  destruct (chan_new_fields ring_bits) as (F1 & F2 & F3 & F4).
  exact (winv_start _ (chan_reach_new _ _ _) F1 F3 F4).
Qed.

Lemma winv_frame w f now1 now2 todo out p :
  winv w -> w_todo w = (f, now1, now2) :: todo -> w_out w = [] ->
  ch_pending (w_chan w) = None -> produce cfg f now1 now2 (w_prod w) = Some (out, p) ->
  winv (w <| w_todo := todo |> <| w_out := out |> <| w_prod := p |>).
Proof.
  intros [Hc Hp Hs He Hd Hh Hph] Et Eo En Ep.
  destruct (w_eof w) eqn:Ee; [by rewrite He in Et|].
  assert (producer_done w = true -> False) as Hnd by (intros D; by destruct (Hd D) as [? _]).
  split; cbn; rewrite ?Ee; try done.
  revert Hp. unfold rest. cbn. rewrite Ee, Et, Eo. cbn [produce_loop]. rewrite Ep. cbn [mbind option_bind].
  by destruct (produce_loop cfg todo p) as [[outs q]|].
Qed.

Lemma winv_eof w :
  winv w -> w_todo w = [] -> w_out w = [] -> w_eof w = false ->
  winv (w <| w_eof := true |>
          <| w_out := if holding (w_prod w) then [held (w_prod w)] else [] |>).
Proof.
  intros [Hc Hp Hs He Hd Hh Hph] Et Eo Ee.
  assert (producer_done w = true -> False) as Hnd.
  { intros D. destruct (Hd D) as [? _]. congruence. }
  split; cbn; try done.
  rewrite Hp. unfold rest. cbn. rewrite Ee, Et, Eo. cbn. by rewrite app_nil_r.
Qed.

Lemma winv_send w m out c :
  winv w -> w_out w = m :: out -> exec (Send m) (w_chan w) = Some c ->
  winv (w <| w_out := out |> <| w_chan := c |>).
Proof.
  intros [Hc Hp Hs He Hd Hh Hph] Eo Ec. pose proof (exec_reach _ _ _ Hc Ec) as Hc'.
  destruct (exec_send_frame _ _ _ Ec) as (Er & Eoff & _ & _).
  assert (producer_done w = true -> False) as Hnd.
  { intros D. destruct (Hd D) as (_ & E & _). congruence. }
  split; cbn; rewrite ?Er; try done.
  rewrite Hp, Eo, Eoff. unfold rest. cbn.
  destruct (if w_eof w then _ else _) as [[outs q]|]; [|done]. cbn. by rewrite <- app_assoc.
Qed.

Lemma winv_prod w v c :
  winv w -> exec (Prod v) (w_chan w) = Some c -> winv (w <| w_chan := c |>).
Proof.
  intros [Hc Hp Hs He Hd Hh Hph] Ec. pose proof (exec_reach _ _ _ Hc Ec) as Hc'.
  destruct (exec_prod_frame _ _ _ (chan_ok _ Hc) Ec) as (Eoff & Epo & Ecp & Hpe).
  assert (producer_done w = true -> False) as Hnd by (intros D; destruct (Hd D) as (_ & _ & ?); done).
  split; cbn; rewrite ?Epo, ?Ecp, ?Eoff; try done.
  destruct (w_phase w); try done. by destruct (Hnd (proj1 Hph)).
Qed.

(** A step inside [receive]: [hd] is what it hands over. *)
Lemma winv_received w v c hd ph :
  winv w -> w_hand w = None -> exec (Cons v) (w_chan w) = Some c ->
  popped (ring_ c) = popped (ring_ (w_chan w)) ++ option_list hd ->
  (hd <> None -> cpc (ring_ c) = CIdle) ->
  match ph with
  | Polling => hd = None /\ cpc (ring_ c) = CIdle
  | Draining => True
  | Final => producer_done w = true
  | Ended => producer_done w = true /\ hd = None /\ cpc (ring_ c) = CIdle /\
      popped (ring_ c) = pushed (ring_ c)
  end ->
  winv (w <| w_chan := c |> <| w_hand := hd |> <| w_phase := ph |>).
Proof.
  intros [Hc Hp Hs He Hd Hh _] Hn Ec Epo Hhd Hph. pose proof (exec_reach _ _ _ Hc Ec) as Hc'.
  destruct (exec_cons_frame _ _ _ (chan_ok _ Hc) Ec) as (Eoff & _ & _ & Epe & _).
  destruct Hs as (h & Eh & Es). rewrite Hn, app_nil_r in Eh.
  split; [exact Hc'| | |exact He| |exact Hhd|exact Hph].
  - cbn [w_chan w_out rset]. rewrite Eoff. exact Hp.
  - exists h. split; [|exact Es]. cbn [w_chan w_hand rset]. by rewrite Epo, Eh.
  - cbn [w_chan w_out w_eof producer_done rset]. rewrite Epe. exact Hd.
Qed.

Lemma winv_cons w v c :
  winv w -> w_phase w = Draining \/ w_phase w = Final -> w_hand w = None ->
  tail_bound w <= v -> exec (Cons v) (w_chan w) = Some c -> winv (after_cons c w).
Proof.
  intros I Hd Hn Hv Ec.
  pose proof (fun hd ph => winv_received w v c hd ph I Hn Ec) as W.
  destruct I as [Hc _ _ _ _ _ Hph]. destruct (chan_ok _ Hc) as [IR _ _ _].
  destruct (exec_cons_frame _ _ _ (chan_ok _ Hc) Ec) as (_ & Epu & _ & _ & R).
  unfold tail_bound in Hv. destruct w as [td pr out eof dn ch ph h cs]. cbn in *. subst h.
  unfold after_cons. cbn. destruct R as [H E Epo En|H E Epo|x H E Epo|x H E Epo]; rewrite H, ?E.
  - apply W; [by rewrite app_nil_r|done|]. destruct Hd as [->| ->]; [done|].
    split; [done|]. split; [done|]. split; [done|]. destruct (ri_popped _ _ IR) as [l El].
    rewrite Epo, Epu, El. assert (length l = 0%nat) as ->%length_zero_iff_nil; [|by rewrite app_nil_r].
    unfold n_pushed, n_popped in *. rewrite El, length_app in Hv. lia.
  - apply (W None ph); [by rewrite app_nil_r|done|]. by destruct Hd as [->| ->].
  - apply (W None ph); [by rewrite app_nil_r|done|]. by destruct Hd as [->| ->].
  - apply (W (Some x) ph); [done|done|]. by destruct Hd as [->| ->].
Qed.

Lemma winv_handle w m c :
  winv w -> w_hand w = Some m ->
  (let t := clk (length (popped (ring_ (w_chan w))) - 1) in handle m t.1 t.2 (w_cons w)) = Some c ->
  winv (w <| w_hand := None |> <| w_cons := c |>).
Proof.
  intros [Hc Hp Hs He Hd Hh Hph] Em Eh.
  destruct Hs as (h & Epo & Es). rewrite Em in Epo. cbn in Epo.
  split; [exact Hc|exact Hp| |exact He|exact Hd|intros X; destruct (X eq_refl)|].
  - exists (h ++ [m]). split; [by rewrite app_nil_r|].
    unfold timed, consume_all in *. rewrite imap_app, (iterM_app _ _ _ _ _ Es).
    rewrite Epo, length_app in Eh. cbn [length] in Eh. rewrite Nat.add_sub in Eh.
    cbn [imap iterM fst snd compose]. rewrite Nat.add_0_r.
    cbn zeta in Eh. rewrite Eh. done.
  - clear Es Eh. cbn [w_phase w_hand w_chan producer_done rset]. destruct (w_phase w); try done; [by destruct Hph|].
    destruct Hph as (_ & ? & _). congruence.
Qed.

Lemma winv_step w w' : winv w -> tstep w w' -> winv w'.
Proof.
  intros I S. destruct S.
  - by eapply winv_frame.
  - by apply winv_eof.
  - by eapply winv_send.
  - by eapply winv_prod.
  - destruct I. split; try done. cbn. destruct (w_phase w); try done. by destruct wi_phase0.
  - destruct I. split; try done. cbn. destruct seen; [|done]. by apply H0.
  - by eapply winv_cons.
  - by eapply winv_handle.
Qed.

End Invariant.

Lemma treachable_winv w : treachable w -> exists c0, Consumer_new cfg = Some c0 /\ winv c0 w.
Proof.
  induction 1 as [c0 E|w w' _ (c0 & E & I) S]; exists c0.
  - split; [exact E|apply winv_new].
  - split; [exact E|exact (winv_step c0 w w' I S)].
Qed.

(** ** Runs that have ended *)

Lemma ended_lists c0 w :
  winv c0 w -> w_phase w = Ended ->
  produce_all cfg fs = Some (offered (w_chan w), w_prod w) /\
  consume_all (timed clk (pushed (ring_ (w_chan w)))) c0 = Some (w_cons w) /\
  ch_pending (w_chan w) = None.
Proof.
  intros [_ Hp (h & Eh & Es) _ Hd _ Hph] E. rewrite E in Hph. destruct Hph as (D & Hn & _ & Epu).
  destruct (Hd D) as (Ee & Eo & En). split; [|split; [|exact En]].
  - rewrite Hp. unfold rest. rewrite Ee, Eo. cbn. by rewrite app_nil_r.
  - rewrite <- Epu, Eh, Hn. by rewrite app_nil_r.
Qed.

(** ** Every run can end *)

Definition pending_weight (w : World) : Z :=
  match ch_pending (w_chan w) with
  | None => 0
  | Some _ => match ppc (ring_ (w_chan w)) with PIdle => 11 | PWrite _ => 10 | PStore _ => 9 end
  end.

Definition phase_weight (w : World) : Z :=
  match w_phase w with
  | Polling => if producer_done w then 2 else 4
  | Draining => 3 | Final => 1 | Ended => 0
  end.

(** The steps to the end, if nobody spins: 30 for a frame (two messages at most),
    12 for a message to send, 8 for one in the ring, 5 for the one in hand. *)
Definition distance (w : World) : Z :=
  30 * Z.of_nat (length (w_todo w)) + (if w_eof w then 0 else 15) +
  12 * Z.of_nat (length (w_out w)) + pending_weight w +
  8 * (n_pushed (ring_ (w_chan w)) - n_popped (ring_ (w_chan w))) -
  match cpc (ring_ (w_chan w)) with CIdle => 0 | CRead => 1 | CStore _ => 2 end +
  (if w_hand w then 5 else 0) + (if producer_done w then 0 else 1) + phase_weight w.

Lemma produce_length f now1 now2 p out p' :
  produce cfg f now1 now2 p = Some (out, p') -> (length out <= 2)%nat.
Proof.
  Transparent produce. unfold produce. Opaque produce.
  destruct (parse _ _ _) as [[st ev]|]; cbn; [|done].
  destruct st; repeat case_decide; intros [= <- <-]; cbn; lia.
Qed.

Lemma distance_nonneg c0 w : winv c0 w -> 0 <= distance w.
Proof.
  intros [Hc _ _ _ _ _ _]. destruct (chan_ok _ Hc) as [I _ _ _].
  pose proof (ri_order _ _ I) as Ho. pose proof (ri_cpc _ _ I) as Hcpc.
  assert (0 <= pending_weight w /\ 0 <= phase_weight w) as [? ?].
  { unfold pending_weight, phase_weight. split; repeat case_match; lia. }
  unfold distance. destruct (cpc (ring_ (w_chan w))); repeat case_match; lia.
Qed.

(** Thread A inside [send], the ring being empty. *)
Lemma prod_can_step c0 w x :
  winv c0 w -> ch_pending (w_chan w) = Some x ->
  n_pushed (ring_ (w_chan w)) = n_popped (ring_ (w_chan w)) ->
  exists v c, exec (Prod v) (w_chan w) = Some c /\ distance (w <| w_chan := c |>) < distance w.
Proof.
  intros [Hc _ _ _ _ _ _] Ex Hempty. destruct (chan_ok _ Hc) as [I Hpc _ _].
  pose proof (ri_order _ _ I) as Ho. exists (n_popped (ring_ (w_chan w))).
  cbn [chan_exec]. unfold distance, pending_weight, phase_weight.
  destruct (ppc (ring_ (w_chan w))) as [|y|y] eqn:Ep.
  - rewrite Ex, decide_True by lia.
    destruct (push_check _ x _ (ring_ (w_chan w))) as [r res] eqn:Ec.
    destruct (push_check_inv _ _ bits_ok eq_refl _ x (n_popped (ring_ (w_chan w))) r res I Ep
      ltac:(lia) Ec)
      as (_ & Hr & Epu & Epo & Ecp).
    destruct Hr as [(-> & Hn & _)|(-> & Hw)].
    { unfold n_pushed, n_popped, ring_bits in *. rewrite Epu in Hn. lia. }
    eexists. split; [reflexivity|]. cbn. rewrite Ecp, Hw. unfold n_pushed, n_popped.
    rewrite Epu, Epo. lia.
  - destruct (push_write_inv _ _ bits_ok eq_refl _ y I Ep) as (r & Er & _ & Epu & Epo).
    rewrite Er. eexists. split; [reflexivity|]. cbn. rewrite Ex.
    assert (ppc r = PStore y /\ cpc r = cpc (ring_ (w_chan w))) as [-> ->].
    { revert Er. unfold push_write. destruct (vset _ _ _); cbn; [|done]. by intros [= <-]. }
    unfold n_pushed, n_popped. rewrite Epu, Epo. lia.
  - eexists. split; [reflexivity|]. cbn. rewrite Ex. unfold n_pushed, n_popped, push_store. cbn.
    rewrite length_app. cbn. lia.
Qed.

(** Thread B inside [receive]: there is something to do, or the end to be seen. *)
Lemma cons_can_step c0 w :
  winv c0 w -> w_phase w = Draining \/ w_phase w = Final -> w_hand w = None ->
  n_popped (ring_ (w_chan w)) < n_pushed (ring_ (w_chan w)) \/ producer_done w = true ->
  exists v c, tail_bound w <= v /\ exec (Cons v) (w_chan w) = Some c /\
    distance (after_cons c w) < distance w.
Proof.
  intros [Hc _ _ _ Hdone _ Hph] Hd Hn Hwork. destruct (chan_ok _ Hc) as [I _ _ _].
  pose proof (ri_order _ _ I) as Ho. exists (n_pushed (ring_ (w_chan w))).
  assert (exists c, exec (Cons (n_pushed (ring_ (w_chan w)))) (w_chan w) = Some c) as [c Ec].
  { cbn [chan_exec]. destruct (cpc (ring_ (w_chan w))) eqn:Ep; [|
      destruct (pop_read_inv _ _ bits_ok eq_refl _ I Ep) as (x & -> & _)|]; try (by eexists).
    rewrite decide_True by lia. by eexists. }
  exists c. split; [unfold tail_bound; destruct (w_phase w); lia|]. split; [exact Ec|].
  destruct (exec_cons_frame _ _ _ (chan_ok _ Hc) Ec) as (_ & Epu & Epp & Epe & R).
  unfold after_cons, distance, pending_weight, phase_weight, n_pushed, n_popped in *.
  destruct R as [H E Epo En|H E Epo|x H E Epo|x H E Epo]; rewrite H, ?E; cbn;
    rewrite ?Epu, ?Epp, ?Epe, ?Epo, ?E, ?length_app; cbn; rewrite ?Hn.
  - unfold n_popped in En. destruct Hwork as [Hw|Hw]; [lia|]. rewrite Hw. destruct Hd as [Hd|Hd]; rewrite Hd; lia.
  - lia.
  - lia.
  - lia.
Qed.

(** Handling the message in hand succeeds when the sequential run does. *)
Lemma handle_can_step c0 w m ms p c :
  policy = Block -> winv c0 w -> produce_all cfg fs = Some (ms, p) ->
  consume_all (timed clk ms) c0 = Some c -> w_hand w = Some m ->
  exists w', tstep w w' /\ distance w' < distance w.
Proof.
  intros Hpol I Ems Ec Em. destruct I as [Hc Hp (h & Eh & Es) _ _ _ _].
  destruct (chan_ok _ Hc) as [IR _ Hb _]. destruct (Hb Hpol) as [_ Eoff].
  assert (popped (ring_ (w_chan w)) `prefix_of` ms) as [l El].
  { rewrite Ems in Hp. destruct (rest w) as [[out q]|]; [|done]. injection Hp as -> _.
    rewrite Eoff. destruct (ri_popped _ _ IR) as [l ->]. rewrite <- !app_assoc. by eexists. }
  rewrite Em in Eh. cbn in Eh.
  assert (exists c', handle m (clk (length h)).1 (clk (length h)).2 (w_cons w) = Some c') as [c' E].
  { rewrite El, Eh in Ec. unfold timed, consume_all in *. rewrite <- app_assoc, imap_app in Ec.
    rewrite (iterM_app _ _ _ _ _ Es) in Ec. cbn [app imap iterM fst snd compose] in Ec.
    rewrite Nat.add_0_r in Ec. destruct (handle m _ _ (w_cons w)) as [c'|]; [by eexists|].
    clear -Ec. discriminate Ec. }
  exists (w <| w_hand := None |> <| w_cons := c' |>). clear Es Ec. split.
  - eapply t_handle; [exact Em|]. cbn zeta. rewrite Eh, length_app. cbn [length].
    rewrite Nat.add_sub. exact E.
  - unfold distance, pending_weight, phase_weight. cbn. rewrite Em. lia.
Qed.

(** Thread A between two calls of [send]. *)
Lemma turn_can_step c0 w ms p :
  winv c0 w -> produce_all cfg fs = Some (ms, p) -> ch_pending (w_chan w) = None ->
  producer_done w = false -> exists w', tstep w w' /\ distance w' < distance w.
Proof.
  intros [Hc Hp _ He _ _ _] Ems En Ed. destruct (w_out w) as [|m out] eqn:Eo.
  - destruct (w_todo w) as [|[[f n1] n2] todo] eqn:Et.
    + destruct (w_eof w) eqn:Ee.
      * exists (w <| producer_done := true |>). split; [by apply t_done|].
        unfold distance, pending_weight, phase_weight. cbn. rewrite Ed.
        destruct (w_phase w); lia.
      * eexists. split; [by apply t_eof|]. unfold distance, pending_weight, phase_weight. cbn.
        rewrite Ee, Eo. destruct (holding (w_prod w)); cbn; lia.
    + destruct (w_eof w) eqn:Ee; [by specialize (He eq_refl)|].
      rewrite Ems in Hp. unfold rest in Hp. rewrite Ee, Et in Hp. cbn [produce_loop] in Hp.
      destruct (produce cfg f n1 n2 (w_prod w)) as [[out p']|] eqn:Ep; [|done].
      eexists. split; [by eapply t_frame|]. pose proof (produce_length _ _ _ _ _ _ Ep).
      unfold distance, pending_weight, phase_weight. cbn. rewrite Et, Eo. cbn [length]. lia.
  - eexists. split; [eapply t_send; [exact Eo|cbn; rewrite En; reflexivity]|].
    unfold distance, pending_weight, phase_weight. cbn. rewrite Eo, En. cbn [length].
    destruct (chan_ok _ Hc) as [_ Hpc _ _]. destruct (ppc (ring_ (w_chan w))); [lia|congruence..].
Qed.

Lemma can_step c0 w ms p c :
  policy = Block -> winv c0 w -> produce_all cfg fs = Some (ms, p) ->
  consume_all (timed clk ms) c0 = Some c -> w_phase w <> Ended ->
  exists w', tstep w w' /\ distance w' < distance w.
Proof.
  intros Hpol I Ems Ec Hne. destruct (w_hand w) as [m|] eqn:Em; [by eapply handle_can_step|].
  clear Ec. destruct (decide (w_phase w = Polling)) as [Epo|Epo].
  - destruct (producer_done w) eqn:Ed.
    { exists (w <| w_phase := Final |>). split; [by apply (t_poll w true)|].
      unfold distance, pending_weight, phase_weight. cbn. rewrite Epo, Ed. lia. }
    exists (w <| w_phase := Draining |>). split; [by apply (t_poll w false)|].
    unfold distance, pending_weight, phase_weight. cbn. rewrite Epo, Ed. lia.
  - assert (w_phase w = Draining \/ w_phase w = Final) as Hd by (destruct (w_phase w); tauto).
    destruct (decide (n_popped (ring_ (w_chan w)) < n_pushed (ring_ (w_chan w)) \/
                      producer_done w = true)) as [Hw|Hw].
    { destruct (cons_can_step c0 w I Hd Em Hw) as (v & ch & Hv & Ex & Hlt).
      exists (after_cons ch w). split; [by eapply t_cons|exact Hlt]. }
    assert (producer_done w = false) as Ed by (destruct (producer_done w); tauto).
    destruct (ch_pending (w_chan w)) as [x|] eqn:Ex; [|by eapply turn_can_step].
    pose proof I as [Hc _ _ _ _ _ _]. destruct (chan_ok _ Hc) as [IR _ _ _].
    pose proof (ri_order _ _ IR) as Ho.
    destruct (prod_can_step c0 w x I Ex ltac:(lia)) as (v & ch & Ev & Hlt).
    exists (w <| w_chan := ch |>). split; [by eapply t_prod|exact Hlt].
Qed.

Lemma can_finish c0 w ms p c :
  policy = Block -> winv c0 w -> produce_all cfg fs = Some (ms, p) ->
  consume_all (timed clk ms) c0 = Some c ->
  exists w', rtc tstep w w' /\ winv c0 w' /\ w_phase w' = Ended.
Proof.
  intros Hpol I Ems Ec. apply (runs_down _ (winv c0) _ distance); [apply distance_nonneg| |exact I].
  intros w1 I1. destruct (decide (w_phase w1 = Ended)) as [E|E]; [by left|right].
  destruct (can_step c0 w1 ms p c Hpol I1 Ems Ec E) as (w2 & S & Hlt).
  exists w2. split; [exact S|]. split; [by eapply winv_step|exact Hlt].
Qed.

(** ** Schedules *)

(** Executable schedules: which thread moves, and what its loads see. *)
Inductive tcommand := TFrame | TEof | TSend | TProd (v : Z) | TDone | TPoll (seen : bool)
  | TCons (v : Z) | THandle.

Definition texec (a : tcommand) (w : World) : option World :=
  match a with
  | TFrame =>
      match w_todo w, w_out w, ch_pending (w_chan w) with
      | (f, now1, now2) :: todo, [], None =>
          '(out, p) ← produce cfg f now1 now2 (w_prod w);
          Some (w <| w_todo := todo |> <| w_out := out |> <| w_prod := p |>)
      | _, _, _ => None
      end
  | TEof =>
      match w_todo w, w_out w, ch_pending (w_chan w), w_eof w with
      | [], [], None, false =>
          Some (w <| w_eof := true |>
                  <| w_out := if holding (w_prod w) then [held (w_prod w)] else [] |>)
      | _, _, _, _ => None
      end
  | TSend =>
      match w_out w with
      | m :: out => c ← exec (Send m) (w_chan w); Some (w <| w_out := out |> <| w_chan := c |>)
      | [] => None
      end
  | TProd v => c ← exec (Prod v) (w_chan w); Some (w <| w_chan := c |>)
  | TDone =>
      match w_eof w, w_out w, ch_pending (w_chan w), producer_done w with
      | true, [], None, false => Some (w <| producer_done := true |>)
      | _, _, _, _ => None
      end
  | TPoll seen =>
      if decide (w_phase w = Polling /\ (seen = true -> producer_done w = true))
      then Some (w <| w_phase := if seen then Final else Draining |>) else None
  | TCons v =>
      if decide ((w_phase w = Draining \/ w_phase w = Final) /\ tail_bound w <= v) then
        match w_hand w with
        | None => c ← exec (Cons v) (w_chan w); Some (after_cons c w)
        | Some _ => None
        end
      else None
  | THandle =>
      match w_hand w with
      | Some m =>
          let t := clk (length (popped (ring_ (w_chan w))) - 1) in
          c ← handle m t.1 t.2 (w_cons w);
          Some (w <| w_hand := None |> <| w_cons := c |>)
      | None => None
      end
  end.

Lemma texec_sound a w w' : texec a w = Some w' -> tstep w w'.
Proof.
  destruct a as [| | |v| |seen|v|]; cbn [texec].
  - destruct (w_todo w) as [|[[f n1] n2] todo] eqn:Et; [done|].
    destruct (w_out w) eqn:Eo; [|discriminate]. destruct (ch_pending (w_chan w)) eqn:En; [done|].
    destruct (produce _ _ _ _ _) as [[out p]|] eqn:Ep; [|discriminate]. intros [= <-]. by eapply t_frame.
  - destruct (w_todo w) eqn:Et; [|discriminate]. destruct (w_out w) eqn:Eo; [|discriminate].
    destruct (ch_pending (w_chan w)) eqn:En; [done|]. destruct (w_eof w) eqn:Ee; [done|].
    intros [= <-]. by apply t_eof.
  - destruct (w_out w) as [|m out] eqn:Eo; [done|].
    destruct (exec (Send m) (w_chan w)) as [c|] eqn:Ec; [|discriminate]. intros [= <-]. by eapply t_send.
  - destruct (exec (Prod v) (w_chan w)) as [c|] eqn:Ec; [|discriminate]. intros [= <-]. by eapply t_prod.
  - destruct (w_eof w) eqn:Ee; [|discriminate]. destruct (w_out w) eqn:Eo; [|discriminate].
    destruct (ch_pending (w_chan w)) eqn:En; [done|]. destruct (producer_done w) eqn:Ed; [done|].
    intros [= <-]. by apply t_done.
  - case_decide as H; [|done]. destruct H. intros [= <-]. by apply t_poll.
  - case_decide as H; [|discriminate]. destruct (w_hand w) eqn:Em; [done|].
    destruct (exec (Cons v) (w_chan w)) as [c|] eqn:Ec; [|discriminate]. intros [= <-].
    destruct H. by eapply t_cons.
  - destruct (w_hand w) as [m|] eqn:Em; [|discriminate].
    destruct (handle m _ _ (w_cons w)) as [c|] eqn:Eh; [|discriminate]. intros [= <-].
    by eapply t_handle.
Qed.

Lemma trun_sound l w w' : treachable w -> iterM texec l w = Some w' -> treachable w'.
Proof.
  revert w. induction l as [|a l IH]; cbn [iterM]; intros w H; [by intros [= <-]|].
  destruct (texec a w) as [w1|] eqn:E; [|discriminate]. apply IH. eapply treach_step; [exact H|].
  by apply texec_sound in E.
Qed.
End Threads.

(** ** A run *)

(** Two orders through the channel, thread B with stale loads. *)
Definition demo_threads (policy : Backpressure) : PipelineConfig :=
  mkPipeConfig small_config policy (S754_zero false) (S754_zero false) 0 0 0.
Definition demo_frames : list (RawFrame * Z * Z) := number_frames 1 (take 2 demo_payloads).
Definition demo_clk (i : nat) : Z * Z := (0, 0).

Definition demo_schedule : list tcommand :=
  [TFrame; TSend; TProd 0; TProd 0; TProd 0; TPoll false; TCons 1; TCons 1; TCons 1; TFrame; THandle;
   TSend; TProd 0; TProd 0; TProd 0; TCons 1; TEof; TDone; TPoll false; TCons 2; TCons 2; TCons 2;
   THandle; TCons 2; TPoll true; TCons 2].

Definition demo_run (policy : Backpressure) : option World :=
  c0 ← Consumer_new (demo_threads policy);
  iterM (texec (demo_threads policy) demo_clk) demo_schedule (world_new demo_frames c0).

Lemma demo_ended policy :
  exists w, treachable (demo_threads policy) demo_frames demo_clk w /\ w_phase w = Ended.
Proof.
  assert (match demo_run policy with Some w => bool_decide (w_phase w = Ended) | None => false end
    = true) as R by (destruct policy; clear; vm_compute; reflexivity).
  destruct (demo_run policy) as [w|] eqn:E; [|discriminate R].
  exists w. split; [|exact (bool_decide_eq_true_1 _ R)]. clear R. unfold demo_run in E.
  apply bind_Some in E as (c0 & E0 & E).
  exact (trun_sound _ _ _ _ _ _ (treach_new _ _ _ c0 E0) E).
Qed.

Lemma demo_returns :
  exists r c, run_pipeline (demo_threads Block) demo_frames demo_clk (fun _ => false) = Some (r, c) /\ msgs c = 2.
Proof.
  assert (match run_pipeline (demo_threads Block) demo_frames demo_clk (fun _ => false) with
          | Some (_, c) => msgs c =? 2 | None => false end = true) as R
    by (clear; vm_compute; reflexivity).
  destruct (run_pipeline (demo_threads Block) demo_frames demo_clk (fun _ => false)) as [[r c]|]; [|discriminate R].
  exists r, c. split; [reflexivity|exact (proj1 (Z.eqb_eq _ _) R)].
Qed.

(** Any part of what was sent is what enters the ring for some moments at which it is
    full. *)
Lemma entered_sublist {A} (kept ms : list A) :
  kept `sublist_of` ms -> exists full, entered full ms = kept.
Proof.
  induction 1 as [|m kept ms _ [full IH]|m kept ms _ [full IH]].
  - by exists (fun _ => false).
  - exists (fun i => if i is S i then full i else false). exact (f_equal (cons m) IH).
  - exists (fun i => if i is S i then full i else true). exact IH.
Qed.

(** What crosses the channel in a run that has ended. *)
Lemma ended_carried cfg fs clk w c0 :
  winv cfg fs clk c0 w -> w_phase w = Ended ->
  exists full, carried (pc_backpressure cfg) full (offered (w_chan w)) =
      (pushed (ring_ (w_chan w)), dropped_ (w_chan w)) /\
    (pc_backpressure cfg = Block -> forall full', carried (pc_backpressure cfg) full' (offered (w_chan w)) =
      (pushed (ring_ (w_chan w)), dropped_ (w_chan w))).
Proof.
  intros I E. destruct (ended_lists cfg fs clk c0 w I E) as (_ & _ & En). destruct I as [Hc _ _ _ _ _ _].
  destruct (chan_ok cfg _ Hc) as [_ _ Hb (ms & Hsub & Eo & Hd)]. rewrite En, app_nil_r in Eo, Hb.
  destruct (entered_sublist _ _ Hsub) as [full Hf].
  assert (pc_backpressure cfg = Block -> forall full', carried (pc_backpressure cfg) full' (offered (w_chan w)) =
    (pushed (ring_ (w_chan w)), dropped_ (w_chan w))) as HB.
  { intros Hpol full'. destruct (Hb Hpol) as [H1 H2]. rewrite Hpol. cbn. by rewrite H1, H2. }
  exists full. split; [|exact HB]. destruct (pc_backpressure cfg) eqn:Hpol; [by apply HB|].
  unfold carried. by rewrite Eo, Hf, Hd.
Qed.

(** The result of a run that has ended. *)
Lemma ended_run cfg fs clk full w c0 :
  winv cfg fs clk c0 w -> Consumer_new cfg = Some c0 -> w_phase w = Ended ->
  carried (pc_backpressure cfg) full (offered (w_chan w)) = (pushed (ring_ (w_chan w)), dropped_ (w_chan w)) ->
  run_pipeline cfg fs clk full = r ← finish w; Some (r, w_cons w).
Proof.
  intros I E0 E Ecar. destruct (ended_lists cfg fs clk c0 w I E) as (Ep & Ec & _).
  unfold run_pipeline, finish. rewrite Ep. cbn [mbind option_bind].
  rewrite E0. cbn [mbind option_bind]. rewrite Ecar. fold (timed clk (pushed (ring_ (w_chan w)))).
  rewrite Ec. reflexivity.
Qed.

Lemma ended_result cfg fs clk full w :
  pc_backpressure cfg = Block -> treachable cfg fs clk w -> w_phase w = Ended ->
  run_pipeline cfg fs clk full = r ← finish w; Some (r, w_cons w).
Proof.
  intros Hpol H E. destruct (treachable_winv cfg fs clk w H) as (c0 & E0 & I).
  destruct (ended_carried cfg fs clk w c0 I E) as (_ & _ & HB). by eapply ended_run, HB.
Qed.

(** ** Theorems *)

(** C4. The two threads compute what the sequential run computes.  Under [Block],
    whatever the interleaving and however stale the loads, a run that has ended
    has handled every message in the order it was sent, dropped nothing, and its
    result and its consumer are those of [run_pipeline]. *)
Theorem threads_agree cfg fs clk full w :
  pc_backpressure cfg = Block -> treachable cfg fs clk w -> w_phase w = Ended ->
  run_pipeline cfg fs clk full = r ← finish w; Some (r, w_cons w).
Proof. apply ended_result. Qed.

Lemma threads_agree_witness :
  exists w, treachable (demo_threads Block) demo_frames demo_clk w /\
    run_pipeline (demo_threads Block) demo_frames demo_clk (fun _ => false) = r ← finish w; Some (r, w_cons w).
Proof.
  destruct (demo_ended Block) as (w & H & E). exists w. split; [exact H|].
  exact (threads_agree (demo_threads Block) demo_frames demo_clk (fun _ => false) w eq_refl H E).
Defined.

(** Under either policy a run that has ended is a run of [run_pipeline], for the
    moments at which the ring was full. *)
Theorem threads_are_runs cfg fs clk w :
  treachable cfg fs clk w -> w_phase w = Ended ->
  exists full, run_pipeline cfg fs clk full = r ← finish w; Some (r, w_cons w).
Proof.
  intros H E. destruct (treachable_winv cfg fs clk w H) as (c0 & E0 & I).
  destruct (ended_carried cfg fs clk w c0 I E) as (full & HC & _). exists full. by eapply ended_run.
Qed.

(** C5. Every run can end.  Under [Block], when the sequential run returns, no
    interleaving leads to a deadlock, a livelock or a failure: from every world
    the two threads can reach they can reach the end, with the sequential result. *)
Theorem threads_can_end cfg fs clk full r c w :
  pc_backpressure cfg = Block -> run_pipeline cfg fs clk full = Some (r, c) ->
  treachable cfg fs clk w ->
  exists w', rtc (tstep cfg clk) w w' /\ w_phase w' = Ended /\ finish w' = Some r /\ w_cons w' = c.
Proof.
  intros Hpol Er H. destruct (treachable_winv cfg fs clk w H) as (c0 & E0 & I).
  unfold run_pipeline in Er. rewrite E0 in Er.
  destruct (produce_all cfg fs) as [[ms p]|] eqn:Ep; [|discriminate Er]. cbn [mbind option_bind] in Er.
  rewrite Hpol in Er. cbn [carried] in Er. fold (timed clk ms) in Er.
  destruct (consume_all (timed clk ms) c0) as [c1|] eqn:Ec; [|discriminate Er].
  cbn [mbind option_bind] in Er.
  destruct (can_finish cfg fs clk c0 w ms p c1 Hpol I Ep Ec) as (w' & S & I' & E).
  exists w'. split; [exact S|]. split; [exact E|].
  destruct (ended_lists cfg fs clk c0 w' I' E) as (Ep' & Ec' & En). destruct I' as [Hc _ _ _ _ _ _].
  destruct (chan_ok cfg _ Hc) as [_ _ Hb _]. destruct (Hb Hpol) as [Hd Eo].
  rewrite En, app_nil_r in Eo. rewrite Ep' in Ep. injection Ep as <- <-. rewrite <- Eo, Ec in Ec'.
  injection Ec' as Ew. unfold finish. rewrite Hd, <- Ew.
  destruct (assemble (w_prod w') 0 c1) as [r'|]; [|discriminate Er]. injection Er as <- <-.
  split; reflexivity.
Qed.

Lemma threads_can_end_witness :
  exists c0 w', rtc (tstep (demo_threads Block) demo_clk) (world_new demo_frames c0) w' /\
    w_phase w' = Ended /\ msgs (w_cons w') = 2.
Proof.
  destruct demo_returns as (r & c & E & M).
  destruct (demo_ended Block) as (w & H & _).
  destruct (treachable_winv _ _ _ _ H) as (c0 & E0 & _).
  destruct (threads_can_end (demo_threads Block) demo_frames demo_clk (fun _ => false) r c (world_new demo_frames c0)
    eq_refl E (treach_new _ _ _ c0 E0)) as (w' & S & Ew & _ & Ec).
  exists c0, w'. rewrite Ec. exact (conj S (conj Ew M)).
Defined.

(** C8. Loss is counted.  Under [Drop] a run that has ended has handled, in
    order, a subsequence of what was sent, and the drop counter is exactly the
    number of messages that are missing. *)
Theorem threads_drop_counted cfg fs clk w :
  treachable cfg fs clk w -> w_phase w = Ended ->
  exists ms c0 kept, produce_all cfg fs = Some (ms, w_prod w) /\ Consumer_new cfg = Some c0 /\
    kept `sublist_of` ms /\ consume_all (timed clk kept) c0 = Some (w_cons w) /\
    dropped_ (w_chan w) = u64 (Z.of_nat (length ms) - Z.of_nat (length kept)).
Proof.
  intros H E. destruct (treachable_winv cfg fs clk w H) as (c0 & E0 & I).
  destruct (ended_lists cfg fs clk c0 w I E) as (Ep & Ec & En). destruct I as [Hc _ _ _ _ _ _].
  destruct (chan_ok cfg _ Hc) as [_ _ _ (kept & Hsub & Eo & Hd)].
  rewrite En, app_nil_r in Eo. exists kept, c0, (pushed (ring_ (w_chan w))). rewrite <- Eo at 1.
  split; [exact Ep|]. split; [exact E0|]. split; [exact Hsub|]. split; [exact Ec|exact Hd].
Qed.

Lemma threads_drop_counted_witness :
  exists w (ms kept : list PipelineMsg), treachable (demo_threads SpscRing.Drop) demo_frames demo_clk w /\
    kept `sublist_of` ms /\
    dropped_ (w_chan w) = u64 (Z.of_nat (length ms) - Z.of_nat (length kept)).
Proof.
  destruct (demo_ended SpscRing.Drop) as (w & H & E).
  destruct (threads_drop_counted (demo_threads SpscRing.Drop) demo_frames demo_clk w H E)
    as (ms & c0 & kept & _ & _ & S & _ & D).
  exists w, ms, kept. exact (conj H (conj S D)).
Defined.

Lemma peak_of_max occs : 0 <= peak_of occs /\ forall occ, occ ∈ occs -> occ <= peak_of occs.
Proof.
  unfold peak_of. induction occs as [|x occs [H0 H]] using rev_ind; [by split; [|set_solver]|].
  rewrite foldl_snoc. case_decide as D; (split; [lia|]); intros y [Hy|Hy]%elem_of_app;
    (apply list_elem_of_singleton in Hy as ->; lia) || (specialize (H y Hy); lia).
Qed.

Lemma peak_of_least occs b : 0 <= b -> Forall (fun occ => occ <= b) occs -> peak_of occs <= b.
Proof.
  unfold peak_of. induction occs as [|x occs IH] using rev_ind; [done|].
  intros H0 [H Hx]%Forall_app. apply list.Forall_cons in Hx as [Hx _]. rewrite foldl_snoc.
  case_decide; [done|auto].
Qed.

(** What thread A sees of the queue is never above its capacity. *)
Lemma occupancy_bounds cfg fs clk w v :
  treachable cfg fs clk w -> may_see v w -> 0 <= occupancy v w <= kRingCapacity.
Proof.
  intros H Hv. destruct (treachable_winv cfg fs clk w H) as (c0 & _ & I).
  destruct (chan_ok cfg _ (wi_chan _ _ _ _ _ I)) as [R _ _ _]. unfold occupancy, size_approx, may_see in *.
  pose proof (inv_bounds (2 ^ ring_bits) ring_bits bits_ok eq_refl _ R) as B. destruct R.
  assert (2 ^ ring_bits = kRingCapacity) as Ek by reflexivity.
  rewrite ri_tail, u64_sub_small by lia. lia.
Qed.

(** The peak reported is the largest queue thread A has seen, and no larger than the
    ring: however stale its loads are, the difference of the indices does not wrap. *)
Theorem peak_bounded cfg fs clk occs :
  Forall (fun occ => exists w v, treachable cfg fs clk w /\ may_see v w /\ occ = occupancy v w) occs ->
  0 <= peak_of occs <= kRingCapacity /\ forall occ, occ ∈ occs -> occ <= peak_of occs.
Proof.
  intros H. destruct (peak_of_max occs) as [H0 Hm]. split; [split; [done|]|done].
  apply peak_of_least; [done|]. eapply Forall_impl; [|exact H]. intros occ (w & v & Hw & Hv & ->).
  apply (occupancy_bounds cfg fs clk w v Hw Hv).
Qed.
