(* ===== verification/Replay.v ===== *)
(** * Generate, replay, and read the market

    The parts together: [tools/itch_gen.cpp] writes a file, [ItchFileSource]
    replays it, [run_pipeline] decodes, sequences and applies it.  The market view
    the pipeline ends with is that of the generator's own live orders. *)

From stdpp Require Import base list gmap numbers.
From S2P Require Import Prelude MarketEvent ByteRead ItchParser FeedSource OrderPool.
From S2P Require Import OrderBook BookSpec OrderBookWf OrderBookBest BookLadder.
From S2P Require Import OrderBookProps BookOrders ItchGen ItchGenWrite ItchGenProps.
From S2P Require Import SpscRing Publisher Sequencer Pipeline.
From Stdlib Require Import SpecFloat.

(** The frames with the producer's clock readings. *)
Definition stamped_frames (t : nat -> Z * Z) (fs : list RawFrame) : list (RawFrame * Z * Z) :=
  imap (fun i f => (f, (t i).1, (t i).2)) fs.

Lemma frames_decode t msg n ps fs evs :
  expected_frames n ps fs -> Forall2 decodes_to ps evs -> 0 <= n ->
  n + Z.of_nat (length ps) < 2 ^ 64 ->
  (forall i e, evs !! i = Some e -> msg (n + 1 + Z.of_nat i) = e) ->
  decodes msg (n + 1) (stamped_frames t fs).
Proof.
  intros He Hd. revert t n fs He. induction Hd as [|p ev ps evs [Hlen Hp] Hd IH];
    intros t n [|f fs] He Hn Hb Hm; cbn in He; try done.
  destruct He as (Hpay & Hfl & Hq & He). cbn [length] in Hb.
  assert (u64 (n + 1) = n + 1) as Eq by (apply wrap_small; unfold in_u; lia).
  rewrite Eq in Hq. rewrite Hq in He.
  assert (0 <= f_len f <= Z.of_nat (length (f_data f))) as Hfd.
  { split; [lia|]. unfold payload in Hpay. apply (f_equal length) in Hpay.
    rewrite length_take in Hpay. lia. }
  cbn [stamped_frames imap decodes]. split; [done|]. split; [|split; [done|]].
  - specialize (Hm 0%nat ev eq_refl). rewrite Z.add_0_r in Hm. rewrite Hm, Hfl in *.
    rewrite <- Hp. apply parse_ext; [|lia]. intros i Hi. rewrite <- Hpay. unfold payload, vget.
    rewrite Hfl. case_decide; [|done]. rewrite lookup_take_lt; [done|lia].
  - apply (IH (fun i => t (S i))); [done|lia|lia|]. intros i e Hi.
    specialize (Hm (S i) e Hi). rewrite <- Hm. f_equal. lia.
Qed.

Lemma file_size ps (evs : list MarketEvent) :
  Forall2 decodes_to ps evs ->
  2 * Z.of_nat (length ps) <= Z.of_nat (length (concat (map frame_bytes ps)))
    <= 65538 * Z.of_nat (length ps).
Proof.
  induction 1 as [|p ev ps evs [Hlen _] _ IH]; [cbn; lia|]. cbn [map concat].
  rewrite length_app. pose proof (frame_bytes_length p). cbn [length]. lia.
Qed.

Lemma expected_frames_length n ps fs : expected_frames n ps fs -> length fs = length ps.
Proof.
  revert n fs. induction ps as [|p ps IH]; intros n [|f fs]; cbn; try done.
  intros (_ & _ & _ & H). f_equal. by eapply IH.
Qed.

Lemma events_seqZ evs :
  (fun q => default event0 (evs.[q - 1])) <$> seqZ 1 (Z.of_nat (length evs)) = evs.
Proof.
  apply list_eq. intros i. rewrite list_lookup_fmap.
  destruct (decide (i < length evs)%nat) as [Hi|Hi].
  - rewrite lookup_seqZ_lt by lia. cbn [fmap option_fmap option_map].
    replace (1 + Z.of_nat i - 1) with (Z.of_nat i) by lia. rewrite vget_nat.
    destruct (lookup_lt_is_Some_2 evs i Hi) as [e ->]. done.
  - rewrite lookup_seqZ_ge by lia. symmetry. apply lookup_ge_None. lia.
Qed.

(** The whole path, and the size of the file. *)
Lemma replay_ok uni sym cfg messages fd t clk full :
  let c' := clamp_config (pc_book cfg) in
  let n := Z.max 1 messages + 1 in
  pc_backpressure cfg = Block -> in_range uni -> length sym = 8%nat -> fits c' -> 0 <= messages < 2 ^ 32 - 2 -> 0 <= fd ->
  (active cfg -> 1 <= inject_gap_at cfg <= n /\ 1 <= gap_reorder_distance cfg < 4096) ->
  exists g fs s r c ls, gen_main uni sym messages = Some g /\
    n <= Z.of_nat (length (g_out g)) /\
    all_frames (Z.to_nat (n + 1)) (ItchFileSource_open
      (mkOpen fd (Some (Z.of_nat (length (g_out g)))) (Some (g_out g)))) = Some (fs, s) /\
    run_pipeline cfg (stamped_frames t fs) clk full = Some (r, c) /\
    concat ls ≡ₚ order_of_live <$> live g /\ slotted c' ls /\
    final_bid r = a_best (a_bids c' ls) /\ final_ask r = a_best (a_asks c' ls) /\
    top_bids r = take 5 (a_bids c' ls) /\ top_asks r = take 5 (a_asks c' ls) /\
    res_messages r = n /\ res_parse_errors r = 0 /\ stale_ (c_seq c) = false.
Proof.
  intros c' n Hpol Hu Hs Hf Hm Hfd Hg.
  destruct (gen_main_ok _ Hf uni Hu sym Hs messages Hm) as (g & evs & b & E & I & L). fold n in L.
  destruct (gi_file _ _ _ _ I) as (ps & Ho & Hd). pose proof (gi_book _ _ _ _ I) as Hcl.
  pose proof (file_size _ _ Hd) as Hsz. pose proof (list.Forall2_length _ _ _ Hd) as Hlen.
  destruct (all_frames_framed fd [] ps [] 0 (Z.to_nat (n + 1))) as (fs & s & Ef & Hx).
  { eapply list.Forall2_Forall_l; [exact Hd|]. apply list.Forall_forall. by intros ev _ p [? _]. }
  { left. cbn. lia. }
  { rewrite app_nil_r. cbn [app]. lia. }
  { lia. }
  rewrite app_nil_r in Ef. cbn [app length] in Ef. rewrite <- Ho in Ef.
  assert (Z.of_nat (length (stamped_frames t fs)) = n) as Hn.
  { unfold stamped_frames. rewrite length_imap, (expected_frames_length _ _ _ Hx). lia. }
  destruct (run_ends cfg (fun q => default event0 (evs.[q - 1])) (stamped_frames t fs) clk full)
    as (r & c & Er & A & _ & _ & B1 & B2 & B3 & B4 & M & P & _ & St).
  - exact Hpol.
  - apply Hf.
  - eapply (frames_decode t _ 0); [exact Hx|exact Hd|lia|lia|]. intros i e Hi.
    replace (0 + 1 + Z.of_nat i - 1) with (Z.of_nat i) by lia. by rewrite vget_nat, Hi.
  - lia.
  - rewrite Hn, <- L, events_seqZ. apply (cl_unlocked _ _ _ _ _ Hcl).
  - rewrite Hn. exact Hg.
  - rewrite Hn, <- L, events_seqZ in *. fold c' in A, B1, B2, B3, B4.
    rewrite <- (cl_abs _ _ _ _ _ Hcl : _ = a_apply_all c' evs (no_orders c')) in *.
    exists g, fs, s, r, c, (abs b). split; [exact E|]. split; [rewrite Ho; lia|]. split.
    { unfold ItchFileSource_open. cbn [os_fd os_size os_map]. rewrite !decide_False by (rewrite ?Ho; lia).
      exact Ef. }
    split; [exact Er|]. split; [apply (cl_orders _ _ _ _ _ Hcl)|]. split.
    { pose proof (wf_slotted b (cl_wf _ _ _ _ _ Hcl)) as Hsl.
      by rewrite (cl_cfg _ _ _ _ _ Hcl) in Hsl. }
    rewrite M, P. repeat (split; [done|]). exact St.
Qed.

(** C9. The whole path, under [Block].  For a book whose band holds the generator's
    prices, a generated file, replayed through the pipeline without an injected gap or
    with one of fewer than 4096 frames (the reorder window), whatever the random draws
    and the clocks: the run ends, every message of the file reaches the book, and the
    final best bid and ask and the depth are the ladders of queues that hold exactly
    the generator's live orders, each in the slot of its price. *)
Theorem replay_generated_file uni sym cfg messages fd t clk full :
  let c' := clamp_config (pc_book cfg) in
  let n := Z.max 1 messages + 1 in
  pc_backpressure cfg = Block -> in_range uni -> length sym = 8%nat -> fits c' -> 0 <= messages < 2 ^ 32 - 2 -> 0 <= fd ->
  (active cfg -> 1 <= inject_gap_at cfg <= n /\ 1 <= gap_reorder_distance cfg < 4096) ->
  exists g fs s r c ls, gen_main uni sym messages = Some g /\
    all_frames (Z.to_nat (n + 1)) (ItchFileSource_open
      (mkOpen fd (Some (Z.of_nat (length (g_out g)))) (Some (g_out g)))) = Some (fs, s) /\
    run_pipeline cfg (stamped_frames t fs) clk full = Some (r, c) /\
    concat ls ≡ₚ order_of_live <$> live g /\ slotted c' ls /\
    final_bid r = a_best (a_bids c' ls) /\ final_ask r = a_best (a_asks c' ls) /\
    top_bids r = take 5 (a_bids c' ls) /\ top_asks r = take 5 (a_asks c' ls) /\
    res_messages r = n /\ res_parse_errors r = 0 /\ stale_ (c_seq c) = false.
Proof.
  intros c' n Hpol Hu Hs Hf Hm Hfd Hg.
  destruct (replay_ok uni sym cfg messages fd t clk full Hpol Hu Hs Hf Hm Hfd Hg)
    as (g & fs & s & r & c & ls & E & _ & H). exists g, fs, s, r, c, ls. exact (conj E H).
Qed.

Definition replay_config : PipelineConfig :=
  mkPipeConfig band_config Block (S754_zero false) (S754_zero false) 3 2 0.

Lemma replay_generated_file_witness :
  exists g fs s r c, gen_main draw_low (gen_sym [x53; x59]) 12 = Some g /\
    all_frames 14 (ItchFileSource_open
      (mkOpen 3 (Some (Z.of_nat (length (g_out g)))) (Some (g_out g)))) = Some (fs, s) /\
    run_pipeline replay_config (stamped_frames (fun _ => (0, 0)) fs) (fun _ => (0, 0)) (fun _ => false) = Some (r, c) /\
    res_messages r = 13 /\ res_parse_errors r = 0 /\ stale_ (c_seq c) = false.
Proof.
  destruct (replay_generated_file draw_low (gen_sym [x53; x59]) replay_config 12 3
      (fun _ => (0, 0)) (fun _ => (0, 0)) (fun _ => false))
    as (g & fs & s & r & c & ls & E & F & R & _ & _ & _ & _ & _ & _ & M & P & S).
  - reflexivity.
  - intros k lo hi H. unfold draw_low. split; [apply Z.le_refl|exact H].
  - reflexivity.
  - exact band_config_fits.
  - split; [discriminate|reflexivity].
  - discriminate.
  - intros _. cbn. repeat split; (discriminate || reflexivity).
  - exists g, fs, s, r, c. exact (conj E (conj F (conj R (conj M (conj P S))))).
Defined.
