(* ===== verification/LiveFeed.v ===== *)
(** * The live L2 feed

    [apps/live_feed.cpp]: from a depth document and depth-update messages to the
    book of one feed.  Text conversion and JSON are the concern of other code: a
    cell of a document is the value [std::llround(std::stod(s) * scale)], [None]
    when [std::stod] throws, and a depth document is what the HTTP client and the
    JSON library deliver ([Response]).

    - [px_to_ticks], [scaled_qty], [load_side], [fetch_snapshot]: the snapshot;
    - [depth_update]: the messages the WebSocket callback sends for one update;
    - [feed_band], [start_live], [on_msg], [re_snapshot]: the consumer's state
      machine ([Seeking] an update that joins the snapshot, then [Streaming]);
    - [push_trade]: the trade tape. *)

From Stdlib Require Import SpecFloat.
From stdpp Require Import base list gmap numbers.
From S2P Require Import Prelude MarketEvent OrderPool OrderBook BookSpec OrderBookWf.
From S2P Require Import OrderBookBest BookLadder OrderBookProps BookL2 Instrumentation.
From S2P Require Import SpscRing Publisher Sequencer Pipeline.

(** ** Cells and rows *)

Definition px_to_ticks (cell : option Z) : Z := default (-1) cell.

(** The quantity, clamped to 32 bits; [g_saturated] counts the clamps. *)
Definition scaled_qty (cell : option Z) (g_saturated : Z) : Z * Z :=
  match cell with
  | None => (0, g_saturated)
  | Some q =>
      if decide (q <= 0) then (0, g_saturated)
      else if decide (q > 2 ^ 32 - 1) then (2 ^ 32 - 1, u64 (g_saturated + 1))
      else (q, g_saturated)
  end.

(** A price level of a document: [None] when it has fewer than two cells. *)
Abbreviation row := (option (option Z * option Z)).

Record Snapshot := mkSnap {
  ok : bool;
  http_status : Z;
  last_update_id : Z;
  sn_best_bid : Z;
  sn_best_ask : Z;
  sn_levels : list l2_op }.

#[export] Instance Snapshot_settable : Settable Snapshot := fun s =>
  mkSnap (ok s) (http_status s) (last_update_id s) (sn_best_bid s) (sn_best_ask s) (sn_levels s).

Definition snapshot0 : Snapshot := mkSnap false 0 0 (-1) (-1) [].

(** One turn of the loop of [load]. *)
Definition load_row (sd : Side) (is_bid : bool) (r : row) (st : Snapshot * Z) : Snapshot * Z :=
  let '(s, sat) := st in
  match r with
  | None => (s, sat)
  | Some (c0, c1) =>
      let px := px_to_ticks c0 in
      if decide (px < 0) then (s, sat) else
      let '(qty, sat) := scaled_qty c1 sat in
      if decide (qty = 0) then (s, sat) else
      let s := if decide (is_bid = true /\ (sn_best_bid s < 0 \/ px > sn_best_bid s))
               then s <| sn_best_bid := px |> else s in
      let s := if decide (is_bid = false /\ (sn_best_ask s < 0 \/ px < sn_best_ask s))
               then s <| sn_best_ask := px |> else s in
      (s <| sn_levels ::= fun l => l ++ [mkL2 sd px qty] |>, sat)
  end.

Definition load_side (sd : Side) (is_bid : bool) (rows : list row) (st : Snapshot * Z)
    : Snapshot * Z :=
  fold_left (fun st r => load_row sd is_bid r st) rows st.

(** A parsed depth document; a missing array is an empty one. *)
Record DepthDoc := mkDoc { doc_id : option Z; doc_bids : list row; doc_asks : list row }.

(** The answer of the HTTP client, [None] when there is none; the body is [None]
    when it is not JSON. *)
Abbreviation Response := (option (Z * option DepthDoc)).

Definition fetch_snapshot (resp : Response) (g_saturated : Z) : Snapshot * Z :=
  let s := snapshot0 <| http_status := match resp with Some (st, _) => st | None => -1 end |> in
  match resp with
  | Some (status, Some d) =>
      if decide (status <> 200) then (s, g_saturated) else
      match doc_id d with
      | None => (s, g_saturated)
      | Some id =>
          let st := load_side Buy true (doc_bids d) (s <| last_update_id := id |>, g_saturated) in
          let st := load_side Sell false (doc_asks d) st in
          (st.1 <| ok := true |>, st.2)
      end
  | _ => (s, g_saturated)
  end.

(** ** The WebSocket callback *)

(** [push_op]: the message of one level, if it is sent. *)
Definition push_op (sd : Side) (U u recv : Z) (r : row) (g_saturated : Z)
    : option PipelineMsg * Z :=
  match r with
  | None => (None, g_saturated)
  | Some (c0, c1) =>
      let px := px_to_ticks c0 in
      if decide (px < 0) then (None, g_saturated) else
      let '(qty, g_saturated) := scaled_qty c1 g_saturated in
      (Some (mkMsg (event0 <| ev_type := L2SetLevel |> <| ev_side := sd |> <| ev_price_ticks := px |>
                      <| ev_size := u32 qty |> <| ev_order_ref := U |> <| ev_match_number := u |>)
              recv u), g_saturated)
  end.

Fixpoint push_ops (sd : Side) (U u recv : Z) (rows : list row) (g_saturated : Z)
    : list PipelineMsg * Z :=
  match rows with
  | [] => ([], g_saturated)
  | r :: rows =>
      let '(m, g_saturated) := push_op sd U u recv r g_saturated in
      let '(ms, g_saturated) := push_ops sd U u recv rows g_saturated in
      (option_list m ++ ms, g_saturated)
  end.

(** What a depth update sends: its levels, or a header when it lists none. *)
Definition depth_update (U u recv : Z) (b a : list row) (g_saturated : Z)
    : list PipelineMsg * Z :=
  let '(mb, g_saturated) := push_ops Buy U u recv b g_saturated in
  let '(ma, g_saturated) := push_ops Sell U u recv a g_saturated in
  if decide (b ++ a = []) then
    ([mkMsg (event0 <| ev_type := L2EventHeader |> <| ev_order_ref := U |> <| ev_match_number := u |>)
       recv u], g_saturated)
  else (mb ++ ma, g_saturated).

(** ** The consumer *)

Inductive Mode := Seeking | Streaming.

Record LiveFeed := mkLive {
  lf_book : OrderBook;
  lf_hist : LatencyHistogram;
  lf_L : Z;
  lf_mode : Mode;
  prev_u : Z;
  have_event : bool;
  cur_U : Z;
  cur_apply : bool;
  gaps : Z;
  resyncs : Z }.

#[export] Instance LiveFeed_settable : Settable LiveFeed := fun f =>
  mkLive (lf_book f) (lf_hist f) (lf_L f) (lf_mode f) (prev_u f) (have_event f) (cur_U f)
    (cur_apply f) (gaps f) (resyncs f).

(** [static_cast<std::int64_t>(x)] of a double in range. *)
Definition trunc_i64 (x : spec_float) : Z :=
  match x with
  | S754_finite true m e => - trunc_f64 (S754_finite false m e)
  | _ => trunc_f64 x
  end.

(** The price band around the middle of the snapshot, if it is not too wide. *)
Definition feed_band (band_pct : spec_float) (s : Snapshot) : option OrderBookConfig :=
  let mid := Z.quot (sn_best_bid s + sn_best_ask s) 2 in
  let half := trunc_i64 (SFdiv 53 1024 (SFmul 53 1024 (f64 mid) band_pct) (f64 100)) in
  let bc := mkConfig (Z.max 1 (mid - half)) (mid + half) 1 (2 ^ 16) in
  if decide (u64 (u64 (max_price_ticks bc - min_price_ticks bc) + 1) > 60000000) then None
  else Some bc.

(** The levels of a snapshot, and the boundary behind them. *)
Definition load_levels (s : Snapshot) (b : OrderBook) : option OrderBook :=
  b ← set_levels (sn_levels s) b;
  Some (observe_event_boundary b).

Definition start_live (bc : OrderBookConfig) (s0 : Snapshot) : option LiveFeed :=
  hist ← Instrumentation.init 60000000000 3;
  b ← load_levels s0 (OrderBook_new bc);
  Some (mkLive b hist (last_update_id s0) Seeking 0 false 0 false 0 0).

(** [re_snapshot], with the snapshot it fetches. *)
Definition re_snapshot (s2 : Snapshot) (f : LiveFeed) : option LiveFeed :=
  let f := f <| resyncs ::= inc |> in
  if ok s2 then
    b ← OrderBook.reset (lf_book f);
    b ← load_levels s2 b;
    Some (f <| lf_book := b |> <| lf_L := last_update_id s2 |> <| prev_u := 0 |>
            <| lf_mode := Seeking |> <| have_event := false |>)
  else Some (f <| have_event := false |>).

(** The head of a new update [U .. u]; [true] is the source's [continue]. *)
Definition new_update (U u : Z) (s2 : Snapshot) (f : LiveFeed) : option (bool * LiveFeed) :=
  let f := if have_event f && cur_apply f
           then f <| lf_book ::= observe_event_boundary |> else f in
  let f := f <| have_event := true |> <| cur_U := U |> <| cur_apply := false |> in
  let join f := f <| prev_u := u |> <| cur_apply := true |> in
  match lf_mode f with
  | Seeking =>
      if decide (u < u64 (lf_L f + 1)) then Some (false, f)
      else if decide (U <= u64 (lf_L f + 1)) then Some (false, join (f <| lf_mode := Streaming |>))
      else f ← re_snapshot s2 f; Some (true, f)
  | Streaming =>
      if decide (u <= prev_u f) then Some (false, f)
      else if decide (U = u64 (prev_u f + 1)) then Some (false, join f)
      else f ← re_snapshot s2 (f <| gaps ::= inc |>); Some (true, f)
  end.

(** The body of the receive loop; [s2] is the snapshot a recovery would fetch,
    [t] the clock reading of the latency. *)
Definition on_msg (m : PipelineMsg) (s2 : Snapshot) (t : Z) (f : LiveFeed) : option LiveFeed :=
  let e := event m in
  let U := ev_order_ref e in
  '(continue, f) ← (if decide (have_event f = false \/ U <> cur_U f)
                    then new_update U (ev_match_number e) s2 f else Some (false, f));
  if continue : bool then Some f else
  if decide (cur_apply f = true /\ ev_type e = L2SetLevel) then
    b ← set_level (ev_side e) (ev_price_ticks e) (ev_size e) (lf_book f);
    hist ← Instrumentation.record (u64 (t - recv_ns m)) (lf_hist f);
    Some (f <| lf_book := b |> <| lf_hist := hist |>)
  else Some f.

Definition live_all (ms : list (PipelineMsg * Snapshot * Z)) (f : LiveFeed) : option LiveFeed :=
  iterM (fun x => on_msg x.1.1 x.1.2 x.2) ms f.

(** ** The trade tape *)

(** [while (trades.size() > 40) trades.pop_front();] *)
Definition trim {A} (l : list A) : list A := drop (length l - 40) l.

Definition push_trade {A} (t : A) (trades : list A) : list A := trim (trades ++ [t]).
