(* ===== verification/LiveFeedProps.v ===== *)
(** * The live feed follows the exchange

    Proofs about [LiveFeed]: an unbroken stream of depth updates that joins the
    snapshot leaves the book equal to the exchange's, whatever part of the first
    update the snapshot already holds; a broken stream is detected and the book
    reloaded; the snapshot loader and the trade tape do what they should.  One
    recovery path loses a level ([live_first_level_lost]). *)

From Stdlib Require Import SpecFloat.
From stdpp Require Import base list gmap numbers.
From S2P Require Import Prelude MarketEvent OrderPool OrderBook BookSpec OrderBookWf.
From S2P Require Import OrderBookBest BookLadder OrderBookProps BookL2 Exchange Instrumentation.
From S2P Require Import SpscRing Publisher Sequencer Pipeline LiveFeed.

(** ** Assignments of levels *)

(** Assigning a batch again changes nothing. *)
Lemma length_l2_sets c ops ls : length (l2_sets c ops ls) = length ls.
Proof.
  unfold l2_sets. revert ls. induction ops as [|o ops IH]; intros ls; [done|]. cbn. rewrite IH.
  unfold l2_set. case_decide; [done|]. apply length_insert.
Qed.

Lemma l2_sets_app c ops1 ops2 ls : l2_sets c (ops1 ++ ops2) ls = l2_sets c ops2 (l2_sets c ops1 ls).
Proof. unfold l2_sets. apply fold_left_app. Qed.

(** Whether a batch assigns slot [i]. *)
Definition touches (c : OrderBookConfig) (i : nat) (o : l2_op) : Prop :=
  to_index c (op_price o) = Z.of_nat i.

#[export] Instance touches_dec c i o : Decision (touches c i o).
Proof. unfold touches. apply _. Defined.

Lemma l2_set_lookup c o ls i :
  (i < length ls)%nat ->
  l2_set c (op_side o) (op_price o) (op_size o) ls !! i =
  if decide (touches c i o) then Some (if decide (op_size o = 0) then None else Some (op_side o, op_size o))
  else ls !! i.
Proof.
  intros Hi. unfold l2_set, touches. destruct (decide (to_index c (op_price o) < 0)) as [Hn|Hn].
  - rewrite decide_False by lia. done.
  - destruct (decide (to_index c (op_price o) = Z.of_nat i)) as [Ht|Ht].
    + rewrite Ht, Nat2Z.id. by rewrite list_lookup_insert_eq.
    + rewrite list_lookup_insert_ne by lia. done.
Qed.

Lemma l2_sets_touched c ops ls ls' i :
  length ls = length ls' -> (i < length ls)%nat -> Exists (touches c i) ops \/ ls !! i = ls' !! i ->
  l2_sets c ops ls !! i = l2_sets c ops ls' !! i.
Proof.
  revert ls ls'. induction ops as [|o ops IH]; intros ls ls' Hl Hi H.
  { destruct H as [H|H]; [by inversion H|done]. }
  change (l2_sets c (o :: ops) ?l) with
    (l2_sets c ops (l2_set c (op_side o) (op_price o) (op_size o) l)).
  assert (forall l : l2_levels, length (l2_set c (op_side o) (op_price o) (op_size o) l) = length l) as Hlen.
  { intros l. apply (length_l2_sets c [o] l). }
  apply IH; rewrite ?Hlen; [done|done|].
  rewrite !l2_set_lookup by (done || by rewrite <- Hl).
  destruct (decide (touches c i o)) as [Ht|Ht]; [by right|].
  destruct H as [H|H]; [left|by right]. by inversion H.
Qed.

Lemma l2_sets_untouched c ops ls i :
  (i < length ls)%nat -> ~ Exists (touches c i) ops -> l2_sets c ops ls !! i = ls !! i.
Proof.
  revert ls. induction ops as [|o ops IH]; intros ls Hi H; [done|].
  change (l2_sets c (o :: ops) ?l) with
    (l2_sets c ops (l2_set c (op_side o) (op_price o) (op_size o) l)).
  pose proof (length_l2_sets c [o] ls : length (l2_set c _ _ _ ls) = length ls) as Hlen.
  rewrite IH; [|by rewrite Hlen|intros ?; apply H; by right].
  rewrite l2_set_lookup by done. rewrite decide_False; [done|]. intros Ht. apply H. by left.
Qed.

Lemma l2_sets_again c ops ops' ls :
  l2_sets c (ops ++ ops') (l2_sets c ops ls) = l2_sets c (ops ++ ops') ls.
Proof.
  apply list_eq. intros i. destruct (decide (i < length ls)%nat) as [Hi|Hi].
  - destruct (decide (Exists (touches c i) ops)) as [H|H].
    + apply l2_sets_touched; rewrite ?length_l2_sets; [done|done|]. left. apply Exists_app. by left.
    + apply l2_sets_touched; rewrite ?length_l2_sets; [done|done|]. right. by apply l2_sets_untouched.
  - rewrite !(proj2 (lookup_ge_None _ i)); rewrite ?length_l2_sets; [done|lia|lia].
Qed.

(** ** The state of a live feed *)

Lemma set_level_pool sd price size b b' :
  set_level sd price size b = Some b' -> pool_ b' = pool_ b.
Proof.
  assert (forall s i b b', retreat_best s i b = Some b' -> pool_ b' = pool_ b) as Hr.
  { intros s i c c'. unfold retreat_best, rescan_best_bid_from, rescan_best_ask_from.
    repeat case_decide.
    - destruct (scan_bid _ _); cbn [mbind option_bind]; [|done]. by intros [= <-].
    - destruct (scan_ask _ _ _); cbn [mbind option_bind]; [|done]. by intros [= <-].
    - by intros [= <-]. }
  assert (forall s i b, pool_ (improve_best s i b) = pool_ b) as Hi.
  { intros s i c. unfold improve_best. destruct s; [done|by case_decide|by case_decide]. }
  unfold set_level. case_decide; [by intros [= <-]|].
  destruct ((levels_ b).[_]) as [lvl|]; cbn [mbind option_bind]; [|done].
  repeat case_decide;
    try (destruct (vset _ _ _) as [ls|]; cbn [mbind option_bind]; [|done]);
    try (destruct (retreat_best _ _ _) as [b1|] eqn:E; cbn [mbind option_bind]; [|done]);
    intros [= <-]; cbn [pool_ rset]; rewrite ?Hi; cbn [pool_ rset]; try done; by apply Hr in E.
Qed.

Lemma set_levels_pool ops b b' : set_levels ops b = Some b' -> pool_ b' = pool_ b.
Proof.
  unfold set_levels. revert b. induction ops as [|o ops IH]; intros b; cbn; [by intros [= <-]|].
  destruct (set_level _ _ _ b) as [b1|] eqn:E; cbn; [|done]. intros H%IH. rewrite H.
  by eapply set_level_pool.
Qed.

Lemma observe_pool b : pool_ (observe_event_boundary b) = pool_ b.
Proof. unfold observe_event_boundary. by destruct (is_crossed b && _). Qed.

(** A usable book, no order node ever allocated, at most [n] latencies recorded. *)
Record live_ok (c : OrderBookConfig) (n : Z) (f : LiveFeed) : Prop := {
  lo_wf : l2_wf (lf_book f);
  lo_cfg : cfg_ (lf_book f) = c;
  lo_pool : chunks_ (pool_ (lf_book f)) = 0;
  lo_hist : hist_upto (lf_hist f) n }.

Definition lf_abs (f : LiveFeed) : l2_levels := l2_abs (lf_book f).

Lemma observe_live c n f :
  live_ok c n f -> live_ok c n (f <| lf_book ::= observe_event_boundary |>) /\
  lf_abs (f <| lf_book ::= observe_event_boundary |>) = lf_abs f.
Proof.
  intros []. destruct (observe_ok _ lo_wf0) as (W & C & A & _). split; [|exact A].
  split; cbn [lf_book lf_hist rset]; [exact W|congruence|by rewrite observe_pool|done].
Qed.

Lemma load_levels_ok s b :
  l2_wf b -> Forall l2_op_ok (sn_levels s) -> chunks_ (pool_ b) = 0 ->
  exists b', load_levels s b = Some b' /\ l2_wf b' /\ cfg_ b' = cfg_ b /\
    chunks_ (pool_ b') = 0 /\ l2_abs b' = l2_sets (cfg_ b) (sn_levels s) (l2_abs b).
Proof.
  intros W Ho Hp. destruct (set_levels_ok _ b W Ho) as (b1 & E & W1 & C1 & A1 & _).
  unfold load_levels. rewrite E. cbn [mbind option_bind]. eexists. split; [done|].
  destruct (observe_ok _ W1) as (W2 & C2 & A2 & _).
  split; [exact W2|]. split; [congruence|]. split; [|congruence].
  by rewrite observe_pool, (set_levels_pool _ _ _ E).
Qed.

Lemma start_live_ok bc s0 :
  cfg_ok (clamp_config bc) -> Forall l2_op_ok (sn_levels s0) ->
  exists f, start_live bc s0 = Some f /\ live_ok (clamp_config bc) 0 f /\
    lf_abs f = l2_sets (clamp_config bc) (sn_levels s0) (l2_empty (clamp_config bc)) /\
    lf_mode f = Seeking /\ lf_L f = last_update_id s0 /\ have_event f = false /\
    prev_u f = 0 /\ gaps f = 0.
Proof.
  intros Hc Ho. unfold start_live.
  destruct (init_hist_ok 60000000000 3) as (h & m & E & H & _); [split; [discriminate|reflexivity]|lia|].
  rewrite E. cbn [mbind option_bind].
  destruct (load_levels_ok s0 (OrderBook_new bc)) as (b & Eb & W & C & P & A);
    [by apply l2_new_wf|done|done|].
  rewrite Eb. cbn [mbind option_bind]. eexists. split; [done|]. split.
  { split; [exact W|exact C|exact P|]. exists m, []. split; [exact H|cbn; lia]. }
  split; [|repeat (split; [reflexivity|]); reflexivity]. unfold lf_abs. cbn [lf_book]. rewrite A. cbn [cfg_ OrderBook_new]. f_equal.
  unfold l2_abs, l2_empty. cbn [levels_ OrderBook_new]. by rewrite fmap_replicate.
Qed.

(** ** The messages of one update *)

(** What a message assigns. *)
Definition msg_ops (m : PipelineMsg) : list l2_op :=
  let e := event m in
  if decide (ev_type e = L2SetLevel) then [mkL2 (ev_side e) (ev_price_ticks e) (ev_size e)] else [].

Notation inputs := (list (PipelineMsg * Snapshot * Z)).

Definition ops_of (ms : inputs) : list l2_op := concat ((fun x => msg_ops x.1.1) <$> ms).

(** A message of the update [U .. u]. *)
Definition msg_of (U u : Z) (m : PipelineMsg) : Prop :=
  ev_order_ref (event m) = U /\ ev_match_number (event m) = u /\ Forall l2_op_ok (msg_ops m).

Definition update_of (U u : Z) (ms : inputs) : Prop :=
  ms <> [] /\ Forall (fun x => msg_of U u x.1.1) ms.

(** The state outside the book and the histogram. *)
Definition same_state (f f' : LiveFeed) : Prop :=
  lf_L f' = lf_L f /\ lf_mode f' = lf_mode f /\ prev_u f' = prev_u f /\
  have_event f' = have_event f /\ cur_U f' = cur_U f /\ cur_apply f' = cur_apply f /\
  gaps f' = gaps f /\ resyncs f' = resyncs f.

Lemma same_state_trans f1 f2 f3 : same_state f1 f2 -> same_state f2 f3 -> same_state f1 f3.
Proof. unfold same_state. intros. destruct_and!. split_and!; congruence. Qed.

(** The tail of [on_msg], inside an update. *)
Definition apply_msg (m : PipelineMsg) (t : Z) (f : LiveFeed) : option LiveFeed :=
  if decide (cur_apply f = true /\ ev_type (event m) = L2SetLevel) then
    b ← set_level (ev_side (event m)) (ev_price_ticks (event m)) (ev_size (event m)) (lf_book f);
    hist ← Instrumentation.record (u64 (t - recv_ns m)) (lf_hist f);
    Some (f <| lf_book := b |> <| lf_hist := hist |>)
  else Some f.

Lemma apply_msg_ok c n U u m t f :
  live_ok c n f -> msg_of U u m -> n + 1 < 2 ^ 64 ->
  exists f', apply_msg m t f = Some f' /\ live_ok c (n + 1) f' /\ same_state f f' /\
    lf_abs f' = if cur_apply f then l2_sets c (msg_ops m) (lf_abs f) else lf_abs f.
Proof.
  intros [W C P (hm & vs & Hh & Hl)] (_ & _ & Ho) Hn. unfold apply_msg, msg_ops in *.
  assert (live_ok c (n + 1) f) as Hok.
  { split; try done. exists hm, vs. split; [done|lia]. }
  destruct (cur_apply f) eqn:Ea.
  2:{ rewrite decide_False by (by intros []). by exists f. }
  destruct (decide (ev_type (event m) = L2SetLevel)) as [Et|Et].
  2:{ rewrite decide_False by (by intros []). by exists f. }
  rewrite decide_True by done. apply list.Forall_cons in Ho as [[Hsd Hsz] _]. cbn in Hsd, Hsz.
  destruct (set_level_step (lf_book f) _ (ev_price_ticks (event m)) _ W Hsd Hsz)
    as (b' & E & W' & C' & A' & _).
  rewrite E. cbn [mbind option_bind].
  destruct (record_ok (lf_hist f) hm vs (u64 (t - recv_ns m)) Hh) as (h' & Er & Hh' & _); [lia|].
  rewrite Er. cbn [mbind option_bind]. eexists. split; [done|]. split; [|split; [done|]].
  - split; cbn [lf_book lf_hist rset]; [done|congruence| |].
    + by rewrite (set_level_pool _ _ _ _ _ E).
    + eexists hm, _. split; [exact Hh'|]. cbn [length]. lia.
  - unfold lf_abs. cbn [lf_book rset l2_sets fold_left op_side op_price op_size]. by rewrite A', C.
Qed.

Lemma inside_ok c U u ms n f :
  live_ok c n f -> have_event f = true -> cur_U f = U -> Forall (fun x => msg_of U u x.1.1) ms ->
  n + Z.of_nat (length ms) < 2 ^ 64 ->
  exists f', live_all ms f = Some f' /\ live_ok c (n + Z.of_nat (length ms)) f' /\ same_state f f' /\
    lf_abs f' = if cur_apply f then l2_sets c (ops_of ms) (lf_abs f) else lf_abs f.
Proof.
  intros Hok Hhe HU Hms. revert n f Hok Hhe HU.
  induction Hms as [|[[m s2] t] ms Hm Hms IH]; intros n f Hok Hhe HU Hn.
  { exists f. cbn. rewrite Z.add_0_r. repeat (split; [done|]). by destruct (cur_apply f). }
  cbn [length] in *.
  destruct (apply_msg_ok c n U u m t f Hok Hm) as (f1 & E & Hok1 & Ss & A); [lia|].
  pose proof Ss as (S1 & S2 & S3 & S4 & S5 & S6 & S7 & S8).
  destruct (IH (n + 1) f1 Hok1) as (f2 & E2 & Hok2 & S' & A2); [congruence|congruence|lia|].
  exists f2. split; [|split; [|split]].
  - unfold live_all. cbn [iterM fst snd]. unfold on_msg.
    assert (ev_order_ref (event m) = U) as EU by apply Hm.
    rewrite decide_False by (rewrite EU; intros [?|?]; congruence). cbn [mbind option_bind].
    fold (apply_msg m t f). rewrite E. cbn [mbind option_bind]. exact E2.
  - by replace (n + Z.of_nat (S (length ms))) with (n + 1 + Z.of_nat (length ms)) by lia.
  - by eapply same_state_trans.
  - rewrite A2, S6, A. unfold ops_of. cbn [fmap list_fmap concat fst].
    destruct (cur_apply f); [|done]. by rewrite l2_sets_app.
Qed.

(** ** Whole updates *)

(** A new update is at hand. *)
Definition at_head (U : Z) (f : LiveFeed) : Prop := have_event f = false \/ U <> cur_U f.

(** The update [U .. u] carries on where the feed is, or is old. *)
Definition joins (U u : Z) (f : LiveFeed) : Prop :=
  match lf_mode f with
  | Seeking => lf_L f + 1 <= u /\ U <= lf_L f + 1
  | Streaming => prev_u f < u /\ U = prev_u f + 1
  end.

Definition old (u : Z) (f : LiveFeed) : Prop :=
  match lf_mode f with Seeking => u < lf_L f + 1 | Streaming => u <= prev_u f end.

(** The numbers of the state fit 64 bits with their successors. *)
Definition numbers_ok (f : LiveFeed) : Prop :=
  0 <= lf_L f < 2 ^ 64 - 1 /\ 0 <= prev_u f < 2 ^ 64 - 1.

Lemma new_update_head U f :
  exists f1, (if have_event f && cur_apply f then f <| lf_book ::= observe_event_boundary |> else f)
      <| have_event := true |> <| cur_U := U |> <| cur_apply := false |> = f1 /\
    (forall c n, live_ok c n f -> live_ok c n f1 /\ lf_abs f1 = lf_abs f) /\
    lf_L f1 = lf_L f /\ lf_mode f1 = lf_mode f /\ prev_u f1 = prev_u f /\ have_event f1 = true /\
    cur_U f1 = U /\ cur_apply f1 = false /\ gaps f1 = gaps f /\ resyncs f1 = resyncs f.
Proof.
  eexists. split; [reflexivity|]. split.
  - intros c n H. destruct (have_event f && cur_apply f); [|by destruct H].
    destruct (observe_live c n f H) as [[] A]. by split.
  - by destruct (have_event f && cur_apply f).
Qed.

(** The first message of an update that is applied or skipped is inside it. *)
Lemma head_inside c n U u m s2 t f f1 ms :
  live_ok c n f -> at_head U f -> msg_of U u m ->
  new_update U u s2 f = Some (false, f1) -> have_event f1 = true -> cur_U f1 = U ->
  live_all ((m, s2, t) :: ms) f = live_all ((m, s2, t) :: ms) f1.
Proof.
  intros H Hh (EU & Eu & _) E Hhe HU. unfold live_all. cbn [iterM fst snd]. unfold on_msg.
  rewrite EU, Eu. rewrite (decide_True (P:=have_event f = false \/ _)) by exact Hh.
  rewrite E. cbn [mbind option_bind].
  rewrite (decide_False (P:=have_event f1 = false \/ _)) by (intros [?|?]; congruence). done.
Qed.

Lemma update_applied c n U u ms f :
  live_ok c n f -> numbers_ok f -> at_head U f -> joins U u f -> update_of U u ms ->
  n + Z.of_nat (length ms) < 2 ^ 64 ->
  exists f', live_all ms f = Some f' /\ live_ok c (n + Z.of_nat (length ms)) f' /\
    lf_abs f' = l2_sets c (ops_of ms) (lf_abs f) /\ lf_mode f' = Streaming /\ prev_u f' = u /\
    lf_L f' = lf_L f /\ cur_U f' = U /\ have_event f' = true /\
    gaps f' = gaps f /\ resyncs f' = resyncs f.
Proof.
  intros H [HL HP] Hh Hj [Hne Hms] Hb.
  destruct ms as [|[[m s2] t] ms]; [done|]. pose proof Hms as [Hm _]%list.Forall_cons.
  destruct (new_update_head U f) as (f0 & E0 & K & KL & KM & KP & KH & KU & KA & KG & KR).
  destruct (K c n H) as [H0 A0].
  assert (u64 (lf_L f + 1) = lf_L f + 1) as EL by (apply wrap_small; unfold in_u; lia).
  assert (u64 (prev_u f + 1) = prev_u f + 1) as EP by (apply wrap_small; unfold in_u; lia).
  set (f1 := f0 <| lf_mode := Streaming |> <| prev_u := u |> <| cur_apply := true |>).
  assert (new_update U u s2 f = Some (false, f1)) as E.
  { unfold new_update. rewrite E0. unfold f1, joins in *. rewrite KM.
    destruct (lf_mode f) eqn:Em.
    - rewrite KL, EL. by rewrite decide_False, decide_True by lia.
    - rewrite KP, EP. rewrite decide_False, decide_True by lia.
clear -KM. destruct f0. cbn in KM. by subst. }
  rewrite (head_inside c n U u m s2 t f f1 ms H Hh Hm E KH KU).
  destruct (inside_ok c U u ((m, s2, t) :: ms) n f1) as (f2 & E2 & H2 & S & A2);
    [by destruct H0|done|done|done|done|].
  destruct S as (S1 & S2 & S3 & S4 & S5 & S6 & S7 & S8).
  exists f2. split; [exact E2|]. split; [exact H2|]. split; [by rewrite A2, <- A0|].
  split_and!; [by rewrite S2|by rewrite S3|by rewrite S1|by rewrite S5|by rewrite S4|by rewrite S7|by rewrite S8].
Qed.

Lemma update_skipped c n U u ms f :
  live_ok c n f -> numbers_ok f -> at_head U f -> old u f -> update_of U u ms ->
  n + Z.of_nat (length ms) < 2 ^ 64 ->
  exists f', live_all ms f = Some f' /\ live_ok c (n + Z.of_nat (length ms)) f' /\
    lf_abs f' = lf_abs f /\ lf_mode f' = lf_mode f /\ prev_u f' = prev_u f /\
    lf_L f' = lf_L f /\ cur_U f' = U /\ have_event f' = true /\
    gaps f' = gaps f /\ resyncs f' = resyncs f.
Proof.
  intros H [HL HP] Hh Ho [Hne Hms] Hb.
  destruct ms as [|[[m s2] t] ms]; [done|]. pose proof Hms as [Hm _]%list.Forall_cons.
  destruct (new_update_head U f) as (f0 & E0 & K & KL & KM & KP & KH & KU & KA & KG & KR).
  destruct (K c n H) as [H0 A0].
  assert (u64 (lf_L f + 1) = lf_L f + 1) as EL by (apply wrap_small; unfold in_u; lia).
  assert (new_update U u s2 f = Some (false, f0)) as E.
  { unfold new_update. rewrite E0. unfold old in *. rewrite KM. destruct (lf_mode f).
    - rewrite KL, EL. by rewrite decide_True by lia.
    - rewrite KP. by rewrite decide_True by lia. }
  rewrite (head_inside c n U u m s2 t f f0 ms H Hh Hm E KH KU).
  destruct (inside_ok c U u ((m, s2, t) :: ms) n f0) as (f2 & E2 & H2 & S & A2);
    [done|done|done|done|done|].
  destruct S as (S1 & S2 & S3 & S4 & S5 & S6 & S7 & S8). rewrite KA in A2.
  exists f2. split; [exact E2|]. split; [exact H2|]. split; [congruence|].
  split_and!; congruence.
Qed.

(** ** A stream of updates *)

Record update := mkUpdate { up_U : Z; up_u : Z; up_msgs : inputs }.

Definition up_ops (up : update) : list l2_op := ops_of (up_msgs up).

(** Updates that follow each other without a hole, the first one starting at [n]. *)
Fixpoint unbroken (n : Z) (ups : list update) : Prop :=
  match ups with
  | [] => True
  | up :: ups => up_U up = n /\ n <= up_u up < 2 ^ 64 - 1 /\
      update_of (up_U up) (up_u up) (up_msgs up) /\ unbroken (up_u up + 1) ups
  end.

Definition arrivals (ups : list update) : inputs := concat (up_msgs <$> ups).
Definition all_ops (ups : list update) : list l2_op := concat (up_ops <$> ups).

Lemma arrivals_cons up ups : arrivals (up :: ups) = up_msgs up ++ arrivals ups.
Proof. done. Qed.

Lemma all_ops_cons up ups : all_ops (up :: ups) = up_ops up ++ all_ops ups.
Proof. done. Qed.

Lemma live_all_app ms1 ms2 f f1 :
  live_all ms1 f = Some f1 -> live_all (ms1 ++ ms2) f = live_all ms2 f1.
Proof. apply iterM_app. Qed.

(** What a run over whole updates keeps. *)
Record ran (c : OrderBookConfig) (n : Z) (f f' : LiveFeed) : Prop := {
  rn_ok : live_ok c n f';
  rn_L : lf_L f' = lf_L f;
  rn_gaps : gaps f' = gaps f;
  rn_resyncs : resyncs f' = resyncs f }.

Lemma streaming_ok c ups k n f :
  live_ok c n f -> 0 <= lf_L f < 2 ^ 64 - 1 -> lf_mode f = Streaming -> prev_u f + 1 = k -> 0 < k ->
  (have_event f = true -> cur_U f < k) -> unbroken k ups ->
  n + Z.of_nat (length (arrivals ups)) < 2 ^ 64 ->
  exists f', live_all (arrivals ups) f = Some f' /\
    ran c (n + Z.of_nat (length (arrivals ups))) f f' /\
    lf_abs f' = l2_sets c (all_ops ups) (lf_abs f) /\ lf_mode f' = Streaming.
Proof.
  revert k n f. induction ups as [|up ups IH]; intros k n f H HL Hm Hp Hk Hc Hu Hb.
  { exists f. cbn. rewrite Z.add_0_r. split; [done|]. by split. }
  destruct Hu as (HU & Hr & Hof & Hu). rewrite arrivals_cons, length_app in Hb.
  destruct (update_applied c n (up_U up) (up_u up) (up_msgs up) f)
    as (f1 & E1 & H1 & A1 & M1 & P1 & L1 & U1 & V1 & G1 & R1); [done| | | |done|lia|].
  { split; lia. }
  { unfold at_head. destruct (have_event f); [right; specialize (Hc eq_refl); lia|by left]. }
  { unfold joins. rewrite Hm. lia. }
  destruct (IH (up_u up + 1) (n + Z.of_nat (length (up_msgs up))) f1)
    as (f2 & E2 & [] & A2 & M2); try done; [by rewrite L1|lia|lia|lia|lia|].
  exists f2. rewrite arrivals_cons, (live_all_app _ _ _ _ E1). split; [exact E2|].
  rewrite all_ops_cons, l2_sets_app. change (up_ops up) with (ops_of (up_msgs up)). rewrite <- A1.
  split; [|done]. rewrite length_app, Nat2Z.inj_add, Z.add_assoc. split; [done|congruence..].
Qed.

(** While the updates are older than the snapshot. *)
Lemma seeking_ok c ups k n f :
  live_ok c n f -> numbers_ok f -> lf_mode f = Seeking -> 0 <= k ->
  (have_event f = true -> cur_U f < k) -> unbroken k ups ->
  Forall (fun up => up_u up <= lf_L f) ups ->
  n + Z.of_nat (length (arrivals ups)) < 2 ^ 64 ->
  exists f', live_all (arrivals ups) f = Some f' /\
    ran c (n + Z.of_nat (length (arrivals ups))) f f' /\ numbers_ok f' /\
    lf_abs f' = lf_abs f /\ lf_mode f' = Seeking /\
    (have_event f' = true -> have_event f = true /\ cur_U f' = cur_U f \/
       exists up, up ∈ ups /\ cur_U f' = up_U up).
Proof.
  revert k n f. induction ups as [|up ups IH]; intros k n f H HN Hm Hk Hc Hu Ho Hb.
  { exists f. cbn. rewrite Z.add_0_r. split; [done|]. split; [by split|]. split; [done|].
    split; [done|]. split; [done|]. by left. }
  destruct Hu as (HU & Hr & Hof & Hu). rewrite arrivals_cons, length_app in Hb.
  apply list.Forall_cons in Ho as [Ho Hos].
  destruct (update_skipped c n (up_U up) (up_u up) (up_msgs up) f)
    as (f1 & E1 & H1 & A1 & M1 & P1 & L1 & U1 & V1 & G1 & R1); [done|done| | |done|lia|].
  { unfold at_head. destruct (have_event f); [right; specialize (Hc eq_refl); lia|by left]. }
  { unfold old. rewrite Hm. lia. }
  destruct (IH (up_u up + 1) (n + Z.of_nat (length (up_msgs up))) f1)
    as (f2 & E2 & [] & N2 & A2 & M2 & C2); try done.
  { destruct HN. split; congruence || lia. }
  { congruence. } { lia. } { lia. } { by rewrite L1. } { lia. }
  exists f2. rewrite arrivals_cons, (live_all_app _ _ _ _ E1). split; [exact E2|].
  rewrite length_app, Nat2Z.inj_add, Z.add_assoc.
  split; [split; [done|congruence..]|]. split; [done|]. split; [congruence|]. split; [congruence|].
  intros Hh. right. destruct (C2 Hh) as [[_ ->]|(up' & Hin & ->)].
  - exists up. split; [by left|done].
  - exists up'. split; [by right|done].
Qed.

Lemma unbroken_app k ups1 ups2 :
  unbroken k (ups1 ++ ups2) ->
  unbroken k ups1 /\ exists k', k <= k' /\ unbroken k' ups2 /\
    forall up, up ∈ ups1 -> up_U up < k'.
Proof.
  revert k. induction ups1 as [|up ups1 IH]; intros k; cbn.
  - intros H. split; [done|]. exists k. split; [lia|]. split; [done|]. set_solver.
  - intros (H1 & H2 & H3 & H4). destruct (IH _ H4) as (H5 & k' & H6 & H7 & H8).
    split; [done|]. exists k'. split; [lia|]. split; [done|].
    intros up' [->|?]%elem_of_cons; [lia|auto].
Qed.

(** ** Recovery *)

Lemma reset_l2 b :
  l2_wf b -> chunks_ (pool_ b) = 0 ->
  exists b', OrderBook.reset b = Some b' /\ l2_wf b' /\ cfg_ b' = cfg_ b /\ chunks_ (pool_ b') = 0 /\
    l2_abs b' = l2_empty (cfg_ b).
Proof.
  intros W Hp. unfold OrderBook.reset, reset_all. rewrite Hp. cbn [seqZ iterM mbind option_bind].
  change (seqZ 0 0) with (@nil Z). cbn [iterM mbind option_bind].
  eexists. split; [done|]. pose proof (l2_len _ W) as Hlen.
  assert (replicate (length (levels_ b)) level0 = replicate (Z.to_nat (num_levels (cfg_ b))) level0)
    as Er by (f_equal; lia).
  split; [split; cbn|].
  - apply W.
  - by rewrite length_replicate.
  - intros i l [-> _]%lookup_replicate. by left.
  - split; cbn; (split; [lia|]; split; [lia|]);
      intros i l [-> _]%lookup_replicate Hp'; discriminate.
  - unfold l2_abs. cbn. rewrite fmap_replicate. clear. by induction (length (levels_ b)).
  - split; [done|]. split; [done|]. unfold l2_abs, l2_empty. cbn [levels_ rset].
    by rewrite Er, fmap_replicate.
Qed.

Lemma re_snapshot_ok c n s2 f :
  live_ok c n f -> Forall l2_op_ok (sn_levels s2) ->
  exists f', re_snapshot s2 f = Some f' /\ live_ok c n f' /\ have_event f' = false /\
    gaps f' = gaps f /\ resyncs f' = inc (resyncs f) /\
    if ok s2 then lf_abs f' = l2_sets c (sn_levels s2) (l2_empty c) /\ lf_mode f' = Seeking /\
                  lf_L f' = last_update_id s2 /\ prev_u f' = 0
    else lf_abs f' = lf_abs f /\ lf_mode f' = lf_mode f /\ lf_L f' = lf_L f /\ prev_u f' = prev_u f.
Proof.
  intros [W C P Hh] Ho. unfold re_snapshot. destruct (ok s2).
  2:{ eexists. split; [done|]. split; [by split|]. done. }
  cbn [lf_book rset]. destruct (reset_l2 _ W P) as (b1 & E1 & W1 & C1 & P1 & A1).
  rewrite E1. cbn [mbind option_bind].
  destruct (load_levels_ok s2 b1 W1 Ho P1) as (b2 & E2 & W2 & C2 & P2 & A2).
  rewrite E2. cbn [mbind option_bind]. eexists. split; [done|].
  split; [split; cbn [lf_book lf_hist rset]; [done|congruence|done|done]|].
  repeat (split; [done|]). split; [|done]. unfold lf_abs. cbn [lf_book rset].
  by rewrite A2, A1, C1, C.
Qed.

(** The message that reveals a hole. *)
Lemma gap_ok c n m s2 t f :
  live_ok c n f -> numbers_ok f -> lf_mode f = Streaming ->
  let U := ev_order_ref (event m) in
  at_head U f -> prev_u f < ev_match_number (event m) -> U <> prev_u f + 1 ->
  Forall l2_op_ok (sn_levels s2) ->
  exists f', on_msg m s2 t f = Some f' /\ live_ok c n f' /\ have_event f' = false /\
    gaps f' = inc (gaps f) /\ resyncs f' = inc (resyncs f) /\
    if ok s2 then lf_abs f' = l2_sets c (sn_levels s2) (l2_empty c) /\ lf_mode f' = Seeking /\
                  lf_L f' = last_update_id s2 /\ prev_u f' = 0
    else lf_abs f' = lf_abs f /\ lf_mode f' = Streaming /\ lf_L f' = lf_L f /\ prev_u f' = prev_u f.
Proof.
  intros H [HL HP] Hm U Hh Hu Hne Ho. unfold on_msg. fold U. rewrite decide_True by exact Hh.
  set (u := ev_match_number (event m)) in *.
  destruct (new_update_head U f) as (f0 & E0 & K & KL & KM & KP & KH & KU & KA & KG & KR).
  destruct (K c n H) as [H0 A0].
  assert (u64 (prev_u f + 1) = prev_u f + 1) as EP by (apply wrap_small; unfold in_u; lia).
  unfold new_update. rewrite E0, KM, Hm, KP, EP. rewrite !decide_False by lia.
  destruct (re_snapshot_ok c n s2 (f0 <| gaps ::= inc |>)) as (f1 & E1 & H1 & V1 & G1 & R1 & D1);
    [by destruct H0|done|].
  rewrite E1. cbn [mbind option_bind]. exists f1. split; [done|]. split; [done|]. split; [done|].
  split; [by rewrite G1, <- KG|]. split; [by rewrite R1, <- KR|].
  destruct (ok s2); [done|]. destruct D1 as (D1 & D2 & D3 & D4).
  split; [by rewrite D1, <- A0|]. split; [rewrite D2; cbn; congruence|].
  split; [rewrite D3; cbn; congruence|rewrite D4; cbn; congruence].
Qed.

Lemma lf_top c n f :
  live_ok c n f ->
  best_bid (lf_book f) = Some (a_best (a_bids c (l2_queue <$> lf_abs f))) /\
  best_ask (lf_book f) = Some (a_best (a_asks c (l2_queue <$> lf_abs f))).
Proof.
  intros [W C _ _]. unfold lf_abs. rewrite <- C. split.
  - apply best_bid_spec; [by apply l2_shows|apply W].
  - apply best_ask_spec; [by apply l2_shows|apply W].
Qed.

(** The slots behind an unbroken stream that joins the snapshot. *)
Lemma live_follows_slots c k f old up new B1 B2 E0 :
  live_ok c 0 f -> numbers_ok f -> lf_mode f = Seeking -> have_event f = false -> 0 <= k ->
  unbroken k (old ++ up :: new) -> Forall (fun x => up_u x <= lf_L f) old ->
  up_U up <= lf_L f + 1 <= up_u up ->
  up_ops up = B1 ++ B2 -> lf_abs f = l2_sets c (all_ops old ++ B1) E0 ->
  Z.of_nat (length (arrivals (old ++ up :: new))) < 2 ^ 64 ->
  let ls := l2_sets c (all_ops (old ++ up :: new)) E0 in
  exists f', live_all (arrivals (old ++ up :: new)) f = Some f' /\ lf_abs f' = ls /\
    lf_mode f' = Streaming /\ gaps f' = gaps f /\ resyncs f' = resyncs f /\
    l2_wf (lf_book f') /\ cfg_ (lf_book f') = c.
Proof.
  intros H HN Hm Hh Hk Hu Ho Hj HB HA Hb ls.
  destruct (unbroken_app _ _ _ Hu) as (Hu1 & k' & Hkk & Hu2 & Hlt).
  assert (arrivals (old ++ up :: new) = arrivals old ++ up_msgs up ++ arrivals new) as Ea.
  { unfold arrivals. by rewrite fmap_app, concat_app. }
  assert (all_ops (old ++ up :: new) = all_ops old ++ up_ops up ++ all_ops new) as Eo.
  { unfold all_ops. by rewrite fmap_app, concat_app. }
  rewrite Ea, !length_app in Hb.
  destruct (seeking_ok c old k 0 f) as (f1 & E1 & [H1 L1 G1 R1] & N1 & A1 & M1 & C1); try done; [intros; congruence|lia|].
  destruct Hu2 as (HU & Hr & Hof & Hu2).
  destruct (update_applied c (0 + Z.of_nat (length (arrivals old))) (up_U up) (up_u up) (up_msgs up) f1)
    as (f2 & E2 & H2 & A2 & M2 & P2 & L2 & U2 & V2 & G2 & R2); [done|done| | |done|lia|].
  { unfold at_head. destruct (have_event f1) eqn:V1; [right|by left].
    destruct (C1 eq_refl) as [[? _]|(x & Hx & ->)]; [congruence|]. specialize (Hlt x Hx). lia. }
  { unfold joins. rewrite M1, L1. lia. }
  destruct (streaming_ok c new (up_u up + 1)
    (0 + Z.of_nat (length (arrivals old)) + Z.of_nat (length (up_msgs up))) f2)
    as (f3 & E3 & [H3 L3 G3 R3] & A3 & M3); try done; [|lia|lia|lia|lia|].
  { rewrite L2, L1. apply HN. }
  assert (lf_abs f3 = ls) as Els.
  { unfold ls. rewrite A3, A2, A1, HA, Eo, !l2_sets_app.
    change (ops_of (up_msgs up)) with (up_ops up). rewrite HB. by rewrite l2_sets_again. }
  exists f3. split.
  { rewrite Ea, (live_all_app _ _ _ _ E1), (live_all_app _ _ _ _ E2). exact E3. }
  split; [exact Els|]. split; [exact M3|]. split; [congruence|]. split; [congruence|].
  split; apply H3.
Qed.

Lemma unbroken_ops k ups : unbroken k ups -> Forall l2_op_ok (all_ops ups).
Proof.
  revert k. induction ups as [|up ups IH]; intros k; [constructor|]. cbn [unbroken].
  intros (_ & _ & (_ & Hm) & Hr). rewrite all_ops_cons. apply Forall_app_2; [|by eapply IH].
  unfold up_ops, ops_of. apply Forall_concat, Forall_fmap. eapply Forall_impl; [|exact Hm].
  intros x (_ & _ & H). exact H.
Qed.

(** ** Theorems *)

(** C15. The live book follows the exchange.  The exchange has a map of bids and one
    of asks ([Exchange]), at the start [E0], apart inside the band; they change by
    updates [old], [up], [new] that follow each other without a hole, none of which
    touches a price of the band while the other side rests there (the code's removal
    ignores the side: [ask_removal_diverges] shows what such an update does).  The
    book shows the exchange with everything up to the snapshot's update id [L]: all of
    [old] and possibly a part [B1] of [up].  Then, for a book of tick 1, whatever the
    recovery snapshots and clocks, the feed ends in streaming mode, without a gap or a
    re-snapshot; its slots are the exchange's levels inside the band, of both sides
    and no others, and its best bid and ask are the exchange's there: no update is
    missed, and applying [B1] twice does no harm. *)
Theorem live_follows_exchange c k f old up new B1 B2 E0 :
  tick c = 1 -> live_ok c 0 f -> numbers_ok f -> lf_mode f = Seeking -> have_event f = false -> 0 <= k ->
  unbroken k (old ++ up :: new) -> Forall (fun x => up_u x <= lf_L f) old ->
  up_U up <= lf_L f + 1 <= up_u up -> up_ops up = B1 ++ B2 ->
  ex_apart c E0 -> one_sided c (all_ops (old ++ up :: new)) E0 ->
  ex_shown c (ex_apply_all (all_ops old ++ B1) E0) (lf_abs f) ->
  Z.of_nat (length (arrivals (old ++ up :: new))) < 2 ^ 64 ->
  let E' := ex_apply_all (all_ops (old ++ up :: new)) E0 in
  exists f' bid ask, live_all (arrivals (old ++ up :: new)) f = Some f' /\
    ex_shown c E' (lf_abs f') /\
    best_bid (lf_book f') = Some bid /\ ex_best c Buy E' bid /\
    best_ask (lf_book f') = Some ask /\ ex_best c Sell E' ask /\
    lf_mode f' = Streaming /\ gaps f' = gaps f /\ resyncs f' = resyncs f.
Proof.
  intros Ht H HN Hm Hh Hk Hu Ho Hj HB Ha Hs HA Hb E'.
  pose proof (unbroken_ops _ _ Hu) as Hops. pose proof (ex_slots_shown c Ht E0 Ha) as S0.
  assert (all_ops (old ++ up :: new) = (all_ops old ++ B1) ++ B2 ++ all_ops new) as Eo.
  { unfold all_ops in *. rewrite fmap_app, concat_app. cbn. by rewrite HB, <- !app_assoc. }
  assert (ex_shown c (ex_apply_all (all_ops old ++ B1) E0) (l2_sets c (all_ops old ++ B1) (ex_slots c E0))) as S1.
  { rewrite Eo in Hops, Hs. apply Forall_app in Hops as [Hops _]. apply one_sided_app in Hs as [Hs _].
    by apply (ex_apply_all_shown c Ht). }
  destruct (live_follows_slots c k f old up new B1 B2 (ex_slots c E0))
    as (f' & E & A & M & G & R & W & C); try done; [by eapply ex_shown_unique|].
  assert (ex_shown c E' (lf_abs f')) as S' by (rewrite A; by apply (ex_apply_all_shown c Ht)).
  destruct (best_bid_exchange c Ht _ _ W C S') as (bid & Eb & Bb).
  destruct (best_ask_exchange c Ht _ _ W C S') as (ask & Ea & Ba). exists f', bid, ask. by split_and!.
Qed.

(** C32. A hole is detected and repaired.  While streaming, an update that does
    not continue the last one is not applied: the gap is counted and the book is
    rebuilt from the snapshot fetched then, from which the feed seeks again; if
    the fetch fails nothing changes but the counters, and the feed goes on
    waiting for the same number. *)
Theorem live_gap_reloads c n m s2 t f :
  live_ok c n f -> numbers_ok f -> lf_mode f = Streaming ->
  let U := ev_order_ref (event m) in
  at_head U f -> prev_u f < ev_match_number (event m) -> U <> prev_u f + 1 ->
  Forall l2_op_ok (sn_levels s2) ->
  exists f', on_msg m s2 t f = Some f' /\ have_event f' = false /\
    gaps f' = inc (gaps f) /\ resyncs f' = inc (resyncs f) /\
    if ok s2 then lf_abs f' = l2_sets c (sn_levels s2) (l2_empty c) /\ lf_mode f' = Seeking /\
                  lf_L f' = last_update_id s2 /\ prev_u f' = 0
    else lf_abs f' = lf_abs f /\ lf_mode f' = Streaming /\ lf_L f' = lf_L f /\ prev_u f' = prev_u f.
Proof.
  intros H HN Hm U Hh Hu Hne Ho.
  destruct (gap_ok c n m s2 t f H HN Hm Hh Hu Hne Ho) as (f' & E & _ & R). by exists f'.
Qed.

(** C36. A recovery can lose a level.  The message that reveals a hole is discarded
    with [continue], also when the snapshot fetched for the recovery does not hold its
    update yet.  If the snapshot's id reaches the number before the update's first and
    is below the update's last ([U <= L + 1 <= u]; an older one makes the next message
    fetch again), the other messages of the same update are applied: the feed streams
    on, up to date as far as it knows, with the book of the snapshot and those
    messages.  Whatever the first message assigns, its slot is what it was in the
    snapshot, unless a later message of the update assigns it too. *)
Theorem live_first_level_lost c n U u m s2 t rest f :
  live_ok c n f -> numbers_ok f -> lf_mode f = Streaming ->
  at_head U f -> prev_u f < u -> U <> prev_u f + 1 ->
  update_of U u ((m, s2, t) :: rest) -> rest <> [] ->
  ok s2 = true -> Forall l2_op_ok (sn_levels s2) ->
  U <= last_update_id s2 + 1 <= u -> 0 <= last_update_id s2 < 2 ^ 64 - 1 ->
  n + Z.of_nat (length rest) < 2 ^ 64 ->
  let held := l2_sets c (sn_levels s2) (l2_empty c) in
  exists f', live_all ((m, s2, t) :: rest) f = Some f' /\ lf_mode f' = Streaming /\ prev_u f' = u /\
    gaps f' = inc (gaps f) /\ lf_abs f' = l2_sets c (ops_of rest) held /\
    forall i, (i < length held)%nat -> ~ Exists (touches c i) (ops_of rest) -> lf_abs f' !! i = held !! i.
Proof.
  intros H HN Hm Hh Hu Hne [_ [(EU & Eu & Hm1) Hr]%list.Forall_cons] Hrest Hok Ho HU HL Hn held. cbn in EU, Eu.
  destruct (gap_ok c n m s2 t f H HN Hm) as (f2 & E2 & H2 & V2 & G2 & _ & D2); [by rewrite EU|by rewrite Eu|by rewrite EU|done|].
  rewrite Hok in D2. destruct D2 as (A2 & M2 & L2 & P2).
  destruct (update_applied c n U u rest f2 H2) as (f3 & E3 & H3 & A3 & M3 & P3 & _ & _ & _ & G3 & _).
  { split; [by rewrite L2|rewrite P2; lia]. }
  { by left. }
  { unfold joins. rewrite M2, L2. lia. }
  { by split. }
  { done. }
  rewrite A2 in A3. fold held in A3. exists f3. split.
  { unfold live_all in *. cbn [iterM fst snd]. by rewrite E2. }
  split; [exact M3|]. split; [exact P3|]. split; [by rewrite G3|]. split; [exact A3|].
  intros i Hi Hx. rewrite A3. by apply l2_sets_untouched.
Qed.

(** ** Concrete feeds *)

Definition level_msg (U u : Z) (sd : Side) (px sz : Z) : PipelineMsg :=
  mkMsg (event0 <| ev_type := L2SetLevel |> <| ev_side := sd |> <| ev_price_ticks := px |>
    <| ev_size := sz |> <| ev_order_ref := U |> <| ev_match_number := u |>) 0 u.

Definition demo_update (U u : Z) (ops : list l2_op) : update :=
  mkUpdate U u ((fun o => (level_msg U u (op_side o) (op_price o) (op_size o), snapshot0, 0)) <$> ops).

Definition demo_snapshot (id : Z) : Snapshot :=
  mkSnap true 200 id 103 106 [mkL2 Buy 103 40; mkL2 Sell 106 10].

Lemma demo_snapshot_ok id : Forall l2_op_ok (sn_levels (demo_snapshot id)).
Proof. apply (bool_decide_unpack _). vm_compute. exact I. Qed.

(** A feed that starts from the demo snapshot. *)
Lemma demo_start id :
  0 <= id < 2 ^ 64 - 1 ->
  exists f, start_live small_config (demo_snapshot id) = Some f /\ live_ok small_config 0 f /\
    lf_mode f = Seeking /\ prev_u f = 0 /\ lf_L f = id /\ have_event f = false /\ gaps f = 0.
Proof.
  intros Hid. destruct (start_live_ok small_config (demo_snapshot id) small_config_ok (demo_snapshot_ok id))
    as (f & E & H & A & M & L & V & P & G).
  exists f. exact (conj E (conj H (conj M (conj P (conj L (conj V G)))))).
Qed.

(** A feed that streams, up to date as of 55. *)
Lemma demo_streaming :
  exists f f1, start_live small_config (demo_snapshot 50) = Some f /\
    live_all (up_msgs (demo_update 51 55 [mkL2 Buy 104 5])) f = Some f1 /\
    live_ok small_config 1 f1 /\ numbers_ok f1 /\ lf_mode f1 = Streaming /\ prev_u f1 = 55 /\
    cur_U f1 = 51 /\ gaps f1 = 0.
Proof.
  destruct (demo_start 50) as (f & E & H & M & P & L & V & G); [split; [discriminate|reflexivity]|].
  destruct (update_applied small_config 0 51 55 (up_msgs (demo_update 51 55 [mkL2 Buy 104 5])) f H)
    as (f1 & E1 & H1 & _ & M1 & P1 & L1 & U1 & _ & G1 & _).
  - split; [rewrite L|rewrite P]; (split; [discriminate|reflexivity]).
  - by left.
  - unfold joins. rewrite M, L. split; discriminate.
  - split; [discriminate|]. repeat constructor; discriminate.
  - reflexivity.
  - exists f, f1. rewrite G1. refine (conj E (conj E1 (conj H1 (conj _ (conj M1 (conj P1 (conj U1 G))))))).
    split; [rewrite L1, L|rewrite P1]; (split; [discriminate|reflexivity]).
Qed.

(** The exchange starts empty; the snapshot is as of 50, in the middle of the second
    update. *)
Lemma live_follows_exchange_witness :
  exists f f', start_live small_config (demo_snapshot 50) = Some f /\
    live_all (arrivals [demo_update 40 45 [mkL2 Buy 103 40; mkL2 Sell 106 10];
      demo_update 46 60 [mkL2 Buy 104 5; mkL2 Buy 103 0]; demo_update 61 61 [mkL2 Sell 105 3]]) f = Some f' /\
    lf_mode f' = Streaming /\
    lf_abs f' !! 4%nat = Some (Some (Buy, 5)) /\ lf_abs f' !! 5%nat = Some (Some (Sell, 3)).
Proof.
  destruct (start_live_ok small_config (demo_snapshot 50) small_config_ok (demo_snapshot_ok 50))
    as (f & E & H & A & M & L & V & P & G).
  destruct (live_follows_exchange small_config 40 f
    [demo_update 40 45 [mkL2 Buy 103 40; mkL2 Sell 106 10]]
    (demo_update 46 60 [mkL2 Buy 104 5; mkL2 Buy 103 0]) [demo_update 61 61 [mkL2 Sell 105 3]]
    [] [mkL2 Buy 104 5; mkL2 Buy 103 0] (mkExchange ∅ ∅))
    as (f' & bid & ask & E' & [Ln S] & _ & _ & _ & _ & M' & _).
  - reflexivity.
  - exact H.
  - split; [rewrite L|rewrite P]; (split; [discriminate|reflexivity]).
  - exact M.
  - exact V.
  - discriminate.
  - clear. cbn [unbroken app]. repeat split; try discriminate;
      repeat constructor; try discriminate.
  - rewrite L. clear. repeat constructor. discriminate.
  - rewrite L. split; discriminate.
  - reflexivity.
  - intros p _. left. reflexivity.
  - clear. vm_compute. repeat split.
  - rewrite A. apply (ex_apply_all_shown small_config eq_refl).
    + apply (bool_decide_unpack _). vm_compute. exact I.
    + clear. vm_compute. repeat split.
    + apply ex_empty_shown.
  - reflexivity.
  - exists f, f'. split; [exact E|]. split; [exact E'|]. split; [exact M'|].
    change (Z.to_nat (num_levels small_config)) with 11%nat in Ln.
    split; (apply S; [rewrite Ln; lia|clear; vm_compute; reflexivity]).
Defined.

Lemma live_gap_reloads_witness :
  exists f f1 f2, start_live small_config (demo_snapshot 50) = Some f /\
    live_all (up_msgs (demo_update 51 55 [mkL2 Buy 104 5])) f = Some f1 /\
    on_msg (level_msg 57 58 Buy 102 9) (demo_snapshot 60) 0 f1 = Some f2 /\
    gaps f2 = 1 /\ lf_L f2 = 60 /\ lf_mode f2 = Seeking.
Proof.
  destruct demo_streaming as (f & f1 & E & E1 & H1 & N1 & M1 & P1 & U1 & G1).
  destruct (live_gap_reloads small_config 1 (level_msg 57 58 Buy 102 9) (demo_snapshot 60) 0 f1)
    as (f2 & E2 & _ & G2 & _ & _ & M2 & L2 & _).
  - exact H1.
  - exact N1.
  - exact M1.
  - right. rewrite U1. discriminate.
  - rewrite P1. reflexivity.
  - rewrite P1. discriminate.
  - apply demo_snapshot_ok.
  - exists f, f1, f2. rewrite G1 in G2. exact (conj E (conj E1 (conj E2 (conj G2 (conj L2 M2))))).
Defined.

(** The same run: a hole at 57, a snapshot as of 58. *)
Lemma live_first_level_lost_witness :
  exists f1 f', live_ok small_config 1 f1 /\ lf_mode f1 = Streaming /\
    live_all [(level_msg 57 62 Buy 102 9, demo_snapshot 58, 0);
              (level_msg 57 62 Buy 101 8, snapshot0, 0)] f1 = Some f' /\
    lf_mode f' = Streaming /\ prev_u f' = 62 /\
    lf_abs f' !! 2%nat = Some None /\ lf_abs f' !! 1%nat = Some (Some (Buy, 8)).
Proof.
  destruct demo_streaming as (f & f1 & _ & _ & H1 & N1 & M1 & P1 & U1 & _).
  destruct (live_first_level_lost small_config 1 57 62 (level_msg 57 62 Buy 102 9) (demo_snapshot 58) 0
    [(level_msg 57 62 Buy 101 8, snapshot0, 0)] f1) as (f' & E & M & P & _ & A & _).
  - exact H1.
  - exact N1.
  - exact M1.
  - right. rewrite U1. discriminate.
  - rewrite P1. reflexivity.
  - rewrite P1. discriminate.
  - split; [discriminate|]. repeat constructor; discriminate.
  - discriminate.
  - reflexivity.
  - apply demo_snapshot_ok.
  - split; discriminate.
  - split; [discriminate|reflexivity].
  - reflexivity.
  - exists f1, f'. split; [exact H1|]. split; [exact M1|]. split; [exact E|]. split; [exact M|]. split; [exact P|].
    rewrite A. clear. vm_compute. split; reflexivity.
Defined.
