(* ===== verification/LiveInput.v ===== *)
(** * What reaches the live book

    The two entries of [LiveFeed]: the depth snapshot and the depth updates, as
    documents.  A row of a document is kept when both cells convert and the price
    is not negative; a snapshot keeps positive quantities only, an update keeps
    zero too (a removal), and a quantity saturates at [2^32 - 1].

    - [live_session_starts]: from the document to the started feed;
    - [depth_update_sends]: from the update to the messages on the channel;
    - [push_trade_keeps]: the tape holds the last forty trades. *)

From Stdlib Require Import SpecFloat.
From stdpp Require Import base list gmap numbers.
From S2P Require Import Prelude MarketEvent OrderPool OrderBook BookSpec OrderBookWf.
From S2P Require Import OrderBookBest BookLadder OrderBookProps BookL2 Instrumentation.
From S2P Require Import SpscRing Publisher Sequencer Pipeline LiveFeed LiveFeedProps.

(** ** Rows *)

(** The value a quantity cell stands for: absent, negative and unreadable
    quantities are 0. *)
Definition quantity (cell : option Z) : Z := Z.max 0 (Z.min (2 ^ 32 - 1) (default 0 cell)).

(** The assignment a row of an update stands for. *)
Definition row_op (sd : Side) (r : row) : option l2_op :=
  match r with
  | Some (Some px, c) => if decide (px < 0) then None else Some (mkL2 sd px (quantity c))
  | _ => None
  end.

Definition row_ops (sd : Side) (rows : list row) : list l2_op := omap (row_op sd) rows.

(** A snapshot leaves out the rows of quantity 0. *)
Definition kept (sd : Side) (rows : list row) : list l2_op :=
  filter (fun o => op_size o <> 0) (row_ops sd rows).

Lemma scaled_qty_value c g : (scaled_qty c g).1 = quantity c.
Proof.
  unfold scaled_qty, quantity. destruct c as [q|]; cbn; [|lia].
  destruct (decide (q <= 0)); cbn; [lia|]. destruct (decide (q > 2 ^ 32 - 1)); cbn; lia.
Qed.

Lemma quantity_range c : 0 <= quantity c < 2 ^ 32.
Proof. unfold quantity. lia. Qed.

Lemma row_ops_elem sd rows o :
  o ∈ row_ops sd rows -> op_side o = sd /\ 0 <= op_price o /\ 0 <= op_size o < 2 ^ 32.
Proof.
  intros (r & _ & E)%list_elem_of_omap. destruct r as [[[px|] c]|]; cbn in E; try done.
  case_decide; [done|]. injection E as <-. split; [done|]. split; [cbn; lia|apply quantity_range].
Qed.

Lemma row_ops_ok sd rows : sd <> SideNone -> Forall l2_op_ok (row_ops sd rows).
Proof.
  intros Hs. apply list.Forall_forall. intros o (E & _ & H)%row_ops_elem.
  split; [by rewrite E|lia].
Qed.

Lemma kept_elem sd rows o : o ∈ kept sd rows -> o ∈ row_ops sd rows.
Proof. by intros [_ H]%list_elem_of_filter. Qed.

Lemma kept_ok sd rows : sd <> SideNone -> Forall l2_op_ok (kept sd rows).
Proof.
  intros Hs. pose proof (row_ops_ok sd rows Hs) as H. rewrite list.Forall_forall in *.
  intros o Ho%kept_elem. by apply H.
Qed.

Lemma kept_prices sd rows : Forall (fun o => 0 <= op_price o) (kept sd rows).
Proof. apply list.Forall_forall. by intros o (_ & ? & _)%kept_elem%row_ops_elem. Qed.

(** ** The snapshot *)

(** The effect of a kept row. *)
Definition load_op (is_bid : bool) (s : Snapshot) (o : l2_op) : Snapshot :=
  let px := op_price o in
  let s := if decide (is_bid = true /\ (sn_best_bid s < 0 \/ px > sn_best_bid s))
           then s <| sn_best_bid := px |> else s in
  let s := if decide (is_bid = false /\ (sn_best_ask s < 0 \/ px < sn_best_ask s))
           then s <| sn_best_ask := px |> else s in
  s <| sn_levels ::= fun l => l ++ [o] |>.

Lemma kept_cons sd r rows :
  kept sd (r :: rows) =
  (if row_op sd r is Some o then if decide (op_size o <> 0) then [o] else [] else []) ++ kept sd rows.
Proof.
  unfold kept, row_ops. cbn. destruct (row_op sd r) as [o|]; [|done].
  rewrite filter_cons. by case_decide.
Qed.

Lemma load_row_ops sd is_bid r s g :
  (load_row sd is_bid r (s, g)).1 = fold_left (load_op is_bid) (kept sd [r]) s.
Proof.
  rewrite kept_cons, app_nil_r. unfold load_row. destruct r as [[c0 c1]|]; [|done].
  unfold px_to_ticks, row_op. destruct c0 as [px|]; [|done]. change (default (-1) (Some px)) with px.
  destruct (decide (px < 0)); [done|]. pose proof (scaled_qty_value c1 g) as Q.
  destruct (scaled_qty c1 g) as [qty g']. cbn in Q. subst qty. cbn [op_size].
  destruct (decide (quantity c1 = 0)) as [Hz|Hz].
  - destruct (decide (quantity c1 <> 0)); [contradiction|reflexivity].
  - destruct (decide (quantity c1 <> 0)); [reflexivity|contradiction].
Qed.

Lemma load_side_ops sd is_bid rows s g :
  (load_side sd is_bid rows (s, g)).1 = fold_left (load_op is_bid) (kept sd rows) s.
Proof.
  unfold load_side. revert s g. induction rows as [|r rows IH]; intros s g; [done|]. cbn [fold_left].
  pose proof (load_row_ops sd is_bid r s g) as E.
  destruct (load_row sd is_bid r (s, g)) as [s1 g1]. cbn [fst] in E. rewrite IH, E.
  rewrite (kept_cons sd r rows), fold_left_app. f_equal. rewrite kept_cons. by rewrite app_nil_r.
Qed.

(** The best price of a side: of no price -1, else one that none betters. *)
Definition better (is_bid : bool) (x y : Z) : Prop := if is_bid then y < x else x < y.

#[export] Instance better_dec is_bid x y : Decision (better is_bid x y).
Proof. unfold better. destruct is_bid; apply _. Defined.

Definition best (is_bid : bool) (s : Snapshot) : Z :=
  if is_bid then sn_best_bid s else sn_best_ask s.

Definition best_of (is_bid : bool) (x : Z) (ops : list l2_op) : Prop :=
  match ops with
  | [] => x = -1
  | _ => (exists o, o ∈ ops /\ op_price o = x) /\
      forall o, o ∈ ops -> ~ better is_bid (op_price o) x
  end.

Lemma load_op_fields is_bid s o :
  let s' := load_op is_bid s o in
  best is_bid s' = (if decide (best is_bid s < 0 \/ better is_bid (op_price o) (best is_bid s))
                    then op_price o else best is_bid s) /\
  best (negb is_bid) s' = best (negb is_bid) s /\
  sn_levels s' = sn_levels s ++ [o] /\ http_status s' = http_status s /\
  last_update_id s' = last_update_id s.
Proof.
  unfold load_op, best, better. destruct is_bid; cbn;
    repeat case_decide; destruct_and?; cbn; repeat split; try done; lia.
Qed.

Lemma load_ops is_bid ops s :
  best is_bid s = -1 -> Forall (fun o => 0 <= op_price o) ops ->
  let s' := fold_left (load_op is_bid) ops s in
  best_of is_bid (best is_bid s') ops /\ best (negb is_bid) s' = best (negb is_bid) s /\
  sn_levels s' = sn_levels s ++ ops /\ http_status s' = http_status s /\
  last_update_id s' = last_update_id s.
Proof.
  intros Hb. induction ops as [|o ops IH] using rev_ind; intros Hp; cbn zeta.
  { cbn. by rewrite app_nil_r. }
  apply Forall_app in Hp as [Hp Ho%list.Forall_singleton]. specialize (IH Hp).
  rewrite fold_left_app. cbn [fold_left]. set (s1 := fold_left (load_op is_bid) ops s) in *.
  destruct IH as (B & A & L & H & I).
  destruct (load_op_fields is_bid s1 o) as (-> & -> & -> & -> & ->).
  rewrite L, app_assoc. split; [|done]. clear -B Hp Ho. generalize dependent (best is_bid s1).
  intros x B. unfold best_of in *. destruct ops as [|o1 ops].
  - rewrite B, decide_True by lia. split; [exists o; split; [by left|done]|].
    intros y ->%list_elem_of_singleton. unfold better. destruct is_bid; lia.
  - destruct B as [(z & Hz & <-) Hall].
    assert (0 <= op_price z) by (rewrite list.Forall_forall in Hp; auto).
    change ((o1 :: ops) ++ [o]) with (o1 :: (ops ++ [o])). case_decide as D.
    + split; [exists o; split; [set_solver|done]|].
      intros y Hy. assert (y ∈ o1 :: ops \/ y = o) as [Hy'| ->] by set_solver.
      * specialize (Hall y Hy'). unfold better in *. destruct is_bid; lia.
      * unfold better. destruct is_bid; lia.
    + split; [exists z; split; [set_solver|done]|].
      intros y Hy. assert (y ∈ o1 :: ops \/ y = o) as [Hy'| ->] by set_solver; [by apply Hall|tauto].
Qed.

(** A document with an update id that arrives with status 200. *)
Lemma fetch_ok d id g :
  doc_id d = Some id ->
  let s := (fetch_snapshot (Some (200, Some d)) g).1 in
  ok s = true /\ last_update_id s = id /\
  sn_levels s = kept Buy (doc_bids d) ++ kept Sell (doc_asks d) /\
  best_of true (sn_best_bid s) (kept Buy (doc_bids d)) /\
  best_of false (sn_best_ask s) (kept Sell (doc_asks d)).
Proof.
  intros Ei. unfold fetch_snapshot. rewrite decide_False by lia. rewrite Ei.
  set (s0 := snapshot0 <| http_status := 200 |> <| last_update_id := id |>).
  pose proof (load_side_ops Buy true (doc_bids d) s0 g) as E1.
  destruct (load_side Buy true (doc_bids d) (s0, g)) as [s1 g1]. cbn [fst] in E1.
  pose proof (load_side_ops Sell false (doc_asks d) s1 g1) as E2.
  destruct (load_side Sell false (doc_asks d) (s1, g1)) as [s2 g2]. cbn [fst] in E2.
  destruct (load_ops true (kept Buy (doc_bids d)) s0 eq_refl (kept_prices _ _)) as (B1 & A1 & L1 & _ & I1).
  rewrite <- E1 in *. cbn in A1.
  destruct (load_ops false (kept Sell (doc_asks d)) s1 A1 (kept_prices _ _)) as (A2 & B2 & L2 & _ & I2).
  rewrite <- E2 in *. cbn in *. rewrite L2, L1, I2, I1, B2. done.
Qed.

(** Every other answer loads nothing and is not [ok]. *)
Lemma fetch_error resp g :
  (forall d id, resp = Some (200, Some d) -> doc_id d = Some id -> False) ->
  exists st, fetch_snapshot resp g = (snapshot0 <| http_status := st |>, g).
Proof.
  intros H. unfold fetch_snapshot. destruct resp as [[st [d|]]|]; try (by eexists).
  case_decide as Hs; [by eexists|]. destruct (doc_id d) as [id|] eqn:E; [|by eexists].
  destruct (H d id); [|done]. do 3 f_equal. lia.
Qed.

(** ** The band *)

Lemma feed_band_ok pct s bc :
  feed_band pct s = Some bc -> max_price_ticks bc < 2 ^ 63 -> cfg_ok (clamp_config bc).
Proof.
  unfold feed_band. set (mid := Z.quot _ 2). set (half := trunc_i64 _).
  case_decide as Hn; [done|]. intros [= <-] Hm. cbn [max_price_ticks min_price_ticks] in *.
  split; unfold num_levels, clamp_config; cbn [tick max_price_ticks min_price_ticks pool_chunk];
    repeat case_decide; try lia; rewrite Z.quot_1_r; [lia|].
  clearbody mid half. unfold u64 in Hn. rewrite wrap_add_l, wrap_small in Hn by (unfold in_u; lia). lia.
Qed.

(** ** The messages of an update *)

(** The message that carries an assignment. *)
Definition set_msg (U u recv : Z) (o : l2_op) : PipelineMsg :=
  mkMsg (event0 <| ev_type := L2SetLevel |> <| ev_side := op_side o |>
    <| ev_price_ticks := op_price o |> <| ev_size := op_size o |> <| ev_order_ref := U |>
    <| ev_match_number := u |>) recv u.

Lemma push_op_message sd U u recv r g :
  option_list (push_op sd U u recv r g).1 = set_msg U u recv <$> option_list (row_op sd r).
Proof.
  unfold push_op, row_op. destruct r as [[[px|] c]|]; [|done|done].
  change (px_to_ticks (Some px)) with px. destruct (decide (px < 0)); [done|].
  pose proof (scaled_qty_value c g) as Q. destruct (scaled_qty c g) as [qty g']. cbn in Q. subst qty.
  cbn. unfold set_msg, u32. cbn. rewrite wrap_small; [done|]. apply quantity_range.
Qed.

Lemma push_ops_messages sd U u recv rows g :
  (push_ops sd U u recv rows g).1 = set_msg U u recv <$> row_ops sd rows.
Proof.
  revert g. induction rows as [|r rows IH]; intros g; [done|]. cbn [push_ops].
  pose proof (push_op_message sd U u recv r g) as E.
  destruct (push_op sd U u recv r g) as [m g1]. cbn [fst] in E. specialize (IH g1).
  destruct (push_ops sd U u recv rows g1) as [ms g2]. cbn [fst] in *. rewrite E, IH.
  unfold row_ops. cbn. by destruct (row_op sd r).
Qed.

(** What an update lists, bids first. *)
Definition update_ops (b a : list row) : list l2_op := row_ops Buy b ++ row_ops Sell a.

Lemma depth_update_messages U u recv b a g :
  (depth_update U u recv b a g).1 =
  if decide (b ++ a = [])
  then [mkMsg (event0 <| ev_type := L2EventHeader |> <| ev_order_ref := U |>
                 <| ev_match_number := u |>) recv u]
  else set_msg U u recv <$> update_ops b a.
Proof.
  unfold depth_update. pose proof (push_ops_messages Buy U u recv b g) as E1.
  destruct (push_ops Buy U u recv b g) as [mb g1].
  pose proof (push_ops_messages Sell U u recv a g1) as E2.
  destruct (push_ops Sell U u recv a g1) as [ma g2]. cbn [fst] in *. subst.
  case_decide; [done|]. unfold update_ops. by rewrite fmap_app.
Qed.

Lemma update_ops_ok b a : Forall l2_op_ok (update_ops b a).
Proof. apply Forall_app. split; by apply row_ops_ok. Qed.

Lemma set_msg_ops U u recv o : msg_ops (set_msg U u recv o) = [o].
Proof. by destruct o. Qed.

(** Messages with the snapshots and clock readings thread B meets them with. *)
Definition met (env : nat -> Snapshot * Z) (ms : list PipelineMsg) : list (PipelineMsg * Snapshot * Z) :=
  imap (fun i m => (m, (env i).1, (env i).2)) ms.

Lemma met_fst env ms : (fun x => x.1.1) <$> met env ms = ms.
Proof.
  unfold met. revert env. induction ms as [|m ms IH]; intros env; [done|]. cbn. f_equal.
  apply (IH (fun i => env (S i))).
Qed.

Lemma ops_of_met env ms : ops_of (met env ms) = concat (msg_ops <$> ms).
Proof.
  unfold ops_of. rewrite <- (met_fst env ms) at 2. by rewrite <- list_fmap_compose.
Qed.

Lemma Forall_met (P : PipelineMsg -> Prop) env ms :
  Forall (fun x => P x.1.1) (met env ms) <-> Forall P ms.
Proof. rewrite <- (met_fst env ms) at 2. by rewrite Forall_fmap. Qed.

(** ** The trade tape *)

(** The tape holds the last forty trades, whatever it held. *)
Lemma push_trade_keeps {A} (t : A) trades :
  push_trade t trades `suffix_of` trades ++ [t] /\
  (length (push_trade t trades) = Nat.min 40 (length trades + 1))%nat.
Proof.
  unfold push_trade, trim. split.
  - exists (take (length (trades ++ [t]) - 40) (trades ++ [t])). by rewrite take_drop.
  - rewrite length_drop, length_app. cbn [length]. lia.
Qed.

(** ** Theorems *)

(** C16. From the snapshot to the started feed.  A depth document that arrives
    with status 200 and an update id is loaded: exactly its readable rows of
    positive quantity, bids first, with the highest bid and the lowest ask.  If
    it has both sides and the band fits, the feed starts: an L2 book of the band
    with exactly those levels, its cached bests right, seeking from the
    snapshot's update id. *)
Theorem live_session_starts d id g pct bc :
  doc_id d = Some id ->
  let s := (fetch_snapshot (Some (200, Some d)) g).1 in
  feed_band pct s = Some bc -> max_price_ticks bc < 2 ^ 63 ->
  let c := clamp_config bc in
  let ops := kept Buy (doc_bids d) ++ kept Sell (doc_asks d) in
  let ls := l2_sets c ops (l2_empty c) in
  ok s = true /\ sn_levels s = ops /\
  best_of true (sn_best_bid s) (kept Buy (doc_bids d)) /\
  best_of false (sn_best_ask s) (kept Sell (doc_asks d)) /\
  exists f, start_live bc s = Some f /\ live_ok c 0 f /\ lf_abs f = ls /\
    lf_mode f = Seeking /\ lf_L f = id /\ have_event f = false /\
    OrderBook.best_bid (lf_book f) = Some (a_best (a_bids c (l2_queue <$> ls))) /\
    OrderBook.best_ask (lf_book f) = Some (a_best (a_asks c (l2_queue <$> ls))).
Proof.
  intros Ei s Hb Hm c ops ls. destruct (fetch_ok d id g Ei) as (Eo & El & Es & Bb & Ba).
  fold s in Eo, El, Es, Bb, Ba. split; [exact Eo|]. split; [exact Es|]. split; [exact Bb|].
  split; [exact Ba|]. destruct (start_live_ok bc s) as (f & E & W & A & M & L & V & _).
  - by eapply feed_band_ok.
  - rewrite Es. apply Forall_app. split; by apply kept_ok.
  - exists f. destruct (lf_top _ _ _ W) as [Tb Ta]. rewrite Es in A. rewrite A in Tb, Ta.
    rewrite El in L. split; [exact E|]. split; [exact W|]. split; [exact A|]. split; [exact M|].
    split; [exact L|]. split; [exact V|]. exact (conj Tb Ta).
Qed.

(** Two levels, a row without a quantity, one of quantity 0, one unreadable. *)
Definition demo_doc : DepthDoc :=
  mkDoc (Some 50) [Some (Some 103, Some 40); None; Some (Some 102, Some 0)]
    [Some (Some 106, Some 10); Some (None, Some 5)].

Lemma live_session_starts_witness :
  exists bc f, feed_band (f64 10) (fetch_snapshot (Some (200, Some demo_doc)) 0).1 = Some bc /\
    min_price_ticks bc = 94 /\ max_price_ticks bc = 114 /\
    start_live bc (fetch_snapshot (Some (200, Some demo_doc)) 0).1 = Some f /\
    OrderBook.best_bid (lf_book f) = Some (mkBookLevel 103 40 1 true) /\
    OrderBook.best_ask (lf_book f) = Some (mkBookLevel 106 10 1 true).
Proof.
  exists (mkConfig 94 114 1 (2 ^ 16)).
  assert (feed_band (f64 10) (fetch_snapshot (Some (200, Some demo_doc)) 0).1
    = Some (mkConfig 94 114 1 (2 ^ 16))) as B by (vm_compute; reflexivity).
  destruct (live_session_starts demo_doc 50 0 (f64 10) (mkConfig 94 114 1 (2 ^ 16)))
    as (_ & _ & _ & _ & f & E & _ & _ & _ & _ & _ & Tb & Ta).
  { reflexivity. } { exact B. } { reflexivity. }
  exists f. split; [exact B|]. split; [reflexivity|]. split; [reflexivity|]. split; [exact E|].
  rewrite Tb, Ta. clear. split; vm_compute; reflexivity.
Defined.

(** C17. What a depth update sends.  All messages carry the update's id window;
    together they assign exactly the readable rows of the update, bids first, in
    order, zero quantities included; an update that lists nothing still sends a
    header.  So, unless it lists rows none of which is readable, thread B meets
    it as one update. *)
Theorem depth_update_sends U u recv b a g env :
  b ++ a = [] \/ update_ops b a <> [] ->
  let ms := met env (depth_update U u recv b a g).1 in
  update_of U u ms /\ ops_of ms = update_ops b a.
Proof.
  intros H ms. unfold ms, update_of. clear ms. rewrite ops_of_met, Forall_met.
  rewrite depth_update_messages. case_decide as D.
  - apply app_eq_nil in D as [-> ->]. split; [|done]. split; [done|]. by repeat constructor.
  - destruct H as [H|H]; [done|]. split; [split|].
    + unfold met. destruct (update_ops b a); done.
    + apply list.Forall_forall. intros m (o & -> & Ho)%list_elem_of_fmap. split; [done|].
      split; [done|]. rewrite set_msg_ops. constructor; [|done].
      pose proof (update_ops_ok b a) as Hok. rewrite list.Forall_forall in Hok. by apply Hok.
    + induction (update_ops b a) as [|o ops IH]; [done|]. cbn [fmap list_fmap concat].
      rewrite set_msg_ops. cbn. f_equal. destruct ops; [done|]. by apply IH.
Qed.

Lemma depth_update_sends_witness :
  let ms := met (fun _ => (snapshot0, 0))
    (depth_update 51 55 7 [Some (Some 103, Some 0); None] [Some (Some 106, Some 9)] 0).1 in
  update_of 51 55 ms /\ ops_of ms = [mkL2 Buy 103 0; mkL2 Sell 106 9].
Proof.
  destruct (depth_update_sends 51 55 7 [Some (Some 103, Some 0); None] [Some (Some 106, Some 9)] 0
    (fun _ => (snapshot0, 0))) as [H1 H2].
  - right. vm_compute. discriminate.
  - cbn zeta. split; [exact H1|]. rewrite H2. clear. vm_compute. reflexivity.
Defined.
