(* ===== verification/LiveSession.v ===== *)
(** * Sessions of the live feed

    The control side of [apps/live_feed.cpp]: which feeds run and where they
    connect, the switch of symbol, and the drain between two sessions.

    - [MarketMode] .. [feeds_for_mode]: the configuration of the feeds;
    - [query_param], [switch_status], [switch_request]: the request that switches
      the symbol;
    - [dr_exec]: [supervise_feed] drains the channel while the consumer thread
      may be inside [receive]: two consumers on a single-consumer ring. *)

From Stdlib Require Import SpecFloat Ascii String.
From stdpp Require Import base list strings numbers relations.
From S2P Require Import Prelude Instrumentation SpscRing Pipeline PipelineThreads.

(** ** Text *)

(** [std::toupper] and [std::tolower] in the "C" locale. *)
Definition upper_char (c : ascii) : ascii :=
  let n := N_of_ascii c in
  if decide (97 <= n <= 122)%N then ascii_of_N (n - 32) else c.

Definition lower_char (c : ascii) : ascii :=
  let n := N_of_ascii c in
  if decide (65 <= n <= 90)%N then ascii_of_N (n + 32) else c.

Fixpoint map_string (f : ascii -> ascii) (s : string) : string :=
  match s with
  | EmptyString => EmptyString
  | String.String c s => String.String (f c) (map_string f s)
  end.

Definition upper : string -> string := map_string upper_char.
Definition lower : string -> string := map_string lower_char.

(** ** Markets *)

Inductive MarketMode := Auto | Global | Us | Both.

#[export] Instance MarketMode_eq_dec : EqDecision MarketMode.
Proof. solve_decision. Defined.

Record FeedEndpoints := mkEndpoints {
  ep_id : string;
  ep_label : string;
  ep_rest_host : string;
  ep_ws_host : string }.

Record Config := mkLiveConfig {
  cf_symbol : string;
  price_scale : Z;
  size_scale : Z;
  band_pct : spec_float;
  cf_drop : bool;
  duration_s : Z;
  depth_ms : Z;
  serve_port : Z;
  bind_host : string;
  market : MarketMode;
  ws_url : string;
  rest_host : string;
  rest_host_set : bool;
  ws_url_set : bool }.

#[export] Instance Config_settable : Settable Config := fun c =>
  mkLiveConfig (cf_symbol c) (price_scale c) (size_scale c) (band_pct c) (cf_drop c) (duration_s c) (depth_ms c)
    (serve_port c) (bind_host c) (market c) (ws_url c) (rest_host c) (rest_host_set c) (ws_url_set c).

Definition default_live_config : Config :=
  mkLiveConfig "BTCUSDT" 100 1000000 (f64 10) false 0 100 0 "127.0.0.1" Auto "" "https://api.binance.com"
    false false.

Definition kSymbolCatalog : list string := ["BTCUSDT"; "ETHUSDT"; "SOLUSDT"; "BNBUSDT"; "XRPUSDT"].

Definition catalog_has (sym : string) : bool := bool_decide (sym ∈ kSymbolCatalog).

Definition endpoints_global : FeedEndpoints :=
  mkEndpoints "global" "Global (binance.com)" "https://data-api.binance.vision"
    "wss://data-stream.binance.vision".

Definition endpoints_us : FeedEndpoints :=
  mkEndpoints "us" "US (binance.us)" "https://api.binance.us" "wss://stream.binance.us:9443".

(** [std::to_string] of a non-negative number. *)
Definition to_string (n : Z) : string := pretty.pretty n.

Definition stream_url (cfg : Config) (ep : FeedEndpoints) : string :=
  let sym := lower (cf_symbol cfg) in
  let depth := sym +:+ "@depth@" +:+ to_string (depth_ms cfg) +:+ "ms" in
  let trade := sym +:+ "@trade" in
  ep_ws_host ep +:+ "/stream?streams=" +:+ depth +:+ "/" +:+ trade.

Definition ws_url_for (cfg : Config) (ep : FeedEndpoints) : string :=
  if ws_url_set cfg && negb (bool_decide (ws_url cfg = "")) then ws_url cfg else stream_url cfg ep.

Definition cfg_for_market (base : Config) (ep : FeedEndpoints) : Config :=
  let c := if rest_host_set base then base else base <| rest_host := ep_rest_host ep |> in
  c <| ws_url := "" |> <| ws_url_set := false |>.

Definition resolve_market_mode (cfg : Config) : MarketMode :=
  if decide (market cfg <> Auto) then market cfg
  else if decide (serve_port cfg > 0) then Both else Global.

Definition feeds_for_mode (mode : MarketMode) : list FeedEndpoints :=
  if decide (mode = Us) then [endpoints_us]
  else if decide (mode = Both) then [endpoints_global; endpoints_us]
  else [endpoints_global].

(** ** The query of a request *)

(** [qs.substr(start, n)]. *)
Notation substr start n s := (String.substring start n s) (only parsing).

Definition query_param (uri key : string) : string :=
  match String.index 0 "?" uri with
  | None => ""
  | Some q =>
      let qs := substr (q + 1) (String.length uri - (q + 1)) uri in
      let needle := key +:+ "=" in
      match String.index 0 needle qs with
      | None => ""
      | Some pos =>
          let start := (pos + String.length needle)%nat in
          match String.index start "&" qs with
          | None => substr start (String.length qs - start) qs
          | Some end_ => substr start (end_ - start) qs
          end
      end
  end.

(** *** Searching and cutting *)

#[local] Arguments String.append : simpl nomatch.

Lemma prefix_app s t : String.prefix s (s +:+ t) = true.
Proof. induction s as [|c s IH]; [by destruct t|]. cbn. by destruct (ascii_dec c c). Qed.

Lemma index_char_app c p s :
  String.index 0 (String.String c "") p = None ->
  String.index 0 (String.String c "") (p +:+ String.String c s) = Some (String.length p).
Proof.
  induction p as [|b p IH]; cbn.
  - intros _. destruct (ascii_dec c c); [by destruct s|done].
  - destruct (ascii_dec c b) as [->|Hne].
    + by destruct p.
    + destruct (String.index 0 (String.String c "") p); [done|]. intros _. by rewrite IH.
Qed.

Lemma index_shift n p s :
  String.index (String.length p) n (p +:+ s) =
  (fun i => String.length p + i)%nat <$> String.index 0 n s.
Proof.
  induction p as [|b p IH]; cbn [String.append String.length].
  - by destruct (String.index 0 n s).
  - cbn [String.index]. rewrite IH. by destruct (String.index 0 n s).
Qed.

Lemma substring_shift n p s :
  String.substring (String.length p) n (p +:+ s) = String.substring 0 n s.
Proof. induction p as [|b p IH]; [done|]. cbn. exact IH. Qed.

Lemma substring_prefix s t : String.substring 0 (String.length s) (s +:+ t) = s.
Proof. induction s as [|c s IH]; [by destruct t|]. cbn. by rewrite IH. Qed.

Lemma substring_all s : String.substring 0 (String.length s) s = s.
Proof. induction s as [|c s IH]; [done|]. cbn. by rewrite IH. Qed.

Lemma length_app_string s t : String.length (s +:+ t) = (String.length s + String.length t)%nat.
Proof. induction s as [|c s IH]; [done|]. cbn. by rewrite IH. Qed.

Lemma app_assoc_string s t u : (s +:+ t) +:+ u = s +:+ t +:+ u.
Proof. induction s as [|c s IH]; [done|]. cbn. by rewrite IH. Qed.

(** The query string behind the first question mark. *)
Lemma query_tail path qs key :
  String.index 0 "?" path = None ->
  query_param (path +:+ "?" +:+ qs) key =
  match String.index 0 (key +:+ "=") qs with
  | None => ""
  | Some pos =>
      let start := (pos + String.length (key +:+ "="))%nat in
      match String.index start "&" qs with
      | None => substr start (String.length qs - start) qs
      | Some end_ => substr start (end_ - start) qs
      end
  end.
Proof.
  intros H. unfold query_param. change ("?" +:+ qs) with (String.String "?" qs).
  rewrite (index_char_app "?" path qs H). rewrite length_app_string. cbn [String.length].
  replace (String.length path + S (String.length qs) - (String.length path + 1))%nat
    with (String.length qs) by lia.
  assert (String.substring (String.length path + 1) (String.length qs) (path +:+ String.String "?" qs)
    = qs) as ->; [|done].
  replace (path +:+ String.String "?" qs) with ((path +:+ "?") +:+ qs) by by rewrite app_assoc_string.
  replace (String.length path + 1)%nat with (String.length (path +:+ "?"))
    by by rewrite length_app_string.
  rewrite substring_shift. apply substring_all.
Qed.

(** The value behind the first occurrence of the needle. *)
Lemma query_value pre needle v tail :
  String.index 0 "&" v = None -> tail = "" \/ (exists t, tail = "&" +:+ t) ->
  let qs := pre +:+ needle +:+ v +:+ tail in
  let start := (String.length pre + String.length needle)%nat in
  match String.index start "&" qs with
  | None => substr start (String.length qs - start) qs
  | Some end_ => substr start (end_ - start) qs
  end = v.
Proof.
  intros Hv Ht qs start. unfold qs, start. clear qs start.
  replace (pre +:+ needle +:+ v +:+ tail) with ((pre +:+ needle) +:+ v +:+ tail)
    by by rewrite app_assoc_string.
  rewrite <- length_app_string. generalize (pre +:+ needle) as p. intros p.
  rewrite index_shift. destruct Ht as [->|[t ->]].
  - assert (v +:+ "" = v) as -> by (clear; induction v as [|c v IH]; [done|cbn; by rewrite IH]).
    rewrite Hv. cbn. rewrite substring_shift, length_app_string, Nat.add_comm, Nat.add_sub.
    apply substring_all.
  - change ("&" +:+ t) with (String.String "&" t). rewrite (index_char_app "&" v t Hv). cbn.
    rewrite substring_shift, Nat.add_comm, Nat.add_sub. apply substring_prefix.
Qed.

(** ** Switching the symbol *)

(** A trade of the tape; its price and quantity are doubles. *)
Record TradeRow := mkTrade { tr_price : spec_float; tr_qty : spec_float; tr_sell : bool; tr_ts_ms : Z }.

(** What a switch touches of a [FeedContext]; the channel as the list of the
    messages in it. *)
Record Feed := mkFeed {
  fd_symbol : string;
  fd_pending : string;
  fd_restart : bool;
  fd_ws_ops : Z;
  fd_session : Z;
  fd_trades : list TradeRow;
  fd_channel : list PipelineMsg }.

#[export] Instance Feed_settable : Settable Feed := fun f =>
  mkFeed (fd_symbol f) (fd_pending f) (fd_restart f) (fd_ws_ops f) (fd_session f) (fd_trades f)
    (fd_channel f).

(** [session.fetch_add(1)]: an [int] that wraps. *)
Definition next_session (n : Z) : Z := wrap 32 (n + 1 + 2 ^ 31) - 2 ^ 31.

(** What the request handler does to one feed. *)
Definition tell_feed (want : string) (f : Feed) : Feed :=
  f <| fd_pending := want |> <| fd_restart := true |>.

(** [app_state->symbol], the feeds, and the handlers in flight: the symbol each
    wants and the feeds it has still to tell. *)
Record Switching := mkSwitching {
  sw_app : string;
  sw_feeds : list Feed;
  sw_handlers : list (string * list nat) }.

#[export] Instance Switching_settable : Settable Switching := fun s =>
  mkSwitching (sw_app s) (sw_feeds s) (sw_handlers s).

(** The answer to a request for a URI with "/symbol" and "set=". *)
Definition switch_status (uri : string) (s : Switching) : Z :=
  let want := upper (query_param uri "set") in
  if negb (catalog_has want) then 400
  else if existsb fd_restart (sw_feeds s) then 429
  else 200.

(** The body of the handler up to the loop over the feeds. *)
Definition switch_request (uri : string) (s : Switching) : Switching :=
  let want := upper (query_param uri "set") in
  if decide (switch_status uri s <> 200 \/ sw_app s = want) then s
  else s <| sw_app := want |>
         <| sw_handlers ::= fun hs => hs ++ [(want, seq 0 (length (sw_feeds s)))] |>.

(** The feeds as [main] starts them. *)
Definition feed0 (sym : string) : Feed := mkFeed sym sym false 0 0 [] [].
Definition switching0 (sym : string) (n : nat) : Switching :=
  mkSwitching sym (replicate n (feed0 sym)) [].

(** ** Two consumers *)

(** A thread inside [pop], with its local [head]. *)
Inductive pop_pc (T : Type) := PopIdle | PopRead (head : Z) | PopStore (head : Z) (x : T).
Arguments PopIdle {T}.
Arguments PopRead {T}.
Arguments PopStore {T}.

Section Drain.
Context {T : Type} (x0 : T).
Notation C := (2 ^ ring_bits).

(** One access of [pop] by one of several threads, every load seeing the latest
    value: what the call returns, when it ends. *)
Definition pop_access (pc : pop_pc T) (r : Ring T) : option (pop_pc T * Ring T * option (option T)) :=
  match pc with
  | PopIdle =>
      let head := head_ r in
      if decide (head = cached_tail_ r) then
        let r := r <| cached_tail_ := tail_ r |> in
        if decide (head = cached_tail_ r) then Some (PopIdle, r, Some None)
        else Some (PopRead head, r, None)
      else Some (PopRead head, r, None)
  | PopRead head =>
      x ← (buffer_ r).[slot C head];
      Some (PopStore head x, r, None)
  | PopStore head x => Some (PopIdle, r <| head_ := u64 (head + 1) |>, Some (Some x))
  end.

(** The ring, the consumer thread and the supervisor's drain, and what each got. *)
Record Drain := mkDrain {
  dr_ring : Ring T;
  dr_consumer : pop_pc T;
  dr_drain : pop_pc T;
  dr_received : list T;
  dr_junk : list T }.

#[export] Instance Drain_settable : Settable Drain := fun d =>
  mkDrain (dr_ring d) (dr_consumer d) (dr_drain d) (dr_received d) (dr_junk d).

Definition drain_new : Drain := mkDrain (ring_new x0 C) PopIdle PopIdle [] [].

Definition got (res : option (option T)) : list T := if res is Some (Some x) then [x] else [].

Inductive dr_command := Receive | DrainJunk | Push (x : T).

Definition dr_exec (a : dr_command) (d : Drain) : option Drain :=
  match a with
  | Receive =>
      '(pc, r, res) ← pop_access (dr_consumer d) (dr_ring d);
      Some (d <| dr_ring := r |> <| dr_consumer := pc |> <| dr_received ::= fun l => l ++ got res |>)
  | DrainJunk =>
      '(pc, r, res) ← pop_access (dr_drain d) (dr_ring d);
      Some (d <| dr_ring := r |> <| dr_drain := pc |> <| dr_junk ::= fun l => l ++ got res |>)
  | Push x =>
      '(_, r) ← push ring_bits x (dr_ring d);
      Some (d <| dr_ring := r |>)
  end.

(** The consumer has looked at [head_]; the supervisor drains [a] and [b] to the
    end; the next session's first message arrives; the consumer goes on. *)
Definition dr_schedule (a b c : T) : list dr_command :=
  [Push a; Push b; Receive] ++ replicate 7 DrainJunk ++ [Push c] ++ replicate 8 Receive.
End Drain.
Arguments Receive {T}.
Arguments DrainJunk {T}.
Arguments Push {T}.

(** ** Theorems *)

(** [query_param] returns the value of the first place where the key and an
    equals sign occur in the query, up to the next ampersand or the end. *)
Theorem query_param_value path pre key v tail :
  String.index 0 "?" path = None ->
  let needle := key +:+ "=" in
  String.index 0 needle (pre +:+ needle +:+ v +:+ tail) = Some (String.length pre) ->
  String.index 0 "&" v = None -> tail = "" \/ (exists t, tail = "&" +:+ t) ->
  query_param (path +:+ "?" +:+ pre +:+ needle +:+ v +:+ tail) key = v.
Proof.
  intros Hp needle Hi Hv Ht. rewrite (query_tail path _ key Hp). fold needle. rewrite Hi.
  cbn zeta. by apply query_value.
Qed.

Lemma query_param_value_witness :
  query_param "/symbol?lang=en&set=ethusdt&x=1" "set" = "ethusdt".
Proof.
  refine (query_param_value "/symbol" "lang=en&" "set" "ethusdt" "&x=1" _ _ _ _).
  - reflexivity.
  - reflexivity.
  - reflexivity.
  - right. by exists "x=1".
Defined.

(** A parameter whose name ends in the key shadows it: the same request is
    accepted or refused by the order of its parameters. *)
Theorem set_param_shadowed s :
  existsb fd_restart (sw_feeds s) = false ->
  switch_status "/symbol?set=ETHUSDT&offset=1" s = 200 /\
  switch_status "/symbol?offset=1&set=ETHUSDT" s = 400.
Proof. intros H. unfold switch_status. rewrite H. split; vm_compute; reflexivity. Qed.

Lemma set_param_shadowed_witness :
  switch_status "/symbol?offset=1&set=ETHUSDT" (switching0 "BTCUSDT" 2) = 400.
Proof. exact (proj2 (set_param_shadowed (switching0 "BTCUSDT" 2) eq_refl)). Defined.

(** The drain between two sessions races with the consumer.  The channel
    holds [a] and [b] of the old session; the consumer thread is inside [receive]
    when the supervisor drains the channel.  The drain takes both and finds the
    channel empty, yet the consumer receives both again, ahead of the new
    session's [c]: its store puts [head_] back. *)
Theorem drain_races {T} (x0 a b c : T) :
  exists d, iterM dr_exec (dr_schedule a b c) (drain_new x0) = Some d /\
    dr_junk d = [a; b] /\ dr_received d = [a; b; c].
Proof.
  assert ((fun d => (dr_junk d, dr_received d)) <$> iterM dr_exec (dr_schedule a b c) (drain_new x0)
    = Some ([a; b], [a; b; c])) as H by (vm_compute; reflexivity).
  destruct (iterM dr_exec (dr_schedule a b c) (drain_new x0)) as [d|]; [|discriminate H].
  exists d. split; [reflexivity|]. injection H as -> ->. split; reflexivity.
Qed.

(** [--ws-url] has no effect: [main] gives every feed a configuration of
    [cfg_for_market], which clears it. *)
Lemma ws_url_ignored base ep : ws_url_for (cfg_for_market base ep) ep = stream_url base ep.
Proof. unfold cfg_for_market, ws_url_for, stream_url. by destruct (rest_host_set base). Qed.
