(* ===== verification/LiveTiming.v ===== *)
(** * Waits and the pace of requests

    The clocks of [apps/live_feed.cpp]: [interruptible_wait], by which the threads
    pause without missing a stop, and the head of [fetch_snapshot], which keeps the
    requests of all feeds apart.  Readings of the steady clock are arguments (in
    nanoseconds); what is relied on is that it does not run backwards and that
    [sleep_for] does not return early.

    - [interruptible_wait], [wait_bounded]: it ends, and how soon;
    - [request_turn], [requests_spaced]: at least 600 milliseconds between requests. *)

From stdpp Require Import base list numbers.
From S2P Require Import Prelude.

Definition ms (n : Z) : Z := n * 10 ^ 6.

(** ** A wait that can be interrupted *)

(** How the wait ends, and the polls of [pred] that said no before. *)
Inductive Waited := Interrupted (polls : nat) | Elapsed (polls : nat).

Section Wait.
(** The first reading of the clock, the one ahead of poll [k], and what [pred] says
    at poll [k]. *)
Context (start : Z) (clock : nat -> Z) (pred : nat -> bool).

Fixpoint wait_loop (fuel : nat) (deadline : Z) (k : nat) : option Waited :=
  match fuel with
  | O => None
  | S fuel =>
      if decide (clock k < deadline) then
        if pred k then Some (Interrupted k) else wait_loop fuel deadline (S k)
      else Some (Elapsed k)
  end.

Definition interruptible_wait (fuel : nat) (max_wait : Z) : option Waited :=
  wait_loop fuel (start + max_wait) 0.

Section Contract.
Hypothesis clock_start : start <= clock 0%nat.
Hypothesis turn_sleeps : forall k, clock k + ms 50 <= clock (S k).

Lemma clock_after k : start + Z.of_nat k * ms 50 <= clock k.
Proof. induction k as [|k IH]; [lia|]. specialize (turn_sleeps k). lia. Qed.

Lemma wait_loop_spec fuel deadline k :
  deadline <= start + Z.of_nat (k + fuel) * ms 50 ->
  (forall j, (j < k)%nat -> pred j = false) ->
  exists r, wait_loop (S fuel) deadline k = Some r /\
  match r with
  | Interrupted n => (n < k + fuel)%nat /\ pred n = true /\ clock n < deadline /\
      forall j, (j < n)%nat -> pred j = false
  | Elapsed n => (n <= k + fuel)%nat /\ deadline <= clock n /\ forall j, (j < n)%nat -> pred j = false
  end.
Proof.
  revert k. induction fuel as [|fuel IH]; intros k H Hp; cbn [wait_loop]; pose proof (clock_after k) as Hk.
  - rewrite Nat.add_0_r in *. rewrite decide_False by lia. eexists. split; [done|]. by split; [lia|split; [lia|]].
  - case_decide as D; [|eexists; split; [done|]; by split; [lia|split; [lia|]]].
    destruct (pred k) eqn:Ek; [eexists; split; [done|]; split_and!; [lia|done|done|done]|].
    replace (k + S fuel)%nat with (S k + fuel)%nat in * by lia. apply IH; [done|].
    intros j Hj. destruct (decide (j = k)) as [->|]; [done|]. apply Hp. lia.
Qed.
End Contract.
End Wait.

(** ** The pace of the snapshot requests *)

Definition min_gap : Z := ms 600.

(** How long a caller that holds [g_snapshot_mu] sleeps; [g_last] is
    [g_last_snapshot], 0 before the first request. *)
Definition request_sleep (g_last now : Z) : Z :=
  if decide (g_last <> 0 /\ now - g_last < min_gap) then min_gap - (now - g_last) else 0.

Section Pace.
(** [woke now d]: the reading of the clock behind a sleep of [d] that begins at
    [now]. *)
Context (woke : Z -> Z -> Z).

(** One caller's turn: the new [g_last_snapshot], at which its request goes out. *)
Definition request_turn (now g_last : Z) : Z := woke now (request_sleep g_last now).

(** The requests of callers that get the mutex at the times [nows]. *)
Fixpoint request_times (g_last : Z) (nows : list Z) : list Z :=
  match nows with
  | [] => []
  | now :: nows => let g_last := request_turn now g_last in g_last :: request_times g_last nows
  end.

(** A caller gets the mutex behind the turn of the one before. *)
Fixpoint in_turn (g_last : Z) (nows : list Z) : Prop :=
  match nows with
  | [] => True
  | now :: nows => 0 < now /\ g_last <= now /\ in_turn (request_turn now g_last) nows
  end.

Hypothesis sleeps : forall now d, 0 <= d -> now + d <= woke now d.

Lemma request_turn_gap now g_last :
  0 < now -> g_last <= now -> 0 <= g_last ->
  0 < request_turn now g_last /\ (g_last <> 0 -> g_last + min_gap <= request_turn now g_last).
Proof.
  intros H0 H1 H2. unfold request_turn, request_sleep. case_decide as D.
  - pose proof (sleeps now (min_gap - (now - g_last)) ltac:(lia)). lia.
  - pose proof (sleeps now 0 ltac:(lia)). split; [lia|]. intros Hg.
    destruct (decide (now - g_last < min_gap)); [by destruct D|lia].
Qed.

Lemma request_times_after nows g_last k t :
  in_turn g_last nows -> 0 < g_last -> request_times g_last nows !! k = Some t ->
  g_last + (Z.of_nat k + 1) * min_gap <= t.
Proof.
  revert g_last k. induction nows as [|now nows IH]; intros g_last k; [done|]. cbn.
  intros (H0 & H1 & H) Hg. destruct (request_turn_gap now g_last H0 H1) as [Hp Hs]; [lia|].
  specialize (Hs ltac:(lia)). destruct k as [|k]; cbn; [intros [= <-]; lia|].
  intros E. specialize (IH _ _ H Hp E). lia.
Qed.

Lemma request_times_gaps nows g_last i j a b :
  in_turn g_last nows -> 0 <= g_last -> (i < j)%nat ->
  request_times g_last nows !! i = Some a -> request_times g_last nows !! j = Some b ->
  a + Z.of_nat (j - i) * min_gap <= b.
Proof.
  revert g_last i j. induction nows as [|now nows IH]; intros g_last i j; [done|]. cbn.
  intros (H0 & H1 & H) Hg Hij Ea Eb.
  destruct (request_turn_gap now g_last H0 H1 Hg) as [Hp _].
  destruct j as [|j]; [lia|]. destruct i as [|i].
  - injection Ea as <-. cbn in Eb. pose proof (request_times_after _ _ _ _ H Hp Eb).
    replace (S j - 0)%nat with (S j) by lia. lia.
  - cbn in Ea, Eb. specialize (IH _ i j H ltac:(lia) ltac:(lia) Ea Eb).
    replace (S j - S i)%nat with (j - i)%nat by lia. exact IH.
Qed.
End Pace.

(** ** Theorems *)

(** A wait ends in time.  Whatever the predicate and however late the thread is
    woken, a wait of at most [n] times 50 milliseconds ends within [n + 1] turns: by
    the first poll that says yes, ahead of the deadline, or behind the deadline,
    after polls that all said no. *)
Theorem wait_bounded start clock pred n max_wait :
  start <= clock 0%nat -> (forall k, clock k + ms 50 <= clock (S k)) -> max_wait <= Z.of_nat n * ms 50 ->
  exists r, interruptible_wait start clock pred (S n) max_wait = Some r /\
  match r with
  | Interrupted k => (k < n)%nat /\ pred k = true /\ clock k < start + max_wait /\
      forall j, (j < k)%nat -> pred j = false
  | Elapsed k => (k <= n)%nat /\ start + max_wait <= clock k /\ forall j, (j < k)%nat -> pred j = false
  end.
Proof.
  intros H0 Hs Hn. unfold interruptible_wait.
  destruct (wait_loop_spec start clock pred H0 Hs n (start + max_wait) 0) as (r & E & H); [cbn; lia|lia|].
  exists r. split; [exact E|]. exact H.
Qed.

(** The pause of a refused snapshot, interrupted at the fourth poll. *)
Lemma wait_bounded_witness :
  interruptible_wait 5 (fun k => 5 + Z.of_nat k * ms 50) (fun k => bool_decide (3 <= k)%nat) 17 (ms 800) =
    Some (Interrupted 3).
Proof.
  destruct (wait_bounded 5 (fun k => 5 + Z.of_nat k * ms 50) (fun k => bool_decide (3 <= k)%nat) 16 (ms 800))
    as (r & E & _).
  - cbn. lia.
  - intros k. lia.
  - unfold ms. lia.
  - rewrite E. vm_compute in E. by rewrite <- E.
Defined.

(** The pace of the requests.  A caller sleeps until 600 milliseconds behind the
    last request and no longer, the first one not at all.  So however many feeds ask
    for snapshots and whenever they do, the [j]-th request goes out at least
    [(j - i) * 600] milliseconds behind the [i]-th. *)
Theorem requests_spaced woke nows i j a b :
  (forall now d, 0 <= d -> now + d <= woke now d) -> in_turn woke 0 nows -> (i < j)%nat ->
  request_times woke 0 nows !! i = Some a -> request_times woke 0 nows !! j = Some b ->
  a + Z.of_nat (j - i) * ms 600 <= b /\
  forall now g_last, g_last <= now ->
    now + request_sleep g_last now = if decide (g_last = 0) then now else Z.max now (g_last + ms 600).
Proof.
  intros Hs H Hij Ea Eb. split; [by eapply request_times_gaps|].
  intros now g_last Hg. unfold request_sleep, min_gap. do 2 case_decide; lia.
Qed.

Lemma requests_spaced_witness :
  request_times (fun now d => now + d) 0 [ms 1; ms 2; ms 5000] = [ms 1; ms 601; ms 5000] /\
  ms 1 + Z.of_nat 2 * ms 600 <= ms 5000.
Proof.
  split; [vm_compute; reflexivity|].
  refine (proj1 (requests_spaced (fun now d => now + d) [ms 1; ms 2; ms 5000] 0 2 (ms 1) (ms 5000) _ _ _ _ _)).
  - intros now d _. lia.
  - vm_compute. repeat split; congruence.
  - lia.
  - vm_compute. reflexivity.
  - vm_compute. reflexivity.
Defined.
