(* ===== verification/LiveServer.v ===== *)
(** * The dashboard's documents and requests

    [apps/live_feed.cpp]: the document the consumer publishes ([build_snapshot])
    and the HTTP callback of [main].

    - [build_snapshot]: the values of the JSON document; its text is the JSON
      library's concern.  [build_snapshot_shows]: it shows the market of the book.
    - [handle_request]: which handler answers a URI, by the substrings it contains,
      and what it answers; [requests_routed]: the URIs the dashboard asks for.
    - [ops_sample]: the rate of operations the consumer samples every second. *)

From Stdlib Require Import SpecFloat Ascii String.
From stdpp Require Import base list strings numbers relations.
From S2P Require Import Prelude MarketEvent OrderPool OrderBook BookSpec OrderBookWf.
From S2P Require Import OrderBookBest BookLadder OrderBookProps BookL2 Instrumentation Publisher.
From S2P Require Import Sequencer Pipeline LiveFeed LiveFeedProps LiveInput LiveSession.

(** A row of the trade tape in a document. *)
Record DocTrade := mkDocTrade { t_p : spec_float; t_q : spec_float; t_side : string; t_t : Z }.

Definition trades_json (trades : list TradeRow) : list DocTrade :=
  (fun t => mkDocTrade (tr_price t) (tr_qty t) (if tr_sell t then "sell" else "buy") (tr_ts_ms t)) <$> trades.

(** ** The document of a feed *)

Notation "x / y" := (SFdiv 53 1024 x y) : f64_scope.
Notation "x + y" := (SFadd 53 1024 x y) : f64_scope.
Notation "x - y" := (SFsub 53 1024 x y) : f64_scope.
Notation "x * y" := (SFmul 53 1024 x y) : f64_scope.
Delimit Scope f64_scope with f64.

Record DashDoc := mkDash {
  d_market : string; d_marketLabel : string; d_symbol : string; d_mode : string;
  d_levels : Z; d_ops : spec_float;
  d_bid : option (spec_float * spec_float);    (** [bid], [bidSz] *)
  d_ask : option (spec_float * spec_float);    (** [ask], [askSz] *)
  d_spread : option (spec_float * spec_float); (** [spread], [mid] *)
  d_bids : list (spec_float * spec_float);
  d_asks : list (spec_float * spec_float);
  d_p50us : spec_float; d_p99us : spec_float;
  d_drops : Z; d_gaps : Z; d_resync : Z; d_oob : Z; d_cross : Z;
  d_trades : list DocTrade }.

Section Document.
Context (ep : FeedEndpoints) (price_div size_div : spec_float).

(** A level in quote and base units. *)
Definition doc_level (l : BookLevel) : spec_float * spec_float :=
  ((f64 (bl_price_ticks l) / price_div)%f64, (f64 (bl_aggregate_size l) / size_div)%f64).

Definition mode_name (m : Mode) : string :=
  match m with Streaming => "streaming" | Seeking => "seeking" end.

(** [dropped] is the channel's counter. *)
Definition build_snapshot (sym : string) (ops_rate : spec_float) (dropped : Z) (trades : list TradeRow)
    (f : LiveFeed) : option DashDoc :=
  let book := lf_book f in
  b ← OrderBook.best_bid book;
  a ← OrderBook.best_ask book;
  let ls := Instrumentation.snapshot (lf_hist f) in
  let bs := stats_ book in
  jb ← depth_bids book 15;
  ja ← depth_asks book 15;
  Some (mkDash (ep_id ep) (ep_label ep) sym (mode_name (lf_mode f)) (live_orders_ book) ops_rate
    (if valid b then Some (doc_level b) else None)
    (if valid a then Some (doc_level a) else None)
    (if valid b && valid a
     then Some ((f64 (bl_price_ticks a - bl_price_ticks b) / price_div)%f64,
                (f64 (bl_price_ticks a + bl_price_ticks b) / SFmul 53 1024 (f64 2) price_div)%f64)
     else None)
    (doc_level <$> jb) (doc_level <$> ja)
    (f64 (p50_ns ls) / f64 1000)%f64 (f64 (p99_ns ls) / f64 1000)%f64
    dropped (gaps f) (resyncs f) (rejected_out_of_band bs) (crossed_observed bs) (trades_json trades)).
End Document.

(** What the consumer has last put into [snap_json]: the initial ["{}"], the
    document of a feed that has no book yet, the document of a book. *)
Inductive Published :=
  | PNothing
  | PSeeking (market marketLabel symbol mode : string)
  | PDoc (d : DashDoc).

Definition seeking_doc (ep : FeedEndpoints) (sym : string) : Published :=
  PSeeking (ep_id ep) (ep_label ep) sym "seeking".

(** ** The sampled rate *)

(** [static_cast<double>(ops - last_ops)], both 64-bit. *)
Definition ops_sample (ops last_ops : Z) : spec_float := f64 (u64 (ops - last_ops)).

(** ** Requests *)

(** [uri.find(s) != std::string::npos]. *)
Definition contains (uri s : string) : bool :=
  match String.index 0 s uri with Some _ => true | None => false end.

(** What the server reads of a feed: its endpoints and the text last published. *)
Record ServedFeed := mkServed { sf_ep : FeedEndpoints; snap_json : string }.

Section Server.
(** [json::parse] of the library, [None] when it throws. *)
Context {J : Type} (parse : string -> option J) (empty_object : J).

Inductive Body :=
  | BHealth
  | BSymbols (symbols : list string) (active : string)
  | BError (error : string)
  | BSwitched (symbol : string)
  | BMarkets (markets : list (string * string))
  | BCompare (docs : list (string * J))
  | BDoc (text : string)
  | BDashboard.

(** The loop over the feeds behind "/snapshot.json". *)
Fixpoint find_doc (want : string) (feeds : list ServedFeed) : string :=
  match feeds with
  | [] => "{}"
  | f :: feeds => if decide (ep_id (sf_ep f) = want) then snap_json f else find_doc want feeds
  end.

Definition snapshot_doc (uri : string) (feeds : list ServedFeed) : string :=
  let want := query_param uri "market" in
  let want := match want, feeds with EmptyString, f :: _ => ep_id (sf_ep f) | _, _ => want end in
  find_doc want feeds.

(** The status, the body, and the state behind the request (the loop that tells
    the feeds is [sw_tell]). *)
Definition handle_request (feeds : list ServedFeed) (uri : string) (s : Switching)
    : Z * Body * Switching :=
  if contains uri "/health" then (200, BHealth, s)
  else if contains uri "/symbols.json" then (200, BSymbols kSymbolCatalog (sw_app s), s)
  else if contains uri "/symbol" && contains uri "set=" then
    let want := upper (query_param uri "set") in
    (switch_status uri s,
     (if decide (switch_status uri s = 400) then BError "unknown symbol"
      else if decide (switch_status uri s = 429) then BError "symbol switch already in progress"
      else BSwitched want),
     switch_request uri s)
  else if contains uri "/markets.json" then
    (200, BMarkets ((fun f => (ep_id (sf_ep f), ep_label (sf_ep f))) <$> feeds), s)
  else if contains uri "/compare.json" then
    (200, BCompare ((fun f => (ep_id (sf_ep f), default empty_object (parse (snap_json f)))) <$> feeds), s)
  else if contains uri "/snapshot.json" then (200, BDoc (snapshot_doc uri feeds), s)
  else (200, BDashboard, s).

(** ** Lemmas: routes *)

#[local] Arguments String.append : simpl nomatch.

Definition no_slash (s : string) : Prop := String.index 0 "/" s = None.

(** A word whose first character is nowhere is nowhere. *)
Lemma index_first c0 w s :
  String.index 0 (String.String c0 "") s = None -> String.index 0 (String.String c0 w) s = None.
Proof.
  induction s as [|c s IH]; [done|]. cbn. destruct (ascii_dec c0 c) as [->|Hne].
  - by destruct s.
  - destruct (String.index 0 (String.String c0 "") s); [done|]. intros _. by rewrite IH.
Qed.

(** A word that starts with a slash is found at the start or not at all. *)
Lemma contains_path w s :
  no_slash s -> contains (String.String "/" s) (String.String "/" w) = String.prefix w s.
Proof.
  intros H. unfold contains. cbn [String.index String.prefix].
  destruct (ascii_dec "/" "/"); [|done]. destruct (String.prefix w s); [done|].
  by rewrite index_first.
Qed.

Lemma index_none_app c0 s t :
  String.index 0 (String.String c0 "") s = None -> String.index 0 (String.String c0 "") t = None ->
  String.index 0 (String.String c0 "") (s +:+ t) = None.
Proof.
  induction s as [|c s IH]; [done|]. intros Hs Ht. cbn in Hs. cbn [String.append String.index String.prefix].
  destruct (ascii_dec c0 c); [by destruct s|].
  destruct (String.index 0 (String.String c0 "") s); [done|]. by rewrite IH.
Qed.

Lemma find_doc_of f feeds :
  NoDup ((fun f => ep_id (sf_ep f)) <$> feeds) -> f ∈ feeds ->
  find_doc (ep_id (sf_ep f)) feeds = snap_json f.
Proof.
  induction feeds as [|g feeds IH]; [by intros _ ?%elem_of_nil|]. rewrite fmap_cons.
  intros [Hn Hd]%list.NoDup_cons Hf. cbn. case_decide as Eg.
  - apply elem_of_cons in Hf as [<-|Hf]; [done|]. destruct Hn. rewrite Eg. apply list_elem_of_fmap. eauto.
  - apply elem_of_cons in Hf as [->|Hf]; [done|]. by apply IH.
Qed.

Lemma index_prefix w s : String.index 0 w (w +:+ s) = Some 0%nat.
Proof.
  pose proof (prefix_app w s) as P. destruct (w +:+ s) as [|c u]; cbn [String.index].
  - by destruct w.
  - by rewrite P.
Qed.

Lemma market_param m :
  String.index 0 "&" m = None -> query_param ("/snapshot.json?market=" +:+ m) "market" = m.
Proof.
  intros Hm. change ("/snapshot.json?market=" +:+ m) with ("/snapshot.json" +:+ "?" +:+ "market=" +:+ m).
  rewrite query_tail by reflexivity. change ("market" +:+ "=") with "market=". rewrite index_prefix.
  pose proof (query_value "" "market=" m "" Hm (or_introl eq_refl)) as Q. cbn zeta in Q.
  assert (m +:+ "" = m) as Em by (clear; induction m as [|c m IH]; [done|exact (f_equal (String.String c) IH)]).
  rewrite Em in Q. exact Q.
Qed.

(** The request for a document, of a market or of the first one. *)
Lemma snapshot_answered feeds s m :
  no_slash m -> String.index 0 "&" m = None ->
  let want := match m, feeds with EmptyString, f :: _ => ep_id (sf_ep f) | _, _ => m end in
  handle_request feeds ("/snapshot.json?market=" +:+ m) s = (200, BDoc (find_doc want feeds), s).
Proof.
  intros Hm Ha. unfold handle_request.
  change ("/snapshot.json?market=" +:+ m) with (String.String "/" ("snapshot.json?market=" +:+ m)).
  assert (no_slash ("snapshot.json?market=" +:+ m)) as Hn by by apply index_none_app.
  rewrite (contains_path "health" _ Hn), (contains_path "symbols.json" _ Hn),
    (contains_path "symbol" _ Hn), (contains_path "markets.json" _ Hn),
    (contains_path "compare.json" _ Hn), (contains_path "snapshot.json" _ Hn).
  change (String.prefix "health" ("snapshot.json?market=" +:+ m)) with false.
  change (String.prefix "symbols.json" ("snapshot.json?market=" +:+ m)) with false.
  change (String.prefix "symbol" ("snapshot.json?market=" +:+ m)) with false.
  change (String.prefix "markets.json" ("snapshot.json?market=" +:+ m)) with false.
  change (String.prefix "compare.json" ("snapshot.json?market=" +:+ m)) with false.
  change (String.prefix "snapshot.json" ("snapshot.json?market=" +:+ m)) with true.
  cbn [andb]. unfold snapshot_doc.
  change (String.String "/" ("snapshot.json?market=" +:+ m)) with ("/snapshot.json?market=" +:+ m).
  by rewrite (market_param m Ha).
Qed.

(** The request for the document of a market. *)
Lemma snapshot_routed feeds s f :
  NoDup ((fun f => ep_id (sf_ep f)) <$> feeds) -> f ∈ feeds ->
  let m := ep_id (sf_ep f) in
  no_slash m -> String.index 0 "&" m = None -> m <> "" ->
  handle_request feeds ("/snapshot.json?market=" +:+ m) s = (200, BDoc (snap_json f), s).
Proof.
  intros Hd Hf m Hm Ha He. rewrite (snapshot_answered feeds s m Hm Ha), <- (find_doc_of f feeds Hd Hf).
  fold m. by destruct m.
Qed.

(** A document answered is [{}] or that of a feed. *)
Lemma find_doc_cases want feeds :
  find_doc want feeds = "{}" \/
  exists f, f ∈ feeds /\ ep_id (sf_ep f) = want /\ find_doc want feeds = snap_json f.
Proof.
  induction feeds as [|f feeds IH]; [by left|]. cbn. case_decide as E.
  - right. exists f. split; [by left|done].
  - destruct IH as [IH|(g & Hg & IH)]; [by left|]. right. exists g. split; [by right|done].
Qed.

(** The request for a switch. *)
Lemma switch_answered feeds s v :
  no_slash v ->
  let uri := "/symbol?set=" +:+ v in
  let a := handle_request feeds uri s in
  a.1.1 = switch_status uri s /\ a.2 = switch_request uri s /\
  ((exists e, a.1.2 = BError e) \/ exists x, a.1.2 = BSwitched x).
Proof.
  intros Hv. unfold handle_request.
  change ("/symbol?set=" +:+ v) with (String.String "/" ("symbol?set=" +:+ v)).
  assert (no_slash ("symbol?set=" +:+ v)) as Hn by by apply index_none_app.
  rewrite (contains_path "health" _ Hn), (contains_path "symbols.json" _ Hn),
    (contains_path "symbol" _ Hn).
  change (String.prefix "health" ("symbol?set=" +:+ v)) with false.
  change (String.prefix "symbols.json" ("symbol?set=" +:+ v)) with false.
  change (String.prefix "symbol" ("symbol?set=" +:+ v)) with true.
  replace (contains (String.String "/" ("symbol?set=" +:+ v)) "set=") with true by by destruct v.
  cbn [andb fst snd]. split; [done|]. split; [done|]. repeat case_decide; eauto.
Qed.

End Server.

(** ** Lemmas: what is shown *)

(** The ladders of a feed's levels, best first. *)
Definition book_bids (f : LiveFeed) : list BookLevel :=
  a_bids (cfg_ (lf_book f)) (l2_queue <$> lf_abs f).
Definition book_asks (f : LiveFeed) : list BookLevel :=
  a_asks (cfg_ (lf_book f)) (l2_queue <$> lf_abs f).

(** The spread and the middle of the best levels. *)
Definition doc_spread (price_div : spec_float) (b a : BookLevel) : spec_float * spec_float :=
  ((f64 (bl_price_ticks a - bl_price_ticks b) / price_div)%f64,
   (f64 (bl_price_ticks a + bl_price_ticks b) / SFmul 53 1024 (f64 2) price_div)%f64).

(** What a document shows of a feed's book. *)
Record doc_shows (price_div size_div : spec_float) (f : LiveFeed) (d : DashDoc) : Prop := {
  ds_bids : d_bids d = doc_level price_div size_div <$> take 15 (book_bids f);
  ds_asks : d_asks d = doc_level price_div size_div <$> take 15 (book_asks f);
  ds_bid : d_bid d = doc_level price_div size_div <$> head (book_bids f);
  ds_ask : d_ask d = doc_level price_div size_div <$> head (book_asks f);
  ds_spread : is_Some (d_spread d) <-> book_bids f <> [] /\ book_asks f <> [];
  ds_mid : d_spread d = (b ← head (book_bids f); a ← head (book_asks f); Some (doc_spread price_div b a));
  ds_levels : d_levels d = live_orders_ (lf_book f);
  ds_mode : d_mode d = mode_name (lf_mode f);
  ds_counts : d_gaps d = gaps f /\ d_resync d = resyncs f }.

(** For a feed with a sound book the document exists and shows the book. *)
Lemma build_snapshot_shows ep price_div size_div sym ops_rate dropped trades f :
  l2_wf (lf_book f) ->
  exists d, build_snapshot ep price_div size_div sym ops_rate dropped trades f = Some d /\
    doc_shows price_div size_div f d /\
    d_market d = ep_id ep /\ d_marketLabel d = ep_label ep /\ d_symbol d = sym.
Proof.
  intros W. unfold build_snapshot.
  pose proof (best_bid_spec _ _ (l2_shows _ W) (l2_best _ W)) as Eb.
  pose proof (best_ask_spec _ _ (l2_shows _ W) (l2_best _ W)) as Ea.
  pose proof (depth_bids_spec _ _ (l2_shows _ W) (l2_best _ W) 15%nat) as Db.
  pose proof (depth_asks_spec _ _ (l2_shows _ W) (l2_best _ W) 15%nat) as Da.
  change (l2_abs (lf_book f)) with (lf_abs f) in *.
  fold (book_bids f) in Eb, Db. fold (book_asks f) in Ea, Da.
  opt_step Eb. opt_step Ea. opt_step Db. opt_step Da.
  assert (forall l, book_bids f = l \/ book_asks f = l -> valid (a_best l) = bool_decide (l <> [])) as V.
  { intros [|x l] Hl; [done|]. rewrite bool_decide_true by done. cbn.
    destruct Hl as [Hl|Hl].
    - assert (x ∈ book_bids f) as Hx by (rewrite Hl; by left).
      unfold book_bids, a_bids in Hx. rewrite elem_of_reverse in Hx. by eapply ladder_up_orders.
    - assert (x ∈ book_asks f) as Hx by (rewrite Hl; by left). by eapply ladder_up_orders. }
  rewrite (V (book_bids f)), (V (book_asks f)) by auto. clear V Eb Ea Db Da.
  eexists. split; [reflexivity|]. split; [|done].
  destruct (book_bids f) as [|x l] eqn:Eb, (book_asks f) as [|y l'] eqn:Ea; split;
    cbn; rewrite ?Eb, ?Ea; try done.
  all: split; [by intros [? ?]|by intros [? ?]].
Qed.

(** What a document copies. *)
Lemma build_snapshot_copies ep price_div size_div sym ops_rate dropped trades f d :
  build_snapshot ep price_div size_div sym ops_rate dropped trades f = Some d ->
  d_trades d = trades_json trades /\ d_drops d = dropped.
Proof.
  unfold build_snapshot. intros (b & _ & H)%bind_Some. apply bind_Some in H as (a & _ & H).
  apply bind_Some in H as (jb & _ & H). by apply bind_Some in H as (ja & _ & [= <-]).
Qed.

(** ** Theorems *)

(** The dashboard's requests reach their handlers.  The paths of its page are
    answered by the handler they name, though handlers are chosen by the substrings
    of the URI: the catalogue with the active symbol, the markets, the comparison,
    the document of the market asked for (an id without slash and ampersand), the
    page; none of them changes the state.  A switch request, whatever symbol
    without a slash it asks for, is the switch handler's. *)
Theorem requests_routed {J} parse (empty_object : J) feeds s f v :
  NoDup ((fun f => ep_id (sf_ep f)) <$> feeds) -> f ∈ feeds ->
  let m := ep_id (sf_ep f) in
  no_slash m -> String.index 0 "&" m = None -> m <> "" -> no_slash v ->
  let answer uri := handle_request parse empty_object feeds uri s in
  answer "/symbols.json" = (200, BSymbols kSymbolCatalog (sw_app s), s) /\
  answer "/markets.json" = (200, BMarkets ((fun f => (ep_id (sf_ep f), ep_label (sf_ep f))) <$> feeds), s) /\
  answer "/compare.json" =
    (200, BCompare ((fun f => (ep_id (sf_ep f), default empty_object (parse (snap_json f)))) <$> feeds), s) /\
  answer ("/snapshot.json?market=" +:+ m) = (200, BDoc (snap_json f), s) /\
  answer "/" = (200, BDashboard, s) /\
  let uri := "/symbol?set=" +:+ v in
  (answer uri).1.1 = switch_status uri s /\ (answer uri).2 = switch_request uri s.
Proof.
  intros Hd Hf m Hm Ha He Hv answer. unfold answer.
  destruct (switch_answered parse empty_object feeds s v Hv) as (S1 & S2 & _).
  do 3 (split; [reflexivity|]).
  split; [exact (snapshot_routed parse empty_object feeds s f Hd Hf Hm Ha He)|].
  split; [reflexivity|exact (conj S1 S2)].
Qed.

Lemma requests_routed_witness :
  handle_request (fun t => Some t) "" [mkServed endpoints_global "G"; mkServed endpoints_us "U"]
    ("/snapshot.json?market=" +:+ "us") (switching0 "BTCUSDT" 2) = (200, BDoc "U", switching0 "BTCUSDT" 2).
Proof.
  refine (proj1 (proj2 (proj2 (proj2 (requests_routed (fun t => Some t) ""
    [mkServed endpoints_global "G"; mkServed endpoints_us "U"] (switching0 "BTCUSDT" 2)
    (mkServed endpoints_us "U") "ETHUSDT" _ _ eq_refl eq_refl _ eq_refl))))).
  - apply (bool_decide_unpack _). vm_compute. exact I.
  - right. left.
  - discriminate.
Defined.

(** A sample taken between the supervisor's [ws_ops.store(0)] and the end of the
    session underflows. *)
Lemma ops_sample_underflow last_ops :
  0 < last_ops < 2 ^ 64 -> ops_sample 0 last_ops = f64 (2 ^ 64 - last_ops).
Proof.
  intros H. unfold ops_sample. f_equal. unfold u64, wrap.
  rewrite <- (Z_mod_plus_full (0 - last_ops) 1 (2 ^ 64)). rewrite Z.mod_small; lia.
Qed.
