(* ===== verification/LiveThreads.v ===== *)
(** * The threads of one live feed

    [apps/live_feed.cpp]: [main]'s shutdown, [supervise_feed], the consumer
    thread of [ensure_consumer] and the WebSocket callback of [start_websocket],
    interleaved.  Each thread is a program counter and an executable step
    function; [None] is a thread that waits.

    - [main_step]: the main loop, then the shutdown;
    - [sup_step]: start and stop of the WebSocket, the switch of the symbol, the
      drain of the channel;
    - [cons_step]: the sessions of the consumer: the first snapshot with its
      growing pauses, the book, the receive loop ([on_msg]), the documents ([publish]);
    - [cb_event], [cb_step]: a frame arrives, its messages are sent one by one.

    The channel is the queue of [SpscRing] ([spsc_fifo]); a stale load may show it
    full or empty when it is not ([stale]).  That holds for one consumer.  The
    supervisor's drain is a second one: each thread has a state inside [receive]
    ([SPop], [WPop]), and a step into both at once ([overlap]) is a data race on the
    ring, behind which nothing is promised.  [feed_step] is a step that does not race;
    what is proved of the runs holds up to the first race
    ([LiveProgramProps.drain_meets_consumer], [LiveSession.drain_races]).

    [ws.stop()] belongs to IXWebSocket: it is a parameter, of which the code relies on
    returning when no callback runs and, because it joins the thread of the callbacks,
    only then. *)

From Stdlib Require Import SpecFloat String.
From stdpp Require Import base list gmap numbers relations.
From S2P Require Import Prelude MarketEvent OrderPool OrderBook BookSpec OrderBookWf.
From S2P Require Import OrderBookBest BookLadder OrderBookProps BookL2 Instrumentation Publisher Sequencer.
From S2P Require Import Pipeline LiveFeed LiveFeedProps LiveInput LiveSession LiveServer SpscRing.

(** ** State *)

(** The main loop; [restart.store], [session.fetch_add] and [stop_websocket] of
    the shutdown; the joins. *)
Inductive main_pc := MRun | MReset | MBump | MStop | MJoinSup | MJoinCons | MEnd.

Inductive sup_pc :=
  | SLoop | SStart | SWait | SStop | SCheck
  | SSymbol | SRestart | SOps | SSession | STrades | SDrain | SPop | SPause | SDone.

#[export] Instance main_pc_eq_dec : EqDecision main_pc.
Proof. solve_decision. Defined.
#[export] Instance sup_pc_eq_dec : EqDecision sup_pc.
Proof. solve_decision. Defined.

(** What the consumer keeps of time beside the book: the readings of the steady
    clock (in nanoseconds) of the last line printed and the last document
    published, and the rate of operations. *)
Record Ticker := mkTicker {
  last_print : Z;
  last_snap : Z;
  last_ops : Z;
  ops_rate : spec_float }.

#[export] Instance Ticker_settable : Settable Ticker := fun t =>
  mkTicker (last_print t) (last_snap t) (last_ops t) (ops_rate t).

Definition ticker0 (now : Z) : Ticker := mkTicker now now 0 (S754_zero false).

(** The session's number, the pause behind a failed first snapshot, the first
    snapshot, the book; [WRecv] is the head of the receive loop, [WPop] inside
    [receive], [WHand] behind it with the message received; [WTick] is the end of a
    turn of the session's loop. *)
Inductive worker_pc :=
  | WLoop
  | WAnnounce (sid : Z)
  | WSettle (sid : Z)
  | WSeek (sid backoff_ms : Z)
  | WBackoff (sid backoff_ms : Z)
  | WFetched (sid : Z) (s0 : Snapshot)
  | WRun (sid : Z) (f : LiveFeed) (t : Ticker)
  | WRecv (sid : Z) (f : LiveFeed) (t : Ticker)
  | WPop (sid : Z) (f : LiveFeed) (t : Ticker)
  | WHand (sid : Z) (f : LiveFeed) (t : Ticker) (m : PipelineMsg)
  | WTick (sid : Z) (f : LiveFeed) (t : Ticker)
  | WDone.

(** [lv_feed] are the members of [FeedContext], its channel included;
    [lv_callback] the messages a running callback has still to send; [lv_snap] is
    [snap_json]. *)
Record Live := mkLiveState {
  g_stop : bool;
  g_saturated : Z;
  lv_feed : Feed;
  lv_dropped : Z;
  lv_snap : Published;
  ws_session : Z;
  ws_running : bool;
  lv_callback : option (list PipelineMsg);
  lv_main : main_pc;
  lv_sup : sup_pc;
  lv_worker : worker_pc }.

#[export] Instance Live_settable : Settable Live := fun s =>
  mkLiveState (g_stop s) (g_saturated s) (lv_feed s) (lv_dropped s) (lv_snap s) (ws_session s) (ws_running s)
    (lv_callback s) (lv_main s) (lv_sup s) (lv_worker s).

(** The supervisor's drain and the consumer are inside [receive] at once: two
    consumers of a ring made for one.  (Two calls of different threads that nothing
    orders count as at once.) *)
Definition overlap (s : Live) : bool :=
  match lv_sup s, lv_worker s with SPop, WPop _ _ _ => true | _, _ => false end.

Definition live_new (sym : string) : Live :=
  mkLiveState false 0 (feed0 sym) 0 PNothing 0 false None MRun SLoop WLoop.

Notation chan s := (fd_channel (lv_feed s)).

(** ** The threads *)

(** What a frame of the stream is, decoded: a trade, a depth update with its
    rows, or anything else the callback ignores. *)
Inductive frame :=
  | WsTrade (t : TradeRow)
  | WsDepth (U u recv : Z) (b a : list row)
  | WsOther.

(** What the consumer meets: the answer to the request it may make, a clock
    reading, and what a load of the channel's index shows. *)
Record meets := mkMeets { me_resp : Response; me_now : Z; me_stale : bool }.

(** The pause behind a failed first snapshot; 418 is the exchange's rate limit. *)
Definition next_backoff (http_status backoff_ms : Z) : Z :=
  if decide (http_status = 418) then Z.min (backoff_ms * 2) 30000 else 800.

(** The contract of [ws.stop()]: in which states of the callback it returns. *)
Class WebSocketStop (stop_returns : option (list PipelineMsg) -> bool) := {
  stop_idle : stop_returns None = true;
  stop_joins ms : stop_returns (Some ms) = false }.

(** The answers the exchange may give to a snapshot request keep the band of a
    first book inside 64 bits. *)
Definition band_fits (pct : spec_float) (served : string -> Response -> Prop) : Prop :=
  forall sym resp g bc, served sym resp ->
  feed_band pct (fetch_snapshot resp g).1 = Some bc -> max_price_ticks bc < 2 ^ 63.

(** How [main] sets up a feed from its options. *)
Definition backpressure (cfg : Config) : Backpressure := if cf_drop cfg then Drop else Block.
Definition publish_snapshots (cfg : Config) : bool := bool_decide (serve_port cfg > 0).

Section Threads.
Context (ep : FeedEndpoints) (cfg : Config) (Capacity : nat).
#[local] Notation policy := (backpressure cfg).
(** Whether [ws.stop()] returns while the callback is in this state. *)
Context (stop_returns : option (list PipelineMsg) -> bool).

Definition stop_websocket (s : Live) : option Live :=
  if stop_returns (lv_callback s) then Some (s <| ws_running := false |>) else None.

(** [over]: the duration has elapsed. *)
Definition main_step (over : bool) (s : Live) : option Live :=
  match lv_main s with
  | MRun => if over || g_stop s then Some (s <| g_stop := true |> <| lv_main := MReset |>) else None
  | MReset => Some (s <| lv_feed ::= fun f => f <| fd_restart := false |> |> <| lv_main := MBump |>)
  | MBump =>
      Some (s <| lv_feed ::= fun f => f <| fd_session ::= next_session |> |> <| lv_main := MStop |>)
  | MStop => s ← stop_websocket s; Some (s <| lv_main := MJoinSup |>)
  | MJoinSup => match lv_sup s with SDone => Some (s <| lv_main := MJoinCons |>) | _ => None end
  | MJoinCons => match lv_worker s with WDone => Some (s <| lv_main := MEnd |>) | _ => None end
  | MEnd => None
  end.

(** [channel.receive], while no other thread is inside it. *)
Definition receive (stale : bool) (f : Feed) : option (PipelineMsg * Feed) :=
  match fd_channel f with
  | m :: ms => if stale then None else Some (m, f <| fd_channel := ms |>)
  | [] => None
  end.

Definition sup_step (stale : bool) (s : Live) : option Live :=
  let goto pc s := Some (s <| lv_sup := pc |>) in
  match lv_sup s with
  | SLoop => goto (if g_stop s then SDone else SStart) s
  | SStart =>
      s ← stop_websocket s;
      goto SWait (s <| ws_session := fd_session (lv_feed s) |> <| ws_running := true |>)
  | SWait => if g_stop s || fd_restart (lv_feed s) then goto SStop s else None
  | SStop => s ← stop_websocket s; goto SCheck s
  | SCheck => goto (if g_stop s || negb (fd_restart (lv_feed s)) then SDone else SSymbol) s
  | SSymbol => goto SRestart (s <| lv_feed ::= fun f => f <| fd_symbol := fd_pending f |> |>)
  | SRestart => goto SOps (s <| lv_feed ::= fun f => f <| fd_restart := false |> |>)
  | SOps => goto SSession (s <| lv_feed ::= fun f => f <| fd_ws_ops := 0 |> |>)
  | SSession => goto STrades (s <| lv_feed ::= fun f => f <| fd_session ::= next_session |> |>)
  | STrades => goto SDrain (s <| lv_feed ::= fun f => f <| fd_trades := [] |> |>)
  | SDrain => goto SPop s
  | SPop =>
      match receive stale (lv_feed s) with
      | Some (_, f) => goto SDrain (s <| lv_feed := f |>)
      | None => goto SPause s
      end
  | SPause => goto SLoop s
  | SDone => None
  end.

Definition live (sid : Z) (s : Live) : bool :=
  negb (g_stop s) && bool_decide (fd_session (lv_feed s) = sid).

(** The first snapshot of a session, when it has come: the band and the book, or
    the next session when the band is too wide. *)
Definition first_book (sid now : Z) (s0 : Snapshot) : option worker_pc :=
  match feed_band (band_pct cfg) s0 with
  | None => Some WLoop
  | Some bc => f ← start_live bc s0; Some (WRun sid f (ticker0 now))
  end.

(** The document of the book, 200 milliseconds after the last one. *)
Definition publish (now : Z) (f : LiveFeed) (t : Ticker) (s : Live) : option (Ticker * Published) :=
  if publish_snapshots cfg && bool_decide (now - last_snap t >= 200 * 10 ^ 6) then
    let fd := lv_feed s in
    d ← build_snapshot ep (f64 (price_scale cfg)) (f64 (size_scale cfg)) (fd_symbol fd) (ops_rate t)
          (lv_dropped s) (fd_trades fd) f;
    Some (t <| last_snap := now |>, PDoc d)
  else Some (t, lv_snap s).

(** The rate of operations, one second after the last line. *)
Definition sample (now ws_ops : Z) (t : Ticker) : Ticker :=
  if decide (now - last_print t >= 10 ^ 9)
  then t <| ops_rate := ops_sample ws_ops (last_ops t) |> <| last_ops := ws_ops |> <| last_print := now |>
  else t.

Definition cons_step (e : meets) (s : Live) : option Live :=
  let goto pc s := Some (s <| lv_worker := pc |>) in
  match lv_worker s with
  | WLoop => goto (if g_stop s then WDone else WAnnounce (fd_session (lv_feed s))) s
  | WAnnounce sid =>
      goto (WSettle sid)
        (if publish_snapshots cfg then s <| lv_snap := seeking_doc ep (fd_symbol (lv_feed s)) |> else s)
  | WSettle sid => goto (if live sid s then WSeek sid 800 else WLoop) s
  | WSeek sid backoff_ms =>
      if live sid s then
        let '(s0, sat) := fetch_snapshot (me_resp e) (g_saturated s) in
        let s := s <| g_saturated := sat |> in
        if ok s0 && bool_decide (sn_best_bid s0 >= 0) && bool_decide (sn_best_ask s0 >= 0)
        then goto (WFetched sid s0) s
        else goto (WBackoff sid (next_backoff (http_status s0) backoff_ms)) s
      else goto WLoop s
  | WFetched sid s0 =>
      if live sid s then pc ← first_book sid (me_now e) s0; goto pc s else goto WLoop s
  | WBackoff sid backoff_ms => goto (WSeek sid backoff_ms) s
  | WRun sid f t => goto (if live sid s then WRecv sid f t else WLoop) s
  | WRecv sid f t => goto (WPop sid f t) s
  | WPop sid f t =>
      match receive (me_stale e) (lv_feed s) with
      | None => goto (WTick sid f t) s
      | Some (m, fd) => goto (WHand sid f t m) (s <| lv_feed := fd |>)
      end
  | WHand sid f t m =>
      let '(s2, sat) := fetch_snapshot (me_resp e) (g_saturated s) in
      f' ← on_msg m s2 (me_now e) f;
      (* a message that does not recover makes no request *)
      let sat := if decide (resyncs f' = resyncs f) then g_saturated s else sat in
      goto (WRecv sid f' t) (s <| g_saturated := sat |>)
  | WTick sid f t =>
      '(t, doc) ← publish (me_now e) f t s;
      goto (WRun sid f (sample (me_now e) (fd_ws_ops (lv_feed s)) t)) (s <| lv_snap := doc |>)
  | WDone => None
  end.

(** A frame arrives at a running WebSocket. *)
Definition cb_event (fr : frame) (s : Live) : option Live :=
  if negb (ws_running s) then None else
  match lv_callback s with
  | Some _ => None
  | None =>
      if decide (fd_session (lv_feed s) <> ws_session s) then Some s else
      match fr with
      | WsTrade t => Some (s <| lv_feed ::= fun f => f <| fd_trades ::= push_trade t |> |>)
      | WsDepth U u recv b a =>
          let '(ms, sat) := depth_update U u recv b a (g_saturated s) in
          Some (s <| g_saturated := sat |> <| lv_callback := Some ms |>)
      | WsOther => Some s
      end
  end.

(** [f.ws_ops.fetch_add(1)] of [push_op]. *)
Definition ops_sent (m : PipelineMsg) (n : Z) : Z :=
  if decide (ev_type (event m) = L2SetLevel) then inc n else n.

(** [channel.send] of the next message, and the end of the callback. *)
Definition cb_step (stale : bool) (s : Live) : option Live :=
  match lv_callback s with
  | None => None
  | Some [] => Some (s <| lv_callback := None |>)
  | Some (m :: ms) =>
      (* [ws_ops] counts the levels, not the header of an update without any *)
      let sent s := Some (s <| lv_feed ::= fun f => f <| fd_ws_ops ::= ops_sent m |> |>
                            <| lv_callback := Some ms |>) in
      if negb stale && bool_decide (length (chan s) < Capacity)%nat
      then sent (s <| lv_feed ::= fun f => f <| fd_channel ::= fun l => l ++ [m] |> |>)
      else match backpressure cfg with
           | Block => None
           | Drop => sent (s <| lv_dropped ::= inc |>)
           end
  end.

(** ** Interleavings *)

(** The answers the exchange may give to a snapshot request for a symbol. *)
Context (served : string -> Response -> Prop).

(** A step of the feed's own threads.  A run in which the drain and the consumer
    come to be inside [receive] at once has a data race, and is a run of the model
    up to there. *)
Inductive feed_step : Live -> Live -> Prop :=
  | fs_sup s stale s' : sup_step stale s = Some s' -> overlap s' = false -> feed_step s s'
  | fs_cons s e s' :
      served (fd_symbol (lv_feed s)) (me_resp e) -> cons_step e s = Some s' -> overlap s' = false ->
      feed_step s s'
  | fs_event s fr s' : cb_event fr s = Some s' -> feed_step s s'
  | fs_cb s stale s' : cb_step stale s = Some s' -> feed_step s s'.

(** And what comes from outside: a signal, [main], a switch request. *)
Inductive live_step : Live -> Live -> Prop :=
  | ls_signal s : live_step s (s <| g_stop := true |>)
  | ls_main s over s' : main_step over s = Some s' -> live_step s s'
  | ls_feed s s' : feed_step s s' -> live_step s s'
  | ls_tell s want :
      catalog_has want = true -> live_step s (s <| lv_feed ::= tell_feed want |>).

(** ** The invariant *)

(** A book the consumer can go on with, of some band. *)
Record book_ready (f : LiveFeed) : Prop := {
  br_wf : l2_wf (lf_book f);
  br_pool : chunks_ (pool_ (lf_book f)) = 0;
  br_hist : hist_shape (lf_hist f) }.

(** The messages the callback makes: of a level, or a header. *)
Definition msg_ok (m : PipelineMsg) : Prop := Forall l2_op_ok (msg_ops m).

Definition worker_ok (w : worker_pc) : Prop :=
  match w with
  | WSeek _ b | WBackoff _ b => 800 <= b <= 30000
  | WFetched _ s0 => exists sym resp g, served sym resp /\ s0 = (fetch_snapshot resp g).1
  | WRun _ f _ | WRecv _ f _ | WPop _ f _ | WTick _ f _ => book_ready f
  | WHand _ f _ m => book_ready f /\ msg_ok m
  | _ => True
  end.

(** The symbol the feed began with. *)
Context (sym : string).

Definition known (x : string) : Prop := x = sym \/ catalog_has x = true.

(** What the dashboard is served: of this market, of a known symbol, and a
    document shows a well-formed book. *)
Definition snap_ok (d : Published) : Prop :=
  match d with
  | PNothing => True
  | PSeeking m l x mode =>
      m = ep_id ep /\ l = ep_label ep /\ known x /\ mode = "seeking"%string
  | PDoc d => d_market d = ep_id ep /\ d_marketLabel d = ep_label ep /\ known (d_symbol d) /\
      exists f, l2_wf (lf_book f) /\ doc_shows (f64 (price_scale cfg)) (f64 (size_scale cfg)) f d
  end.

(** The WebSocket runs, or a callback is still busy, only between the
    supervisor's start and the return of its stop. *)
Definition ws_window (s : Live) : Prop :=
  match lv_sup s with
  | SWait | SStop => True
  | _ => ws_running s = false /\ lv_callback s = None
  end.

Definition main_ok (s : Live) : Prop :=
  match lv_main s with
  | MRun => True
  | MJoinCons => g_stop s = true /\ lv_sup s = SDone
  | MEnd => g_stop s = true /\ lv_sup s = SDone /\ lv_worker s = WDone
  | _ => g_stop s = true
  end.

Record live_inv (s : Live) : Prop := {
  li_room : (length (chan s) <= Capacity)%nat;
  li_chan : Forall msg_ok (chan s);
  li_callback : forall ms, lv_callback s = Some ms -> Forall msg_ok ms;
  li_worker : worker_ok (lv_worker s);
  li_window : ws_window s;
  li_apart : overlap s = false;
  li_symbol : known (fd_symbol (lv_feed s)) /\ known (fd_pending (lv_feed s));
  li_snap : snap_ok (lv_snap s) /\ (publish_snapshots cfg = false -> lv_snap s = PNothing);
  li_main : main_ok s }.

(** *** The consumer *)

Lemma fetch_levels resp g : Forall l2_op_ok (sn_levels (fetch_snapshot resp g).1).
Proof.
  unfold fetch_snapshot. destruct resp as [[st [d|]]|]; [|done|done].
  destruct (decide (st <> 200)) as [|Hst]; [done|]. destruct (doc_id d) as [id|] eqn:Ei; [|done].
  pose proof (fetch_ok d id g Ei) as (_ & _ & El & _). unfold fetch_snapshot in El.
  rewrite decide_False, Ei in El by lia. destruct (decide (st = 200)) as [->|]; [|lia].
  rewrite El. apply Forall_app. split; by apply kept_ok.
Qed.

Lemma observe_ready f : book_ready f -> book_ready (f <| lf_book ::= observe_event_boundary |>).
Proof.
  intros []. destruct (observe_ok _ br_wf0) as (W & _). split; [exact W| |done].
  change (chunks_ (pool_ (observe_event_boundary (lf_book f))) = 0). by rewrite observe_pool.
Qed.

Lemma re_snapshot_ready s2 f :
  book_ready f -> Forall l2_op_ok (sn_levels s2) ->
  exists f', re_snapshot s2 f = Some f' /\ book_ready f'.
Proof.
  intros [W P Hh] Ho. unfold re_snapshot. destruct (ok s2); [|by eexists].
  cbn [lf_book rset]. destruct (reset_l2 _ W P) as (b1 & E1 & W1 & _ & P1 & _).
  opt_step E1. destruct (load_levels_ok s2 b1 W1 Ho P1) as (b2 & E2 & W2 & _ & P2 & _).
  opt_step E2. eexists. split; [done|]. by split.
Qed.

Lemma new_update_ready U u s2 f :
  book_ready f -> Forall l2_op_ok (sn_levels s2) ->
  exists r f', new_update U u s2 f = Some (r, f') /\ book_ready f'.
Proof.
  intros H Ho. unfold new_update.
  set (f0 := if have_event f && cur_apply f then f <| lf_book ::= observe_event_boundary |> else f).
  assert (book_ready f0) as H0 by (unfold f0; case_match; [by apply observe_ready|done]).
  clearbody f0. clear f H.
  set (f1 := f0 <| have_event := true |> <| cur_U := U |> <| cur_apply := false |>).
  assert (book_ready f1) as H1 by by destruct H0.
  clearbody f1. clear f0 H0. destruct (lf_mode f1).
  - case_decide; [by eauto|]. case_decide; [eexists _, _; split; [done|]; by destruct H1|].
    destruct (re_snapshot_ready s2 f1 H1 Ho) as (f2 & E & H2). opt_step E. eauto.
  - case_decide; [by eauto|]. case_decide; [eexists _, _; split; [done|]; by destruct H1|].
    destruct (re_snapshot_ready s2 (f1 <| gaps ::= inc |>)) as (f2 & E & H2);
      [by destruct H1|done|]. opt_step E. eauto.
Qed.

Lemma apply_ready m t f : book_ready f -> msg_ok m -> exists f', apply_msg m t f = Some f' /\ book_ready f'.
Proof.
  intros H Hm. unfold apply_msg, msg_ok, msg_ops in *.
  destruct (decide (cur_apply f = true /\ ev_type (event m) = L2SetLevel)) as [[_ Et]|]; [|by eauto].
  rewrite decide_True in Hm by done. apply list.Forall_cons in Hm as [[Hsd Hsz] _]. cbn in Hsd, Hsz.
  destruct H as [W P Hh].
  destruct (set_level_step (lf_book f) _ (ev_price_ticks (event m)) _ W Hsd Hsz)
    as (b' & E & W' & _).
  opt_step E. destruct (record_total _ (u64 (t - recv_ns m)) Hh) as (h' & Er & Hh').
  opt_step Er. eexists. split; [done|]. split; [done| |done].
  cbn [lf_book rset]. by rewrite (set_level_pool _ _ _ _ _ E).
Qed.

Lemma on_msg_ready m s2 t f :
  book_ready f -> msg_ok m -> Forall l2_op_ok (sn_levels s2) ->
  exists f', on_msg m s2 t f = Some f' /\ book_ready f'.
Proof.
  intros H Hm Ho. unfold on_msg. case_decide.
  - destruct (new_update_ready (ev_order_ref (event m)) (ev_match_number (event m)) s2 f H Ho)
      as ([] & f1 & E & H1); opt_step E; [by eauto|]. by apply apply_ready.
  - cbn [mbind option_bind]. by apply apply_ready.
Qed.

(** What the code relies on: the exchange's prices keep the band inside 64 bits,
    and the library's contract. *)
Hypothesis served_band : band_fits (band_pct cfg) served.
Context {Stop : WebSocketStop stop_returns}.

Lemma first_book_ok sid now x resp g :
  served x resp ->
  exists w, first_book sid now (fetch_snapshot resp g).1 = Some w /\ worker_ok w.
Proof.
  intros Hs. unfold first_book. destruct (feed_band _ _) as [bc|] eqn:Eb; [|by eexists].
  destruct (start_live_ok bc (fetch_snapshot resp g).1) as (f & E & [W C P (m & vs & Hh & _)] & _).
  - eapply feed_band_ok; [done|]. by eapply served_band.
  - apply fetch_levels.
  - opt_step E. eexists. split; [done|]. split; [exact W|exact P|].
    exists m. exact (conj (ho_geom _ _ _ Hh) (ho_len _ _ _ Hh)).
Qed.

(** Publishing never fails, and publishes a sound document or nothing new. *)
Lemma publish_ok now f t s :
  live_inv s -> book_ready f ->
  exists t' d, publish now f t s = Some (t', d) /\ snap_ok d /\
    (publish_snapshots cfg = false -> d = PNothing).
Proof.
  intros I [W _ _]. pose proof (li_snap s I) as [Hs Hn]. unfold publish.
  destruct (publish_snapshots cfg) eqn:Ep; [|by eexists _, _]. cbn [andb].
  destruct (bool_decide _); [|by eexists _, _].
  destruct (build_snapshot_shows ep (f64 (price_scale cfg)) (f64 (size_scale cfg))
    (fd_symbol (lv_feed s)) (ops_rate t) (lv_dropped s) (fd_trades (lv_feed s)) f W)
    as (d & E & Hd & Em & El & Es).
  opt_step E. eexists _, _. split; [done|]. split; [|done]. split_and!; [done|done| |by exists f].
  rewrite Es. apply I.
Qed.

Lemma receive_spec stale f :
  match receive stale f with
  | None => stale = true \/ fd_channel f = []
  | Some (m, f') => exists ms, fd_channel f = m :: ms /\ f' = f <| fd_channel := ms |>
  end.
Proof. unfold receive. destruct (fd_channel f) as [|m ms]; [by right|]. destruct stale; eauto. Qed.

(** The consumer never fails: only its end is without a step. *)
Lemma cons_step_total e s :
  live_inv s -> served (fd_symbol (lv_feed s)) (me_resp e) -> lv_worker s <> WDone ->
  exists s', cons_step e s = Some s' /\ worker_ok (lv_worker s') /\
    (snap_ok (lv_snap s') /\ (publish_snapshots cfg = false -> lv_snap s' = PNothing)).
Proof.
  intros I Hs Hw. pose proof (li_worker s I) as Ow. pose proof (li_snap s I) as On. unfold cons_step.
  destruct (lv_worker s) as [|sid|sid|sid b|sid b|sid s0|sid f t|sid f t|sid f t|sid f t m|sid f t|]; cbn in Ow; [..|done].
  - eexists. split; [done|]. split; [by cbn; destruct (g_stop s)|exact On].
  - eexists. split; [done|]. split; [done|]. destruct (publish_snapshots cfg); [|exact On].
    split; [|done]. cbn. split_and!; try done. apply I.
  - eexists. split; [done|]. split; [by cbn; destruct (live sid s)|exact On].
  - destruct (live sid s); [|by eexists].
    destruct (fetch_snapshot (me_resp e) (g_saturated s)) as [s0 sat] eqn:Ef.
    destruct (ok s0 && _ && _); (eexists; split; [done|]; split; [|exact On]).
    + exists (fd_symbol (lv_feed s)), (me_resp e), (g_saturated s). by rewrite Ef.
    + cbn. unfold next_backoff. case_decide; lia.
  - eexists. split; [done|]. split; [exact Ow|exact On].
  - destruct (live sid s); [|by eexists]. destruct Ow as (x & resp & g & Hr & ->).
    destruct (first_book_ok sid (me_now e) x resp g Hr) as (w & E & Hw'). opt_step E. eexists. by split.
  - eexists. split; [done|]. split; [by cbn; destruct (live sid s)|exact On].
  - eexists. split; [done|]. split; [exact Ow|exact On].
  - pose proof (receive_spec (me_stale e) (lv_feed s)) as Hr.
    destruct (receive (me_stale e) (lv_feed s)) as [[m fd]|]; [|by eexists].
    destruct Hr as (ms & Ec & ->). pose proof (li_chan s I) as Hc. rewrite Ec in Hc.
    apply list.Forall_cons in Hc as [Hm _]. eexists. split; [done|]. split; [exact (conj Ow Hm)|exact On].
  - destruct Ow as [Ow Hm]. destruct (fetch_snapshot (me_resp e) (g_saturated s)) as [s2 sat] eqn:Ef.
    pose proof (fetch_levels (me_resp e) (g_saturated s)) as Ho. rewrite Ef in Ho. cbn [fst] in Ho.
    destruct (on_msg_ready m s2 (me_now e) f Ow Hm Ho) as (f' & E & Of). opt_step E.
    eexists. split; [done|]. split; [exact Of|exact On].
  - destruct (publish_ok (me_now e) f t s I Ow) as (t' & d & E & On'). opt_step E.
    eexists. split; [done|]. split; [exact Ow|exact On'].
Qed.

(** *** Every step keeps the invariant *)

(** A step of the consumer touches the saturation counter, the worker, the
    published document, and the channel, of which it takes the head. *)
Lemma cons_step_frame e s s' :
  cons_step e s = Some s' ->
  g_stop s' = g_stop s /\ lv_main s' = lv_main s /\ lv_sup s' = lv_sup s /\
  lv_callback s' = lv_callback s /\ ws_running s' = ws_running s /\
  lv_feed s' = lv_feed s <| fd_channel := chan s' |> /\ chan s' `suffix_of` chan s.
Proof.
  assert (lv_feed s = lv_feed s <| fd_channel := chan s |>) as Hf by by destruct (lv_feed s).
  unfold cons_step. destruct (lv_worker s) as [|sid|sid|sid b|sid b|sid s0|sid f t|sid f t|sid f t|sid f t m|sid f t|].
  1, 3, 5, 7, 8: intros [= <-]; done.
  - intros [= <-]. by destruct (publish_snapshots cfg).
  - destruct (live sid s); [|by intros [= <-]]. destruct (fetch_snapshot _ _) as [s0 sat].
    destruct (ok s0 && _ && _); by intros [= <-].
  - destruct (live sid s); [|by intros [= <-]]. by intros (pc & _ & [= <-])%bind_Some.
  - pose proof (receive_spec (me_stale e) (lv_feed s)) as Hr.
    destruct (receive (me_stale e) (lv_feed s)) as [[m fd]|]; [|by intros [= <-]].
    destruct Hr as (ms & Ec & ->). intros [= <-]. repeat (split; [done|]). cbn. rewrite Ec. by exists [m].
  - destruct (fetch_snapshot _ _) as [s2 sat]. by intros (f' & _ & [= <-])%bind_Some.
  - by intros ([t' d] & _ & [= <-])%bind_Some.
  - done.
Qed.

Lemma inv_cons e s s' :
  live_inv s -> served (fd_symbol (lv_feed s)) (me_resp e) -> cons_step e s = Some s' ->
  overlap s' = false -> live_inv s'.
Proof.
  intros I Hs E Hap. pose proof (cons_step_frame e s s' E) as (F1 & F2 & F3 & F4 & F5 & F6 & F7).
  assert (lv_worker s <> WDone) as Hw by (intros Hw; unfold cons_step in E; by rewrite Hw in E).
  destruct (cons_step_total e s I Hs Hw) as (s1 & E1 & Ow & On). rewrite E in E1. injection E1 as <-.
  destruct I. split.
  - apply suffix_length in F7. lia.
  - destruct F7 as [l F7]. rewrite F7 in li_chan0. by apply Forall_app in li_chan0 as [_ ?].
  - by rewrite F4.
  - exact Ow.
  - unfold ws_window in *. by rewrite F3, F4, F5.
  - exact Hap.
  - by rewrite F6.
  - exact On.
  - unfold main_ok in *. rewrite F1, F2, F3. destruct (lv_main s); try done.
    by destruct li_main0 as (_ & _ & ?).
Qed.

Lemma stop_spec s s' :
  stop_websocket s = Some s' -> lv_callback s = None /\ s' = s <| ws_running := false |>.
Proof.
  unfold stop_websocket. destruct (lv_callback s) as [ms|]; [by rewrite stop_joins|].
  rewrite stop_idle. by intros [= <-].
Qed.

Lemma inv_main over s s' : live_inv s -> main_step over s = Some s' -> live_inv s'.
Proof.
  intros [R C B O W A Y N M] E. unfold main_step in E. unfold main_ok in M.
  destruct (lv_main s) eqn:Em.
  - destruct (over || g_stop s); [|done]. injection E as <-. by split.
  - injection E as <-. by split.
  - injection E as <-. by split.
  - apply bind_Some in E as (s1 & (Ec & ->)%stop_spec & [= <-]). split; try done.
    unfold ws_window in *. cbn. destruct (lv_sup s); try done; by destruct W.
  - destruct (lv_sup s) eqn:Es; try done. injection E as <-. split; try done.
  - destruct (lv_worker s) eqn:Ew; try done. injection E as <-. split; try done.
    + cbn. by rewrite Ew.
    + unfold main_ok. cbn. rewrite Ew. by destruct M.
  - done.
Qed.

(** The supervisor ends only behind a stop of the feed. *)
Lemma inv_sup stale s s' :
  live_inv s -> sup_step stale s = Some s' -> overlap s' = false -> live_inv s'.
Proof.
  intros [R C B O W A Y N M] E Hap. unfold sup_step in E.
  assert (lv_sup s <> SDone -> forall s1, g_stop s1 = g_stop s -> lv_main s1 = lv_main s -> main_ok s1)
    as HM.
  { intros Hs s1 E1 E2. unfold main_ok in *. rewrite E1, E2.
    destruct (lv_main s); naive_solver. }
  destruct (lv_sup s) eqn:Es; unfold ws_window in W; rewrite Es in W.
  - injection E as <-. split; try done; [|by apply HM]. unfold ws_window. cbn. by destruct (g_stop s).
  - apply bind_Some in E as (s1 & (Ec & ->)%stop_spec & [= <-]). split; try done. by apply HM.
  - destruct (_ || _); [|done]. injection E as <-. split; try done. by apply HM.
  - apply bind_Some in E as (s1 & (Ec & ->)%stop_spec & [= <-]). split; try done. by apply HM.
  - injection E as <-. split; try done; [|by apply HM]. unfold ws_window. cbn. by destruct (_ || _).
  - injection E as <-. split; try done; [by destruct Y|by apply HM].
  - injection E as <-. split; try done. by apply HM.
  - injection E as <-. split; try done. by apply HM.
  - injection E as <-. split; try done. by apply HM.
  - injection E as <-. split; try done. by apply HM.
  - injection E as <-. split; try done. by apply HM.
  - pose proof (receive_spec stale (lv_feed s)) as Hr. destruct (receive _ _) as [[m fd]|].
    + destruct Hr as (ms & Ec & ->). injection E as <-. rewrite Ec in R, C.
      apply list.Forall_cons in C as [_ C]. cbn in R.
      split; try done; [cbn; lia|by apply HM].
    + injection E as <-. split; try done. by apply HM.
  - injection E as <-. split; try done. by apply HM.
  - done.
Qed.

Lemma depth_update_msgs U u recv b a g : Forall msg_ok (depth_update U u recv b a g).1.
Proof.
  rewrite depth_update_messages. case_decide; [by repeat constructor|].
  apply Forall_fmap, list.Forall_forall. intros o Ho. unfold msg_ok. cbn. rewrite set_msg_ops.
  constructor; [|constructor]. by eapply list.Forall_forall; [apply update_ops_ok|].
Qed.

Lemma inv_event fr s s' : live_inv s -> cb_event fr s = Some s' -> live_inv s'.
Proof.
  intros I E. unfold cb_event in E. destruct (ws_running s) eqn:Er; [|done].
  destruct (lv_callback s) eqn:Ec; [done|]. cbn [negb] in E. case_decide; [by injection E as <-|].
  destruct fr as [t|U u recv b a|].
  - injection E as <-. by destruct I.
  - pose proof (depth_update_msgs U u recv b a (g_saturated s)) as Hm.
    destruct (depth_update U u recv b a (g_saturated s)) as [ms sat]. cbn [fst] in Hm.
    injection E as <-. destruct I as [R C B O W A Y N M]. split; try done; [by intros ? [= <-]|].
    unfold ws_window in *. cbn. destruct (lv_sup s); try done; by destruct W; congruence.
  - by injection E as <-.
Qed.

Lemma inv_cb stale s s' : live_inv s -> cb_step stale s = Some s' -> live_inv s'.
Proof.
  intros [R C B O W A Y N M] E. unfold cb_step in E.
  destruct (lv_callback s) as [[|m ms]|] eqn:Ec; [| |done].
  - injection E as <-. split; try done. unfold ws_window in *. cbn. destruct (lv_sup s); by try destruct W.
  - specialize (B _ eq_refl). apply list.Forall_cons in B as [Bm B].
    assert (forall s1, lv_sup s1 = lv_sup s -> ws_window s1) as HW.
    { intros s1 E1. unfold ws_window in *. rewrite E1.
      destruct (lv_sup s); try done; destruct W; congruence. }
    destruct (negb stale && _) eqn:Ep.
    + apply andb_prop in Ep as [_ Ep%bool_decide_eq_true]. injection E as <-. split; try done.
      * cbn. rewrite length_app. cbn. lia.
      * cbn. by apply Forall_app_2; repeat constructor.
      * by intros ? [= <-].
      * by apply HW.
    + destruct policy; [done|]. injection E as <-. split; try done; [by intros ? [= <-]|by apply HW].
Qed.

(** The threads of the feed touch neither [g_stop] nor where [main] is. *)
Lemma feed_step_frame s s' : feed_step s s' -> g_stop s' = g_stop s /\ lv_main s' = lv_main s.
Proof.
  intros H. destruct H as [s stale s' E _|s e s' _ E _|s fr s' E|s stale s' E].
  - unfold sup_step in E. destruct (lv_sup s); try by injection E as <-.
    1, 3: by apply bind_Some in E as (s1 & (_ & ->)%stop_spec & [= <-]).
    + destruct (_ || _); [|done]. by injection E as <-.
    + destruct (receive _ _) as [[m fd]|]; by injection E as <-.
    + done.
  - by apply cons_step_frame in E as (? & ? & _).
  - unfold cb_event in E. destruct (negb _); [done|]. destruct (lv_callback s); [done|].
    case_decide; [by injection E as <-|]. destruct fr; try by injection E as <-.
    destruct (depth_update _ _ _ _ _ _) as [ms sat]. by injection E as <-.
  - unfold cb_step in E. destruct (lv_callback s) as [[|m ms]|]; [by injection E as <-| |done].
    destruct (_ && _); [by injection E as <-|]. destruct (backpressure cfg); [done|by injection E as <-].
Qed.

(** Only the consumer publishes: the announcement of a session, or at the end of a
    turn the document of its book. *)
Definition published_by (s : Live) (d : Published) : Prop :=
  d = seeking_doc ep (fd_symbol (lv_feed s)) \/
  exists sid f t dd, lv_worker s = WTick sid f t /\ d = PDoc dd /\
    build_snapshot ep (f64 (price_scale cfg)) (f64 (size_scale cfg)) (fd_symbol (lv_feed s)) (ops_rate t)
      (lv_dropped s) (fd_trades (lv_feed s)) f = Some dd.

Lemma live_step_snap s s' : live_step s s' -> lv_snap s' = lv_snap s \/ published_by s (lv_snap s').
Proof.
  intros H. destruct H as [s|s over s' E|s s' H|s want Hw]; [by left|..|by left].
  - left. unfold main_step in E. destruct (lv_main s); [destruct (_ || _)|..]; try done; try by injection E as <-.
    + by apply bind_Some in E as (s1 & (_ & ->)%stop_spec & [= <-]).
    + destruct (lv_sup s); by try injection E as <-.
    + destruct (lv_worker s); by try injection E as <-.
  - destruct H as [s stale s' E _|s e s' _ E _|s fr s' E|s stale s' E]; [left| |left..].
    + unfold sup_step in E. destruct (lv_sup s); try by injection E as <-.
      1, 3: by apply bind_Some in E as (s1 & (_ & ->)%stop_spec & [= <-]).
      * destruct (_ || _); [|done]. by injection E as <-.
      * destruct (receive _ _) as [[m fd]|]; by injection E as <-.
      * done.
    + unfold cons_step in E. destruct (lv_worker s) as [|sid|sid|sid b|sid b|sid s0|sid f t|sid f t|sid f t|sid f t m|sid f t|] eqn:Ew.
      1, 3, 5, 7, 8: injection E as <-; by left.
      * injection E as <-. destruct (publish_snapshots cfg); [right; by left|by left].
      * left. destruct (live sid s); [|by injection E as <-]. destruct (fetch_snapshot _ _) as [s0 sat].
        destruct (ok s0 && _ && _); by injection E as <-.
      * left. destruct (live sid s); [|by injection E as <-]. by apply bind_Some in E as (pc & _ & [= <-]).
      * left. destruct (receive _ _) as [[m fd]|]; by injection E as <-.
      * left. destruct (fetch_snapshot _ _) as [s2 sat]. by apply bind_Some in E as (f' & _ & [= <-]).
      * apply bind_Some in E as ([t' d] & E & [= <-]). unfold publish in E. destruct (_ && _).
        -- apply bind_Some in E as (dd & E & [= <- <-]). right. right. by exists sid, f, t, dd.
        -- injection E as <- <-. by left.
      * done.
    + unfold cb_event in E. destruct (negb _); [done|]. destruct (lv_callback s); [done|].
      case_decide; [by injection E as <-|]. destruct fr; try by injection E as <-.
      destruct (depth_update _ _ _ _ _ _) as [ms sat]. by injection E as <-.
    + unfold cb_step in E. destruct (lv_callback s) as [[|m ms]|]; [by injection E as <-| |done].
      destruct (_ && _); [by injection E as <-|]. destruct (backpressure cfg); [done|by injection E as <-].
Qed.

(** What [main] has still to do with a feed. *)
Definition rest_of (pc : main_pc) : list main_pc :=
  match pc with
  | MRun => [MRun; MReset; MBump; MStop; MJoinSup; MJoinCons]
  | MReset => [MReset; MBump; MStop; MJoinSup; MJoinCons]
  | MBump => [MBump; MStop; MJoinSup; MJoinCons]
  | MStop => [MStop; MJoinSup; MJoinCons]
  | MJoinSup => [MJoinSup; MJoinCons]
  | MJoinCons => [MJoinCons]
  | MEnd => []
  end.

Lemma main_step_frame over s s' :
  main_step over s = Some s' ->
  rest_of (lv_main s) = lv_main s :: rest_of (lv_main s') /\
  (lv_main s <> MRun -> g_stop s' = g_stop s).
Proof.
  unfold main_step. destruct (lv_main s); [destruct (_ || _)|..]; try by intros [= <-].
  - by intros (s1 & (_ & ->)%stop_spec & [= <-])%bind_Some.
  - destruct (lv_sup s); by try intros [= <-].
  - destruct (lv_worker s); by try intros [= <-].
Qed.

Lemma live_inv_feed s s' : live_inv s -> feed_step s s' -> live_inv s'.
Proof.
  intros I H. destruct H; [by eapply inv_sup|by eapply inv_cons|by eapply inv_event|by eapply inv_cb].
Qed.

Lemma live_inv_step s s' : live_inv s -> live_step s s' -> live_inv s'.
Proof.
  intros I H. destruct H as [s|s over s' E|s s' H|s want Hw].
  - destruct I as [R C B O W A Y N M]. split; try done. unfold main_ok in *. cbn.
    destruct (lv_main s); naive_solver.
  - by eapply inv_main.
  - by eapply live_inv_feed.
  - destruct I as [R C B O W A Y N M]. split; try done. split; [apply Y|by right].
Qed.

Lemma live_inv_new : live_inv (live_new sym).
Proof. split; cbn; try done; [lia|]. by split; left. Qed.

(** The saturation counter is not the feed's. *)
Lemma live_inv_saturated g s : live_inv s -> live_inv (s <| g_saturated := g |>).
Proof. by intros []. Qed.

End Threads.

Arguments li_room {_ _ _ _ _} _ _.
Arguments li_chan {_ _ _ _ _} _ _.
Arguments li_callback {_ _ _ _ _} _ _.
Arguments li_worker {_ _ _ _ _} _ _.
Arguments li_window {_ _ _ _ _} _ _.
Arguments li_apart {_ _ _ _ _} _ _.
Arguments li_main {_ _ _ _ _} _ _.
Arguments li_symbol {_ _ _ _ _} _ _.
Arguments li_snap {_ _ _ _ _} _ _.
Arguments live_inv_feed {_ _ _ _ _ _} _ {_} _ _.
Arguments live_inv_step {_ _ _ _ _ _} _ {_} _ _.
Arguments live_inv_new {_ _ _ _} _.
Arguments cons_step_total {_ _ _ _ _} _ _ _.
Arguments cons_step_frame {_ _} _ _ _.
Arguments fs_sup {_ _ _ _ _} _ _ _ _ _.
Arguments fs_cons {_ _ _ _ _} _ _ _ _ _ _.
Arguments fs_event {_ _ _ _ _} _ _ _.
Arguments fs_cb {_ _ _ _ _} _ _ _.
Arguments ls_signal {_ _ _ _ _} _.
Arguments ls_main {_ _ _ _ _} _ _ _ _.
Arguments ls_feed {_ _ _ _ _} _ _ _.
Arguments ls_tell {_ _ _ _ _} _ _ _.
Arguments feed_step_frame {_ _ _ _ _ _} _ _ _.
Arguments main_step_frame {_ _} _ _ _ _.
Arguments live_step_snap {_ _ _ _ _ _} _ _ _.
