(* ===== verification/LiveShutdown.v ===== *)
(** * Which feeds can be stopped

    The end of [main] for one live feed ([LiveThreads]): once [g_stop] is set, the
    feed comes to its end unless a callback waits for room in the channel that
    nobody makes ([callback_free], [stopping_decides]); under [Block] every feed can
    get there ([late_consumer]). *)

From Stdlib Require Import SpecFloat String.
From stdpp Require Import base list gmap numbers relations.
From S2P Require Import Prelude MarketEvent OrderPool OrderBook BookSpec OrderBookWf.
From S2P Require Import OrderBookBest BookLadder OrderBookProps BookL2 Instrumentation Publisher Sequencer.
From S2P Require Import Pipeline LiveFeed LiveFeedProps LiveInput LiveSession LiveServer SpscRing LiveThreads.

Section Ends.
Context (ep : FeedEndpoints) (cfg : Config) (Capacity : nat).
Context (stop_returns : option (list PipelineMsg) -> bool) {Stop : WebSocketStop stop_returns}.
Context (served : string -> Response -> Prop) (sym : string).
Hypothesis served_band : band_fits (band_pct cfg) served.

#[local] Notation policy := (backpressure cfg).
#[local] Notation stop_websocket := (LiveThreads.stop_websocket stop_returns).
#[local] Notation main_step := (LiveThreads.main_step stop_returns).
#[local] Notation sup_step := (LiveThreads.sup_step stop_returns).
#[local] Notation cons_step := (LiveThreads.cons_step ep cfg).
#[local] Notation cb_step := (LiveThreads.cb_step cfg Capacity).
#[local] Notation feed_step := (LiveThreads.feed_step ep cfg Capacity stop_returns served).
#[local] Notation live_step := (LiveThreads.live_step ep cfg Capacity stop_returns served).
#[local] Notation live_inv := (LiveThreads.live_inv ep cfg Capacity served sym).

(** The consumer is inside its receive loop, which empties the channel before it
    looks at [g_stop]. *)
Definition receiving (s : Live) : bool :=
  match lv_worker s with WRecv _ _ _ | WPop _ _ _ | WHand _ _ _ _ => true | _ => false end.

(** The messages the callback has still to send. *)
Definition unsent (s : Live) : list PipelineMsg := default [] (lv_callback s).

(** A way on of the feed's threads that keeps the flag and the supervisor. *)
Definition on_to (s s' : Live) : Prop :=
  rtc feed_step s s' /\ live_inv s' /\ g_stop s' = g_stop s /\ lv_main s' = lv_main s /\
  lv_sup s' = lv_sup s.

Lemma on_to_refl s : live_inv s -> on_to s s.
Proof. intros I. split; [apply rtc_refl|done]. Qed.

Lemma on_to_trans s1 s2 s3 : on_to s1 s2 -> on_to s2 s3 -> on_to s1 s3.
Proof.
  intros (R1 & I1 & G1 & M1 & S1) (R2 & I2 & G2 & M2 & S2). split; [by etrans|].
  split; [done|]. split_and!; congruence.
Qed.

Lemma on_to_step s s' :
  live_inv s -> feed_step s s' -> g_stop s' = g_stop s -> lv_main s' = lv_main s ->
  lv_sup s' = lv_sup s -> on_to s s'.
Proof.
  intros I H G M S. split; [by apply rtc_once|]. split; [by eapply (live_inv_feed served_band)|done].
Qed.

(** A send succeeds when there is room, or when the policy is to drop. *)
Lemma send_on s m ms :
  live_inv s -> lv_callback s = Some (m :: ms) ->
  policy = Drop \/ (length (chan s) < Capacity)%nat ->
  exists s', on_to s s' /\ lv_callback s' = Some ms /\ lv_worker s' = lv_worker s /\
    (length (chan s') <= S (length (chan s)))%nat.
Proof.
  intros I Ec Hp.
  assert (exists s', cb_step false s = Some s' /\ g_stop s' = g_stop s /\ lv_main s' = lv_main s /\
    lv_sup s' = lv_sup s /\ lv_callback s' = Some ms /\ lv_worker s' = lv_worker s /\
    (length (chan s') <= S (length (chan s)))%nat) as (s' & E & G & M & S & C & W & L).
  { unfold cb_step. rewrite Ec. cbn [negb andb]. case_bool_decide as Hl.
    - eexists. split; [done|]. repeat (split; [done|]). cbn. rewrite length_app. cbn. lia.
    - destruct Hp as [->|?]; [|lia]. eexists. split; [done|]. repeat (split; [done|]). cbn. lia. }
  exists s'. split; [|done]. by eapply on_to_step; [|eapply fs_cb|..].
Qed.

Lemma callback_returns s :
  live_inv s -> lv_callback s = Some [] ->
  exists s', on_to s s' /\ lv_callback s' = None /\ lv_worker s' = lv_worker s.
Proof.
  intros I Ec. exists (s <| lv_callback := None |>). split; [|done].
  eapply on_to_step; [done|eapply (fs_cb _ false)|done..]. unfold cb_step. by rewrite Ec.
Qed.

(** Blocked for good: a callback waits for room that nobody makes. *)
Definition blocked (s : Live) : Prop :=
  live_inv s /\ policy = Block /\ g_stop s = true /\ receiving s = false /\
  (Capacity < length (chan s) + length (unsent s))%nat.

Lemma blocked_busy s : blocked s -> exists m ms, lv_callback s = Some (m :: ms).
Proof.
  intros (I & _ & _ & _ & L). pose proof (li_room s I). unfold unsent in L.
  destruct (lv_callback s) as [[|m ms]|]; cbn in L; [lia|by eauto|lia].
Qed.

Lemma blocked_sup s : blocked s -> lv_sup s = SWait \/ lv_sup s = SStop.
Proof.
  intros H. destruct (blocked_busy s H) as (m & ms & Ec). destruct H as (I & _).
  pose proof (li_window s I) as W. unfold ws_window in W. rewrite Ec in W.
  destruct (lv_sup s); try (by destruct W); auto.
Qed.

(** A step that touches neither the channel, nor the callback, nor the loop. *)
#[local] Ltac still Ec := cbn; rewrite ?Ec; done.

Lemma blocked_stays s s' : blocked s -> live_step s s' -> blocked s'.
Proof.
  intros H St. destruct (blocked_busy s H) as (m & ms & Ec). pose proof (blocked_sup s H) as Hs.
  destruct H as (I & Hp & G & W & L). split; [by eapply (live_inv_step served_band)|]. split; [done|].
  clear I. unfold unsent in L. rewrite Ec in L. cbn in L. unfold blocked, receiving, unsent in *.
  destruct St as [s|s over s' E|s s' F|s want _];
    [| |destruct F as [s stale s' E _|s e s' _ E _|s fr s' E|s stale s' E]|].
  - still Ec.
  - unfold main_step, stop_websocket in E. rewrite Ec, stop_joins in E.
    destruct (lv_main s).
    + destruct (over || g_stop s); [|done]. injection E as <-. still Ec.
    + injection E as <-. still Ec.
    + injection E as <-. still Ec.
    + done.
    + destruct (lv_sup s); try done. injection E as <-. still Ec.
    + destruct (lv_worker s) eqn:Ew; try done. injection E as <-. cbn. by rewrite Ec, Ew.
    + done.
  - unfold sup_step, stop_websocket in E. rewrite Ec, stop_joins in E.
    destruct Hs as [Hs|Hs]; rewrite Hs in E; [|done].
    destruct (_ || _); [|done]. injection E as <-. still Ec.
  - unfold cons_step, live in E. rewrite G in E. cbn [negb andb] in E.
    destruct (lv_worker s); try done; try (injection E as <-; still Ec).
    + injection E as <-. destruct (publish_snapshots cfg); still Ec.
    + apply bind_Some in E as ([t' d] & _ & [= <-]). still Ec.
  - unfold cb_event in E. rewrite Ec in E. by destruct (ws_running s).
  - unfold cb_step in E. rewrite Ec, Hp in E. destruct (negb stale && _); [|done].
    injection E as <-. cbn. rewrite length_app. cbn. split; [done|]. split; [done|lia].
  - still Ec.
Qed.

(** Another feed saturates a size. *)
Lemma blocked_saturated g s : blocked s -> blocked (s <| g_saturated := g |>).
Proof. intros (I & H). split; [by apply live_inv_saturated|exact H]. Qed.

(** ** A feed whose consumer is late *)

(** The WebSocket runs and no callback does. *)
Definition listening (s : Live) : Prop :=
  lv_sup s = SWait /\ ws_running s = true /\ lv_callback s = None /\
  ws_session s = fd_session (lv_feed s) /\ lv_worker s = WLoop.

(** An update without rows: one message. *)
Definition beat : frame := WsDepth 1 1 0 [] [].
Definition beat_msg : PipelineMsg :=
  mkMsg (event0 <| ev_type := L2EventHeader |> <| ev_order_ref := 1 |> <| ev_match_number := 1 |>) 0 1.

Lemma beat_arrives s :
  listening s ->
  exists s', feed_step s s' /\ lv_callback s' = Some [beat_msg] /\ lv_feed s' = lv_feed s /\
    lv_sup s' = SWait /\ ws_running s' = true /\ ws_session s' = ws_session s /\ lv_worker s' = WLoop.
Proof.
  intros (Hs & Hr & Hc & He & Hw). eexists. split.
  { eapply (fs_event s beat). unfold cb_event. rewrite Hr, Hc. cbn [negb].
    rewrite decide_False by congruence. reflexivity. }
  done.
Qed.

Lemma beat_sent s :
  listening s -> (length (chan s) < Capacity)%nat ->
  exists s', rtc feed_step s s' /\ listening s' /\ length (chan s') = S (length (chan s)).
Proof.
  intros H L. destruct (beat_arrives s H) as (s1 & St & Ec & Ef & Es & Er & Ew & Ek).
  destruct H as (_ & _ & _ & He & _). rewrite <- Ef in L.
  eexists. split; [eapply rtc_l; [exact St|]|].
  - eapply rtc_l; [eapply (fs_cb s1 false)|].
    { unfold cb_step. rewrite Ec. cbn [negb andb]. rewrite bool_decide_true by exact L. reflexivity. }
    apply rtc_once. eapply (fs_cb _ false). reflexivity.
  - split; [repeat split; try done|].
    + cbn. by rewrite Ew, Ef.
    + cbn. rewrite length_app, <- Ef. cbn. lia.
Qed.

Lemma fills s :
  listening s -> (length (chan s) <= Capacity)%nat ->
  exists s', rtc feed_step s s' /\ listening s' /\ length (chan s') = Capacity.
Proof.
  intros H L. destruct (runs_down (rtc feed_step)
    (fun s => listening s /\ (length (chan s) <= Capacity)%nat) (fun s => length (chan s) = Capacity)
    (fun s => Z.of_nat Capacity - Z.of_nat (length (chan s)))) with s as (s' & R & (H' & _) & E).
  - intros s1 (_ & L1). lia.
  - intros s1 (H1 & L1). destruct (decide (length (chan s1) = Capacity)) as [|Hne]; [by left|right].
    destruct (beat_sent s1 H1 ltac:(lia)) as (s2 & R & H2 & E2). exists s2.
    split; [exact R|]. split; [split; [exact H2|lia]|lia].
  - done.
  - exists s'. split; [|done]. clear - R. induction R as [|x y z Hxy _ IH]; [apply rtc_refl|]. by etrans.
Qed.

Lemma late_consumer :
  exists s, rtc feed_step (live_new sym) s /\ receiving s = false /\
    (length (chan s) + length (unsent s))%nat = S Capacity.
Proof.
  assert (exists s0, rtc feed_step (live_new sym) s0 /\ listening s0 /\ chan s0 = []) as (s0 & R0 & H0 & E0).
  { eexists. split.
    - eapply rtc_l; [eapply (fs_sup _ false); reflexivity|]. apply rtc_once.
      eapply (fs_sup _ false); [unfold sup_step, stop_websocket; cbn; by rewrite stop_idle|done].
    - repeat split. }
  destruct (fills s0 H0) as (s1 & R1 & H1 & E1); [rewrite E0; cbn; lia|].
  destruct (beat_arrives s1 H1) as (s2 & St & Ec & Ef & _ & _ & _ & Ew).
  exists s2. split; [|split].
  - etrans; [exact R0|]. eapply rtc_r; [exact R1|exact St].
  - unfold receiving. by rewrite Ew.
  - unfold unsent. rewrite Ec, Ef, E1. cbn. lia.
Qed.

(** ** The way to the end

    A request comes to an end, and the ring has a slot. *)
Hypothesis fetch_ends : forall x, exists resp, served x resp.
Hypothesis Capacity_pos : (0 < Capacity)%nat.

Lemma apart s : lv_sup s <> SPop -> overlap s = false.
Proof. unfold overlap. by destruct (lv_sup s). Qed.

(** The consumer goes on, unless the drain is inside [receive]. *)
Lemma on_cons s :
  live_inv s -> lv_worker s <> WDone -> lv_sup s <> SPop ->
  exists e s', cons_step e s = Some s' /\ me_stale e = false /\ feed_step s s' /\ on_to s s'.
Proof.
  intros I Hw Hp. destruct (fetch_ends (fd_symbol (lv_feed s))) as [resp Hr].
  destruct (cons_step_total served_band (mkMeets resp 0 false) s I Hr Hw) as (s' & E & _).
  exists (mkMeets resp 0 false), s'. split; [done|]. split; [done|].
  pose proof (cons_step_frame _ _ _ E) as (F1 & F2 & F3 & _).
  assert (feed_step s s') as Hst
    by (eapply fs_cons; [|exact E|by apply apart; rewrite F3]; exact Hr).
  split; [exact Hst|]. by apply on_to_step.
Qed.

(** One step inside the receive loop. *)
Lemma receive_step s :
  live_inv s -> receiving s = true -> lv_sup s <> SPop ->
  exists s', on_to s s' /\ lv_callback s' = lv_callback s /\
    match lv_worker s with
    | WRecv sid f t => lv_worker s' = WPop sid f t /\ chan s' = chan s
    | WPop sid f t => forall m ms, chan s = m :: ms -> lv_worker s' = WHand sid f t m /\ chan s' = ms
    | WHand sid _ t _ => (exists f', lv_worker s' = WRecv sid f' t) /\ chan s' = chan s
    | _ => True
    end.
Proof.
  intros I Hw Hp. destruct (on_cons s I) as (e & s' & E & Es & _ & Hon); [|done|].
  { unfold receiving in Hw. by destruct (lv_worker s). }
  exists s'. split; [exact Hon|].
  pose proof (cons_step_frame _ _ _ E) as (_ & _ & _ & F4 & _). split; [exact F4|].
  unfold cons_step, receive in E. destruct (lv_worker s); try done.
  - by injection E as <-.
  - intros m ms Ec. rewrite Ec, Es in E. by injection E as <-.
  - destruct (fetch_snapshot _ _) as [s2 sat]. apply bind_Some in E as (f' & _ & [= <-]).
    split; [by eexists|done].
Qed.

(** Behind the next message taken, the callback as before. *)
Definition took (s : Live) (ms : list PipelineMsg) (s' : Live) : Prop :=
  on_to s s' /\ receiving s' = true /\ lv_callback s' = lv_callback s /\ chan s' = ms.

Lemma took_later s s1 ms s2 :
  on_to s s1 -> lv_callback s1 = lv_callback s -> took s1 ms s2 -> took s ms s2.
Proof. intros H C (H2 & R & C2 & E). split; [by eapply on_to_trans|]. split; [done|]. split; [congruence|done]. Qed.

Lemma pop_on s sid f t m ms :
  live_inv s -> lv_sup s <> SPop -> lv_worker s = WPop sid f t -> chan s = m :: ms ->
  exists s', took s ms s'.
Proof.
  intros I Hp Ew Ec. destruct (receive_step s I) as (s1 & H1 & C1 & R); [by unfold receiving; rewrite Ew|done|].
  rewrite Ew in R. destruct (R m ms Ec) as [E1 E2]. exists s1. split; [done|]. unfold receiving. by rewrite E1.
Qed.

Lemma head_on s sid f t m ms :
  live_inv s -> lv_sup s <> SPop -> lv_worker s = WRecv sid f t -> chan s = m :: ms ->
  exists s', took s ms s'.
Proof.
  intros I Hp Ew Ec. destruct (receive_step s I) as (s1 & H1 & C1 & R); [by unfold receiving; rewrite Ew|done|].
  rewrite Ew in R. destruct R as [E1 E2]. pose proof H1 as (_ & I1 & _ & _ & S1).
  destruct (pop_on s1 sid f t m ms) as (s2 & H2); [done|by rewrite S1|done|by rewrite E2|].
  exists s2. by eapply took_later.
Qed.

(** The receive loop takes the next message. *)
Lemma receive_on s m ms :
  live_inv s -> receiving s = true -> lv_sup s <> SPop -> chan s = m :: ms ->
  exists s', took s ms s'.
Proof.
  intros I Hw Hp Ec. pose proof Hw as Hw'. unfold receiving in Hw'.
  destruct (lv_worker s) as [| | | | | | |sid f t|sid f t|sid f t m0| |] eqn:Ew; try done.
  - by eapply head_on.
  - by eapply pop_on.
  - destruct (receive_step s I) as (s1 & H1 & C1 & R); [done|done|]. rewrite Ew in R.
    destruct R as [[f' E1] E2]. pose proof H1 as (_ & I1 & _ & _ & S1).
    destruct (head_on s1 sid f' t m ms) as (s2 & H2); [done|by rewrite S1|done|by rewrite E2|].
    exists s2. by eapply took_later.
Qed.

(** What lets the callback come to its end. *)
Definition callback_free (s : Live) : Prop :=
  policy = Drop \/ receiving s = true \/ (length (chan s) + length (unsent s) <= Capacity)%nat.

Lemma callback_step s m ms :
  live_inv s -> callback_free s -> lv_callback s = Some (m :: ms) ->
  exists s', on_to s s' /\ callback_free s' /\ lv_callback s' = Some ms.
Proof.
  intros I F Ec. destruct (decide (length (chan s) < Capacity)%nat) as [Hl|Hl].
  - destruct (send_on s m ms I Ec (or_intror Hl)) as (s' & Hon & Ec' & Ew & Hle).
    exists s'. split; [done|]. split; [|done]. unfold callback_free, receiving, unsent in *.
    rewrite Ew, Ec'. rewrite Ec in F. cbn in *. destruct F as [?|[?|?]]; [by left|by right; left|].
    right. right. lia.
  - destruct F as [Hd|[Hr|Hf]].
    + destruct (send_on s m ms I Ec (or_introl Hd)) as (s' & Hon & Ec' & _).
      exists s'. split; [done|]. split; [by left|done].
    + destruct (chan s) as [|m0 ms0] eqn:Es; [cbn in Hl; lia|].
      destruct (receive_on s m0 ms0 I Hr) as (s1 & Hon1 & Hr1 & Ec1 & Es1); [|done|].
      { pose proof (li_window s I) as W. unfold ws_window in W. intros Hp. rewrite Hp, Ec in W. by destruct W. }
      pose proof (li_room s I) as Hroom. rewrite Es in Hroom. cbn in Hroom.
      destruct (send_on s1 m ms) as (s2 & Hon2 & Ec2 & Ew2 & _).
      * apply Hon1.
      * by rewrite Ec1.
      * right. rewrite Es1. lia.
      * exists s2. split; [by eapply on_to_trans|]. split; [|done]. right. left.
        unfold receiving in *. by rewrite Ew2.
    + unfold unsent in Hf. rewrite Ec in Hf. cbn in Hf. lia.
Qed.

Lemma callback_ends s :
  live_inv s -> callback_free s -> exists s', on_to s s' /\ lv_callback s' = None.
Proof.
  intros I F. destruct (lv_callback s) as [ms|] eqn:Ec; [|exists s; split; [by apply on_to_refl|done]].
  revert s I F Ec. induction ms as [|m ms IH]; intros s I F Ec.
  - destruct (callback_returns s I Ec) as (s' & Hon & E & _). by exists s'.
  - destruct (callback_step s m ms I F Ec) as (s1 & Hon & F1 & E1).
    destruct (IH s1) as (s2 & Hon2 & E2); [apply Hon|done|done|].
    exists s2. split; [by eapply on_to_trans|done].
Qed.

(** How far the two threads are from their ends, once [g_stop] is set. *)
Definition worker_rank (w : worker_pc) : Z :=
  match w with
  | WDone => 0
  | WLoop => 1
  | WSettle _ | WSeek _ _ | WFetched _ _ | WRun _ _ _ => 2
  | WAnnounce _ | WBackoff _ _ | WTick _ _ _ => 3
  | WPop _ _ _ => 4
  | WRecv _ _ _ => 5
  | WHand _ _ _ _ => 6
  end.

Definition sup_rank (pc : sup_pc) : Z :=
  match pc with
  | SDone => 0 | SLoop => 1 | SPause => 2 | SPop => 3 | SDrain => 4 | STrades => 5 | SSession => 6
  | SOps => 7 | SRestart => 8 | SSymbol => 9 | SCheck => 10 | SStop => 11 | SWait => 12 | SStart => 13
  end.

Definition to_go (s : Live) : Z :=
  worker_rank (lv_worker s) + sup_rank (lv_sup s) + 3 * Z.of_nat (length (chan s)).

Lemma to_go_nonneg s : 0 <= to_go s.
Proof. unfold to_go. destruct (lv_worker s), (lv_sup s); cbn; lia. Qed.

(** Stopping, and no callback in the way; [pc] is where [main] is. *)
Definition stopping (pc : main_pc) (s : Live) : Prop :=
  live_inv s /\ g_stop s = true /\ lv_callback s = None /\ lv_main s = pc.

Lemma cons_closer pc s :
  stopping pc s -> lv_worker s <> WDone -> lv_sup s <> SPop ->
  exists s', feed_step s s' /\ stopping pc s' /\ to_go s' < to_go s.
Proof.
  intros (I & G & C & P) Hw Hp. destruct (on_cons s I Hw Hp) as (e & s' & E & Es & St & (_ & I' & G' & M & S)).
  pose proof (cons_step_frame _ _ _ E) as (_ & _ & _ & F4 & _).
  exists s'. split; [exact St|]. split; [split_and!; [done|congruence..]|].
  unfold to_go. rewrite S. revert E. unfold cons_step, live. rewrite G. cbn [negb andb].
  destruct (lv_worker s); try (intros [= <-]; cbn; lia).
  - intros [= <-]. destruct (publish_snapshots cfg); cbn; lia.
  - unfold receive. destruct (fd_channel (lv_feed s)) as [|m ms] eqn:Ec.
    + intros [= <-]. cbn. rewrite Ec. cbn. lia.
    + rewrite Es. intros [= <-]. cbn. lia.
  - destruct (fetch_snapshot _ _) as [s2 sat]. intros (f' & _ & [= <-])%bind_Some. cbn. lia.
  - intros ([t' d] & _ & [= <-])%bind_Some. cbn. lia.
Qed.

Lemma stop_now s : lv_callback s = None -> stop_websocket s = Some (s <| ws_running := false |>).
Proof. intros C. unfold LiveThreads.stop_websocket. by rewrite C, stop_idle. Qed.

Lemma sup_closer pc s :
  stopping pc s -> lv_sup s <> SDone -> lv_worker s = WDone \/ lv_sup s = SPop ->
  exists s', feed_step s s' /\ stopping pc s' /\ to_go s' < to_go s.
Proof.
  intros (I & G & C & P) Hw Ho.
  assert (exists s', sup_step false s = Some s' /\ g_stop s' = true /\ lv_callback s' = None /\
    lv_main s' = lv_main s /\ lv_worker s' = lv_worker s /\ (lv_sup s = SPop -> lv_sup s' <> SPop) /\
    to_go s' < to_go s) as (s' & E & G' & C' & P' & W' & S' & Hlt).
  { unfold sup_step, to_go. rewrite G, (stop_now s C). cbn [orb mbind option_bind].
    destruct (lv_sup s) eqn:Es; try (eexists; repeat (split; [done|]); cbn; lia); [|done].
    unfold receive. destruct (fd_channel (lv_feed s)) as [|m ms] eqn:Ec.
    - eexists. repeat (split; [done|]). cbn. rewrite Ec. cbn. lia.
    - eexists. repeat (split; [done|]). cbn. lia. }
  assert (feed_step s s') as St.
  { eapply fs_sup; [exact E|]. destruct Ho as [Ho|Ho]; [|by apply apart, S'].
    unfold overlap. rewrite W', Ho. by destruct (lv_sup s'). }
  exists s'. split; [exact St|]. split; [|done].
  split_and!; [by eapply (live_inv_feed served_band)|done..|congruence].
Qed.

(** Nothing is left of the feed but [main]. *)
Definition quiet (s : Live) : Prop :=
  live_inv s /\ g_stop s = true /\ lv_callback s = None /\ lv_sup s = SDone /\ lv_worker s = WDone.

Lemma stopping_quiet s :
  live_inv s -> g_stop s = true -> callback_free s ->
  exists s', rtc feed_step s s' /\ quiet s' /\ lv_main s' = lv_main s.
Proof.
  intros I G F. destruct (callback_ends s I F) as (s1 & (R1 & I1 & G1 & M1 & _) & E1).
  destruct (runs_down feed_step (stopping (lv_main s)) (fun s => lv_worker s = WDone /\ lv_sup s = SDone) to_go)
    with s1 as (s2 & R2 & (I2 & G2 & C2 & M2) & W2 & S2).
  - intros; apply to_go_nonneg.
  - intros s2 H. assert (lv_worker s2 = WDone \/ lv_worker s2 <> WDone) as [Ew|Ew]
      by (destruct (lv_worker s2); by (left + right)).
    + destruct (decide (lv_sup s2 = SDone)) as [Es|Es]; [by left|right].
      apply sup_closer; [done|done|by left].
    + right. destruct (decide (lv_sup s2 = SPop)) as [Ep|Ep]; [|by apply cons_closer].
      apply sup_closer; [done|by rewrite Ep|by right].
  - split_and!; [done|congruence|done|done].
  - exists s2. split; [by etrans|]. split; [|done]. split_and!; done.
Qed.

(** [main]'s step of a feed that is quiet. *)
Lemma quiet_main s :
  quiet s -> lv_main s <> MEnd ->
  exists s', main_step true s = Some s' /\ quiet s' /\ g_saturated s' = g_saturated s.
Proof.
  intros (I & G & C & S & W) Hm.
  assert (exists s', main_step true s = Some s' /\ g_stop s' = true /\ lv_callback s' = None /\
    lv_sup s' = SDone /\ lv_worker s' = WDone /\ g_saturated s' = g_saturated s)
    as (s' & E & G' & C' & S' & W' & Eg).
  { unfold main_step. rewrite (stop_now s C), W, S. cbn [orb mbind option_bind].
    destruct (lv_main s); try (eexists; split_and!; done). }
  exists s'. split; [done|]. split; [|done].
  split_and!; try done. eapply (live_inv_step served_band); [done|by eapply ls_main].
Qed.

End Ends.
