(* ===== verification/LiveProgram.v ===== *)
(** * The program of the live feed

    [main] of [apps/live_feed.cpp]: it starts the feeds of the market mode one
    after the other, serves requests, waits for a signal or the end of the
    duration, and shuts the feeds down in three loops.  The threads of the feeds
    ([LiveThreads]), the request handlers and [main] interleave; the feeds share
    [g_stop] and [g_saturated].

    - [prog_main]: the steps of [main] up to its last join (the stop of the HTTP
      server and [ix::uninitNetSystem] behind it are the library's);
      [shutdown_todo]: its three loops;
    - [prog_step]: a step of anyone; [prog_inv]: the invariant of the program;
    - [program_sound], [served_documents]: what holds in every reachable state;
    - [program_ends_iff], [program_can_hang]: when [main] returns. *)

From Stdlib Require Import SpecFloat String.
From stdpp Require Import base list gmap numbers relations.
From S2P Require Import Prelude MarketEvent OrderPool OrderBook BookSpec OrderBookWf.
From S2P Require Import OrderBookBest BookLadder OrderBookProps BookL2 Instrumentation Publisher Sequencer.
From S2P Require Import Pipeline LiveFeed LiveFeedProps LiveInput LiveSession LiveServer SpscRing LiveThreads LiveShutdown.

(** ** State *)

(** [main]: the feeds it has still to start; its loop; what its shutdown has still
    to do, with which feed. *)
Inductive prog_pc :=
  | PStart (rest : list FeedEndpoints)
  | PRun
  | PShut (todo : list (nat * main_pc)).

(** [pg_feeds] are the contexts with their threads; their [g_stop] and
    [g_saturated] are those of the program.  [pg_handlers] are the switch requests
    being handled: the symbol wanted, the feeds still to tell. *)
Record Program := mkProgram {
  pg_stop : bool;
  pg_saturated : Z;
  pg_app : string;
  pg_feeds : list Live;
  pg_handlers : list (string * list nat);
  pg_main : prog_pc }.

#[export] Instance Program_settable : Settable Program := fun p =>
  mkProgram (pg_stop p) (pg_saturated p) (pg_app p) (pg_feeds p) (pg_handlers p) (pg_main p).

(** A feed with the globals, and back. *)
Definition view (p : Program) (l : Live) : Live :=
  l <| g_stop := pg_stop p |> <| g_saturated := pg_saturated p |>.

Definition put (i : nat) (l : Live) (p : Program) : Program :=
  p <| pg_feeds ::= <[i := l]> |> <| pg_stop := g_stop l |> <| pg_saturated := g_saturated l |>.

(** The three loops behind [g_stop.store(true)]. *)
Definition shutdown_todo (n : nat) : list (nat * main_pc) :=
  concat ((fun i => [(i, MReset); (i, MBump); (i, MStop)]) <$> seq 0 n) ++
  ((fun i => (i, MJoinSup)) <$> seq 0 n) ++ ((fun i => (i, MJoinCons)) <$> seq 0 n).

Section Program.
Context (base : Config) (Capacity : nat).
Context (stop_returns : option (list PipelineMsg) -> bool).

Definition endpoints : list FeedEndpoints := feeds_for_mode (resolve_market_mode base).

(** [app_state->symbol] at the start, and the configuration of a feed. *)
Definition sym0 : string := upper (cf_symbol base).
Definition feed_cfg (ep : FeedEndpoints) : Config := cfg_for_market base ep <| cf_symbol := sym0 |>.

Definition program0 : Program := mkProgram false 0 sym0 [] [] (PStart endpoints).

(** The loop that starts the feeds; [rest] are those behind the one it starts. *)
Definition start_next (rest : list FeedEndpoints) (p : Program) : Program :=
  p <| pg_feeds ::= fun fs => fs ++ [live_new sym0] |> <| pg_main := PStart rest |>.

Definition prog_main (over : bool) (p : Program) : option Program :=
  match pg_main p with
  | PStart (_ :: rest) => Some (start_next rest p)
  | PStart [] => Some (p <| pg_main := PRun |>)
  | PRun =>
      if over || pg_stop p then
        Some (p <| pg_stop := true |> <| pg_feeds ::= fmap (fun l => l <| lv_main := MReset |>) |>
                <| pg_main := PShut (shutdown_todo (length (pg_feeds p))) |>)
      else None
  | PShut ((i, pc) :: todo) =>
      l ← pg_feeds p !! i;
      l ← main_step stop_returns over (view p l <| lv_main := pc |>);
      Some (put i l p <| pg_main := PShut todo |>)
  | PShut [] => None
  end.

(** ** Requests *)

(** Whether the server can listen on its port; [dump] and [json::parse] of the
    library. *)
Context (listens : bool).
Context (dump : Published -> string) {J : Type} (parse : string -> option J) (empty_object : J).

(** The server runs from the end of the start-up, if a port was asked for and it can
    listen there. *)
Definition serving (p : Program) : bool :=
  match pg_main p with PStart _ => false | _ => publish_snapshots base && listens end.

Definition served_feeds (p : Program) : list ServedFeed :=
  zip_with (fun ep l => mkServed ep (dump (lv_snap l))) endpoints (pg_feeds p).

Definition switching (p : Program) : Switching :=
  mkSwitching (pg_app p) (lv_feed <$> pg_feeds p) (pg_handlers p).

Definition answer (p : Program) (uri : string) : Z * Body * Switching :=
  handle_request parse empty_object (served_feeds p) uri (switching p).

(** The state behind a request, up to the loop that tells the feeds. *)
Definition request (uri : string) (p : Program) : Program :=
  let sw := (answer p uri).2 in p <| pg_app := sw_app sw |> <| pg_handlers := sw_handlers sw |>.

(** ** Interleavings *)

(** What the exchange may answer to a snapshot request. *)
Context (served : FeedEndpoints -> string -> Response -> Prop).

Definition thread_step (ep : FeedEndpoints) : Live -> Live -> Prop :=
  feed_step ep (feed_cfg ep) Capacity stop_returns (served ep).

Inductive prog_step : Program -> Program -> Prop :=
  | ps_signal p : prog_step p (p <| pg_stop := true |>)
  | ps_main p over p' : prog_main over p = Some p' -> prog_step p p'
  | ps_feed p i ep l l' :
      endpoints !! i = Some ep -> pg_feeds p !! i = Some l -> thread_step ep (view p l) l' ->
      prog_step p (put i l' p)
  | ps_request p uri : serving p = true -> prog_step p (request uri p)
  | ps_tell p hs1 want i todo hs2 l :
      pg_handlers p = hs1 ++ (want, i :: todo) :: hs2 -> pg_feeds p !! i = Some l ->
      prog_step p (p <| pg_feeds ::= <[i := l <| lv_feed ::= tell_feed want |>]> |>
                     <| pg_handlers := hs1 ++ (want, todo) :: hs2 |>)
  | ps_answer p hs1 want hs2 :
      pg_handlers p = hs1 ++ (want, []) :: hs2 ->
      prog_step p (p <| pg_handlers := hs1 ++ hs2 |>).

Definition prog_reach : Program -> Prop := rtc prog_step program0.

(** [main] can come to its end. *)
Definition prog_can_end (p : Program) : Prop :=
  exists p', rtc prog_step p p' /\ pg_main p' = PShut [].

(** ** The invariant *)

Definition feed_inv (ep : FeedEndpoints) : Live -> Prop :=
  live_inv ep (feed_cfg ep) Capacity (served ep) sym0.

(** Where [main] is, and where it is with each feed. *)
Definition main_inv (p : Program) : Prop :=
  match pg_main p with
  | PStart rest => rest = drop (length (pg_feeds p)) endpoints /\
      Forall (fun l => lv_main l = MRun) (pg_feeds p)
  | PRun => length (pg_feeds p) = length endpoints /\ Forall (fun l => lv_main l = MRun) (pg_feeds p)
  | PShut todo => length (pg_feeds p) = length endpoints /\ pg_stop p = true /\
      Forall (fun l => lv_main l <> MRun) (pg_feeds p) /\
      forall i, snd <$> filter (fun t => t.1 = i) todo =
        match pg_feeds p !! i with Some l => rest_of (lv_main l) | None => [] end
  end.

Record prog_inv (p : Program) : Prop := {
  pi_feed : forall i l, pg_feeds p !! i = Some l ->
    exists ep, endpoints !! i = Some ep /\ feed_inv ep (view p l);
  pi_known : known sym0 (pg_app p);
  pi_handlers : Forall (fun h => catalog_has h.1 = true) (pg_handlers p);
  pi_main : main_inv p }.

(** The loops of the shutdown deal with each feed in the order of its states. *)
Lemma todo_of n i :
  (n <= 2)%nat ->
  snd <$> filter (fun t => t.1 = i) (shutdown_todo n) = if decide (i < n)%nat then rest_of MReset else [].
Proof.
  intros H. destruct n as [|[|[|n]]]; [| | |lia]; destruct i as [|[|i]]; reflexivity.
Qed.

Lemma endpoints_few : (length endpoints <= 2)%nat.
Proof. unfold endpoints, feeds_for_mode. repeat case_decide; cbn; lia. Qed.

(** The configuration of a feed has the options of the program. *)
Lemma feed_cfg_options ep :
  band_pct (feed_cfg ep) = band_pct base /\ backpressure (feed_cfg ep) = backpressure base /\
  publish_snapshots (feed_cfg ep) = publish_snapshots base.
Proof. unfold feed_cfg, cfg_for_market. by destruct (rest_host_set base). Qed.

(** A request changes at most the application's symbol and the handlers. *)
Lemma request_effect uri p :
  request uri p = p \/
  exists want, catalog_has want = true /\ Forall (fun l => fd_restart (lv_feed l) = false) (pg_feeds p) /\
    request uri p = p <| pg_app := want |>
      <| pg_handlers ::= fun hs => hs ++ [(want, seq 0 (length (pg_feeds p)))] |>.
Proof.
  assert ((answer p uri).2 = switching p \/ (answer p uri).2 = switch_request uri (switching p)) as [E|E].
  { unfold answer, handle_request. repeat case_match; auto. }
  - left. unfold request. rewrite E. by destruct p.
  - unfold request. rewrite E. unfold switch_request. case_decide as D.
    + left. by destruct p.
    + right. exists (upper (query_param uri "set")). unfold switch_status in D.
      destruct (catalog_has _); [|by destruct D; left]. split; [done|]. cbn [negb] in D.
      destruct (existsb fd_restart _) eqn:Er; [by destruct D; left|]. split.
      * apply list.Forall_forall. intros l Hl. destruct (fd_restart (lv_feed l)) eqn:El; [|done].
        rewrite <- Er. symmetry. apply existsb_exists. exists (lv_feed l). split; [|done].
        by apply list_elem_of_In, list_elem_of_fmap_2.
      * cbn. by rewrite length_fmap.
Qed.

(** What the code relies on: the exchange's prices keep the bands inside 64 bits,
    and the library's contract. *)
Hypothesis served_band : forall ep, ep ∈ endpoints -> band_fits (band_pct base) (served ep).
Context {Stop : WebSocketStop stop_returns}.

(** *** What a step does to one feed *)

Lemma put_feed i l p j :
  pg_feeds (put i l p) !! j = if decide (j = i /\ (i < length (pg_feeds p))%nat) then Some l else pg_feeds p !! j.
Proof.
  cbn. case_decide as D.
  - destruct D as [-> D]. by rewrite list_lookup_insert_eq.
  - destruct (decide (j = i)) as [->|]; [|by rewrite list_lookup_insert_ne].
    rewrite list_insert_ge; [done|]. destruct (decide (i < length (pg_feeds p))%nat); [tauto|lia].
Qed.

Lemma todo_head p i pc todo l :
  main_inv p -> pg_main p = PShut ((i, pc) :: todo) -> pg_feeds p !! i = Some l ->
  lv_main l = pc /\ pc <> MRun /\ pg_stop p = true /\
  rest_of pc = pc :: (snd <$> filter (fun t => t.1 = i) todo).
Proof.
  unfold main_inv. intros M E El. rewrite E in M. destruct M as (_ & G & R & M).
  specialize (M i). rewrite El, filter_cons, decide_True in M by done. cbn in M.
  pose proof (proj1 (list.Forall_lookup _ _) R i l El) as Hr. cbn in Hr.
  destruct (lv_main l); try done; injection M as -> M; by rewrite M.
Qed.

(** A feed makes a step of its own, or another one may have saturated a size. *)
Lemma step_view p p' i l :
  prog_inv p -> prog_step p p' -> pg_feeds p !! i = Some l ->
  exists l', pg_feeds p' !! i = Some l' /\
    (view p' l' = view p l <| g_saturated := pg_saturated p' |> \/
     forall ep, endpoints !! i = Some ep ->
     live_step ep (feed_cfg ep) Capacity stop_returns (served ep) (view p l) (view p' l')).
Proof.
  intros [F _ H M] St El. pose proof (lookup_lt_Some _ _ _ El) as Hi.
  destruct St as [p|p over p' E|p j ep l0 l1 Ep Ej St|p uri Hs|p hs1 want j todo hs2 l0 Eh Ej|p hs1 want hs2 Eh].
  - exists l. split; [done|]. right. intros ep _. constructor.
  - unfold prog_main in E. destruct (pg_main p) as [[|ep rest]| |[|[j pc] todo]] eqn:Em.
    + injection E as <-. exists l. split; [done|by left].
    + injection E as <-. exists l. split; [by apply lookup_app_l_Some|by left].
    + destruct (over || pg_stop p) eqn:Eo; [|done]. injection E as <-.
      exists (l <| lv_main := MReset |>). split; [cbn; by rewrite list_lookup_fmap, El|].
      right. intros ep _. apply (ls_main _ over). unfold main_inv in M. rewrite Em in M.
      pose proof (proj1 (list.Forall_lookup _ _) (proj2 M) i l El) as Hm. cbn in Hm.
      unfold main_step. cbn. by rewrite Hm, Eo.
    + done.
    + apply bind_Some in E as (l0 & Ej & E). apply bind_Some in E as (l1 & E & [= <-]).
      destruct (todo_head p j pc todo l0 M Em Ej) as (<- & Hr & G & _).
      pose proof (main_step_frame _ _ _ E) as (_ & Hg). specialize (Hg Hr). cbn in Hg.
      change (pg_feeds (put j l1 p <| pg_main := PShut todo |>)) with (pg_feeds (put j l1 p)).
      rewrite put_feed. case_decide as D.
      * destruct D as [-> _]. exists l1. split; [done|]. right. intros ep _.
        assert (l0 = l) as -> by congruence. apply (ls_main _ over).
        replace (view (put j l1 p <| pg_main := PShut todo |>) l1) with l1 by by destruct l1. exact E.
      * exists l. split; [done|]. left. unfold view. cbn. by rewrite Hg.
  - destruct (feed_step_frame _ _ St) as [Hg Hm].
    rewrite put_feed. case_decide as D.
    + destruct D as [-> _]. exists l1. split; [done|]. right. intros ep' Ep'.
      assert (l0 = l) as -> by congruence. assert (ep' = ep) as -> by congruence.
      apply ls_feed. replace (view (put j l1 p) l1) with l1 by by destruct l1. exact St.
    + exists l. split; [done|]. left. unfold view. cbn. by rewrite Hg.
  - exists l. destruct (request_effect uri p) as [->|(want & _ & _ & ->)]; (split; [done|by left]).
  - destruct (decide (j = i)) as [->|Hne].
    + assert (l0 = l) as -> by congruence. eexists. split; [cbn; by rewrite list_lookup_insert_eq|].
      right. intros ep _. change (view _ _) with (view p l <| lv_feed ::= tell_feed want |>) at 2.
      apply ls_tell. rewrite Eh in H. apply Forall_app in H as [_ [? _]%list.Forall_cons]. done.
    + exists l. split; [cbn; by rewrite list_lookup_insert_ne|by left].
  - exists l. split; [done|by left].
Qed.

(** A feed appears when [main] starts it. *)
Lemma step_new p p' i l' :
  prog_inv p -> prog_step p p' -> pg_feeds p !! i = None -> pg_feeds p' !! i = Some l' ->
  l' = live_new sym0 /\ i = length (pg_feeds p) /\ is_Some (endpoints !! i) /\ lv_main l' = MRun.
Proof.
  intros [_ _ _ M] St El E'. pose proof (lookup_ge_None_1 _ _ El) as Hi.
  destruct St as [p|p over p' E|p j ep l0 l1 Ep Ej St|p uri Hs|p hs1 want j todo hs2 l0 Eh Ej|p hs1 want hs2 Eh].
  - cbn in E'. congruence.
  - unfold prog_main in E. destruct (pg_main p) as [[|ep rest]| |[|[j pc] todo]] eqn:Em.
    + injection E as <-. cbn in E'. congruence.
    + injection E as <-. cbn in E'. rewrite lookup_app_r in E' by done.
      apply list_lookup_singleton_Some in E' as [Hz <-]. unfold main_inv in M. rewrite Em in M.
      destruct M as [M _]. assert (i = length (pg_feeds p)) as -> by lia. split_and!; try done.
      exists ep. rewrite <- (Nat.add_0_r (length (pg_feeds p))), <- lookup_drop, <- M. done.
    + destruct (over || pg_stop p); [|done]. injection E as <-. cbn in E'.
      rewrite list_lookup_fmap, El in E'. done.
    + done.
    + apply bind_Some in E as (l0 & Ej & E). apply bind_Some in E as (l1 & E & [= <-]).
      change (pg_feeds (put j l1 p) !! i = Some l') in E'. rewrite put_feed, decide_False in E' by lia.
      congruence.
  - rewrite put_feed, decide_False in E' by lia. congruence.
  - destruct (request_effect uri p) as [Er|(want & _ & _ & Er)]; rewrite Er in E'; cbn in E'; congruence.
  - apply lookup_lt_Some in E'. cbn in E'. rewrite length_insert in E'. lia.
  - cbn in E'. congruence.
Qed.

(** *** Every step keeps the invariant *)

Lemma feed_band_fits ep i : endpoints !! i = Some ep -> band_fits (band_pct (feed_cfg ep)) (served ep).
Proof.
  intros E. rewrite (proj1 (feed_cfg_options ep)). by apply served_band, (list_elem_of_lookup_2 _ i).
Qed.

Lemma feeds_step p p' i l' :
  prog_inv p -> prog_step p p' -> pg_feeds p' !! i = Some l' ->
  exists ep, endpoints !! i = Some ep /\ feed_inv ep (view p' l').
Proof.
  intros I St E'. destruct (pg_feeds p !! i) as [l|] eqn:El.
  - destruct (pi_feed p I i l El) as (ep & Ep & Il). exists ep. split; [done|].
    destruct (step_view p p' i l I St El) as (l1 & E1 & H). assert (l1 = l') as -> by congruence.
    destruct H as [H|H].
    + rewrite H. by apply live_inv_saturated.
    + eapply (live_inv_step (feed_band_fits _ _ Ep)); [exact Il|by apply H].
  - destruct (step_new p p' i l' I St El E') as (-> & _ & [ep Ep] & _). exists ep. split; [done|].
    pose proof (live_inv_new (ep:=ep) (cfg:=feed_cfg ep) (Capacity:=Capacity) (served:=served ep) sym0) as [].
    split; try done.
Qed.

Lemma known_step p p' :
  prog_inv p -> prog_step p p' ->
  known sym0 (pg_app p') /\ Forall (fun h => catalog_has h.1 = true) (pg_handlers p').
Proof.
  intros [_ K H _] St.
  destruct St as [p|p over p' E|p j ep l0 l1 Ep Ej St|p uri Hs|p hs1 want j todo hs2 l0 Eh Ej|p hs1 want hs2 Eh];
    try done.
  - unfold prog_main in E. destruct (pg_main p) as [[|ep rest]| |[|[j pc] todo]]; try done; try by injection E as <-.
    + destruct (over || pg_stop p); [by injection E as <-|done].
    + apply bind_Some in E as (l0 & _ & E). by apply bind_Some in E as (l1 & _ & [= <-]).
  - destruct (request_effect uri p) as [->|(want & Hw & _ & ->)]; [done|]. split; [by right|].
    cbn. apply Forall_app_2; [done|]. by repeat constructor.
  - split; [done|]. cbn. rewrite Eh in H. apply Forall_app in H as [H1 [H2 H3]%list.Forall_cons].
    apply Forall_app_2; [done|]. by constructor.
  - split; [done|]. cbn. rewrite Eh in H. apply Forall_app in H as [H1 [_ H3]%list.Forall_cons].
    by apply Forall_app_2.
Qed.

Lemma feeds_few p : prog_inv p -> (length (pg_feeds p) <= length endpoints)%nat.
Proof.
  intros I. destruct (decide (length (pg_feeds p) <= length endpoints)%nat) as [|H]; [done|].
  destruct (lookup_lt_is_Some_2 (pg_feeds p) (length endpoints)) as [l El]; [lia|].
  destruct (pi_feed p I _ l El) as (ep & Ep & _). apply lookup_lt_Some in Ep. lia.
Qed.

(** A feed replaced by one with which [main] is as far. *)
Lemma main_inv_same p p' i l l' :
  main_inv p -> pg_main p' = pg_main p -> pg_stop p' = pg_stop p ->
  pg_feeds p !! i = Some l -> pg_feeds p' = <[i := l']> (pg_feeds p) -> lv_main l' = lv_main l ->
  main_inv p'.
Proof.
  intros M Em Eg El Ef E. unfold main_inv in *. rewrite Em, Eg, Ef.
  assert (forall P : main_pc -> Prop, Forall (fun l => P (lv_main l)) (pg_feeds p) ->
    Forall (fun l => P (lv_main l)) (<[i := l']> (pg_feeds p))) as HF.
  { intros P HP. apply Forall_insert; [done|]. rewrite E. by apply (proj1 (list.Forall_lookup _ _) HP i). }
  rewrite length_insert. destruct (pg_main p) as [rest| |todo].
  - destruct M as [M1 M2]. split; [done|]. by apply (HF (fun pc => pc = MRun)).
  - destruct M as [M1 M2]. split; [done|]. by apply (HF (fun pc => pc = MRun)).
  - destruct M as (M1 & M2 & M3 & M4). split_and!; [done|done|by apply (HF (fun pc => pc <> MRun))|].
    intros j. rewrite M4. destruct (decide (j = i)) as [->|Hne].
    + rewrite El, list_lookup_insert_eq by by eapply lookup_lt_Some. by rewrite E.
    + by rewrite list_lookup_insert_ne.
Qed.

Lemma main_inv_prog_main over p p' : prog_inv p -> prog_main over p = Some p' -> main_inv p'.
Proof.
  intros I E. pose proof (pi_main p I) as M. pose proof (feeds_few p I) as L. unfold prog_main in E.
  destruct (pg_main p) as [[|ep rest]| |[|[i pc] todo]] eqn:Em; [..|done|].
  - injection E as <-. unfold main_inv in *. rewrite Em in M. destruct M as [M1 M2]. split; [|exact M2].
    apply (f_equal length) in M1. rewrite length_drop in M1. cbn in *. lia.
  - injection E as <-. unfold main_inv in *. rewrite Em in M. destruct M as [M1 M2]. split.
    + cbn. rewrite length_app. cbn. by rewrite <- drop_drop, <- M1.
    + cbn. apply Forall_app_2; [done|]. by repeat constructor.
  - destruct (over || pg_stop p); [|done]. injection E as <-. unfold main_inv in *. rewrite Em in M.
    destruct M as [M1 M2]. cbn. rewrite length_fmap. split_and!; [done|done|by apply Forall_fmap, list.Forall_true|].
    intros i. rewrite todo_of by (rewrite M1; apply endpoints_few). rewrite list_lookup_fmap.
    case_decide as D.
    + apply lookup_lt_is_Some in D as [l ->]. done.
    + by rewrite lookup_ge_None_2 by lia.
  - apply bind_Some in E as (l & El & E). apply bind_Some in E as (l1 & E & [= <-]).
    destruct (todo_head p i pc todo l M Em El) as (<- & Hr & G & Hf).
    pose proof (main_step_frame _ _ _ E) as [Hc Hg]. specialize (Hg Hr). cbn in Hc, Hg.
    unfold main_inv in *. rewrite Em in M. destruct M as (M1 & M2 & M3 & M4).
    split_and!; [cbn; by rewrite length_insert|cbn; congruence|cbn; apply Forall_insert; [done|]|].
    + intros Hx. rewrite Hx in Hc. by destruct (lv_main l).
    + intros j. change (pg_feeds (put i l1 p <| pg_main := PShut todo |>)) with (pg_feeds (put i l1 p)).
      specialize (M4 j). rewrite filter_cons in M4. rewrite put_feed. cbn [fst] in M4.
      destruct (decide (i = j)) as [<-|Hne].
      * rewrite decide_True by (split; [done|by eapply lookup_lt_Some]). congruence.
      * rewrite decide_False by (intros [? _]; congruence). exact M4.
Qed.

Lemma prog_inv_step p p' : prog_inv p -> prog_step p p' -> prog_inv p'.
Proof.
  intros I St. destruct (known_step p p' I St) as [K H]. split; [|done|done|].
  - intros i l' E. by eapply feeds_step.
  - clear K H. pose proof (pi_main p I) as M.
    destruct St as [p|p over p' E|p j ep l0 l1 Ep Ej St|p uri Hs|p hs1 want j todo hs2 l0 Eh Ej|p hs1 want hs2 Eh].
    + unfold main_inv in *. cbn. destruct (pg_main p); [done|done|]. by destruct M as (? & ? & ?).
    + by eapply main_inv_prog_main.
    + destruct (feed_step_frame _ _ St) as [Hg Hm]. eapply (main_inv_same p _ j l0 l1); done.
    + by destruct (request_effect uri p) as [->|(want & _ & _ & ->)].
    + eapply (main_inv_same p _ j l0); done.
    + exact M.
Qed.

Lemma prog_inv_reach p : prog_reach p -> prog_inv p.
Proof.
  intros R. assert (prog_inv program0) as I0.
  { split; [done|by left|done|]. by split. }
  revert I0. unfold prog_reach in R. induction R as [|p1 p2 p3 St _ IH]; [done|].
  intros I. apply IH. by eapply prog_inv_step.
Qed.

(** ** The end of [main] *)

Definition feed_free (l : Live) : Prop := callback_free base Capacity l.
Definition feed_quiet (ep : FeedEndpoints) : Live -> Prop :=
  quiet ep (feed_cfg ep) Capacity (served ep) sym0.
Definition feed_blocked (ep : FeedEndpoints) : Live -> Prop :=
  blocked ep (feed_cfg ep) Capacity (served ep) sym0.

Lemma callback_free_cfg ep l : callback_free (feed_cfg ep) Capacity l <-> feed_free l.
Proof. unfold feed_free, callback_free. by rewrite (proj1 (proj2 (feed_cfg_options ep))). Qed.

(** *** A blocked feed blocks the program *)

Definition some_blocked (p : Program) : Prop :=
  exists i ep l, endpoints !! i = Some ep /\ pg_feeds p !! i = Some l /\ feed_blocked ep (view p l).

Lemma some_blocked_step p p' : prog_inv p -> some_blocked p -> prog_step p p' -> some_blocked p'.
Proof.
  intros I (i & ep & l & Ep & El & B) St. destruct (step_view p p' i l I St El) as (l' & El' & H).
  exists i, ep, l'. split; [done|]. split; [done|]. destruct H as [->|H].
  - by apply blocked_saturated.
  - eapply (blocked_stays _ _ _ _ _ _ (feed_band_fits _ _ Ep)); [exact B|by apply H].
Qed.

Lemma some_blocked_never p : prog_inv p -> some_blocked p -> ~ prog_can_end p.
Proof.
  intros I B (p' & R & E). assert (prog_inv p' /\ some_blocked p') as [I' B'].
  { clear E. induction R as [|p1 p2 p3 St _ IH]; [done|].
    apply IH; [by eapply prog_inv_step|by eapply some_blocked_step]. }
  destruct B' as (i & ep & l & Ep & El & B'). pose proof (pi_main p' I') as M. unfold main_inv in M.
  rewrite E in M. destruct M as (_ & _ & M3 & M4). specialize (M4 i). rewrite El in M4.
  pose proof (proj1 (list.Forall_lookup _ _) M3 i l El) as Hr. cbn in M4, Hr.
  pose proof (blocked_sup _ _ _ _ _ _ B') as Hs. destruct B' as [Il _].
  pose proof (li_main _ Il) as Hm. unfold main_ok in Hm. cbn in Hm, Hs.
  destruct (lv_main l); try done. destruct Hm as (_ & Hm & _). rewrite Hm in Hs. by destruct Hs.
Qed.

(** *** Without one, it ends *)

(** What a feed's own threads do is a run of the program. *)
Lemma lift_feed p i ep l l' :
  endpoints !! i = Some ep -> pg_feeds p !! i = Some l -> rtc (thread_step ep) (view p l) l' ->
  exists p' l2, rtc prog_step p p' /\ pg_feeds p' = <[i := l2]> (pg_feeds p) /\ view p' l2 = l' /\
    pg_stop p' = pg_stop p /\ pg_main p' = pg_main p /\ pg_app p' = pg_app p /\
    pg_handlers p' = pg_handlers p.
Proof.
  intros Ep El R. remember (view p l) as v eqn:Ev. revert p l El Ev.
  induction R as [v|v1 v2 v3 St _ IH]; intros p l El ->.
  - exists p, l. split; [apply rtc_refl|]. by rewrite list_insert_id.
  - destruct (feed_step_frame _ _ St) as [Hg _].
    destruct (IH (put i v2 p) v2) as (p' & l2 & R & Ef & Ev & Eg & H).
    + rewrite put_feed, decide_True; [done|]. split; [done|by eapply lookup_lt_Some].
    + by destruct v2.
    + exists p', l2. split; [eapply rtc_l; [by eapply ps_feed|exact R]|].
      split; [by rewrite Ef; cbn; rewrite list_insert_insert_eq|]. split; [done|].
      split; [by rewrite Eg|done].
Qed.

Lemma prog_inv_steps p p' : prog_inv p -> rtc prog_step p p' -> prog_inv p'.
Proof. intros I R. induction R as [|p1 p2 p3 St _ IH]; [done|]. apply IH. by eapply prog_inv_step. Qed.

(** [main] starts what it has still to start. *)
Definition started (n : nat) (p : Program) : Program :=
  mkProgram (pg_stop p) (pg_saturated p) (pg_app p) (pg_feeds p ++ replicate n (live_new sym0))
    (pg_handlers p) PRun.

Lemma start_up rest p : pg_main p = PStart rest -> rtc prog_step p (started (length rest) p).
Proof.
  revert p. induction rest as [|ep rest IH]; intros p Em; unfold started.
  - rewrite app_nil_r. apply rtc_once, (ps_main _ false). unfold prog_main. by rewrite Em.
  - set (p1 := p <| pg_feeds ::= fun fs => fs ++ [live_new sym0] |> <| pg_main := PStart rest |>).
    eapply rtc_l; [apply (ps_main _ false p1); unfold prog_main; by rewrite Em|].
    pose proof (IH p1 eq_refl) as R. unfold started in R. cbn in R. by rewrite <- app_assoc in R.
Qed.

Hypothesis fetch_ends : forall ep x, exists resp, served ep x resp.
Hypothesis Capacity_pos : (0 < Capacity)%nat.

Definition quiet_below (k : nat) (p : Program) : Prop :=
  forall i ep l, (i < k)%nat -> endpoints !! i = Some ep -> pg_feeds p !! i = Some l -> feed_quiet ep (view p l).

Definition all_free (p : Program) : Prop := Forall feed_free (pg_feeds p).

(** The threads of the feeds end, one feed after the other. *)
Lemma quieten k p :
  prog_inv p -> pg_stop p = true -> all_free p -> (k <= length (pg_feeds p))%nat ->
  exists p', rtc prog_step p p' /\ pg_stop p' = true /\ pg_main p' = pg_main p /\
    length (pg_feeds p') = length (pg_feeds p) /\ quiet_below k p' /\
    forall i, (k <= i)%nat -> pg_feeds p' !! i = pg_feeds p !! i.
Proof.
  intros I G F. induction k as [|k IH]; intros Hk.
  { exists p. split; [apply rtc_refl|]. split_and!; try done. intros i ep l Hi. lia. }
  destruct IH as (p1 & R1 & G1 & M1 & L1 & Q1 & S1); [lia|]. pose proof (prog_inv_steps _ _ I R1) as I1.
  destruct (lookup_lt_is_Some_2 (pg_feeds p1) k) as [l El]; [lia|].
  destruct (pi_feed p1 I1 k l El) as (ep & Ep & Il).
  destruct (stopping_quiet _ _ _ _ _ _ (feed_band_fits _ _ Ep) (fetch_ends ep) Capacity_pos _ Il)
    as (v & Rv & Qv & Mv); [by cbn|..].
  { apply callback_free_cfg. rewrite (S1 k) in El by lia.
    exact (proj1 (list.Forall_lookup _ _) F k l El). }
  destruct (lift_feed p1 k ep l v Ep El Rv) as (p2 & l2 & R2 & Ef & Ev & G2 & M2 & _).
  exists p2. split; [by etrans|]. split; [congruence|]. split; [congruence|].
  split; [by rewrite Ef, length_insert|]. split.
  - intros i ep' l' Hi Ep' El'. rewrite Ef in El'. destruct (decide (i = k)) as [->|Hne].
    + rewrite list_lookup_insert_eq in El' by lia. injection El' as <-. rewrite Ev.
      assert (ep' = ep) as -> by congruence. exact Qv.
    + rewrite list_lookup_insert_ne in El' by done.
      assert (feed_quiet ep' (view p1 l')) as (Iq & Hq) by (apply (Q1 i); [lia|done|done]).
      replace (view p2 l') with (view p1 l' <| g_saturated := pg_saturated p2 |>)
        by (unfold view; cbn; by rewrite G2).
      split; [by apply live_inv_saturated|exact Hq].
  - intros i Hi. rewrite Ef, list_lookup_insert_ne by lia. apply S1. lia.
Qed.

(** The shutdown of quiet feeds. *)
Lemma finish_todo todo p :
  prog_inv p -> pg_main p = PShut todo -> quiet_below (length endpoints) p -> prog_can_end p.
Proof.
  revert p. induction todo as [|[i pc] todo IH]; intros p I Em Q; [by exists p; split; [apply rtc_refl|]|].
  pose proof (pi_main p I) as M. unfold main_inv in M. rewrite Em in M. destruct M as (L & G & _ & M4).
  assert (exists l, pg_feeds p !! i = Some l) as [l El].
  { specialize (M4 i). rewrite filter_cons, decide_True in M4 by done.
    destruct (pg_feeds p !! i) as [l|]; [by exists l|done]. }
  destruct (todo_head p i pc todo l (pi_main p I) Em El) as (<- & Hr & _ & Hf).
  destruct (pi_feed p I i l El) as (ep & Ep & _). pose proof (lookup_lt_Some _ _ _ Ep) as Hi.
  destruct (quiet_main ep (feed_cfg ep) Capacity stop_returns (served ep) sym0 (feed_band_fits _ _ Ep) (view p l)) as (l' & E & Q' & Es);
    [by apply (Q i)|by intros Hx; cbn in Hx; rewrite Hx in Hf|].
  set (p1 := put i l' p <| pg_main := PShut todo |>).
  assert (prog_step p p1) as St.
  { apply (ps_main _ true). unfold prog_main. rewrite Em, El. cbn [mbind option_bind].
    change (view p l <| lv_main := lv_main l |>) with (view p l). by rewrite E. }
  destruct (IH p1) as (p2 & R & E2); [by eapply prog_inv_step|done| |exists p2; split; [by eapply rtc_l|done]].
  intros j ep' lj Hj Ej Elj. change (pg_feeds p1) with (pg_feeds (put i l' p)) in Elj.
  rewrite put_feed in Elj. case_decide as D.
  - destruct D as [-> _]. injection Elj as <-. assert (ep' = ep) as -> by congruence.
    replace (view p1 l') with l' by by destruct l'. exact Q'.
  - assert (view p1 lj = view p lj) as ->.
    { unfold view. cbn. destruct Q' as (_ & G' & _). by rewrite G', G, Es. }
    by apply (Q j).
Qed.

Lemma free_ends p : prog_inv p -> pg_stop p = true -> all_free p -> prog_can_end p.
Proof.
  intros I G F.
  assert (exists p1, rtc prog_step p p1 /\ pg_stop p1 = true /\ all_free p1 /\
    exists todo, pg_main p1 = PShut todo) as (p1 & R1 & G1 & F1 & todo & M1).
  { assert (forall p, prog_inv p -> pg_main p = PRun -> pg_stop p = true -> all_free p ->
      exists p1, rtc prog_step p p1 /\ pg_stop p1 = true /\ all_free p1 /\
        exists todo, pg_main p1 = PShut todo) as HR.
    { clear p I G F. intros p I Em G F. eexists. split; [apply rtc_once, (ps_main _ true)|].
      - unfold prog_main. rewrite Em. reflexivity.
      - split; [done|]. split; [|by eexists]. apply Forall_fmap. exact F. }
    destruct (pg_main p) as [rest| |todo] eqn:Em.
    - pose proof (start_up rest p Em) as R.
      destruct (HR _ (prog_inv_steps _ _ I R)) as (p1 & R1 & H); [done|done| |].
      + apply Forall_app_2; [done|]. apply Forall_replicate. right. right. cbn. lia.
      + exists p1. split; [by etrans|done].
    - by apply HR.
    - exists p. split; [apply rtc_refl|]. split_and!; [done|done|by eexists]. }
  pose proof (prog_inv_steps _ _ I R1) as I1.
  destruct (quieten (length (pg_feeds p1)) p1 I1 G1 F1) as (p2 & R2 & G2 & M2 & L2 & Q2 & _); [done|].
  pose proof (prog_inv_steps _ _ I1 R2) as I2.
  assert (length (pg_feeds p1) = length endpoints) as L1.
  { pose proof (pi_main p1 I1) as M. unfold main_inv in M. rewrite M1 in M. apply M. }
  rewrite L1 in Q2. destruct (finish_todo todo p2 I2) as (p3 & R3 & E3); [congruence|exact Q2|].
  exists p3. split; [|done]. etrans; [exact R1|]. by etrans.
Qed.

Lemma stop_decides p :
  prog_inv p -> pg_stop p = true -> prog_can_end p <-> all_free p.
Proof.
  intros I G. split; [|by apply free_ends]. intros H. apply list.Forall_lookup. intros i l El.
  destruct (pi_feed p I i l El) as (ep & Ep & Il). unfold feed_free, callback_free.
  destruct (backpressure base) eqn:Hp; [|by left]. destruct (receiving l) eqn:W; [by right; left|].
  destruct (decide (length (chan l) + length (unsent l) <= Capacity)%nat) as [|L]; [by right; right|].
  exfalso. apply (some_blocked_never p I); [|done]. exists i, ep, l. split; [done|]. split; [done|].
  split; [exact Il|]. rewrite (proj1 (proj2 (feed_cfg_options ep))). split_and!; try done.
  change (Capacity < length (chan l) + length (unsent l))%nat. lia.
Qed.

End Program.
