(* ===== verification/LiveProgramProps.v ===== *)
(** * Theorems of the program of the live feed

    Over the model of [LiveProgram]: what holds in every reachable state
    ([program_sound], [served_documents]), when [main] returns
    ([program_ends_iff], [program_can_hang]), and the switch of the symbol
    ([feeds_agree], [feeds_diverge], [document_mislabelled]).  All of it is up to the
    first data race on a channel, which a switch can lead to
    ([drain_meets_consumer]).

    [act] makes the steps of the program executable; schedules of actions are run
    in the witnesses and in the refutations. *)

From Stdlib Require Import SpecFloat String.
From stdpp Require Import base list gmap strings numbers relations.
From S2P Require Import Prelude MarketEvent OrderPool OrderBook BookSpec OrderBookWf.
From S2P Require Import OrderBookBest BookLadder OrderBookProps BookL2 Instrumentation Publisher Sequencer.
From S2P Require Import Pipeline LiveFeed LiveFeedProps LiveInput LiveSession LiveServer SpscRing LiveThreads LiveShutdown LiveProgram.

Section Props.
Context (base : Config) (Capacity : nat).
Context (stop_returns : option (list PipelineMsg) -> bool) {Stop : WebSocketStop stop_returns}.
Context (listens : bool) (dump : Published -> string) {J : Type} (parse : string -> option J) (empty_object : J).
Context (served : FeedEndpoints -> string -> Response -> Prop).

#[local] Notation endpoints := (LiveProgram.endpoints base).
#[local] Notation sym0 := (LiveProgram.sym0 base).
#[local] Notation feed_cfg := (LiveProgram.feed_cfg base).
#[local] Notation program0 := (LiveProgram.program0 base).
#[local] Notation prog_main := (LiveProgram.prog_main base stop_returns).
#[local] Notation serving := (LiveProgram.serving base listens).
#[local] Notation answer := (LiveProgram.answer base dump parse empty_object).
#[local] Notation request := (LiveProgram.request base dump parse empty_object).
#[local] Notation prog_step := (LiveProgram.prog_step base Capacity stop_returns listens dump parse empty_object served).
#[local] Notation prog_reach := (LiveProgram.prog_reach base Capacity stop_returns listens dump parse empty_object served).
#[local] Notation prog_can_end := (LiveProgram.prog_can_end base Capacity stop_returns listens dump parse empty_object served).
#[local] Notation prog_inv := (LiveProgram.prog_inv base Capacity served).
#[local] Notation thread_step := (LiveProgram.thread_step base Capacity stop_returns served).

(** ** Schedules *)

Inductive action :=
  | ASignal
  | AMain (over : bool)
  | ASup (i : nat) (stale : bool)
  | ACons (i : nat) (e : meets)
  | AEvent (i : nat) (fr : frame)
  | ACb (i : nat) (stale : bool)
  | ARequest (uri : string)
  | ATell (k : nat)
  | AAnswer (k : nat).

Definition at_feed (i : nat) (step : FeedEndpoints -> Live -> option Live) (p : Program) : option Program :=
  ep ← endpoints !! i; l ← pg_feeds p !! i; l ← step ep (view p l);
  if overlap l then None else Some (put i l p).

Definition act (a : action) (p : Program) : option Program :=
  match a with
  | ASignal => Some (p <| pg_stop := true |>)
  | AMain over => prog_main over p
  | ASup i stale => at_feed i (fun _ => sup_step stop_returns stale) p
  | ACons i e => at_feed i (fun ep => cons_step ep (feed_cfg ep) e) p
  | AEvent i fr => at_feed i (fun _ => cb_event fr) p
  | ACb i stale => at_feed i (fun ep => cb_step (feed_cfg ep) Capacity stale) p
  | ARequest uri => if serving p then Some (request uri p) else None
  | ATell k =>
      '(want, todo) ← pg_handlers p !! k;
      match todo with
      | [] => None
      | i :: todo =>
          l ← pg_feeds p !! i;
          Some (p <| pg_feeds ::= <[i := l <| lv_feed ::= tell_feed want |>]> |>
                  <| pg_handlers := take k (pg_handlers p) ++ (want, todo) :: drop (S k) (pg_handlers p) |>)
      end
  | AAnswer k =>
      '(want, todo) ← pg_handlers p !! k;
      match todo with
      | [] => Some (p <| pg_handlers := take k (pg_handlers p) ++ drop (S k) (pg_handlers p) |>)
      | _ => None
      end
  end.

(** What the exchange may answer to the request the consumer may make. *)
Definition allowed (a : action) (p : Program) : Prop :=
  match a with
  | ACons i e => forall ep l, endpoints !! i = Some ep -> pg_feeds p !! i = Some l ->
      served ep (fd_symbol (lv_feed l)) (me_resp e)
  | _ => True
  end.

Lemma at_feed_step i step p p' :
  at_feed i step p = Some p' ->
  exists ep l l', endpoints !! i = Some ep /\ pg_feeds p !! i = Some l /\
    step ep (view p l) = Some l' /\ overlap l' = false /\ p' = put i l' p.
Proof.
  unfold at_feed. intros (ep & Ep & (l & El & (l' & E & H)%bind_Some)%bind_Some)%bind_Some.
  destruct (overlap l') eqn:Eo; [done|]. injection H as <-. by exists ep, l, l'.
Qed.

Lemma act_step a p p' : allowed a p -> act a p = Some p' -> prog_step p p'.
Proof.
  intros Ha E. destruct a as [|over|i stale|i e|i fr|i stale|uri|k|k]; cbn in E.
  - injection E as <-. apply ps_signal.
  - by eapply ps_main.
  - apply at_feed_step in E as (ep & l & l' & Ep & El & E & Eo & ->).
    eapply ps_feed; [done..|by eapply fs_sup].
  - apply at_feed_step in E as (ep & l & l' & Ep & El & E & Eo & ->).
    eapply ps_feed; [done..|eapply fs_cons; [|exact E|exact Eo]]. exact (Ha ep l Ep El).
  - apply at_feed_step in E as (ep & l & l' & Ep & El & E & Eo & ->).
    eapply ps_feed; [done..|by eapply fs_event].
  - apply at_feed_step in E as (ep & l & l' & Ep & El & E & Eo & ->).
    eapply ps_feed; [done..|by eapply fs_cb].
  - destruct (serving p) eqn:Es; [|done]. injection E as <-. by apply ps_request.
  - apply bind_Some in E as ([want [|i todo]] & Eh & E); [done|].
    apply bind_Some in E as (l & El & [= <-]).
    eapply ps_tell; [|exact El]. symmetry. by apply take_drop_middle.
  - apply bind_Some in E as ([want [|i todo]] & Eh & E); [|done]. injection E as <-.
    eapply ps_answer. symmetry. by apply take_drop_middle.
Qed.

(** A schedule whose consumer steps are allowed everywhere. *)
Definition always_allowed (a : action) : Prop :=
  match a with ACons _ e => forall ep x, served ep x (me_resp e) | _ => True end.

Lemma schedule_steps sched p p' :
  Forall always_allowed sched -> iterM act sched p = Some p' -> rtc prog_step p p'.
Proof.
  revert p. induction sched as [|a sched IH]; intros p; cbn; [intros _ [= <-]; apply rtc_refl|].
  intros [Ha Hs]%list.Forall_cons (p1 & E & H)%bind_Some.
  eapply rtc_l; [|by apply IH]. eapply act_step; [|exact E]. destruct a; try done. intros ep l _ _. apply Ha.
Qed.

(** ** Lemmas *)

(** The feeds, once all are started. *)
Definition all_started : Program := started base (length endpoints) program0.

Lemma reach_started : prog_reach all_started.
Proof. exact (start_up base Capacity stop_returns listens dump parse empty_object served endpoints program0 eq_refl). Qed.

Lemma first_feed : exists ep, endpoints !! 0%nat = Some ep /\ pg_feeds all_started !! 0%nat = Some (live_new sym0).
Proof.
  unfold all_started, LiveProgram.endpoints, feeds_for_mode. repeat case_decide; by eexists.
Qed.

(** The ids of the markets. *)
Lemma endpoints_ids i ep :
  endpoints !! i = Some ep ->
  no_slash (ep_id ep) /\ String.index 0 "&" (ep_id ep) = None /\ ep_id ep <> "".
Proof.
  unfold LiveProgram.endpoints, feeds_for_mode. intros E%list_elem_of_lookup_2. revert E.
  repeat case_decide; set_unfold; naive_solver.
Qed.

Lemma served_ids p : NoDup ((fun f => ep_id (sf_ep f)) <$> served_feeds base dump p).
Proof.
  unfold served_feeds, LiveProgram.endpoints, feeds_for_mode.
  repeat case_decide; destruct (pg_feeds p) as [|l1 [|l2 ls]]; cbn;
    repeat (apply list.NoDup_cons; split; [set_solver|]); apply list.NoDup_nil; done.
Qed.

Lemma served_feed p i ep l :
  endpoints !! i = Some ep -> pg_feeds p !! i = Some l ->
  mkServed ep (dump (lv_snap l)) ∈ served_feeds base dump p.
Proof.
  intros Ep El. apply list_elem_of_lookup. exists i. unfold served_feeds. by rewrite lookup_zip_with, Ep, El.
Qed.

(** A feed divides by the scales of the program. *)
Lemma scales ep :
  f64 (price_scale (feed_cfg ep)) = f64 (price_scale base) /\
  f64 (size_scale (feed_cfg ep)) = f64 (size_scale base).
Proof. unfold LiveProgram.feed_cfg, cfg_for_market. by destruct (rest_host_set base). Qed.

(** The document of the consumer's book at an earlier moment of a run to [p]. *)
Definition built_on_the_way (p : Program) (i : nat) (ep : FeedEndpoints) (d : DashDoc) : Prop :=
  exists p0 l0 sid f t, prog_reach p0 /\ rtc prog_step p0 p /\
    pg_feeds p0 !! i = Some l0 /\ lv_worker l0 = WTick sid f t /\ l2_wf (lf_book f) /\
    build_snapshot ep (f64 (price_scale base)) (f64 (size_scale base)) (fd_symbol (lv_feed l0))
      (ops_rate t) (lv_dropped l0) (fd_trades (lv_feed l0)) f = Some d.

Lemma built_step p p' i ep d : built_on_the_way p i ep d -> prog_step p p' -> built_on_the_way p' i ep d.
Proof.
  intros (p0 & l0 & sid & f & t & R0 & R & H) St. exists p0, l0, sid, f, t.
  split; [exact R0|]. split; [by eapply rtc_r|exact H].
Qed.

Lemma documents_built :
  (forall ep, ep ∈ endpoints -> band_fits (band_pct base) (served ep)) ->
  forall p, prog_reach p -> forall i ep l d,
  endpoints !! i = Some ep -> pg_feeds p !! i = Some l -> lv_snap l = PDoc d -> built_on_the_way p i ep d.
Proof.
  intros Hb. apply (rtc_ind_r (fun p => forall i ep l d, endpoints !! i = Some ep ->
    pg_feeds p !! i = Some l -> lv_snap l = PDoc d -> built_on_the_way p i ep d)).
  { intros i ep l d _ El. destruct i; discriminate El. }
  intros p p' H St IH i ep l' d Ep El' Ed.
  pose proof (prog_inv_reach base Capacity stop_returns listens dump parse empty_object served Hb p H) as I.
  destruct (pg_feeds p !! i) as [l|] eqn:El.
  - destruct (step_view _ _ _ _ _ _ _ _ p p' i l I St El) as (l1 & E1 & Hv).
    assert (l1 = l') as -> by congruence. destruct Hv as [Hv|Hv].
    + eapply built_step; [|exact St]. apply (IH i ep l d Ep El).
      apply (f_equal lv_snap) in Hv. cbn in Hv. congruence.
    + destruct (live_step_snap _ _ (Hv ep Ep)) as [Hs|[Hs|(sid & f & t & dd & Ew & Hs & E)]];
        change (lv_snap (view p' l')) with (lv_snap l') in Hs.
      * eapply built_step; [|exact St]. apply (IH i ep l d Ep El).
        change (lv_snap (view p l)) with (lv_snap l) in Hs. congruence.
      * rewrite Ed in Hs. discriminate Hs.
      * exists p, l, sid, f, t. split; [exact H|]. split; [by apply rtc_once|]. split; [done|]. split; [exact Ew|].
        destruct (pi_feed _ _ _ p I i l El) as (ep' & _ & Il). pose proof (li_worker _ Il) as Ow.
        rewrite Ew in Ow. split; [apply Ow|]. destruct (scales ep) as [Ex Ey]. rewrite Ex, Ey in E.
        assert (dd = d) as <- by congruence. exact E.
  - destruct (step_new _ _ _ _ _ _ _ _ p p' i l' I St El El') as (-> & _). discriminate Ed.
Qed.

(** ** The switch of the symbol *)

(** A feed that shows the symbol or is on its way to it. *)
Definition bound_for (sym : string) (f : Feed) : Prop :=
  if fd_restart f then fd_pending f = sym else fd_symbol f = sym.

(** Where the supervisor switches, the request is still pending. *)
Definition switch_ok (l : Live) : Prop :=
  let f := lv_feed l in
  match lv_sup l with
  | SSymbol => fd_restart f = true
  | SRestart => fd_restart f = true /\ fd_symbol f = fd_pending f
  | _ => True
  end.

(** The feed's threads do not lead it astray. *)
Lemma feed_step_bound ep l l' :
  thread_step ep l l' -> switch_ok l ->
  switch_ok l' /\ (forall sym, bound_for sym (lv_feed l) -> bound_for sym (lv_feed l')) /\
  (fd_restart (lv_feed l) = false -> fd_restart (lv_feed l') = false).
Proof.
  intros St H. destruct St as [s stale s' E _|s e s' _ E _|s fr s' E|s stale s' E].
  - unfold switch_ok, bound_for in *. unfold sup_step in E. destruct (lv_sup s) eqn:Es.
    + injection E as <-. cbn. by destruct (g_stop s).
    + by apply bind_Some in E as (s1 & (_ & ->)%stop_spec & [= <-]).
    + destruct (_ || _); [|done]. by injection E as <-.
    + by apply bind_Some in E as (s1 & (_ & ->)%stop_spec & [= <-]).
    + injection E as <-. cbn. destruct (g_stop s); [done|]. by destruct (fd_restart (lv_feed s)) eqn:Er.
    + injection E as <-. cbn. rewrite H. by split_and!.
    + injection E as <-. cbn. destruct H as [-> ->]. by split_and!.
    + by injection E as <-.
    + by injection E as <-.
    + by injection E as <-.
    + by injection E as <-.
    + pose proof (receive_spec stale (lv_feed s)) as Hr. destruct (receive _ _) as [[m fd]|];
        injection E as <-; [|done]. by destruct Hr as (ms & _ & ->).
    + by injection E as <-.
    + done.
  - pose proof (cons_step_frame _ _ _ E) as (_ & _ & Es & _ & _ & Ef & _).
    unfold switch_ok, bound_for in *. rewrite Es, Ef. done.
  - unfold cb_event in E. destruct (negb _); [done|]. destruct (lv_callback s); [done|].
    case_decide; [by injection E as <-|]. destruct fr; try by injection E as <-.
    destruct (depth_update _ _ _ _ _ _) as [ms sat]. by injection E as <-.
  - unfold cb_step in E. destruct (lv_callback s) as [[|m ms]|]; [by injection E as <-| |done].
    destruct (_ && _); [by injection E as <-|]. destruct (backpressure _); [done|by injection E as <-].
Qed.

(** At most one request is handled at a time. *)
Definition serial_step (p p' : Program) : Prop :=
  prog_step p p' /\ (length (pg_handlers p') <= 1)%nat.

(** A feed still to be told is not restarting; any other is bound for the
    application's symbol. *)
Definition course_at (app : string) (todo : list nat) (fs : list Live) : Prop :=
  base.NoDup todo /\ forall i l, fs !! i = Some l -> switch_ok l /\
    (i ∈ todo /\ fd_restart (lv_feed l) = false \/ i ∉ todo /\ bound_for app (lv_feed l)).

Definition on_course (p : Program) : Prop :=
  match pg_main p with
  | PShut _ => True
  | PStart _ => pg_handlers p = [] /\ pg_app p = sym0 /\ course_at (pg_app p) [] (pg_feeds p)
  | PRun =>
      match pg_handlers p with
      | [] => course_at (pg_app p) [] (pg_feeds p)
      | [(want, todo)] => want = pg_app p /\ course_at want todo (pg_feeds p)
      | _ => False
      end
  end.

(** One feed goes on, the others stay. *)
Lemma course_at_insert app todo fs i l l' :
  fs !! i = Some l ->
  (switch_ok l -> switch_ok l' /\ (bound_for app (lv_feed l) -> bound_for app (lv_feed l')) /\
    (fd_restart (lv_feed l) = false -> fd_restart (lv_feed l') = false)) ->
  course_at app todo fs -> course_at app todo (<[i := l']> fs).
Proof.
  intros El H [Hn Hc]. split; [done|]. intros j lj Ej. destruct (decide (j = i)) as [->|Hne].
  - rewrite list_lookup_insert_eq in Ej by by eapply lookup_lt_Some. injection Ej as <-.
    destruct (Hc i l El) as [Hs Hb]. destruct (H Hs) as (Hs' & H1 & H2). split; [done|].
    destruct Hb as [[? ?]|[? ?]]; [left|right]; auto.
  - rewrite list_lookup_insert_ne in Ej by done. by apply Hc.
Qed.

Lemma on_course_feeds p p' :
  pg_main p' = pg_main p -> pg_handlers p' = pg_handlers p -> pg_app p' = pg_app p ->
  (forall app todo, course_at app todo (pg_feeds p) -> course_at app todo (pg_feeds p')) ->
  on_course p -> on_course p'.
Proof.
  intros Em Eh Ea H. unfold on_course. rewrite Em, Eh, Ea. destruct (pg_main p) as [rest| |todo]; [| |done].
  - intros (H1 & H2 & H3). auto.
  - destruct (pg_handlers p) as [|[want todo] [|h hs]]; [auto| |done]. intros [H1 H2]. auto.
Qed.

Lemma on_course_main over p p' : on_course p -> prog_main over p = Some p' -> on_course p'.
Proof.
  intros C E. unfold LiveProgram.prog_main in E. unfold on_course in C.
  destruct (pg_main p) as [[|ep rest]| |[|[i pc] todo]] eqn:Em.
  - injection E as <-. unfold on_course. cbn. destruct C as (-> & _ & C). exact C.
  - injection E as <-. unfold on_course. cbn. destruct C as (H1 & H2 & Hn & Hc).
    split; [done|]. split; [done|]. split; [done|]. intros j l Ej.
    apply lookup_app_Some in Ej as [Ej|[_ Ej]]; [by apply Hc|].
    apply list_lookup_singleton_Some in Ej as [_ <-]. split; [done|]. right. split; [set_solver|].
    rewrite H2. done.
  - destruct (_ || _); [|done]. by injection E as <-.
  - done.
  - apply bind_Some in E as (l & _ & E). by apply bind_Some in E as (l1 & _ & [= <-]).
Qed.

Lemma on_course_step p p' : on_course p -> serial_step p p' -> on_course p'.
Proof.
  intros C [St Hl].
  destruct St as [p|p over p' E|p j ep l0 l1 Ep Ej St|p uri Hs|p hs1 want j todo hs2 l0 Eh Ej|p hs1 want hs2 Eh].
  - exact C.
  - by eapply on_course_main.
  - revert C. apply on_course_feeds; try done. intros app todo. apply (course_at_insert app todo _ j l0); [done|].
    intros Hs. destruct (feed_step_bound ep _ _ St Hs) as (H1 & H2 & H3). split; [exact H1|].
    split; [apply (H2 app)|exact H3].
  - destruct (request_effect base dump parse empty_object uri p) as [E|(want & _ & Hr & E)]; rewrite E in *; [exact C|].
    unfold LiveProgram.serving in Hs. unfold on_course in *. cbn in *.
    destruct (pg_main p) as [rest| |todo]; [done| |done].
    destruct (pg_handlers p) as [|h hs]; [|cbn in Hl; rewrite length_app in Hl; cbn in Hl; lia]. cbn.
    destruct C as [_ C]. split; [done|]. split; [apply list.NoDup_seq || apply NoDup_seq|].
    intros i l El. split; [by apply (C i l)|]. left. split.
    + apply elem_of_seq. apply lookup_lt_Some in El. lia.
    + exact (proj1 (list.Forall_lookup _ _) Hr i l El).
  - unfold on_course in *. cbn in *. destruct (pg_main p) as [rest| |td]; [|clear Hl|done].
    + destruct C as (C & _). rewrite C in Eh. by destruct hs1.
    + rewrite Eh in C. destruct hs1 as [|h1 hs1]; [|by destruct h1, hs1]. destruct hs2 as [|h2 hs2]; [|done].
      cbn in *. destruct C as (-> & Hn & Hc). apply list.NoDup_cons in Hn as [Hj Hn].
      split; [done|]. split; [done|]. intros i l El. destruct (decide (i = j)) as [->|Hne].
      * rewrite list_lookup_insert_eq in El by by eapply lookup_lt_Some. injection El as <-.
        destruct (Hc j l0 Ej) as [Ho [[_ Hr]|[Hx _]]]; [|set_solver]. split; [|by right].
        unfold switch_ok in *. cbn. rewrite Hr in Ho. destruct (lv_sup l0); try done. by destruct Ho.
      * rewrite list_lookup_insert_ne in El by done. destruct (Hc i l El) as [Ho Hb]. split; [done|].
        set_solver.
  - unfold on_course in *. cbn in *. destruct (pg_main p) as [rest| |td]; [|clear Hl|done].
    + destruct C as (C & _). rewrite C in Eh. by destruct hs1.
    + rewrite Eh in C. destruct hs1 as [|h1 hs1]; [|by destruct h1, hs1]. destruct hs2 as [|h2 hs2]; [|done].
      cbn in *. by destruct C as (-> & C).
Qed.

Lemma on_course_reach p : rtc serial_step program0 p -> on_course p.
Proof.
  intros R. assert (on_course program0) as C.
  { split; [done|]. split; [done|]. split; [apply list.NoDup_nil; done|]. intros i l El. destruct i; discriminate El. }
  revert C. induction R as [|p1 p2 p3 St _ IH]; [done|]. intros C. apply IH. by eapply on_course_step.
Qed.

Lemma serial_reach p : rtc serial_step program0 p -> prog_reach p.
Proof. apply rtc_subrel. by intros p1 p2 []. Qed.

(** A symbol of the catalogue, asked for as the page does. *)
Lemma switch_wanted want :
  catalog_has want = true ->
  upper (query_param ("/symbol?set=" +:+ want) "set") = want /\ no_slash want.
Proof.
  intros Hw. unfold catalog_has in Hw. apply bool_decide_eq_true in Hw. unfold kSymbolCatalog in Hw.
  repeat (apply elem_of_cons in Hw as [->|Hw]; [split; reflexivity|]). by apply elem_of_nil in Hw.
Qed.

Lemma switch_accepted want p :
  catalog_has want = true -> Forall (fun l => fd_restart (lv_feed l) = false) (pg_feeds p) ->
  switch_status ("/symbol?set=" +:+ want) (switching p) = 200.
Proof.
  intros Hw Hr. unfold switch_status. rewrite (proj1 (switch_wanted want Hw)), Hw. cbn.
  assert (existsb fd_restart (lv_feed <$> pg_feeds p) = false) as ->; [|done].
  induction (pg_feeds p) as [|l ls IH]; [done|]. apply list.Forall_cons in Hr as [Hl Hr].
  cbn. rewrite Hl. by apply IH.
Qed.

(** A request that is granted. *)
Lemma request_granted want p :
  catalog_has want = true -> pg_app p <> want ->
  Forall (fun l => fd_restart (lv_feed l) = false) (pg_feeds p) ->
  request ("/symbol?set=" +:+ want) p = p <| pg_app := want |>
    <| pg_handlers ::= fun hs => hs ++ [(want, seq 0 (length (pg_feeds p)))] |>.
Proof.
  intros Hw Ha Hr. destruct (switch_wanted want Hw) as [Eu Hn].
  destruct (switch_answered parse empty_object (served_feeds base dump p) (switching p) want Hn) as (_ & E & _).
  unfold LiveProgram.request, LiveProgram.answer. rewrite E. unfold switch_request.
  rewrite (switch_accepted want p Hw Hr), Eu, decide_False by (intros [?|?]; done). cbn. by rewrite length_fmap.
Qed.

(** A handler tells the feeds on its list, one after the other. *)
Lemma handler_tells want todo p :
  pg_handlers p = [(want, todo)] -> (forall i, i ∈ todo -> (i < length (pg_feeds p))%nat) ->
  exists p', rtc prog_step p p' /\ pg_app p' = pg_app p /\ pg_handlers p' = [(want, [])] /\
  forall i l', pg_feeds p' !! i = Some l' -> exists l, pg_feeds p !! i = Some l /\
    (i ∈ todo -> fd_restart (lv_feed l') = true /\ fd_pending (lv_feed l') = want) /\ (i ∉ todo -> l' = l).
Proof.
  revert p. induction todo as [|i todo IH]; intros p Hh Hi.
  { exists p. split; [apply rtc_refl|]. split; [done|]. split; [done|]. intros i l El. exists l.
    split; [done|]. split; [by intros ?%elem_of_nil|done]. }
  destruct (lookup_lt_is_Some_2 (pg_feeds p) i) as [l El]; [apply Hi; by left|].
  pose (l1 := l <| lv_feed ::= tell_feed want |>).
  pose (p1 := p <| pg_feeds ::= <[i := l1]> |> <| pg_handlers := [(want, todo)] |>).
  assert (prog_step p p1) as St by exact (ps_tell _ _ _ _ _ _ _ _ p [] want i todo [] l Hh El).
  destruct (IH p1) as (p' & R & Ea & Eh & F); [done| |].
  { intros j Hj. cbn. rewrite length_insert. apply Hi. by right. }
  exists p'. split; [by eapply rtc_l|]. split; [done|]. split; [done|].
  intros j l' El'. destruct (F j l' El') as (lj & Ej & H1 & H2). cbn in Ej.
  destruct (decide (j = i)) as [->|Hne].
  - rewrite list_lookup_insert_eq in Ej by by eapply lookup_lt_Some. injection Ej as <-.
    exists l. split; [done|]. split; [|intros []; by left].
    intros _. destruct (decide (i ∈ todo)) as [Ht|Ht]; [by apply H1|]. by rewrite (H2 Ht).
  - rewrite list_lookup_insert_ne in Ej by done. exists lj. split; [done|]. split.
    + intros [->|Hj]%elem_of_cons; [done|by apply H1].
    + intros Hj. apply H2. intros ?. apply Hj. by right.
Qed.

(** The answer to the request for the document of a market. *)
Lemma document_answered p i ep l :
  endpoints !! i = Some ep -> pg_feeds p !! i = Some l ->
  answer p ("/snapshot.json?market=" +:+ ep_id ep) = (200, BDoc (dump (lv_snap l)), switching p).
Proof.
  intros Ep El. destruct (endpoints_ids i ep Ep) as (H1 & H2 & H3).
  exact (snapshot_routed parse empty_object (served_feeds base dump p) (switching p)
    (mkServed ep (dump (lv_snap l))) (served_ids p) (served_feed p i ep l Ep El) H1 H2 H3).
Qed.

(** A session runs with its book, and the channel is empty. *)
Definition in_session (ep : FeedEndpoints) (f : LiveFeed) (s : Live) : Prop :=
  lv_worker s = WTick 0 f (ticker0 0) /\ lv_sup s = SWait /\ lv_callback s = None /\ g_stop s = false /\
  lv_feed s = feed0 sym0.

(** The consumer's two steps from the first snapshot to its book. *)
Lemma seek_fetches ep cfg e s sid b sat s0 :
  lv_worker s = WSeek sid b -> live sid s = true -> fetch_snapshot (me_resp e) (g_saturated s) = (s0, sat) ->
  ok s0 = true -> 0 <= sn_best_bid s0 -> 0 <= sn_best_ask s0 ->
  cons_step ep cfg e s = Some (s <| g_saturated := sat |> <| lv_worker := WFetched sid s0 |>).
Proof.
  intros Ew El Ef Ho Hb Ha. unfold cons_step. rewrite Ew, El, Ef, Ho.
  by rewrite !bool_decide_true by lia.
Qed.

Lemma fetched_starts ep cfg e s sid s0 bc f :
  lv_worker s = WFetched sid s0 -> live sid s = true ->
  feed_band (band_pct cfg) s0 = Some bc -> start_live bc s0 = Some f ->
  cons_step ep cfg e s = Some (s <| lv_worker := WRun sid f (ticker0 (me_now e)) |>).
Proof. intros Ew El Eb Ef. unfold cons_step, first_book. by rewrite Ew, El, Eb, Ef. Qed.

Lemma session_runs ep resp bc f :
  publish_snapshots base = true -> served ep sym0 resp ->
  let s0 := (fetch_snapshot resp 0).1 in
  ok s0 = true -> 0 <= sn_best_bid s0 -> 0 <= sn_best_ask s0 ->
  feed_band (band_pct base) s0 = Some bc -> start_live bc s0 = Some f ->
  exists s, rtc (thread_step ep) (live_new sym0) s /\ in_session ep f s.
Proof.
  intros Hp Hs s0 Ho Hb Ha Eb Ef. set (e := mkMeets resp 0 false).
  destruct (feed_cfg_options base ep) as (Eband & _ & Epub). rewrite <- Eband in Eb. rewrite <- Epub in Hp.
  unfold LiveProgram.thread_step. set (cfg := feed_cfg ep) in *. clearbody cfg. clear Eband Epub.
  assert (forall s s', fd_symbol (lv_feed s) = sym0 -> lv_sup s = SWait -> cons_step ep cfg e s = Some s' ->
    feed_step ep cfg Capacity stop_returns (served ep) s s') as HC.
  { intros s s' Ey Ez E. pose proof (cons_step_frame _ _ _ E) as (_ & _ & E3 & _).
    eapply fs_cons; [|exact E|]; [by rewrite Ey|]. unfold overlap. by rewrite E3, Ez. }
  destruct (fetch_snapshot resp 0) as [s1 sat] eqn:Es. cbn in s0. subst s0.
  set (w := live_new sym0 <| ws_session := 0 |> <| ws_running := true |> <| lv_sup := SWait |>
              <| lv_snap := seeking_doc ep sym0 |> <| lv_worker := WSeek 0 800 |>).
  assert (rtc (feed_step ep cfg Capacity stop_returns (served ep)) (live_new sym0) w) as R.
  { eapply rtc_l; [eapply (fs_sup _ false); reflexivity|].
    eapply rtc_l; [eapply (fs_sup _ false); [unfold sup_step, stop_websocket; cbn; by rewrite stop_idle|done]|].
    eapply rtc_l; [apply HC; reflexivity|].
    eapply rtc_l; [apply HC; [reflexivity|reflexivity|]; unfold cons_step; cbn; rewrite Hp; reflexivity|].
    apply rtc_once. by apply HC. }
  eexists. split.
  { etrans; [exact R|].
    eapply rtc_l; [apply HC; [reflexivity|reflexivity|]; by apply (seek_fetches ep cfg e w 0 800 sat s1)|].
    eapply rtc_l; [apply HC; [reflexivity|reflexivity|]; by eapply (fetched_starts ep cfg e _ 0 s1 bc f)|].
    do 2 (eapply rtc_l; [apply HC; reflexivity|]).
    apply rtc_once. apply HC; reflexivity. }
  by split_and!.
Qed.

(** Told of another symbol, the feed shows the old session's book under it: the
    supervisor has changed the symbol, and the session has still to end. *)
Lemma session_relabelled ep f s want resp :
  publish_snapshots base = true -> in_session ep f s -> l2_wf (lf_book f) -> served ep want resp ->
  exists s' d, rtc (thread_step ep) (s <| lv_feed ::= tell_feed want |>) s' /\ lv_snap s' = PDoc d /\
    d_symbol d = want /\ doc_shows (f64 (price_scale base)) (f64 (size_scale base)) f d.
Proof.
  intros Hp (Ew & Es & Ec & Eg & Ef) W Hr.
  destruct (scales ep) as [Ex Ey]. destruct (feed_cfg_options base ep) as (_ & _ & Epub).
  rewrite <- Epub in Hp. rewrite <- Ex, <- Ey. unfold LiveProgram.thread_step.
  set (cfg := feed_cfg ep) in *. clearbody cfg. clear Epub Ex Ey.
  set (w := s <| lv_feed := feed0 sym0 <| fd_pending := want |> <| fd_restart := true |> <| fd_symbol := want |> |>
              <| ws_running := false |> <| lv_sup := SRestart |>).
  assert (rtc (feed_step ep cfg Capacity stop_returns (served ep)) (s <| lv_feed ::= tell_feed want |>) w) as R.
  { replace (s <| lv_feed ::= tell_feed want |>)
      with (s <| lv_feed := feed0 sym0 <| fd_pending := want |> <| fd_restart := true |> |>)
      by (destruct s; cbn in *; by subst).
    destruct s as [g1 g2 g3 g4 g5 g6 g7 g8 g9 g10 g11]. cbn in *. subst.
    eapply rtc_l; [eapply (fs_sup _ false); reflexivity|].
    eapply rtc_l; [eapply (fs_sup _ false); [unfold sup_step, stop_websocket; cbn; by rewrite stop_idle|done]|].
    eapply rtc_l; [eapply (fs_sup _ false); reflexivity|].
    apply rtc_once. by eapply (fs_sup _ false). }
  set (e := mkMeets resp (200 * 10 ^ 6) false).
  destruct (build_snapshot_shows ep (f64 (price_scale cfg)) (f64 (size_scale cfg)) want (S754_zero false)
    (lv_dropped s) [] f W) as (d & Ed & D & _ & _ & Esym).
  assert (exists s', cons_step ep cfg e w = Some s' /\ lv_sup s' = SRestart /\ lv_snap s' = PDoc d)
    as (s' & E & Esup & Esnap).
  { unfold cons_step, publish. replace (lv_worker w) with (WTick 0 f (ticker0 0)) by done. rewrite Hp.
    change (build_snapshot ep (f64 (price_scale cfg)) (f64 (size_scale cfg)) (fd_symbol (lv_feed w))
      (ops_rate (ticker0 0)) (lv_dropped w) (fd_trades (lv_feed w)) f)
      with (build_snapshot ep (f64 (price_scale cfg)) (f64 (size_scale cfg)) want (S754_zero false)
      (lv_dropped s) [] f).
    rewrite Ed. by eexists. }
  exists s', d. split; [|done]. eapply rtc_r; [exact R|].
  eapply (fs_cons w e); [exact Hr|exact E|]. unfold overlap. by rewrite Esup.
Qed.

(** Told of another symbol, the supervisor comes to drain the channel while the
    consumer is at the head of its receive loop. *)
Lemma session_drained ep f s want resp :
  in_session ep f s -> served ep sym0 resp ->
  exists s' t, rtc (thread_step ep) (s <| lv_feed ::= tell_feed want |>) s' /\
    lv_sup s' = SPop /\ lv_worker s' = WRecv 0 f t.
Proof.
  intros (Ew & Es & Ec & Eg & Ef) Hr. unfold LiveProgram.thread_step. set (cfg := feed_cfg ep). clearbody cfg.
  destruct s as [g1 g2 g3 g4 g5 g6 g7 g8 g9 g10 g11]. cbn in *. subst.
  set (e := mkMeets resp 0 false).
  eexists _, _. split.
  { eapply rtc_l; [eapply (fs_cons _ e); [exact Hr|unfold cons_step, publish; cbn; by rewrite andb_false_r|done]|].
    eapply rtc_l; [eapply (fs_cons _ e); [exact Hr|reflexivity|done]|].
    eapply rtc_l; [eapply (fs_sup _ false); [reflexivity|done]|].
    eapply rtc_l; [eapply (fs_sup _ false); [unfold sup_step, stop_websocket; cbn; by rewrite stop_idle|done]|].
    do 6 (eapply rtc_l; [eapply (fs_sup _ false); [reflexivity|done]|]).
    apply rtc_once. eapply (fs_sup _ false); [reflexivity|done]. }
  by split.
Qed.

(** The request for another symbol, while nothing is pending, up to its first feed. *)
Lemma told_first want p l :
  catalog_has want = true -> sym0 <> want -> publish_snapshots base = true -> listens = true ->
  pg_main p = PRun -> pg_app p = sym0 -> pg_handlers p = [] ->
  pg_feeds p = <[0%nat := l]> (pg_feeds all_started) -> fd_restart (lv_feed l) = false ->
  exists p', rtc prog_step p p' /\ pg_feeds p' !! 0%nat = Some (l <| lv_feed ::= tell_feed want |>) /\
    view p' (l <| lv_feed ::= tell_feed want |>) = view p l <| lv_feed ::= tell_feed want |>.
Proof.
  intros Hw Hne Hp Hls Em Ea Eh Ef Hr. destruct first_feed as (ep & _ & El).
  pose proof (lookup_lt_Some _ _ _ El) as Hlt.
  assert (Forall (fun l => fd_restart (lv_feed l) = false) (pg_feeds p)) as Hall.
  { rewrite Ef. apply Forall_insert; [|done]. unfold all_started, started. by apply Forall_app_2, Forall_replicate. }
  pose proof (request_granted want p Hw ltac:(congruence) Hall) as Eq.
  assert (exists n, length (pg_feeds p) = S n) as [n Hn].
  { rewrite Ef, length_insert. destruct (length _); [lia|by eexists]. }
  rewrite Hn in Eq.
  eexists. split.
  - eapply rtc_l; [apply (ps_request _ _ _ _ _ _ _ _ p ("/symbol?set=" +:+ want))|].
    { unfold LiveProgram.serving. by rewrite Em, Hp, Hls. }
    rewrite Eq. apply rtc_once.
    eapply (ps_tell _ _ _ _ _ _ _ _ _ [] want 0%nat (seq 1 n) [] l); cbn; [by rewrite Eh|].
    rewrite Ef. by apply list_lookup_insert_eq.
  - split; [|done]. cbn. apply list_lookup_insert_eq. rewrite Hn. lia.
Qed.

(** A feed whose supervisor waits, with nothing on its way: it shows [sym]. *)
Definition at_rest (sym : string) (l : Live) : Prop :=
  lv_sup l = SWait /\ lv_callback l = None /\ fd_channel (lv_feed l) = [] /\
  fd_restart (lv_feed l) = false /\ fd_symbol (lv_feed l) = sym /\ lv_worker l = WLoop.

Lemma sup_step_worker stale s s' : sup_step stop_returns stale s = Some s' -> lv_worker s' = lv_worker s.
Proof.
  unfold sup_step. destruct (lv_sup s); try by intros [= <-].
  1, 3: by intros (s1 & (_ & ->)%stop_spec & [= <-])%bind_Some.
  - destruct (_ || _); [by intros [= <-]|done].
  - destruct (receive _ _) as [[m fd]|]; by intros [= <-].
Qed.

(** A run of a supervisor on its own. *)
Lemma sup_run n s s' ep :
  lv_worker s = WLoop -> iterM (fun _ => sup_step stop_returns false) (replicate n tt) s = Some s' ->
  rtc (thread_step ep) s s'.
Proof.
  revert s. induction n as [|n IH]; intros s Ew; cbn; [intros [= <-]; apply rtc_refl|].
  intros (s1 & E & H)%bind_Some.
  assert (lv_worker s1 = WLoop) as Ew1 by (rewrite <- Ew; by eapply sup_step_worker).
  eapply rtc_l; [|by apply IH]. eapply fs_sup; [exact E|]. unfold overlap. rewrite Ew1. by destruct (lv_sup s1).
Qed.

Ltac sup_runs := repeat first [progress cbn | progress unfold stop_websocket | rewrite stop_idle]; reflexivity.

(** Where a supervisor is, with nothing else on its way. *)
Definition sup_at (pc : sup_pc) (restart : bool) (sym : string) (s : Live) : Prop :=
  lv_sup s = pc /\ lv_callback s = None /\ fd_channel (lv_feed s) = [] /\
  fd_restart (lv_feed s) = restart /\ fd_symbol (lv_feed s) = sym /\ g_stop s = false /\ lv_worker s = WLoop.

Ltac sup_leg n :=
  intros (E1 & E2 & E4 & E5 & E6 & E3 & E7);
  match goal with |- exists s', rtc _ ?x s' /\ _ => destruct x as [g sat [] d sn ws run cb mp sup w] end;
  cbn in *; subst; eexists; split; [apply (sup_run n); [reflexivity|sup_runs]|by repeat split].

Lemma sup_starts_rest ep s sym :
  sup_at SLoop false sym s -> exists s', rtc (thread_step ep) s s' /\ sup_at SWait false sym s'.
Proof. sup_leg 2%nat. Qed.

Lemma sup_stops ep s sym :
  sup_at SWait true sym s -> exists s', rtc (thread_step ep) s s' /\ sup_at SOps false (fd_pending (lv_feed s)) s'.
Proof. sup_leg 5%nat. Qed.

Lemma sup_clears ep s sym :
  sup_at SOps false sym s -> exists s', rtc (thread_step ep) s s' /\ sup_at SDrain false sym s'.
Proof. sup_leg 3%nat. Qed.

Lemma sup_drains ep s sym :
  sup_at SDrain false sym s -> exists s', rtc (thread_step ep) s s' /\ sup_at SLoop false sym s'.
Proof. sup_leg 3%nat. Qed.

Lemma sup_switches_rest ep s sym want :
  at_rest sym s -> g_stop s = false ->
  exists s', rtc (thread_step ep) (s <| lv_feed ::= tell_feed want |>) s' /\ at_rest want s'.
Proof.
  intros (E1 & E2 & E4 & E5 & E6 & E7) E3. set (s0 := s <| lv_feed ::= tell_feed want |>).
  destruct (sup_stops ep s0 sym) as (s1 & R1 & H1); [by split_and!|].
  change (fd_pending (lv_feed s0)) with want in H1. destruct (sup_clears ep s1 want H1) as (s2 & R2 & H2).
  destruct (sup_drains ep s2 want H2) as (s3 & R3 & H3). destruct (sup_starts_rest ep s3 want H3) as (s4 & R4 & H4).
  exists s4. split; [etrans; [exact R1|]; etrans; [exact R2|]; by etrans|]. destruct H4 as (? & ? & ? & ? & ? & ? & ?). by split_and!.
Qed.

(** A handler tells a feed at rest, and the feed switches. *)
Lemma told_switches p hs1 want i todo hs2 ep l sym :
  endpoints !! i = Some ep -> pg_feeds p !! i = Some l -> at_rest sym l -> pg_stop p = false ->
  pg_handlers p = hs1 ++ (want, i :: todo) :: hs2 ->
  exists p' l', rtc prog_step p p' /\ pg_feeds p' = <[i := l']> (pg_feeds p) /\ at_rest want l' /\
    pg_stop p' = false /\ pg_main p' = pg_main p /\ pg_app p' = pg_app p /\
    pg_handlers p' = hs1 ++ (want, todo) :: hs2.
Proof.
  intros Ep El Hl Hs Eh. set (l1 := l <| lv_feed ::= tell_feed want |>).
  set (p1 := p <| pg_feeds ::= <[i := l1]> |> <| pg_handlers := hs1 ++ (want, todo) :: hs2 |>).
  assert (pg_feeds p1 !! i = Some l1) as El1 by (cbn; apply list_lookup_insert_eq; by eapply lookup_lt_Some).
  destruct (sup_switches_rest ep (view p l) sym want Hl Hs) as (s' & R & H).
  destruct (lift_feed base Capacity stop_returns listens dump parse empty_object served p1 i ep l1 s' Ep El1 R)
    as (p' & l' & Rp & Ef & Ev & Eg & Em & Ea & Eh').
  exists p', l'. split.
  { eapply rtc_l; [|exact Rp]. by eapply ps_tell. }
  split; [rewrite Ef; cbn; by rewrite list_insert_insert_eq|]. rewrite <- Ev in H.
  split; [exact H|]. by rewrite Eg, Em, Ea, Eh'.
Qed.

(** A handler that has told all feeds answers. *)
Lemma handler_answers p hs1 want hs2 :
  pg_handlers p = hs1 ++ (want, []) :: hs2 ->
  rtc prog_step p (p <| pg_handlers := hs1 ++ hs2 |>).
Proof. intros E. by eapply rtc_once, ps_answer. Qed.

(** A switch request while both feeds are at rest is taken on. *)
Lemma request_taken want p l0 l1 x0 x1 :
  publish_snapshots base = true -> listens = true -> pg_main p = PRun -> pg_feeds p = [l0; l1] ->
  at_rest x0 l0 -> at_rest x1 l1 -> catalog_has want = true -> pg_app p <> want ->
  rtc prog_step p (p <| pg_app := want |> <| pg_handlers ::= fun hs => hs ++ [(want, [0; 1]%nat)] |>).
Proof.
  intros Hp Hls Em Ef L0 L1 Hw Ha. apply rtc_once.
  assert (Forall (fun l => fd_restart (lv_feed l) = false) (pg_feeds p)) as Hr.
  { rewrite Ef. repeat constructor; [apply L0|apply L1]. }
  pose proof (request_granted want p Hw Ha Hr) as E. rewrite Ef in E. cbn [length seq] in E. rewrite <- E.
  apply ps_request. unfold LiveProgram.serving. by rewrite Em, Hp, Hls.
Qed.

(** Two requests that overlap, from both feeds at rest. *)
Lemma feeds_at_split want1 want2 p l0 l1 :
  length endpoints = 2%nat -> publish_snapshots base = true -> listens = true ->
  catalog_has want1 = true -> catalog_has want2 = true -> pg_app p <> want1 -> want1 <> want2 ->
  pg_feeds p = [l0; l1] -> at_rest sym0 l0 -> at_rest sym0 l1 ->
  pg_stop p = false -> pg_main p = PRun -> pg_handlers p = [] ->
  exists p', rtc prog_step p p' /\ pg_main p' = PRun /\ pg_handlers p' = [] /\ pg_app p' = want2 /\
    (fun l => fd_restart (lv_feed l)) <$> pg_feeds p' = [false; false] /\
    (fun l => fd_symbol (lv_feed l)) <$> pg_feeds p' = [want2; want1].
Proof.
  intros En Hp Hls H1 H2 Ha H12 Ef L0 L1 Hs Em Eh.
  destruct (lookup_lt_is_Some_2 endpoints 0%nat) as [ep0 E0]; [lia|].
  destruct (lookup_lt_is_Some_2 endpoints 1%nat) as [ep1 E1]; [lia|].
  pose proof (request_taken want1 p l0 l1 _ _ Hp Hls Em Ef L0 L1 H1 Ha) as R1.
  set (pa := p <| pg_app := want1 |> <| pg_handlers ::= fun hs => hs ++ [(want1, [0; 1]%nat)] |>) in R1.
  destruct (told_switches pa [] want1 0%nat [1%nat] [] ep0 l0 sym0 E0) as (pb & l0b & R2 & Fb & Lb & Sb & Mb & Ab & Hb);
    [cbn; by rewrite Ef|done|done|cbn; by rewrite Eh|].
  cbn in Fb, Mb, Ab, Hb. rewrite Ef in Fb. cbn in Fb. rewrite Em in Mb.
  pose proof (request_taken want2 pb l0b l1 _ _ Hp Hls Mb Fb Lb L1 H2 ltac:(congruence)) as R3.
  set (pc := pb <| pg_app := want2 |> <| pg_handlers ::= fun hs => hs ++ [(want2, [0; 1]%nat)] |>) in R3.
  destruct (told_switches pc [(want1, [1%nat])] want2 0%nat [1%nat] [] ep0 l0b want1 E0)
    as (pd & l0d & R4 & Fd & Ld & Sd & Md & Ad & Hd); [cbn; by rewrite Fb|done|done|cbn; by rewrite Hb|].
  cbn in Fd, Md, Ad, Hd. rewrite Fb in Fd. cbn in Fd.
  destruct (told_switches pd [(want1, [1%nat])] want2 1%nat [] [] ep1 l1 sym0 E1)
    as (pe & l1e & R5 & Fe & Le & Se & Me & Ae & He); [by rewrite Fd|done|done|done|].
  rewrite Fd in Fe. cbn in Fe.
  pose proof (handler_answers pe [(want1, [1%nat])] want2 [] He) as R6.
  set (pf := pe <| pg_handlers := [(want1, [1%nat])] ++ [] |>) in R6.
  destruct (told_switches pf [] want1 1%nat [] [] ep1 l1e want2 E1)
    as (pg & l1g & R7 & Fg & Lg & Sg & Mg & Ag & Hg); [cbn; by rewrite Fe|done|done|done|].
  cbn in Fg, Mg, Ag, Hg. rewrite Fe in Fg. cbn in Fg.
  pose proof (handler_answers pg [] want1 [] Hg) as R8.
  eexists. split.
  { etrans; [exact R1|]. etrans; [exact R2|]. etrans; [exact R3|]. etrans; [exact R4|]. etrans; [exact R5|].
    etrans; [exact R6|]. etrans; [exact R7|exact R8]. }
  cbn. rewrite Mg, Me, Md, Mb, Ag, Ae, Ad, Fg. split_and!; try done; cbn.
  - destruct Ld as (_ & _ & _ & -> & _), Lg as (_ & _ & _ & -> & _). done.
  - destruct Ld as (_ & _ & _ & _ & -> & _), Lg as (_ & _ & _ & _ & -> & _). done.
Qed.

(** Both feeds of a program over two markets, at rest. *)
Lemma two_at_rest :
  length endpoints = 2%nat ->
  exists p l0 l1, prog_reach p /\ pg_feeds p = [l0; l1] /\ at_rest sym0 l0 /\ at_rest sym0 l1 /\
    pg_stop p = false /\ pg_main p = PRun /\ pg_app p = sym0 /\ pg_handlers p = [].
Proof.
  intros En. destruct (lookup_lt_is_Some_2 endpoints 0%nat) as [ep0 E0]; [lia|].
  destruct (lookup_lt_is_Some_2 endpoints 1%nat) as [ep1 E1]; [lia|].
  assert (pg_feeds all_started = [live_new sym0; live_new sym0]) as Ef by (unfold all_started; by rewrite En).
  assert (forall ep g, exists s', rtc (thread_step ep) (live_new sym0 <| g_saturated := g |>) s' /\ at_rest sym0 s') as R.
  { intros ep g. destruct (sup_starts_rest ep (live_new sym0 <| g_saturated := g |>) sym0) as (s' & R & H);
      [by split_and!|]. exists s'. split; [exact R|]. destruct H as (? & ? & ? & ? & ? & ? & ?). by split_and!. }
  destruct (R ep0 0) as (s0 & R0 & H0).
  destruct (lift_feed base Capacity stop_returns listens dump parse empty_object served all_started 0%nat ep0
    (live_new sym0) s0 E0) as (p1 & l0 & Rp1 & Ef1 & Ev1 & Eg1 & Em1 & Ea1 & Eh1); [by rewrite Ef|exact R0|].
  rewrite Ef in Ef1. cbn in Ef1. destruct (R ep1 (pg_saturated p1)) as (s1 & R1 & H1).
  destruct (lift_feed base Capacity stop_returns listens dump parse empty_object served p1 1%nat ep1
    (live_new sym0) s1 E1) as (p2 & l1 & Rp2 & Ef2 & Ev2 & Eg2 & Em2 & Ea2 & Eh2); [by rewrite Ef1| |].
  { unfold view. rewrite Eg1. exact R1. }
  exists p2, l0, l1. split; [unfold LiveProgram.prog_reach; etrans; [exact reach_started|]; by etrans|].
  split; [by rewrite Ef2, Ef1|]. rewrite <- Ev1 in H0. rewrite <- Ev2 in H1.
  split; [exact H0|]. split; [exact H1|].
  rewrite Eg2, Em2, Ea2, Eh2, Eg1, Em1, Ea1, Eh1. by unfold all_started.
Qed.

(** A run into the first session. *)
Lemma session_at ep resp bc :
  (forall ep, ep ∈ endpoints -> band_fits (band_pct base) (served ep)) ->
  publish_snapshots base = true -> endpoints !! 0%nat = Some ep -> served ep sym0 resp ->
  let s0 := (fetch_snapshot resp 0).1 in
  ok s0 = true -> 0 <= sn_best_bid s0 -> 0 <= sn_best_ask s0 -> feed_band (band_pct base) s0 = Some bc ->
  exists p l f, prog_reach p /\ (start_live bc s0 = Some f /\ l2_wf (lf_book f)) /\
    in_session ep f (view p l) /\ pg_main p = PRun /\ pg_app p = sym0 /\ pg_handlers p = [] /\
    pg_feeds p = <[0%nat := l]> (pg_feeds all_started).
Proof.
  intros Hb Hpub Ep Hs s0 Ho Hbid Hask Eb.
  destruct (start_live_ok bc s0) as (f & Ef & Wf & _).
  { eapply feed_band_ok; [exact Eb|]. eapply (Hb ep); [by eapply list_elem_of_lookup_2|exact Hs|exact Eb]. }
  { apply fetch_levels. }
  destruct (session_runs ep resp bc f Hpub Hs Ho Hbid Hask Eb Ef) as (s1 & R1 & S1).
  destruct first_feed as (ep' & Ep' & El). assert (ep' = ep) as -> by congruence.
  destruct (lift_feed base Capacity stop_returns listens dump parse empty_object served all_started 0%nat ep _ s1 Ep El R1)
    as (p1 & l1 & Rp1 & Ef1 & Ev1 & Eg1 & Em1 & Ea1 & Eh1).
  exists p1, l1, f. split; [unfold LiveProgram.prog_reach; by etrans; [exact reach_started|]|].
  split; [exact (conj Ef (lo_wf _ _ _ Wf))|]. rewrite Ev1. by split_and!.
Qed.

(** ** Theorems *)

(** C7. The program stays sound, until a drain meets a receive.  In every state it
    can reach before the supervisor's drain and the consumer of a feed are inside
    [receive] of the same channel at once (a data race: [drain_meets_consumer] shows
    that it can happen, [drain_races] what it does to the ring), whatever comes from
    the exchange and the clients, however the threads interleave: there is a feed for
    each market of the mode at most, and the channel of each holds at most its
    capacity of messages, all of them assignments of a side and a 32-bit size or
    headers; it shows a symbol of the catalogue or the first one; the pause of a
    failed snapshot is between 0.8 and 30 seconds; the consumer's book is a
    well-formed L2 book, and what the consumer does next never fails, until it has
    ended. *)
Theorem program_sound p i l :
  (forall ep, ep ∈ endpoints -> band_fits (band_pct base) (served ep)) ->
  prog_reach p -> pg_feeds p !! i = Some l ->
  exists ep, endpoints !! i = Some ep /\
  (length (chan l) <= Capacity)%nat /\ Forall msg_ok (chan l ++ unsent l) /\
  (fd_symbol (lv_feed l) = sym0 \/ catalog_has (fd_symbol (lv_feed l)) = true) /\
  match lv_worker l with
  | WSeek _ b | WBackoff _ b => 800 <= b <= 30000
  | WRun _ f _ | WRecv _ f _ | WPop _ f _ | WHand _ f _ _ | WTick _ f _ => l2_wf (lf_book f) /\ hist_shape (lf_hist f)
  | _ => True
  end /\
  (lv_worker l <> WDone -> forall e, served ep (fd_symbol (lv_feed l)) (me_resp e) ->
   exists l', cons_step ep (feed_cfg ep) e (view p l) = Some l').
Proof.
  intros Hb H El. pose proof (prog_inv_reach base Capacity stop_returns listens dump parse empty_object served Hb p H) as I.
  destruct (pi_feed _ _ _ p I i l El) as (ep & Ep & Il). exists ep. split; [exact Ep|].
  pose proof Il as [R C B O _ _ Y _ _]. split; [exact R|]. split; [|split; [apply Y|split]].
  - apply Forall_app. split; [exact C|]. unfold unsent.
    destruct (lv_callback l) as [ms|] eqn:Ec; [by apply B|constructor].
  - cbn in O. destruct (lv_worker l); try exact Logic.I; try exact O; split; apply O.
  - intros Hw e He. destruct (cons_step_total (feed_band_fits _ _ Hb _ _ Ep) e _ Il He Hw) as (s' & E & _).
    by exists s'.
Qed.

(** C6. When [main] returns.  Once [g_stop] is set, [main] can get past its last join
    (behind it are only calls of the library) if and only if the policy is to drop, or
    for every feed the consumer is inside its receive loop or the messages a running
    callback has still to send fit into the channel.  Otherwise it never returns from
    a stop of the WebSocket or a join, whatever happens. *)
Theorem program_ends_iff p :
  (forall ep, ep ∈ endpoints -> band_fits (band_pct base) (served ep)) ->
  (forall ep x, exists resp, served ep x resp) -> (0 < Capacity)%nat ->
  prog_reach p -> pg_stop p = true ->
  prog_can_end p <->
  backpressure base = Drop \/
  Forall (fun l => receiving l = true \/ (length (chan l) + length (unsent l) <= Capacity)%nat) (pg_feeds p).
Proof.
  intros Hb He Hc H G. rewrite stop_decides by (done || by eapply prog_inv_reach).
  unfold all_free, feed_free, callback_free. rewrite !list.Forall_forall. split; [|naive_solver].
  intros F. destruct (backpressure base); [right|by left]. intros l Hl. by destruct (F l Hl).
Qed.

(** A blocking program can hang at shutdown.  Unless [--drop] is given, with
    any capacity, there is a run behind which [g_stop] is set and [main] never
    ends: the consumer stopped while a callback was waiting for room. *)
Theorem program_can_hang :
  (forall ep, ep ∈ endpoints -> band_fits (band_pct base) (served ep)) -> cf_drop base = false ->
  exists p, prog_reach p /\ pg_stop p = true /\ ~ prog_can_end p.
Proof.
  intros Hb Hd. destruct first_feed as (ep & Ep & El).
  destruct (late_consumer ep (feed_cfg ep) Capacity stop_returns (served ep) sym0) as (s & R & W & L).
  destruct (lift_feed base Capacity stop_returns listens dump parse empty_object served all_started 0%nat ep _ s Ep El R)
    as (p & l & Rp & Ef & Ev & _).
  set (p' := p <| pg_stop := true |>).
  assert (prog_reach p') as H.
  { eapply rtc_r; [|apply ps_signal]. etrans; [exact reach_started|exact Rp]. }
  exists p'. split; [exact H|]. split; [done|].
  pose proof (prog_inv_reach base Capacity stop_returns listens dump parse empty_object served Hb p' H) as I.
  apply (some_blocked_never base Capacity stop_returns listens dump parse empty_object served Hb p' I).
  assert (pg_feeds p' !! 0%nat = Some l) as El'.
  { change (pg_feeds p !! 0%nat = Some l). rewrite Ef. apply list_lookup_insert_eq.
    by eapply lookup_lt_Some. }
  destruct (pi_feed _ _ _ p' I _ _ El') as (ep' & Ep' & Il). exists 0%nat, ep', l.
  split; [done|]. split; [done|]. split; [exact Il|]. subst s.
  split; [by unfold backpressure, LiveProgram.feed_cfg, cfg_for_market; destruct (rest_host_set base); cbn; rewrite Hd|].
  split; [done|]. split; [exact W|]. change (Capacity < length (chan l) + length (unsent l))%nat.
  change (length (chan l) + length (unsent l) = S Capacity)%nat in L. lia.
Qed.

(** A drain meets the consumer.  In every program whose dashboard can listen,
    whatever the exchange serves for the first symbol, a switch request is enough:
    there is a run in which the supervisor is inside [receive], draining the channel,
    and the next step of the consumer of the old session enters [receive] too. *)
Theorem drain_meets_consumer want resp bc ep :
  (forall ep, ep ∈ endpoints -> band_fits (band_pct base) (served ep)) ->
  serve_port base > 0 -> listens = true -> catalog_has want = true -> sym0 <> want ->
  endpoints !! 0%nat = Some ep -> served ep sym0 resp ->
  let s0 := (fetch_snapshot resp 0).1 in
  ok s0 = true -> 0 <= sn_best_bid s0 -> 0 <= sn_best_ask s0 -> feed_band (band_pct base) s0 = Some bc ->
  exists p l, prog_reach p /\ pg_feeds p !! 0%nat = Some l /\ lv_sup l = SPop /\
    forall e, exists l', cons_step ep (feed_cfg ep) e (view p l) = Some l' /\ overlap l' = true.
Proof.
  intros Hb Hp Hls Hw Hne Ep Hs s0 Ho Hbid Hask Eb.
  assert (publish_snapshots base = true) as Hpub by by apply bool_decide_eq_true.
  destruct (session_at ep resp bc Hb Hpub Ep Hs Ho Hbid Hask Eb)
    as (p1 & l1 & f & Rp1 & _ & S1 & Em1 & Ea1 & Eh1 & Ef1).
  destruct (told_first want p1 l1) as (p2 & St2 & El2 & Ev2); [done..|by rewrite Ef1| |].
  { destruct S1 as (_ & _ & _ & _ & E1). change (lv_feed (view p1 l1)) with (lv_feed l1) in E1. by rewrite E1. }
  destruct (session_drained ep f (view p1 l1) want resp S1 Hs) as (s2 & t & R2 & Es2 & Ew2).
  rewrite <- Ev2 in R2.
  destruct (lift_feed base Capacity stop_returns listens dump parse empty_object served p2 0%nat ep _ s2 Ep El2 R2)
    as (p3 & l3 & Rp3 & Ef3 & Ev3 & _).
  exists p3, l3. split; [unfold LiveProgram.prog_reach in *; etrans; [exact Rp1|]; by etrans|].
  split; [rewrite Ef3; apply list_lookup_insert_eq; by eapply lookup_lt_Some|].
  subst s2. split; [exact Es2|]. intros e. unfold cons_step. rewrite Ew2. eexists. split; [done|].
  unfold overlap. cbn in *. by rewrite Es2.
Qed.

(** C18. What the dashboard is served.  The request for the document of a market is
    answered with what its feed has last published.  In every reachable state that
    is ["{}"], the announcement of a feed that seeks, or the document of the
    consumer's book at an earlier moment of the run, and it shows that book: its
    rows are the first fifteen levels of the two ladders, best first, its bid and
    ask the heads of the ladders, present when the side is not empty, the spread
    present when both are.  It is of the market asked for, of the symbol the feed
    had then, with its trades and drops. *)
Theorem served_documents p i ep l :
  (forall ep, ep ∈ endpoints -> band_fits (band_pct base) (served ep)) ->
  prog_reach p -> endpoints !! i = Some ep -> pg_feeds p !! i = Some l ->
  answer p ("/snapshot.json?market=" +:+ ep_id ep) = (200, BDoc (dump (lv_snap l)), switching p) /\
  match lv_snap l with
  | PNothing => True
  | PSeeking m lab x mode => m = ep_id ep /\ lab = ep_label ep /\ known sym0 x /\ mode = "seeking"
  | PDoc d => d_market d = ep_id ep /\ d_marketLabel d = ep_label ep /\ known sym0 (d_symbol d) /\
      exists p0 l0 sid f t, prog_reach p0 /\ rtc prog_step p0 p /\
      pg_feeds p0 !! i = Some l0 /\ lv_worker l0 = WTick sid f t /\ l2_wf (lf_book f) /\
      d_symbol d = fd_symbol (lv_feed l0) /\ d_trades d = trades_json (fd_trades (lv_feed l0)) /\
      d_drops d = lv_dropped l0 /\
      let c := cfg_ (lf_book f) in
      let bids := a_bids c (l2_queue <$> lf_abs f) in
      let asks := a_asks c (l2_queue <$> lf_abs f) in
      let show := doc_level (f64 (price_scale base)) (f64 (size_scale base)) in
      d_bids d = show <$> take 15 bids /\ d_asks d = show <$> take 15 asks /\
      d_bid d = show <$> head bids /\ d_ask d = show <$> head asks /\
      (is_Some (d_spread d) <-> bids <> [] /\ asks <> []) /\
      d_levels d = live_orders_ (lf_book f) /\ d_mode d = mode_name (lf_mode f)
  end.
Proof.
  intros Hb H Ep El. split.
  - by eapply document_answered.
  - pose proof (prog_inv_reach base Capacity stop_returns listens dump parse empty_object served Hb p H) as I.
    destruct (pi_feed _ _ _ p I i l El) as (ep' & Ep' & Il). assert (ep' = ep) as -> by congruence.
    pose proof (proj1 (li_snap _ Il)) as S. change (lv_snap (view p l)) with (lv_snap l) in S.
    destruct (lv_snap l) as [|m lab x mode|d] eqn:Es; [done|exact S|].
    destruct S as (Sm & Sl & Sx & _). split; [exact Sm|]. split; [exact Sl|]. split; [exact Sx|].
    destruct (documents_built Hb p H i ep l d Ep El Es) as (p0 & l0 & sid & f & t & R0 & R & E0 & Ew & W & E).
    exists p0, l0, sid, f, t.
    destruct (build_snapshot_shows ep (f64 (price_scale base)) (f64 (size_scale base))
      (fd_symbol (lv_feed l0)) (ops_rate t) (lv_dropped l0) (fd_trades (lv_feed l0)) f W)
      as (d' & E' & D & _ & _ & Ex).
    rewrite E in E'. injection E' as <-. destruct D.
    destruct (build_snapshot_copies _ _ _ _ _ _ _ _ _ E) as (Et & Ed). by split_and!.
Qed.

(** C33. One request at a time, the feeds agree.  However the requests, their
    handlers, the supervisors and the other threads interleave, while at most one
    switch request is being handled: before the shutdown, once no handler is in
    flight and no restart is pending, every feed shows the symbol of the
    application, which is the first one or one of the catalogue. *)
Theorem feeds_agree p :
  (forall ep, ep ∈ endpoints -> band_fits (band_pct base) (served ep)) ->
  rtc serial_step program0 p -> pg_main p = PRun -> pg_handlers p = [] ->
  Forall (fun l => fd_restart (lv_feed l) = false) (pg_feeds p) ->
  Forall (fun l => fd_symbol (lv_feed l) = pg_app p) (pg_feeds p) /\
  (pg_app p = sym0 \/ catalog_has (pg_app p) = true).
Proof.
  intros Hb R Em Eh Hr. split.
  - pose proof (on_course_reach p R) as C. unfold on_course in C. rewrite Em, Eh in C. destruct C as [_ C].
    apply list.Forall_lookup. intros i l El. destruct (C i l El) as [_ [[Hx _]|[_ B]]]; [set_solver|].
    unfold bound_for in B. by rewrite (proj1 (list.Forall_lookup _ _) Hr i l El) in B.
  - pose proof (prog_inv_reach base Capacity stop_returns listens dump parse empty_object served Hb p (serial_reach p R)) as I.
    apply I.
Qed.

(** C37. Two overlapping requests can split the feeds for good.  In every program over
    two markets whose dashboard can listen, for any two symbols of the catalogue:
    the first handler waits between its two feeds while the second one, no restart
    being pending, is accepted and served; then the first goes on.  The feeds end
    with different symbols, and nothing is pending. *)
Theorem feeds_diverge want1 want2 :
  length endpoints = 2%nat -> serve_port base > 0 -> listens = true ->
  catalog_has want1 = true -> catalog_has want2 = true -> sym0 <> want1 -> want1 <> want2 ->
  exists p, prog_reach p /\ pg_main p = PRun /\ pg_handlers p = [] /\ pg_app p = want2 /\
    (fun l => fd_restart (lv_feed l)) <$> pg_feeds p = [false; false] /\
    (fun l => fd_symbol (lv_feed l)) <$> pg_feeds p = [want2; want1].
Proof.
  intros En Hp Hls H1 H2 Hs H12. destruct (two_at_rest En) as (p & l0 & l1 & R & Ef & L0 & L1 & Hp0 & Em & Ea & Eh).
  destruct (feeds_at_split want1 want2 p l0 l1) as (p' & R' & H); try done.
  { by apply bool_decide_eq_true. }
  { congruence. }
  exists p'. split; [|exact H]. unfold LiveProgram.prog_reach. etrans; [exact R|exact R'].
Qed.

(** C38. A document under the wrong symbol.  In every program whose dashboard
    can listen, whatever the exchange serves for the first symbol: there is a run in which a
    switch to [want] has been requested and the document served is labelled
    [want], while it shows the book of the first symbol's snapshot. *)
Theorem document_mislabelled want resp bc ep :
  (forall ep, ep ∈ endpoints -> band_fits (band_pct base) (served ep)) ->
  (forall ep x, exists resp, served ep x resp) ->
  serve_port base > 0 -> listens = true -> catalog_has want = true -> sym0 <> want ->
  endpoints !! 0%nat = Some ep -> served ep sym0 resp ->
  let s0 := (fetch_snapshot resp 0).1 in
  ok s0 = true -> 0 <= sn_best_bid s0 -> 0 <= sn_best_ask s0 -> feed_band (band_pct base) s0 = Some bc ->
  exists p l f d, prog_reach p /\ pg_feeds p !! 0%nat = Some l /\ start_live bc s0 = Some f /\
    answer p ("/snapshot.json?market=" +:+ ep_id ep) = (200, BDoc (dump (PDoc d)), switching p) /\
    d_symbol d = want /\ doc_shows (f64 (price_scale base)) (f64 (size_scale base)) f d.
Proof.
  intros Hb He Hp Hls Hw Hne Ep Hs s0 Ho Hbid Hask Eb.
  assert (publish_snapshots base = true) as Hpub by by apply bool_decide_eq_true.
  destruct (session_at ep resp bc Hb Hpub Ep Hs Ho Hbid Hask Eb)
    as (p1 & l1 & f & Rp1 & [Ef Wf] & S1 & Em1 & Ea1 & Eh1 & Ef1).
  destruct (told_first want p1 l1) as (p2 & St2 & El2 & Ev2); [done..|by rewrite Ef1| |].
  { destruct S1 as (_ & _ & _ & _ & E1). change (lv_feed (view p1 l1)) with (lv_feed l1) in E1. by rewrite E1. }
  destruct (He ep want) as [resp2 Hr2].
  destruct (session_relabelled ep f (view p1 l1) want resp2 Hpub S1 Wf Hr2) as (s2 & d & R2 & Ed & Es & Hd).
  rewrite <- Ev2 in R2.
  destruct (lift_feed base Capacity stop_returns listens dump parse empty_object served p2 0%nat ep _ s2 Ep El2 R2)
    as (p3 & l3 & Rp3 & Ef3 & Ev3 & _).
  exists p3, l3, f, d.
  assert (pg_feeds p3 !! 0%nat = Some l3) as El3.
  { rewrite Ef3. apply list_lookup_insert_eq. by eapply lookup_lt_Some. }
  assert (lv_snap l3 = PDoc d) as Ed3 by (rewrite <- Ed, <- Ev3; done).
  split; [unfold LiveProgram.prog_reach in *; etrans; [exact Rp1|]; by etrans|].
  split; [exact El3|]. split; [exact Ef|]. split; [|exact (conj Es Hd)]. rewrite <- Ed3.
  by eapply document_answered.
Qed.

End Props.

(** ** Examples *)

(** A dashboard over both markets. *)
Definition demo_base : Config := default_live_config <| serve_port := 8080 |>.

(** What the exchange serves in the examples: a document, nothing, or the refusal
    of a client that asks too often. *)
Definition demo_served (_ : FeedEndpoints) (_ : string) (resp : Response) : Prop :=
  resp = None \/ resp = Some (200, Some demo_doc) \/ resp = Some (418, None).

(** A stop that waits for the callback; texts of documents. *)
Definition demo_stop (cb : option (list PipelineMsg)) : bool := negb (bool_decide (is_Some cb)).

#[export] Instance demo_stop_contract : WebSocketStop demo_stop.
Proof. by split. Qed.

Definition demo_dump (d : Published) : string :=
  match d with PNothing => "{}" | PSeeking m _ x _ => m +:+ x | PDoc d => d_market d +:+ d_symbol d end.

Notation demo_reach := (prog_reach demo_base 2 demo_stop true demo_dump Some "" demo_served).
Notation demo_step := (prog_step demo_base 2 demo_stop true demo_dump Some "" demo_served).
Notation demo_act := (act demo_base 2 demo_stop true demo_dump Some "").
Notation demo_can_end := (prog_can_end demo_base 2 demo_stop true demo_dump Some "" demo_served).

Lemma demo_band ep : ep ∈ endpoints demo_base -> band_fits (band_pct demo_base) (demo_served ep).
Proof.
  intros _ x resp g bc [->|[->| ->]] E; vm_compute in E;
    [discriminate E|injection E as <-; reflexivity|discriminate E].
Qed.

Lemma demo_fetch ep x : exists resp, demo_served ep x resp.
Proof. exists None. by left. Qed.

Lemma demo_run sched p :
  Forall (always_allowed demo_served) sched -> iterM demo_act sched (program0 demo_base) = Some p -> demo_reach p.
Proof. apply schedule_steps. Qed.

(** The start of the program; the supervisor's way to its wait, and around a switch. *)
Definition demo_start : list action := replicate 3 (AMain false).
Definition sup_starts (i : nat) : list action := replicate 2 (ASup i false).
Definition sup_switches (i : nat) : list action := replicate 13 (ASup i false).

(** One feed runs; its consumer was refused the first snapshot twice. *)
Definition refused : meets := mkMeets (Some (418, None)) 0 false.
Definition demo_backoff : list action := demo_start ++ sup_starts 0 ++ replicate 6 (ACons 0 refused).

Lemma demo_backoff_run :
  exists p l, iterM demo_act demo_backoff (program0 demo_base) = Some p /\
    pg_feeds p !! 0%nat = Some l /\ lv_worker l = WBackoff 0 3200.
Proof.
  assert ((fun p => lv_worker <$> pg_feeds p !! 0%nat) <$> iterM demo_act demo_backoff (program0 demo_base)
    = Some (Some (WBackoff 0 3200))) as H by (vm_compute; reflexivity).
  destruct (iterM demo_act demo_backoff (program0 demo_base)) as [p|]; [|discriminate H].
  cbn in H. destruct (pg_feeds p !! 0%nat) as [l|] eqn:El; [|discriminate H].
  exists p, l. by injection H.
Qed.

Lemma always_refused i : Forall (always_allowed demo_served) (replicate 6 (ACons i refused)).
Proof. apply Forall_replicate. intros ep x. by right; right. Qed.

Lemma demo_backoff_allowed : Forall (always_allowed demo_served) demo_backoff.
Proof. repeat (apply Forall_app_2); [by apply Forall_replicate..|apply always_refused]. Qed.

Lemma program_sound_witness :
  exists p l, demo_reach p /\ pg_feeds p !! 0%nat = Some l /\ lv_worker l = WBackoff 0 3200 /\
    800 <= 3200 <= 30000.
Proof.
  destruct demo_backoff_run as (p & l & E & El & Ew).
  pose proof (demo_run _ p demo_backoff_allowed E) as H.
  destruct (program_sound demo_base 2 demo_stop true demo_dump Some "" demo_served p 0 l demo_band H El)
    as (ep & _ & _ & _ & _ & Hb & _).
  exists p, l. rewrite Ew in Hb. exact (conj H (conj El (conj Ew Hb))).
Defined.

(** Stopped at its start, the program ends. *)
Lemma program_ends_iff_witness :
  exists p, demo_reach p /\ pg_stop p = true /\ demo_can_end p.
Proof.
  pose proof (demo_run [ASignal] (program0 demo_base <| pg_stop := true |>)
    ltac:(repeat constructor) eq_refl) as H.
  exists (program0 demo_base <| pg_stop := true |>). split; [exact H|]. split; [reflexivity|].
  refine (proj2 (program_ends_iff demo_base 2 demo_stop true demo_dump Some "" demo_served _ demo_band demo_fetch
    _ H eq_refl) _).
  - lia.
  - right. constructor.
Defined.

Lemma program_can_hang_witness :
  exists p, demo_reach p /\ pg_stop p = true /\ ~ demo_can_end p.
Proof. exact (program_can_hang demo_base 2 demo_stop true demo_dump Some "" demo_served demo_band eq_refl). Defined.

(** The document of a book, asked for as the dashboard does. *)
Definition demo_doc_run : list action :=
  demo_start ++ sup_starts 0 ++ replicate 8 (ACons 0 (mkMeets (Some (200, Some demo_doc)) 0 false)) ++
  [ACons 0 (mkMeets None (10 ^ 9) false)].

Lemma demo_doc_shown :
  exists p l d, iterM demo_act demo_doc_run (program0 demo_base) = Some p /\
    pg_feeds p !! 0%nat = Some l /\ lv_snap l = PDoc d /\ is_Some (d_bid d).
Proof.
  assert ((fun p => (fun l => match lv_snap l with PDoc d => bool_decide (is_Some (d_bid d)) | _ => false end)
    <$> pg_feeds p !! 0%nat) <$> iterM demo_act demo_doc_run (program0 demo_base)
    = Some (Some true)) as H by (vm_compute; reflexivity).
  destruct (iterM demo_act demo_doc_run (program0 demo_base)) as [p|]; [|discriminate H].
  cbn in H. destruct (pg_feeds p !! 0%nat) as [l|] eqn:El; [|discriminate H].
  cbn in H. destruct (lv_snap l) as [| |d] eqn:Es; try discriminate H.
  exists p, l, d. injection H as H%bool_decide_eq_true. done.
Qed.

Lemma served_documents_witness :
  exists p d f, demo_reach p /\
    (answer demo_base demo_dump Some "" p "/snapshot.json?market=global").1 = (200, BDoc (demo_dump (PDoc d))) /\
    l2_wf (lf_book f) /\ d_levels d = live_orders_ (lf_book f).
Proof.
  destruct demo_doc_shown as (p & l & d & E & El & Es & _).
  assert (Forall (always_allowed demo_served) demo_doc_run) as Ha.
  { repeat (apply Forall_app_2); [by apply Forall_replicate|by apply Forall_replicate| |].
    - apply Forall_replicate. intros ep x. by right; left.
    - constructor; [|done]. intros ep x. by left. }
  pose proof (demo_run _ p Ha E) as H.
  destruct (served_documents demo_base 2 demo_stop true demo_dump Some "" demo_served p 0 endpoints_global l
    demo_band H eq_refl El) as [A D]. rewrite Es in A, D.
  destruct D as (_ & _ & _ & p0 & l0 & sid & f & t & _ & _ & _ & _ & W & _ & _ & _ & _ & _ & _ & _ & _ & L & _).
  exists p, d, f. split; [exact H|]. split; [|exact (conj W L)].
  change "/snapshot.json?market=global" with ("/snapshot.json?market=" +:+ ep_id endpoints_global). by rewrite A.
Defined.

(** Every step of a schedule leaves at most one handler. *)
Fixpoint serial_run (sched : list action) (p : Program) : option Program :=
  match sched with
  | [] => Some p
  | a :: sched =>
      p ← demo_act a p;
      if decide (length (pg_handlers p) <= 1)%nat then serial_run sched p else None
  end.

Lemma serial_run_steps sched p p' :
  Forall (always_allowed demo_served) sched -> serial_run sched p = Some p' ->
  rtc (serial_step demo_base 2 demo_stop true demo_dump Some "" demo_served) p p'.
Proof.
  revert p. induction sched as [|a sched IH]; intros p; cbn; [intros _ [= <-]; apply rtc_refl|].
  intros [Ha Hs]%list.Forall_cons (p1 & E & H)%bind_Some. case_decide as D; [|done].
  eapply rtc_l; [|by apply IH]. split; [|exact D].
  eapply act_step; [|exact E]. destruct a; try done. intros ep l _ _. apply Ha.
Qed.

(** Both feeds told, one after the other, and switched. *)
Definition demo_switch : list action :=
  demo_start ++ sup_starts 0 ++ sup_starts 1 ++
  [ARequest "/symbol?set=ethusdt"; ATell 0] ++ sup_switches 0 ++ [ATell 0] ++ sup_switches 1 ++ [AAnswer 0].

Lemma demo_switch_run :
  exists p, serial_run demo_switch (program0 demo_base) = Some p /\ pg_main p = PRun /\ pg_handlers p = [] /\
    Forall (fun l => fd_restart (lv_feed l) = false) (pg_feeds p) /\ pg_app p = "ETHUSDT" /\
    length (pg_feeds p) = 2%nat.
Proof.
  assert ((fun p => (pg_main p, pg_handlers p, (fun l => fd_restart (lv_feed l)) <$> pg_feeds p, pg_app p)) <$>
    serial_run demo_switch (program0 demo_base) = Some (PRun, [], [false; false], "ETHUSDT"))
    as H by (vm_compute; reflexivity).
  destruct (serial_run demo_switch (program0 demo_base)) as [p|]; [|discriminate H]. exists p.
  cbn in H. injection H as Em Eh Er Ea. split; [done|]. split; [done|]. split; [done|].
  destruct (pg_feeds p) as [|l1 [|l2 [|l3 ls]]]; try discriminate Er. cbn in Er. injection Er as E1 E2.
  split; [by repeat constructor|done].
Qed.

Lemma feeds_agree_witness :
  exists p, length (pg_feeds p) = 2%nat /\ Forall (fun l => fd_symbol (lv_feed l) = "ETHUSDT") (pg_feeds p).
Proof.
  destruct demo_switch_run as (p & E & Em & Eh & Er & Ea & En). exists p. split; [exact En|].
  rewrite <- Ea. apply serial_run_steps in E; [|repeat constructor].
  exact (proj1 (feeds_agree demo_base 2 demo_stop true demo_dump Some "" demo_served p demo_band E Em Eh Er)).
Defined.

(** A program over both markets. *)
Lemma feeds_diverge_witness :
  exists p, demo_reach p /\ pg_main p = PRun /\ pg_handlers p = [] /\ pg_app p = "SOLUSDT" /\
    (fun l => fd_symbol (lv_feed l)) <$> pg_feeds p = ["SOLUSDT"; "ETHUSDT"].
Proof.
  destruct (feeds_diverge demo_base 2 demo_stop true demo_dump Some "" demo_served "ETHUSDT" "SOLUSDT")
    as (p & H & Em & Eh & Ea & _ & Es).
  - reflexivity.
  - reflexivity.
  - reflexivity.
  - reflexivity.
  - reflexivity.
  - discriminate.
  - discriminate.
  - exists p. exact (conj H (conj Em (conj Eh (conj Ea Es)))).
Defined.

Lemma drain_meets_consumer_witness :
  exists p l e l', demo_reach p /\ lv_sup l = SPop /\
    cons_step endpoints_global (feed_cfg demo_base endpoints_global) e (view p l) = Some l' /\ overlap l' = true.
Proof.
  destruct (drain_meets_consumer demo_base 2 demo_stop true demo_dump Some "" demo_served "ETHUSDT"
    (Some (200, Some demo_doc)) (mkConfig 94 114 1 (2 ^ 16)) endpoints_global demo_band) as (p & l & H & _ & Es & Hc).
  - reflexivity.
  - reflexivity.
  - reflexivity.
  - discriminate.
  - reflexivity.
  - by right; left.
  - vm_compute. reflexivity.
  - vm_compute. discriminate.
  - vm_compute. discriminate.
  - vm_compute. reflexivity.
  - destruct (Hc refused) as (l' & E & Eo). exists p, l, refused, l'. exact (conj H (conj Es (conj E Eo))).
Defined.

Lemma document_mislabelled_witness :
  exists p d, demo_reach p /\
    (answer demo_base demo_dump Some "" p "/snapshot.json?market=global").1 = (200, BDoc (demo_dump (PDoc d))) /\
    d_symbol d = "ETHUSDT".
Proof.
  destruct (document_mislabelled demo_base 2 demo_stop true demo_dump Some "" demo_served "ETHUSDT"
    (Some (200, Some demo_doc)) (mkConfig 94 114 1 (2 ^ 16)) endpoints_global demo_band demo_fetch)
    as (p & l & f & d & H & _ & _ & A & Es & _).
  - reflexivity.
  - reflexivity.
  - reflexivity.
  - discriminate.
  - reflexivity.
  - by right; left.
  - vm_compute. reflexivity.
  - vm_compute. discriminate.
  - vm_compute. discriminate.
  - vm_compute. reflexivity.
  - exists p, d. split; [exact H|]. split; [|exact Es].
    change "/snapshot.json?market=global" with ("/snapshot.json?market=" +:+ ep_id endpoints_global). by rewrite A.
Defined.
