(* ===== verification/CommandLine.v ===== *)
(** * Command lines and environment

    [parse_args] of [tools/itch_gen.cpp] and [apps/live_feed.cpp], the loop over
    the arguments of [apps/feed_handler.cpp]'s [main], and the environment
    overrides of the live feed.  The three loops are one ([parse_args]) over the
    options of each program ([gen_arg], [handler_arg], [live_arg]).

    [std::stoull], [std::stoll] and [std::stoi] are modelled from the C++ standard
    ([stoull], [stoll], [stoi]); [None] is an exception, which no program catches.
    [std::stod] is a parameter. *)

From Stdlib Require Import SpecFloat Ascii String.
From stdpp Require Import base list strings numbers pretty.
From S2P Require Import Prelude Instrumentation SpscRing Pipeline LiveSession.

(** ** Numbers in text *)

Definition is_space (c : ascii) : bool :=
  let n := N_of_ascii c in (n =? 32)%N || ((9 <=? n) && (n <=? 13))%N.

Definition digit (c : ascii) : option Z :=
  let n := Z.of_N (N_of_ascii c) in if decide (48 <= n <= 57) then Some (n - 48) else None.

Fixpoint skip_spaces (s : string) : string :=
  match s with
  | String.String c s' => if is_space c then skip_spaces s' else s
  | EmptyString => EmptyString
  end.

(** The value of the leading digits, behind [acc]. *)
Fixpoint digits (acc : Z) (s : string) : Z :=
  match s with
  | String.String c s' => match digit c with Some d => digits (acc * 10 + d) s' | None => acc end
  | EmptyString => acc
  end.

Definition magnitude (s : string) : option Z :=
  match s with
  | String.String c _ => if decide (is_Some (digit c)) then Some (digits 0 s) else None
  | EmptyString => None
  end.

(** The sign ([true] is minus) and the magnitude the conversions start from. *)
Definition strto (s : string) : option (bool * Z) :=
  match skip_spaces s with
  | String.String c s' =>
      if Ascii.eqb c "-" then n ← magnitude s'; Some (true, n)
      else if Ascii.eqb c "+" then n ← magnitude s'; Some (false, n)
      else n ← magnitude (String.String c s'); Some (false, n)
  | EmptyString => None
  end.

Definition stoull (s : string) : option Z :=
  '(neg, n) ← strto s;
  if decide (n < 2 ^ 64) then Some (if neg : bool then u64 (- n) else n) else None.

(** A signed conversion into [w] bits. *)
Definition sto (w : Z) (s : string) : option Z :=
  '(neg, n) ← strto s;
  let v := if neg : bool then - n else n in
  if decide (- 2 ^ (w - 1) <= v < 2 ^ (w - 1)) then Some v else None.

Definition stoll : string -> option Z := sto 64.
Definition stoi : string -> option Z := sto 32.

(** ** The loop over the arguments *)

(** The program goes on, calls [exit], or ends by an exception. *)
Inductive Outcome (A : Type) := Parsed (a : A) | Exited (code : Z) | Threw.
Arguments Parsed {A}.
Arguments Exited {A}.
Arguments Threw {A}.

(** A value converted, or the exception. *)
Definition converted {A B} (x : option B) (f : B -> A) : Outcome A :=
  match x with Some b => Parsed (f b) | None => Threw end.

(** [arg k v a]: what option [k] does, [v] being the argument behind it, and
    whether it takes it ([next()]); behind the last argument [next()] is empty. *)
Fixpoint parse_args {A} (arg : string -> string -> A -> bool * Outcome A) (args : list string) (a : A)
    : Outcome A :=
  match args with
  | [] => Parsed a
  | k :: rest =>
      match arg k (hd "" rest) a with
      | (_, Exited code) => Exited code
      | (_, Threw) => Threw
      | (next, Parsed a') =>
          match rest with
          | [] => Parsed a'
          | _ :: rest' => if next then parse_args arg rest' a' else parse_args arg rest a'
          end
      end
  end.

(** *** The generator *)

Record Args := mkArgs { out : string; messages : Z; seed : Z; symbol : string }.

#[export] Instance Args_settable : Settable Args := fun a =>
  mkArgs (out a) (messages a) (seed a) (symbol a).

Definition default_args : Args := mkArgs "data/sample.itch" 500000 42 "SYNTH".

Definition gen_arg (k v : string) (a : Args) : bool * Outcome Args :=
  if decide (k = "--out") then (true, Parsed (a <| out := v |>))
  else if decide (k = "--orders" \/ k = "--messages" \/ k = "-n") then
    (true, converted (stoull v) (fun n => a <| messages := n |>))
  else if decide (k = "--seed") then (true, converted (stoull v) (fun n => a <| seed := n |>))
  else if decide (k = "--symbol") then (true, Parsed (a <| symbol := v |>))
  else if decide (k = "--help") then (false, Exited 0)
  else (false, Parsed a).

(** *** The replayer and the live feed *)

Section Stod.
Context (stod : string -> option spec_float).

Record HandlerArgs := mkHandlerArgs { h_file : string; h_bp : Backpressure; h_speed : spec_float }.

#[export] Instance HandlerArgs_settable : Settable HandlerArgs := fun a =>
  mkHandlerArgs (h_file a) (h_bp a) (h_speed a).

Definition default_handler_args : HandlerArgs :=
  mkHandlerArgs "data/sample.itch" Block (S754_zero false).

Definition handler_arg (k v : string) (a : HandlerArgs) : bool * Outcome HandlerArgs :=
  if decide (k = "--file") then (true, Parsed (a <| h_file := v |>))
  else if decide (k = "--speed") then (true, converted (stod v) (fun x => a <| h_speed := x |>))
  else if decide (k = "--drop") then (false, Parsed (a <| h_bp := Drop |>))
  else if decide (k = "--help") then (false, Exited 0)
  else (false, Parsed a).

Definition market_named (m : string) : option MarketMode :=
  if decide (m = "global") then Some Global
  else if decide (m = "us") then Some Us
  else if decide (m = "both") then Some Both
  else None.

Definition live_arg (k v : string) (c : Config) : bool * Outcome Config :=
  if decide (k = "--symbol") then (true, Parsed (c <| cf_symbol := upper v |>))
  else if decide (k = "--price-scale") then (true, converted (stoll v) (fun n => c <| price_scale := n |>))
  else if decide (k = "--size-scale") then (true, converted (stoll v) (fun n => c <| size_scale := n |>))
  else if decide (k = "--band-pct") then (true, converted (stod v) (fun x => c <| band_pct := x |>))
  else if decide (k = "--drop") then (false, Parsed (c <| cf_drop := true |>))
  else if decide (k = "--duration") then (true, converted (stoi v) (fun n => c <| duration_s := n |>))
  else if decide (k = "--depth-ms") then (true, converted (stoi v) (fun n => c <| depth_ms := n |>))
  else if decide (k = "--serve") then (true, converted (stoi v) (fun n => c <| serve_port := n |>))
  else if decide (k = "--bind") then (true, Parsed (c <| bind_host := v |>))
  else if decide (k = "--market") then
    (true, match market_named (lower v) with
           | Some m => Parsed (c <| market := m |>)
           | None => Exited 1
           end)
  else if decide (k = "--ws-url") then (true, Parsed (c <| ws_url := v |> <| ws_url_set := true |>))
  else if decide (k = "--rest-host") then
    (true, Parsed (c <| rest_host := v |> <| rest_host_set := true |>))
  else if decide (k = "--help") then (false, Exited 0)
  else (false, Parsed c).
End Stod.

(** *** The environment *)

(** A variable that is set and not empty. *)
Definition nonempty (v : option string) : option string :=
  match v with Some EmptyString => None | _ => v end.

Definition apply_env_overrides (getenv : string -> option string) (c : Config) : Outcome Config :=
  let rest c :=
    let c := match nonempty (getenv "SYMBOL") with
             | Some s => c <| cf_symbol := upper s |> | None => c end in
    let c := match m ← getenv "MARKET"; market_named (lower m) with
             | Some m => c <| market := m |> | None => c end in
    match nonempty (getenv "FH_BIND") with Some b => c <| bind_host := b |> | None => c end in
  match (if decide (serve_port c = 0) then nonempty (getenv "PORT") else None) with
  | Some p => converted (stoi p) (fun n => rest (c <| serve_port := n |> <| bind_host := "0.0.0.0" |>))
  | None => Parsed (rest c)
  end.

(** ** Lemmas: a number and its decimal text *)

(** The characters of the digits: their values; no spaces, no signs. *)
Lemma digit_char x :
  (x < 10)%N ->
  let c := pretty_N_char x in
  digit c = Some (Z.of_N x) /\ is_space c = false /\ Ascii.eqb c "-" = false /\ Ascii.eqb c "+" = false.
Proof.
  intros H. assert (x = 0 \/ x = 1 \/ x = 2 \/ x = 3 \/ x = 4 \/ x = 5 \/ x = 6 \/ x = 7 \/ x = 8 \/
    x = 9)%N as Hx by lia. by destruct_or! Hx; subst x.
Qed.

(** The digits of [x] in front of [s]. *)
Lemma digits_go x s : digits 0 (pretty_N_go x s) = digits (Z.of_N x) s.
Proof.
  revert s. induction (N.lt_wf_0 x) as [x _ IH]. intros s.
  destruct (decide (x = 0)%N) as [->|Hx]; [by rewrite pretty_N_go_0|].
  rewrite pretty_N_go_step by lia. rewrite IH by (apply N.div_lt; lia).
  cbn [digits]. rewrite (proj1 (digit_char (x `mod` 10) ltac:(apply N.mod_lt; lia))). f_equal.
  pose proof (N.div_mod x 10 ltac:(lia)) as E. lia.
Qed.

Lemma first_go x s :
  (0 < x)%N -> exists d s', pretty_N_go x s = String.String (pretty_N_char d) s' /\ (d < 10)%N.
Proof.
  revert s. induction (N.lt_wf_0 x) as [x _ IH]. intros s Hx. rewrite pretty_N_go_step by lia.
  destruct (decide (x `div` 10 = 0)%N) as [->|Hd].
  - rewrite pretty_N_go_0. eexists _, _. split; [reflexivity|apply N.mod_lt; lia].
  - apply IH; [apply N.div_lt; lia|by apply N.neq_0_lt_0].
Qed.

(** A text of digits: not a space, not a sign, its value. *)
Lemma pretty_N_text x :
  exists d s', pretty x = String.String (pretty_N_char d) s' /\ (d < 10)%N /\
    digits 0 (pretty x) = Z.of_N x.
Proof.
  unfold pretty, pretty_N. destruct (decide (x = 0)%N) as [->|Hx].
  - exists 0%N, EmptyString. split; [reflexivity|]. split; [lia|reflexivity].
  - destruct (first_go x EmptyString) as (d & s' & E & Hd); [lia|]. exists d, s'.
    split; [exact E|]. split; [exact Hd|]. by rewrite digits_go.
Qed.

Lemma magnitude_text x : magnitude (pretty x) = Some (Z.of_N x).
Proof.
  destruct (pretty_N_text x) as (d & s' & E & Hd & V). unfold magnitude. rewrite E.
  rewrite decide_True by (rewrite (proj1 (digit_char d Hd)); by eexists). by rewrite <- E, V.
Qed.

Lemma strto_unsigned x : strto (pretty x) = Some (false, Z.of_N x).
Proof.
  pose proof (magnitude_text x) as M. destruct (pretty_N_text x) as (d & s' & E & Hd & _).
  destruct (digit_char d Hd) as (_ & S & N & P). rewrite E in M |- *. unfold strto.
  cbn [skip_spaces]. by rewrite S, N, P, M.
Qed.

Lemma strto_to_string n : strto (to_string n) = Some (bool_decide (n < 0), Z.abs n).
Proof.
  destruct n as [|p|p]; [reflexivity|apply (strto_unsigned (N.pos p))|].
  change (strto (to_string (Z.neg p))) with (n ← magnitude (pretty (N.pos p)); Some (true, n)).
  by rewrite magnitude_text.
Qed.

Lemma stoull_to_string n : in_u 64 n -> stoull (to_string n) = Some n.
Proof.
  intros Hn. unfold stoull, in_u in *. rewrite strto_to_string, bool_decide_false by lia.
  cbn [mbind option_bind]. rewrite decide_True by lia. f_equal. lia.
Qed.

Lemma sto_to_string w n : - 2 ^ (w - 1) <= n < 2 ^ (w - 1) -> sto w (to_string n) = Some n.
Proof.
  intros Hn. unfold sto. rewrite strto_to_string. cbn [mbind option_bind].
  destruct (bool_decide_reflect (n < 0)).
  - rewrite decide_True by lia. f_equal. lia.
  - rewrite decide_True by lia. f_equal. lia.
Qed.

(** ** Lemmas: the loop *)

(** An option that takes its value. *)
Lemma parse_value {A} (arg : string -> string -> A -> bool * Outcome A) k v rest a a' :
  arg k v a = (true, Parsed a') -> parse_args arg (k :: v :: rest) a = parse_args arg rest a'.
Proof. intros E. cbn [parse_args hd]. by rewrite E. Qed.

Lemma parse_flag {A} (arg : string -> string -> A -> bool * Outcome A) k rest a a' :
  arg k (hd "" rest) a = (false, Parsed a') -> parse_args arg (k :: rest) a = parse_args arg rest a'.
Proof. intros E. cbn [parse_args]. rewrite E. by destruct rest. Qed.

(** *** The arguments that ask for a configuration *)

(** The next option and its value, converted by [conv]. *)
#[local] Ltac next_value conv :=
  erewrite parse_value by (unfold gen_arg, handler_arg, live_arg; conv; reflexivity).

Definition gen_args (a : Args) : list string :=
  ["--out"; out a; "--messages"; to_string (messages a); "--seed"; to_string (seed a);
   "--symbol"; symbol a].

Lemma gen_args_parse a :
  in_u 64 (messages a) -> in_u 64 (seed a) -> parse_args gen_arg (gen_args a) default_args = Parsed a.
Proof.
  intros Hm%stoull_to_string Hs%stoull_to_string. unfold gen_args.
  do 4 next_value ltac:(rewrite ?Hm, ?Hs). by destruct a.
Qed.

(** The text [show] gives to a double is read back by [std::stod]. *)
Section Render.
Context (stod : string -> option spec_float) (show : spec_float -> string).

Definition flag (b : bool) (l : list string) : list string := if b then l else [].

Definition market_args (m : MarketMode) : list string :=
  match m with
  | Auto => [] | Global => ["--market"; "global"] | Us => ["--market"; "us"] | Both => ["--market"; "both"]
  end.

Definition live_args (c : Config) : list string :=
  ["--symbol"; cf_symbol c; "--price-scale"; to_string (price_scale c);
   "--size-scale"; to_string (size_scale c); "--band-pct"; show (band_pct c);
   "--duration"; to_string (duration_s c); "--depth-ms"; to_string (depth_ms c);
   "--serve"; to_string (serve_port c); "--bind"; bind_host c] ++
  market_args (market c) ++ flag (ws_url_set c) ["--ws-url"; ws_url c] ++
  flag (rest_host_set c) ["--rest-host"; rest_host c] ++ flag (cf_drop c) ["--drop"].

(** A configuration the command line can express. *)
Record config_ok (c : Config) : Prop := {
  co_symbol : upper (cf_symbol c) = cf_symbol c;
  co_price : - 2 ^ 63 <= price_scale c < 2 ^ 63;
  co_size : - 2 ^ 63 <= size_scale c < 2 ^ 63;
  co_band : stod (show (band_pct c)) = Some (band_pct c);
  co_duration : - 2 ^ 31 <= duration_s c < 2 ^ 31;
  co_depth : - 2 ^ 31 <= depth_ms c < 2 ^ 31;
  co_serve : - 2 ^ 31 <= serve_port c < 2 ^ 31;
  co_ws : ws_url_set c = false -> ws_url c = ws_url default_live_config;
  co_rest : rest_host_set c = false -> rest_host c = rest_host default_live_config }.

Lemma live_args_parse c :
  config_ok c -> parse_args (live_arg stod) (live_args c) default_live_config = Parsed c.
Proof.
  intros [Hs Hp%(sto_to_string 64) Hz%(sto_to_string 64) Hb Hd%(sto_to_string 32)
    Hm%(sto_to_string 32) Hv%(sto_to_string 32) Hw Hr].
  unfold live_args. cbn [app]. do 8 next_value ltac:(unfold stoll, stoi; rewrite ?Hp, ?Hz, ?Hb, ?Hd, ?Hm, ?Hv).
  rewrite Hs. clear Hs Hp Hz Hb Hd Hm Hv.
  destruct c as [sym ps zs band drop_ dur ms port host mk url rest_ rset wset].
  cbn [ws_url_set ws_url rest_host_set rest_host market cf_drop] in *.
  destruct wset; [|rewrite (Hw eq_refl)]; (destruct rset; [|rewrite (Hr eq_refl)]);
    destruct mk, drop_; reflexivity.
Qed.
End Render.

(** ** Theorems *)

(** C27. Every configuration can be asked for.  The arguments that spell out a
    configuration (its symbol in capitals, its numbers in the ranges of their
    types) are parsed to it, and an empty environment leaves it as it is. *)
Theorem live_args_roundtrip stod show c (getenv : string -> option string) :
  config_ok stod show c -> (forall v, getenv v = None) ->
  parse_args (live_arg stod) (live_args show c) default_live_config = Parsed c /\
  apply_env_overrides getenv c = Parsed c.
Proof.
  intros Hc Hg. split; [by apply live_args_parse|]. unfold apply_env_overrides. rewrite !Hg.
  by case_decide.
Qed.

Lemma live_args_roundtrip_witness :
  let c := default_live_config <| cf_symbol := "ETHUSDT" |> <| serve_port := 8080 |> <| market := Us |>
             <| cf_drop := true |> in
  parse_args (live_arg (fun _ => Some (f64 10))) (live_args (fun _ => "10") c) default_live_config =
    Parsed c.
Proof.
  refine (proj1 (live_args_roundtrip (fun _ => Some (f64 10)) (fun _ => "10") _ (fun _ => None) _
    (fun _ => eq_refl))).
  split; cbn; try reflexivity; try (intros; reflexivity); split; (discriminate || reflexivity).
Defined.

(** The options that want a number. *)
Definition gen_numbers : list string := ["--orders"; "--messages"; "-n"; "--seed"].
Definition live_numbers : list string :=
  ["--price-scale"; "--size-scale"; "--band-pct"; "--duration"; "--depth-ms"; "--serve"].

(** An option without its number ends the program.  [next()] hands out an
    empty string behind the last argument, as if a default were meant, but the
    conversions throw on it and nothing catches: whatever was parsed before, an
    option that wants a number and comes last is an uncaught exception, in each of
    the three programs. *)
Theorem number_missing_throws stod a h c k :
  stod "" = None ->
  (k ∈ gen_numbers -> parse_args gen_arg [k] a = Threw) /\
  (k = "--speed" -> parse_args (handler_arg stod) [k] h = Threw) /\
  (k ∈ live_numbers -> parse_args (live_arg stod) [k] c = Threw).
Proof.
  intros Hs. unfold gen_numbers, live_numbers. split; [|split].
  - rewrite !elem_of_cons, elem_of_nil. intros Hk. destruct_or! Hk; subst; done.
  - intros ->. unfold parse_args, handler_arg. cbn [hd]. by rewrite Hs.
  - rewrite !elem_of_cons, elem_of_nil. intros Hk. destruct_or! Hk; subst; try done;
      unfold parse_args, live_arg; cbn [hd]; by rewrite Hs.
Qed.

Lemma number_missing_throws_witness :
  parse_args gen_arg ["--seed"] default_args = Threw /\
  parse_args (live_arg (fun _ => None)) ["--serve"] default_live_config = Threw.
Proof.
  pose proof (number_missing_throws (fun _ => None) default_args default_handler_args
    default_live_config "--seed" eq_refl) as (H1 & _ & _).
  pose proof (number_missing_throws (fun _ => None) default_args default_handler_args
    default_live_config "--serve" eq_refl) as (_ & _ & H3).
  split; [apply H1|apply H3]; apply (bool_decide_unpack _); vm_compute; exact I.
Defined.
