(* ===== verification/Tools.v ===== *)
(** * The programs, from their command lines

    The [main]s of [tools/itch_gen.cpp] and [apps/feed_handler.cpp] over a file
    system: a map from paths to contents.  The random engine, the clocks, the file
    descriptor and whether a path can be written are arguments; what is printed is
    in [Report].  [tools_end_to_end]: what one writes, the other replays. *)

From Stdlib Require Import SpecFloat Ascii String.
From stdpp Require Import base list gmap strings numbers.
From S2P Require Import Prelude MarketEvent ByteRead ItchParser FeedSource OrderPool.
From S2P Require Import OrderBook BookSpec OrderBookWf OrderBookBest BookLadder.
From S2P Require Import OrderBookProps BookOrders ItchGen ItchGenWrite ItchGenProps Instrumentation.
From S2P Require Import Publisher Sequencer Pipeline PipelineThreads Replay LiveSession SpscRing CommandLine.

Notation files := (gmap string (list byte)).

(** How a program ends: its exit status and what it leaves; [None] is an uncaught
    exception. *)
Notation program A := (option (Z * A)).

(** ** The generator *)

Section Generator.
(** [rng seed]: the draws of [std::mt19937_64] seeded so. *)
Context (rng : Z -> nat -> Z -> Z -> Z) (writable : string -> bool).

Definition itch_gen_main (args : list string) (fs : files) : program files :=
  match parse_args gen_arg args default_args with
  | Threw => None
  | Exited code => Some (code, fs)
  | Parsed a =>
      if negb (writable (out a)) then Some (1, fs) else
      let sym := gen_sym (list_byte_of_string (symbol a)) in
      g ← gen_main (rng (seed a)) sym (CommandLine.messages a);
      Some (0, <[out a := g_out g]> fs)
  end.
End Generator.

(** ** The replayer *)

Section Replayer.
Context (stod : string -> option spec_float) (fd : Z) (t clk : nat -> Z * Z) (full : nat -> bool).

(** [open], [fstat] and [mmap] of a path. *)
Definition file_open (fs : files) (path : string) : OpenResult :=
  match fs !! path with
  | None => mkOpen (-1) None None
  | Some data => mkOpen fd (Some (Z.of_nat (length data))) (Some data)
  end.

Definition handler_config (a : HandlerArgs) : PipelineConfig :=
  mkPipeConfig default_config (h_bp a) (h_speed a) (S754_zero false) 0 0 0.

(** The threads of the pipeline run one after the other ([run_pipeline]); with
    [--drop] a message is lost when it meets a full channel ([full]). *)
Definition feed_handler_main (args : list string) (fs : files)
    : program (option (PipelineResult * Consumer)) :=
  match parse_args (handler_arg stod) args default_handler_args with
  | Threw => None
  | Exited code => Some (code, None)
  | Parsed a =>
      let src := ItchFileSource_open (file_open fs (h_file a)) in
      if ItchFileSource_ok src then
        '(frames, _) ← all_frames (S (Z.to_nat (size_ src))) src;
        r ← run_pipeline (handler_config a) (stamped_frames t frames) clk full;
        Some (0, Some r)
      else Some (1, None)
  end.
End Replayer.

Lemma default_fits : fits (clamp_config default_config).
Proof. split; [split|..]; vm_compute; (reflexivity || discriminate || (split; congruence)). Qed.

(** A file that was just written is opened and mapped. *)
Lemma open_written fd fs path data :
  0 <= fd -> 0 < Z.of_nat (length data) ->
  ItchFileSource_open (file_open fd (<[path := data]> fs) path) =
    mkFile fd (Some data) (Z.of_nat (length data)) 0 0.
Proof.
  intros Hfd Hl. unfold file_open. rewrite lookup_insert_eq. unfold ItchFileSource_open.
  cbn [os_fd os_size os_map]. by rewrite !decide_False by lia.
Qed.

Lemma gen_sym_length l : length (gen_sym l) = 8%nat.
Proof. unfold gen_sym. rewrite length_take, length_app, length_replicate. lia. Qed.

(** C10. The two programs together.  Asked for at most [2 ^ 32 - 3] messages into a
    file it can write, [itch_gen] exits with status 0, whatever the seed; then
    [feed_handler --file] on that file exits with status 0 too, and the market it
    ends with is that of queues holding exactly the orders the generator had live,
    each in the slot of its price: every message counted, none undecodable, nothing
    missing.  However the two threads of the pipeline interleave, a run that has
    ended has that result. *)
Theorem tools_end_to_end rng writable stod fd t clk full a fs :
  in_range (rng (seed a)) -> writable (out a) = true -> 0 <= fd ->
  0 <= CommandLine.messages a < 2 ^ 32 - 2 -> in_u 64 (seed a) ->
  let c' := clamp_config default_config in
  exists fs' g r c ls,
    itch_gen_main rng writable (gen_args a) fs = Some (0, fs') /\
    fs' = <[out a := g_out g]> fs /\
    feed_handler_main stod fd t clk full ["--file"; out a] fs' = Some (0, Some (r, c)) /\
    concat ls ≡ₚ order_of_live <$> live g /\ slotted c' ls /\
    final_bid r = a_best (a_bids c' ls) /\ final_ask r = a_best (a_asks c' ls) /\
    top_bids r = take 5 (a_bids c' ls) /\ top_asks r = take 5 (a_asks c' ls) /\
    res_messages r = Z.max 1 (CommandLine.messages a) + 1 /\ res_parse_errors r = 0 /\
    stale_ (c_seq c) = false /\
    exists frames src, all_frames (S (length (g_out g))) (ItchFileSource_open (file_open fd fs' (out a))) =
      Some (frames, src) /\
    forall w,
      treachable (handler_config (mkHandlerArgs (out a) Block (S754_zero false)))
        (stamped_frames t frames) clk w -> w_phase w = Ended -> finish w = Some r /\ w_cons w = c.
Proof.
  intros Hu Hw Hfd Hm Hs c'.
  set (sym := gen_sym (list_byte_of_string (symbol a))).
  pose (cfg := handler_config (mkHandlerArgs (out a) Block (S754_zero false))).
  destruct (replay_ok (rng (seed a)) sym cfg (CommandLine.messages a) fd t clk full)
    as (g & frames & s & r & c & ls & Eg & Hlen & Ef & Er & H);
    [reflexivity|exact Hu|apply gen_sym_length|apply default_fits|exact Hm|exact Hfd|by intros [? _]|].
  exists (<[out a := g_out g]> fs), g, r, c, ls.
  pose proof (open_written fd fs (out a) (g_out g) Hfd ltac:(lia)) as Eo.
  assert (all_frames (S (length (g_out g)))
    (ItchFileSource_open (file_open fd (<[out a := g_out g]> fs) (out a))) = Some (frames, s)) as Ea.
  { rewrite Eo. unfold ItchFileSource_open in Ef. cbn [os_fd os_size os_map] in Ef.
    rewrite !decide_False in Ef by lia. apply (all_frames_more _ _ _ _ Ef). lia. }
  destruct H as (H1 & H2 & H3 & H4 & H5 & H6 & H7 & H8 & H9).
  split; [|split; [done|]]; [|split; [|do 9 (split; [assumption|]); exists frames, s; split; [exact Ea|]]].
  - unfold itch_gen_main. rewrite gen_args_parse by (done || (unfold in_u; lia)).
    rewrite Hw. cbn [negb]. fold sym. by rewrite Eg.
  - unfold feed_handler_main.
    change (parse_args (handler_arg stod) ["--file"; out a] default_handler_args)
      with (Parsed (mkHandlerArgs (out a) Block (S754_zero false))).
    cbn [h_file]. rewrite Eo in Ea |- *. unfold ItchFileSource_ok. cbn [data_ size_].
    rewrite bool_decide_true by by eexists. rewrite Nat2Z.id, Ea. cbn [mbind option_bind].
    fold cfg. by rewrite Er.
  - intros w R E. pose proof (ended_result cfg _ _ full w eq_refl R E) as F.
    rewrite Er in F. symmetry in F. apply bind_Some in F as (r' & F & [= <- <-]). by rewrite F.
Qed.

Lemma tools_end_to_end_witness :
  exists fs' r c,
    itch_gen_main (fun _ => draw_low) (fun _ => true)
      ["--out"; "feed.itch"; "--messages"; "12"; "--seed"; "7"; "--symbol"; "SY"] ∅ = Some (0, fs') /\
    feed_handler_main (fun _ => None) 3 (fun _ => (0, 0)) (fun _ => (0, 0)) (fun _ => false) ["--file"; "feed.itch"] fs' =
      Some (0, Some (r, c)) /\ res_messages r = 13.
Proof.
  destruct (tools_end_to_end (fun _ => draw_low) (fun _ => true) (fun _ => None) 3 (fun _ => (0, 0))
    (fun _ => (0, 0)) (fun _ => false) (mkArgs "feed.itch" 12 7 "SY") ∅)
    as (fs' & g & r & c & ls & E1 & _ & E2 & _ & _ & _ & _ & _ & _ & M & _).
  - intros k lo hi H. unfold draw_low. split; [apply Z.le_refl|exact H].
  - reflexivity.
  - discriminate.
  - split; [discriminate|reflexivity].
  - split; [discriminate|reflexivity].
  - exists fs', r, c. exact (conj E1 (conj E2 M)).
Defined.
