(* ===== verification/Report.v ===== *)
(** * What the programs print

    The console output of [apps/feed_handler.cpp], [apps/live_feed.cpp] and
    [tools/itch_gen.cpp], as lists of lines: [ns_str], [print_level], the report of
    the replayer, the summary of the generator, the lines of the live feed.
    [std::printf] is modelled from the C standard: the conversions used are [%llu],
    [%u], [%s] and [%.kf]; [fixed] is the last one, the decimal with [k] digits
    nearest to the double, ties to even.  [general] is a double on an [ostream].

    [fixed_reads_back]: the text denotes that decimal. *)

From Stdlib Require Import SpecFloat Ascii String.
From stdpp Require Import base list strings numbers pretty.
From S2P Require Import Prelude MarketEvent OrderPool OrderBook BookSpec OrderBookWf.
From S2P Require Import OrderBookBest BookLadder OrderBookProps BookL2 Instrumentation Publisher Sequencer.
From S2P Require Import ItchGen SpscRing Pipeline PipelineThreads LiveFeed LiveSession LiveServer LiveThreads CommandLine Tools.

#[local] Arguments String.append : simpl nomatch.

(** ** Decimals *)

Fixpoint zeros (n : nat) : string :=
  match n with O => "" | S n => String.String "0" (zeros n) end.

Definition zero_pad (k : nat) (s : string) : string := zeros (k - String.length s) +:+ s.

(** [n] counted in units of [10 ^ -k]. *)
Definition point (k : nat) (n : Z) : string :=
  match k with
  | O => to_string n
  | _ => to_string (n / 10 ^ Z.of_nat k) +:+ "." +:+ zero_pad k (to_string (n mod 10 ^ Z.of_nat k))
  end.

Definition round_half_even (num den : Z) : Z :=
  let q := num / den in
  let r := num mod den in
  if decide (2 * r < den) then q else if decide (den < 2 * r) then q + 1
  else if Z.even q then q else q + 1.

(** [m * 2 ^ e] in units of [10 ^ -k]. *)
Definition decimal (k : nat) (m : BinNums.positive) (e : Z) : Z :=
  if decide (0 <= e) then Z.pos m * 2 ^ e * 10 ^ Z.of_nat k
  else round_half_even (Z.pos m * 10 ^ Z.of_nat k) (2 ^ (- e)).

Definition minus (s : bool) : string := if s then "-" else "".

(** [%.kf] *)
Definition fixed (k : nat) (x : spec_float) : string :=
  match x with
  | S754_zero s => minus s +:+ point k 0
  | S754_infinity s => minus s +:+ "inf"
  | S754_nan => "nan"
  | S754_finite s m e => minus s +:+ point k (decimal k m e)
  end.

(** The exponent [x] with [10 ^ x <= num / den < 10 ^ (x + 1)], searched from below. *)
Fixpoint exponent10 (fuel : nat) (num den x : Z) : Z :=
  match fuel with
  | O => x
  | S fuel =>
      if decide (num * 10 ^ Z.max 0 (- (x + 1)) < den * 10 ^ Z.max 0 (x + 1)) then x
      else exponent10 fuel num den (x + 1)
  end.

(** [num / den] in units of [10 ^ x], rounded. *)
Definition scaled10 (num den x : Z) : Z :=
  round_half_even (num * 10 ^ Z.max 0 (- x)) (den * 10 ^ Z.max 0 x).

(** [n] in units of [10 ^ -k] without the zeros at its end. *)
Fixpoint trim (k : nat) (n : Z) : nat * Z :=
  match k with
  | O => (O, n)
  | S k' => if decide (n mod 10 = 0) then trim k' (n / 10) else (k, n)
  end.

Definition point_trimmed (k : nat) (n : Z) : string := let '(k, n) := trim k n in point k n.

(** A double on an [ostream] ([%g]): six digits, in exponent notation when that is
    shorter.  A binary64 number has an exponent of ten above -325. *)
Definition general (x : spec_float) : string :=
  match x with
  | S754_zero s => minus s +:+ "0"
  | S754_infinity s => minus s +:+ "inf"
  | S754_nan => "nan"
  | S754_finite s m e =>
      let num := Z.pos m * 2 ^ Z.max 0 e in
      let den := 2 ^ Z.max 0 (- e) in
      let x0 := exponent10 700 num den (-325) in
      let x := if decide (scaled10 num den (x0 - 5) = 10 ^ 6) then x0 + 1 else x0 in
      minus s +:+
      if decide (-4 <= x < 6) then point_trimmed (Z.to_nat (5 - x)) (scaled10 num den (x - 5))
      else point_trimmed 5 (scaled10 num den (x - 5)) +:+ "e" +:+
        (if decide (x < 0) then "-" else "+") +:+ zero_pad 2 (to_string (Z.abs x))
  end.

(** [%-ns] *)
Definition pad_right (n : nat) (s : string) : string :=
  s +:+ Nat.iter (n - String.length s) (String.String " ") "".

(** ** Times and levels *)

Definition ns_str (ns : Z) : string :=
  if decide (ns < 1000) then to_string ns +:+ " ns"
  else if decide (ns < 1000000) then fixed 2 (f64 ns / f64 1000)%f64 +:+ " us"
  else fixed 2 (f64 ns / f64 1000000)%f64 +:+ " ms".

Definition price_ticks_to_double (price_ticks : Z) : spec_float := (f64 price_ticks / f64 10000)%f64.

Definition print_level (label : string) (l : BookLevel) : string :=
  if negb (valid l) then "  " +:+ label +:+ ": (empty)"
  else "  " +:+ label +:+ ": " +:+ fixed 4 (price_ticks_to_double (bl_price_ticks l)) +:+ "  x " +:+
    to_string (bl_aggregate_size l) +:+ "  (" +:+ to_string (bl_order_count l) +:+ " orders)".

(** ** The report of the replayer *)

Definition latency_lines (L : LatencySnapshot) : list string :=
  if decide (count L > 0) then
    ["  count " +:+ to_string (count L) +:+ "  min " +:+ ns_str (min_ns L) +:+ "  mean " +:+
       ns_str (trunc_f64 (mean_ns L)) +:+ "  max " +:+ ns_str (max_ns L);
     "  p50 " +:+ ns_str (p50_ns L) +:+ "   p99 " +:+ ns_str (p99_ns L) +:+ "   p99.9 " +:+ ns_str (p999_ns L)]
  else [].

Definition handler_report (r : PipelineResult) (t : Measured) : list string :=
  let bs := res_book_stats r in
  ["";
   "=== Pipeline ===";
   "  messages processed : " +:+ to_string (res_messages r);
   "  parse errors       : " +:+ to_string (res_parse_errors r);
   "  elapsed            : " +:+ fixed 3 (elapsed_s t) +:+ " s";
   "  throughput         : " +:+ fixed 2 (throughput_msgs_per_s t / f64 1000000)%f64 +:+ " M msg/s";
   "  peak queue depth   : " +:+ to_string (peak_queue t) +:+ " / " +:+ to_string kRingCapacity;
   "  ring drops         : " +:+ to_string (res_drops r);
   "  L1 deltas published: " +:+ to_string (res_l1_deltas r);
   "";
   "=== Book events ===";
   "  add " +:+ to_string (adds bs) +:+ "  cancel " +:+ to_string (cancels bs) +:+ "  delete " +:+
     to_string (deletes bs) +:+ "  execute " +:+ to_string (executes bs) +:+ "  replace " +:+
     to_string (replaces bs) +:+ "  trade " +:+ to_string (trades bs);
   "  unknown-ref " +:+ to_string (unknown_ref bs) +:+ "  out-of-band " +:+
     to_string (rejected_out_of_band bs) +:+ "  crossed-observed " +:+ to_string (crossed_observed bs);
   "";
   "=== Top of book (final) ===";
   print_level "ask" (final_ask r);
   print_level "bid" (final_bid r);
   "  live orders: " +:+ to_string (final_live_orders r);
   "";
   "=== End-to-end latency (received -> book-updated) ==="] ++ latency_lines (res_latency r).

(** [ItchFileSource::name]. *)
Definition itch_name : string := "ITCH 5.0 file (length-framed, mmap)".

(** The output of [feed_handler] on a file it has replayed, and on one it cannot
    open. *)
Definition handler_output (file : string) (r : PipelineResult) (t : Measured) : list string :=
  ("Replaying " +:+ file +:+ " through " +:+ itch_name +:+ " ...") :: handler_report r t.

Definition cannot_open (file : string) : list string :=
  ["feed_handler: cannot open ITCH file '" +:+ file +:+ "' (generate one with: itch_gen --out " +:+ file +:+ ")"].

Definition handler_usage : list string := ["usage: feed_handler [--file FILE] [--speed Nx] [--drop]"].

(** All [feed_handler] prints; [end_] is how its [main] ended. *)
Definition handler_prints (stod : string -> option spec_float) (args : list string)
    (end_ : Z * option (PipelineResult * Consumer)) (t : Measured) : list string :=
  match parse_args (handler_arg stod) args default_handler_args with
  | Threw => []
  | Exited _ => handler_usage
  | Parsed a => match end_ with (_, Some (r, _)) => handler_output (h_file a) r t | _ => cannot_open (h_file a) end
  end.

(** ** The summary of the generator *)

Definition gen_usage : list string :=
  ["usage: itch_gen [--out FILE] [--orders N] [--seed S] [--symbol SYM]"].

(** [os.tellp()] is the length of the file. *)
Definition gen_summary (a : Args) (g : Gen) : list string :=
  ["itch_gen: wrote " +:+ to_string (g_count g) +:+ " messages to " +:+ out a +:+ " (" +:+
     general (f64 (Z.of_nat (length (g_out g))) / f64 1000000)%f64 +:+ " MB), " +:+
     to_string (Z.of_nat (length (ItchGen.live g))) +:+ " orders live at end"].

(** ** The lines of the live feed *)

Section LiveLines.
Context (ep : FeedEndpoints) (price_div size_div : spec_float).

(** The line of a session's first book. *)
Definition preload_line (bc : OrderBookConfig) (f : LiveFeed) : option string :=
  b ← OrderBook.best_bid (lf_book f);
  a ← OrderBook.best_ask (lf_book f);
  let price ticks := fixed 2 (f64 ticks / price_div)%f64 in
  Some ("[" +:+ ep_id ep +:+ "] snapshot lastUpdateId " +:+ to_string (lf_L f) +:+ ": preloaded " +:+
    to_string (live_orders_ (lf_book f)) +:+ " levels, band [" +:+ price (min_price_ticks bc) +:+ ", " +:+
    price (max_price_ticks bc) +:+ "], top " +:+ price (bl_price_ticks b) +:+ " / " +:+
    price (bl_price_ticks a)).

(** The line of every second; [dropped] is the channel's counter. *)
Definition status_line (sym : string) (rate : spec_float) (dropped : Z) (f : LiveFeed) : option string :=
  b ← OrderBook.best_bid (lf_book f);
  a ← OrderBook.best_ask (lf_book f);
  let price ticks := fixed 2 (f64 ticks / price_div)%f64 in
  let size n := fixed 3 (f64 n / size_div)%f64 in
  let ls := Instrumentation.snapshot (lf_hist f) in
  let bs := stats_ (lf_book f) in
  Some ("[" +:+ pad_right 7 (ep_id ep) +:+ "] " +:+ pad_right 8 sym +:+
    " bid " +:+ price (bl_price_ticks b) +:+ " x" +:+ size (bl_aggregate_size b) +:+
    " | ask " +:+ price (bl_price_ticks a) +:+ " x" +:+ size (bl_aggregate_size a) +:+
    " | spread " +:+ price (bl_price_ticks a - bl_price_ticks b) +:+
    " | levels " +:+ to_string (live_orders_ (lf_book f)) +:+ " | " +:+ fixed 0 rate +:+ " op/s | p50 " +:+
    ns_str (p50_ns ls) +:+ " p99 " +:+ ns_str (p99_ns ls) +:+ " | drops " +:+ to_string dropped +:+
    " | gaps " +:+ to_string (gaps f) +:+ " resync " +:+ to_string (resyncs f) +:+
    " | oob " +:+ to_string (rejected_out_of_band bs) +:+ " cross " +:+ to_string (crossed_observed bs) +:+
    " | " +:+ match lf_mode f with Streaming => "streaming" | Seeking => "SEEKING" end).

(** What a failed snapshot request is reported with. *)
Definition snapshot_error (http_status : Z) : string :=
  "snapshot HTTP failed (status " +:+ to_string http_status +:+ ")" +:+
  if decide (http_status = 451 \/ http_status = 403) then
    " -- region-restricted? try --market us (or --market global for data-api.binance.vision)"
  else if decide (http_status = 418) then
    " -- rate limited (wait a few seconds before switching symbol/market)"
  else "".
End LiveLines.

(** What [parse_args] prints before it exits: with status 0, or with status 1 behind
    a market it does not know. *)
Definition live_usage : list string :=
  ["usage: live_feed [--symbol BTCUSDT] [--price-scale 100] [--size-scale 1000000]";
   "                 [--band-pct 10] [--depth-ms 100|1000] [--drop] [--duration SECONDS]";
   "                 [--serve PORT] [--bind HOST] [--market global|us|both]";
   "                 [--rest-host URL] [--ws-url URL]";
   "Streams Binance's public diff-depth (L2) feed through the engine. No API key required.";
   "  --serve PORT     web dashboard at http://localhost:PORT";
   "  --bind HOST      HTTP listen address (default 127.0.0.1; use 0.0.0.0 to deploy)";
   "  Env: PORT        if set and --serve omitted, starts dashboard on PORT (bind 0.0.0.0)";
   "  Env: SYMBOL      override --symbol (e.g. BTCUSDT)";
   "  Env: MARKET       override --market (global|us|both)";
   "  --market         global = binance.com data (data-api.binance.vision)";
   "                   us = binance.us | both = run both (default with --serve)"].

Definition market_unknown (m : string) : string :=
  "unknown --market " +:+ m +:+ " (use global, us, or both)".

(** The first and the last lines of [main]. *)
Definition start_lines (mode : MarketMode) (first : FeedEndpoints) (sym : string) : list string :=
  [if decide (mode = Both) then
     "market filter: global (binance.com) + us (binance.us) — use the dashboard dropdown or --market global|us"
   else "market: " +:+ ep_label first;
   "symbol: " +:+ sym +:+ " (dashboard picker: BTCUSDT, ETHUSDT, SOLUSDT, BNBUSDT, XRPUSDT)"].

(** The dashboard's line; [error] is what [listen] failed with. *)
Definition dashboard_line (mode : MarketMode) (c : Config) (error : option string) : string :=
  match error with
  | Some reason => "dashboard: cannot listen on port " +:+ to_string (serve_port c) +:+ ": " +:+ reason
  | None => "dashboard: open http://" +:+ bind_host c +:+ ":" +:+ to_string (serve_port c) +:+ " in your browser" +:+
      (if decide (mode = Both) then " (Market + Symbol dropdowns in header)" else "")
  end.

Definition stop_lines (g_saturated : Z) : list string :=
  (if decide (g_saturated = 0) then []
   else ["note: " +:+ to_string g_saturated +:+ " level sizes saturated the uint32 transport field"]) ++
  ["stopped."].

(** ** Reading a decimal back *)

(** What is behind the leading digits. *)
Fixpoint drop_digits (s : string) : string :=
  match s with
  | String.String c s' => match digit c with Some _ => drop_digits s' | None => s end
  | EmptyString => EmptyString
  end.

(** The value of a decimal text, its digits behind the point included. *)
Definition read_point (s : string) : Z :=
  digits (digits 0 s) (match drop_digits s with String.String "." t => t | _ => "" end).

Fixpoint all_digits (s : string) : Prop :=
  match s with
  | String.String c s' => is_Some (digit c) /\ all_digits s'
  | EmptyString => True
  end.

Lemma digits_app acc s t :
  all_digits s -> digits acc (s +:+ t) = digits (digits acc s) t /\ drop_digits (s +:+ t) = drop_digits t.
Proof.
  revert acc. induction s as [|c s IH]; intros acc; cbn; [done|]. intros [[d E] H]. rewrite E. by apply IH.
Qed.

Lemma digit_text x : (x < 10)%N -> digit (pretty_N_char x) = Some (Z.of_N x).
Proof. intros H. apply (digit_char x H). Qed.

(** The digits of [x] in front of [s]: how many, and what they are worth. *)
Lemma go_digits x s :
  all_digits s -> exists j, String.length (pretty_N_go x s) = (j + String.length s)%nat /\
    all_digits (pretty_N_go x s) /\
    (forall acc, digits acc (pretty_N_go x s) = digits (acc * 10 ^ Z.of_nat j + Z.of_N x) s) /\
    (forall k, Z.of_N x < 10 ^ Z.of_nat k -> (j <= k)%nat).
Proof.
  revert s. induction (N.lt_wf_0 x) as [x _ IH]. intros s Hs.
  destruct (decide (x = 0)%N) as [->|Hx].
  { rewrite pretty_N_go_0. exists O. split; [done|]. split; [done|]. split; [|lia].
    intros acc. f_equal. cbn. lia. }
  rewrite pretty_N_go_step by lia.
  assert (x `mod` 10 < 10)%N as Hm by by apply N.mod_lt.
  destruct (IH (x `div` 10)%N (N.div_lt x 10 ltac:(lia) ltac:(lia))
    (String.String (pretty_N_char (x `mod` 10)) s)) as (j & L & A & D & K).
  { cbn. rewrite (digit_text _ Hm). by split. }
  exists (S j). split; [rewrite L; cbn; lia|]. split; [exact A|]. split.
  - intros acc. rewrite D. cbn [digits]. rewrite (digit_text _ Hm). f_equal.
    rewrite Nat2Z.inj_succ, Z.pow_succ_r by lia. pose proof (N.div_mod x 10 ltac:(lia)). lia.
  - intros [|k] Hk; [cbn in Hk; lia|]. apply le_n_S, K.
    rewrite Nat2Z.inj_succ, Z.pow_succ_r in Hk by lia. rewrite N2Z.inj_div.
    apply Z.div_lt_upper_bound; lia.
Qed.

Lemma to_string_digits n :
  0 <= n -> exists j, String.length (to_string n) = j /\ all_digits (to_string n) /\
    (forall acc, digits acc (to_string n) = acc * 10 ^ Z.of_nat j + n) /\
    (forall k, (0 < k)%nat -> n < 10 ^ Z.of_nat k -> (j <= k)%nat).
Proof.
  intros Hn. destruct (decide (n = 0)) as [->|Hne].
  - exists 1%nat. split; [done|]. split; [by repeat constructor|]. split; [|lia]. intros acc. change (10 ^ Z.of_nat 1) with 10. change (acc * 10 + 0 = acc * 10 + 0). reflexivity.
  - assert (to_string n = pretty_N_go (Z.to_N n) "") as ->.
    { destruct n as [|p|p]; [done| |lia]. change (to_string (Z.pos p)) with (pretty (N.pos p)).
      unfold pretty, pretty_N. by rewrite decide_False by lia. }
    destruct (go_digits (Z.to_N n) "") as (j & L & A & D & K); [done|]. exists j.
    split; [rewrite L; cbn; lia|]. split; [exact A|]. split.
    + intros acc. rewrite D. cbn. lia.
    + intros k _ Hk. apply K. lia.
Qed.

Lemma zeros_digits n : all_digits (zeros n) /\ String.length (zeros n) = n /\
  forall acc, digits acc (zeros n) = acc * 10 ^ Z.of_nat n.
Proof.
  induction n as [|n (A & L & D)]; [cbn; split_and!; [done|done|lia]|]. split; [|split; [cbn; lia|]].
  - cbn. by split.
  - intros acc. change (digits acc (zeros (S n))) with (digits (acc * 10 + 0) (zeros n)). rewrite D.
    rewrite Nat2Z.inj_succ, Z.pow_succ_r by lia. lia.
Qed.

Lemma zero_pad_digits k n :
  (0 < k)%nat -> 0 <= n < 10 ^ Z.of_nat k ->
  forall acc, digits acc (zero_pad k (to_string n)) = acc * 10 ^ Z.of_nat k + n.
Proof.
  intros Hk Hn acc. destruct (to_string_digits n) as (j & L & A & D & K); [lia|].
  specialize (K k Hk (proj2 Hn)). unfold zero_pad. rewrite L.
  destruct (zeros_digits (k - j)) as (Z0 & _ & DZ). destruct (digits_app acc _ (to_string n) Z0) as [-> _].
  rewrite DZ, D. rewrite <- Z.mul_assoc, <- Z.pow_add_r by lia. f_equal. f_equal. f_equal. lia.
Qed.

(** A decimal text denotes the number it was made of. *)
Lemma point_reads_back k n : 0 <= n -> read_point (point k n) = n.
Proof.
  intros Hn. unfold read_point, point. destruct k as [|k].
  - destruct (to_string_digits n Hn) as (j & _ & A & D & _).
    assert (to_string n = to_string n +:+ "") as E0.
    { generalize (to_string n) as u. intros u. induction u as [|c u IH]; [done|exact (f_equal (String.String c) IH)]. }
    assert (drop_digits (to_string n) = "") as ->.
    { rewrite E0. by rewrite (proj2 (digits_app 0 _ "" A)). }
    rewrite D. cbn. lia.
  - set (p := 10 ^ Z.of_nat (S k)). assert (0 < p) as Hp by (apply Z.pow_pos_nonneg; lia).
    pose proof (Z.mod_pos_bound n p Hp) as Hm. pose proof (Z.div_pos n p Hn Hp) as Hd.
    destruct (to_string_digits (n / p) Hd) as (j & _ & A & D & _).
    set (t := zero_pad (S k) (to_string (n mod p))). change ("." +:+ t) with (String.String "." t).
    destruct (digits_app 0 _ (String.String "." t) A) as [-> ->]. cbn [digits drop_digits].
    change (digit ".") with (@None Z). cbv iota. rewrite D. unfold t.
    rewrite zero_pad_digits by (lia || (fold p; lia)). fold p. pose proof (Z.div_mod n p). lia.
Qed.

(** ** Theorems *)

Lemma round_half_even_near num den :
  0 <= num -> 0 < den ->
  0 <= round_half_even num den /\ 2 * Z.abs (round_half_even num den * den - num) <= den.
Proof.
  intros Hn Hd. unfold round_half_even. pose proof (Z.div_mod num den ltac:(lia)) as E.
  pose proof (Z.mod_pos_bound num den Hd). pose proof (Z.div_pos num den Hn Hd).
  repeat case_decide; [nia|nia|]. destruct (Z.even _); nia.
Qed.

(** A printed double.  For a finite positive double [m * 2 ^ e], the text of
    [%.kf] denotes a decimal with [k] digits that is nearest to it: off by at most
    half a unit of the last digit. *)
Theorem fixed_reads_back k m e :
  let n := read_point (fixed k (S754_finite false m e)) in
  0 <= n /\
  (0 <= e -> n = Z.pos m * 2 ^ e * 10 ^ Z.of_nat k) /\
  (e < 0 -> 2 * Z.abs (n * 2 ^ (- e) - Z.pos m * 10 ^ Z.of_nat k) <= 2 ^ (- e)).
Proof.
  cbn [fixed minus]. change ("" +:+ point k (decimal k m e)) with (point k (decimal k m e)).
  assert (0 < 10 ^ Z.of_nat k) as Hk by (apply Z.pow_pos_nonneg; lia).
  unfold decimal. case_decide as D.
  - rewrite point_reads_back by (apply Z.mul_nonneg_nonneg; [apply Z.mul_nonneg_nonneg; [lia|apply Z.pow_nonneg; lia]|lia]).
    split; [apply Z.mul_nonneg_nonneg; [apply Z.mul_nonneg_nonneg; [lia|apply Z.pow_nonneg; lia]|lia]|].
    split; [done|lia].
  - assert (0 < 2 ^ (- e)) as He by (apply Z.pow_pos_nonneg; lia).
    destruct (round_half_even_near (Z.pos m * 10 ^ Z.of_nat k) (2 ^ (- e))) as [H0 H1]; [nia|lia|].
    rewrite point_reads_back by done. split; [done|]. split; [lia|done].
Qed.

Example ns_str_examples :
  ns_str <$> [999; 1000; 1234567; 12345; 1999999999] = ["999 ns"; "1.00 us"; "1.23 ms"; "12.35 us"; "2000.00 ms"].
Proof. vm_compute. reflexivity. Qed.

Example general_examples :
  general <$> [(f64 15372486 / f64 1000000)%f64; (f64 15 / f64 1000000)%f64; (f64 250 / f64 1000000)%f64;
    (f64 2000000 / f64 1000000)%f64; (f64 9999999 / f64 1000000)%f64; f64 1234567890; f64 999999]
  = ["15.3725"; "1.5e-05"; "0.00025"; "2"; "10"; "1.23457e+09"; "999999"].
Proof. vm_compute. reflexivity. Qed.

Example print_level_example :
  print_level "bid" (mkBookLevel 1234567 300 2 true) = "  bid: 123.4567  x 300  (2 orders)".
Proof. vm_compute. reflexivity. Qed.
