(* ===== verification/Benchmark.v ===== *)
(** * The benchmarks

    [benchmarks/bench_harness.cpp] and [benchmarks/microbench.cpp].  The harness
    runs the pipeline on one file ten times, flat out, under offered loads, with
    an injected gap, with a slow consumer under both policies, and reports; one of
    its lines says whether the run with the gap ended in the same book as the clean
    one ([recovered_correct]).  The microbenchmark decodes the frames of a file, and
    applies them to a book, without threads.

    What is measured (times, rates, the peak of the queue) and the clocks of the
    runs are arguments; so is the result of the run under [Drop], which depends on
    the interleaving.

    - [bench_recovers]: the harness reports a recovery on every decodable file;
    - [micro_agrees]: the book of the microbenchmark is that of the pipeline. *)

From Stdlib Require Import SpecFloat Ascii String.
From stdpp Require Import base list gmap strings numbers pretty.
From S2P Require Import Prelude MarketEvent ByteRead ItchParser FeedSource OrderPool.
From S2P Require Import OrderBook BookSpec OrderBookWf OrderBookBest BookLadder.
From S2P Require Import OrderBookProps BookOrders ItchGen ItchGenWrite ItchGenProps Instrumentation Publisher Sequencer.
From S2P Require Import SpscRing Pipeline PipelineThreads Replay LiveSession LiveServer CommandLine Tools Report.

#[local] Arguments String.append : simpl nomatch.

(** ** Texts *)

Definition fmt_ns (ns : Z) : string :=
  if decide (ns < 1000) then to_string ns +:+ " ns"
  else if decide (ns < 1000000) then fixed 2 (f64 ns / f64 1000)%f64 +:+ " us"
  else fixed 2 (f64 ns / f64 1000000)%f64 +:+ " ms".

Definition fmt_rate (mps : spec_float) : string := fixed 2 (mps / f64 1000000)%f64 +:+ " M/s".

Definition fmt_px (ticks : Z) : string := fixed 4 (price_ticks_to_double ticks).

(** ** The harness: arguments and configurations *)

Record BenchArgs := mkBench { b_file : string; b_report : string; gap_distance : Z; b_spin : Z }.

#[export] Instance BenchArgs_settable : Settable BenchArgs := fun a =>
  mkBench (b_file a) (b_report a) (gap_distance a) (b_spin a).

Definition default_bench : BenchArgs := mkBench "data/sample.itch" "reports/benchmark.md" 2000 512.

(** [unsigned long] has 64 bits. *)
Definition bench_arg (k v : string) (a : BenchArgs) : bool * Outcome BenchArgs :=
  if decide (k = "--file") then (true, Parsed (a <| b_file := v |>))
  else if decide (k = "--report") then (true, Parsed (a <| b_report := v |>))
  else if decide (k = "--gap-distance") then (true, converted (stoull v) (fun n => a <| gap_distance := n |>))
  else if decide (k = "--consumer-spin") then (true, converted (stoull v) (fun n => a <| b_spin := u32 n |>))
  else if decide (k = "--help") then (false, Exited 0)
  else (false, Parsed a).

(** The configurations of the runs; the members not set have their defaults. *)
Definition bench_config (bp : Backpressure) (rate : spec_float) (gap dist spin : Z) : PipelineConfig :=
  mkPipeConfig default_config bp (S754_zero false) rate gap dist spin.

Definition peak_cfg : PipelineConfig := bench_config Block (S754_zero false) 0 0 0.
Definition sweep_cfg (rate : spec_float) : PipelineConfig := bench_config Block rate 0 0 0.
Definition gap_cfg (total : Z) (a : BenchArgs) : PipelineConfig :=
  bench_config Block (S754_zero false) (total / 2) (gap_distance a) 0.
Definition slow_cfg (bp : Backpressure) (a : BenchArgs) : PipelineConfig :=
  bench_config bp (S754_zero false) 0 0 (b_spin a).

(** 0.10, 0.25, 0.50, 0.75, 0.90, 1.00, 1.10 *)
Definition fracs : list spec_float := (fun n => (f64 n / f64 100)%f64) <$> [10; 25; 50; 75; 90; 100; 110].

Record SweepRow := mkSweep {
  offered_mps : spec_float; achieved_mps : spec_float;
  sw_p50 : Z; sw_p99 : Z; sw_p999 : Z; sw_peak_queue : Z; sw_drops : Z }.

(** The book behind the gap against the clean one. *)
Definition recovered_correct (gap peak : PipelineResult) : bool :=
  bool_decide (valid (final_bid gap) = valid (final_bid peak)) &&
  bool_decide (bl_price_ticks (final_bid gap) = bl_price_ticks (final_bid peak)) &&
  bool_decide (bl_aggregate_size (final_bid gap) = bl_aggregate_size (final_bid peak)) &&
  bool_decide (bl_price_ticks (final_ask gap) = bl_price_ticks (final_ask peak)) &&
  bool_decide (bl_aggregate_size (final_ask gap) = bl_aggregate_size (final_ask peak)) &&
  bool_decide (final_live_orders gap = final_live_orders peak).

(** What the ten runs gave. *)
Record BenchRuns := mkRuns {
  rn_peak : PipelineResult; rn_sweep : list SweepRow; rn_gap : PipelineResult;
  rn_sblock : PipelineResult; rn_sdrop : PipelineResult }.

Section Harness.
(** The clock readings of the [k]-th run, when its ring is full, and its measurements;
    the run under [Drop]. *)
Context (t clk : nat -> nat -> Z * Z) (full : nat -> nat -> bool) (measured : nat -> Measured)
  (dropped_run : PipelineResult).

(** The [k]-th run. *)
Definition run (frames : list RawFrame) (k : nat) (cfg : PipelineConfig) : option PipelineResult :=
  fst <$> run_pipeline cfg (stamped_frames (t k) frames) (clk k) (full k).

Definition t_max : spec_float := throughput_msgs_per_s (measured 0).

Definition sweep_row (frames : list RawFrame) (k : nat) (fr : spec_float) : option SweepRow :=
  let c := sweep_cfg (t_max * fr)%f64 in
  r ← run frames k c;
  let l := res_latency r in
  Some (mkSweep (pc_offered_rate c) (throughput_msgs_per_s (measured k))
    (p50_ns l) (p99_ns l) (p999_ns l) (peak_queue (measured k)) (res_drops r)).

(** The sweep from the [k]-th run on. *)
Fixpoint sweep_from (frames : list RawFrame) (k : nat) (frs : list spec_float) : option (list SweepRow) :=
  match frs with
  | [] => Some []
  | fr :: frs => row ← sweep_row frames k fr; rows ← sweep_from frames (S k) frs; Some (row :: rows)
  end.

Definition bench_runs (a : BenchArgs) (frames : list RawFrame) : option BenchRuns :=
  peak ← run frames 0 peak_cfg;
  sweep ← sweep_from frames 1 fracs;
  gap ← run frames 8 (gap_cfg (res_messages peak) a);
  sblock ← run frames 9 (slow_cfg Block a);
  Some (mkRuns peak sweep gap sblock dropped_run).

(** ** The harness: output *)

Definition drop_pct (rs : BenchRuns) : spec_float :=
  let total := res_messages (rn_peak rs) in
  if decide (total > 0) then (f64 100 * f64 (res_drops (rn_sdrop rs)) / f64 total)%f64 else S754_zero false.

Definition rate_of (k : nat) : string := fmt_rate (throughput_msgs_per_s (measured k)).

Definition bench_lines (a : BenchArgs) (rs : BenchRuns) : list string :=
  let peak := rn_peak rs in
  let gap_at := res_messages peak / 2 in
  ["Running benchmark on " +:+ b_file a +:+ " ...";
   "  peak throughput: " +:+ fmt_rate t_max +:+ " over " +:+ to_string (res_messages peak) +:+ " msgs"] ++
  ((fun r => "  offered " +:+ fmt_rate (offered_mps r) +:+ " -> achieved " +:+ fmt_rate (achieved_mps r) +:+
    ", p50 " +:+ fmt_ns (sw_p50 r) +:+ ", p99 " +:+ fmt_ns (sw_p99 r)) <$> rn_sweep rs) ++
  ["  gap injected at seq " +:+ to_string gap_at +:+ " (reorder " +:+ to_string (gap_distance a) +:+
     "): book " +:+ (if recovered_correct (rn_gap rs) peak then "RECOVERED correctly" else "DIVERGED!") +:+
     ", gap episodes " +:+ to_string (gap_episodes (res_seq_stats (rn_gap rs)));
   "  slow-consumer Block: achieved " +:+ rate_of 9 +:+ ", peak queue " +:+
     to_string (peak_queue (measured 9)) +:+ ", drops " +:+ to_string (res_drops (rn_sblock rs));
   "  slow-consumer Drop : achieved " +:+ rate_of 10 +:+ ", drops " +:+ to_string (res_drops (rn_sdrop rs)) +:+
     " (" +:+ general (drop_pct rs) +:+ "%), snapshot recoveries " +:+
     to_string (snapshot_recoveries (res_seq_stats (rn_sdrop rs)))].

Definition sweep_line (r : SweepRow) : string :=
  "| " +:+ fmt_rate (offered_mps r) +:+ " | " +:+ fmt_rate (achieved_mps r) +:+ " | " +:+
  fmt_ns (sw_p50 r) +:+ " | " +:+ fmt_ns (sw_p99 r) +:+ " | " +:+ fmt_ns (sw_p999 r) +:+ " | " +:+
  to_string (sw_peak_queue r) +:+ " | " +:+ to_string (sw_drops r) +:+ " |".

Definition level_line (side : string) (l : BookLevel) : string :=
  "| " +:+ side +:+ " | " +:+ fmt_px (bl_price_ticks l) +:+ " | " +:+ to_string (bl_aggregate_size l) +:+
  " | " +:+ to_string (bl_order_count l) +:+ " |".

Definition report_head (a : BenchArgs) (rs : BenchRuns) : list string :=
  let peak := rn_peak rs in
  ["# Feed Handler & Order-Book Engine — Benchmark Report"; "";
   "- **Dataset:** `" +:+ b_file a +:+ "` — " +:+ to_string (res_messages peak) +:+ " ITCH 5.0 messages";
   "- **Pipeline:** ITCH file (mmap) -> zero-copy parser -> sequencer/gap-detector -> lock-free SPSC ring (" +:+
     to_string kRingCapacity +:+ " slots) -> order book -> publisher";
   "- **Threads:** 1 producer (ingest/parse) + 1 consumer (sequence/book/publish)"; "";
   "## 1. Peak sustained throughput (lossless, Block backpressure)"; "";
   "| Metric | Value |"; "|---|---|";
   "| Sustained throughput | **" +:+ fmt_rate t_max +:+ "** (" +:+ to_string (trunc_f64 t_max) +:+ " msg/s) |";
   "| Messages | " +:+ to_string (res_messages peak) +:+ " |";
   "| Parse errors | " +:+ to_string (res_parse_errors peak) +:+ " |";
   "| Unknown-ref events | " +:+ to_string (unknown_ref (res_book_stats peak)) +:+ " |";
   "| Crossed-book observations | " +:+ to_string (crossed_observed (res_book_stats peak)) +:+ " |";
   "| Peak queue depth | " +:+ to_string (peak_queue (measured 0)) +:+ " / " +:+ to_string kRingCapacity +:+ " |";
   "| L1 deltas published | " +:+ to_string (res_l1_deltas peak) +:+ " |"; "";
   "_At max offered load the producer outruns the consumer, the ring saturates, and end-to-end latency is dominated by queue residency — see the sweep below for true latency at sustainable load._"; ""].

Definition report_sweep (rs : BenchRuns) : list string :=
  ["## 2. Latency vs offered load"; "";
   "| Offered | Achieved | p50 | p99 | p99.9 | Peak queue | Drops |"; "|---|---|---|---|---|---|---|"] ++
  (sweep_line <$> rn_sweep rs) ++
  [""; "_Below saturation the ring stays shallow and latency reflects true parse+apply+publish cost; as offered load approaches and exceeds the saturation point, queue depth and tail latency rise predictably (deterministic degradation)._"; ""].

Definition report_gap (a : BenchArgs) (rs : BenchRuns) : list string :=
  let gap := rn_gap rs in
  ["## 3. Gap detection & recovery"; ""; "| Metric | Value |"; "|---|---|";
   "| Induced gap at sequence | " +:+ to_string (res_messages (rn_peak rs) / 2) +:+ " (reorder window " +:+
     to_string (gap_distance a) +:+ " msgs) |";
   "| Gap episodes detected | " +:+ to_string (gap_episodes (res_seq_stats gap)) +:+ " |";
   "| Buffered messages replayed | " +:+ to_string (buffered_released (res_seq_stats gap)) +:+ " |";
   "| Recovery time (gap-open -> resync) | " +:+ fmt_ns (res_recovery_max_ns gap) +:+ " |";
   "| **Book recovered to correct state** | **" +:+
     (if recovered_correct gap (rn_peak rs) then "YES" else "NO") +:+ "** |"; "";
   "_The missing message is re-injected after the reorder window; the sequencer buffers the intervening messages, replays them in order once the hole fills, clears the stale flag, and the final book is byte-for-byte identical to the clean run._"; ""].

Definition report_slow (a : BenchArgs) (rs : BenchRuns) : list string :=
  let b := rn_sblock rs in
  let d := rn_sdrop rs in
  ["## 4. Backpressure under overload (simulated slow downstream consumer)"; "";
   "Producer flat-out vs a deliberately slowed consumer (`consumer_spin=" +:+ to_string (b_spin a) +:+
     "`) so the producer reliably outruns it — the regime that exercises backpressure."; "";
   "| Policy | Achieved | Peak queue | Drops (exact) | Snapshot recoveries | p99 latency |";
   "|---|---|---|---|---|---|";
   "| **Block** (lossless) | " +:+ rate_of 9 +:+ " | " +:+ to_string (peak_queue (measured 9)) +:+ " / " +:+
     to_string kRingCapacity +:+ " | " +:+ to_string (res_drops b) +:+ " | " +:+
     to_string (snapshot_recoveries (res_seq_stats b)) +:+ " | " +:+ fmt_ns (p99_ns (res_latency b)) +:+ " |";
   "| **Drop** (counted loss) | " +:+ rate_of 10 +:+ " | " +:+ to_string (peak_queue (measured 10)) +:+ " / " +:+
     to_string kRingCapacity +:+ " | " +:+ to_string (res_drops d) +:+ " (" +:+ general (drop_pct rs) +:+
     "%) | " +:+ to_string (snapshot_recoveries (res_seq_stats d)) +:+ " | " +:+
     fmt_ns (p99_ns (res_latency d)) +:+ " |"; "";
   "_**Block**: the producer is throttled to the consumer's rate, the ring saturates, and latency grows with queue residency — but nothing is lost. **Drop**: overflow is discarded and counted *exactly* (never silently lost); the dropped messages create sequence gaps the detector can't fill by replay, so it falls back to snapshot reloads. Two principled responses to overload — pick lossless-but-latent or bounded-but-lossy._"; ""].

(** The asks from the worst to the best, then the bids. *)
Definition report_book (rs : BenchRuns) : list string :=
  ["## 5. Top of book (final, clean run)"; ""; "| Side | Price | Size | Orders |"; "|---|---|---|---|"] ++
  (level_line "ask" <$> reverse (top_asks (rn_peak rs))) ++ (level_line "bid" <$> top_bids (rn_peak rs)) ++ [""].

Definition bench_report (a : BenchArgs) (rs : BenchRuns) : list string :=
  report_head a rs ++ report_sweep rs ++ report_gap a rs ++ report_slow a rs ++ report_book rs.

(** ** The harness: [main] *)

Context (fd : Z) (writable : string -> bool).

(** Lines as they are written. *)
Definition text_of (lines : list string) : list byte :=
  concat ((fun l => list_byte_of_string l ++ [x0a]) <$> lines).

(** What it prints and the files it leaves. *)
Definition bench_main (args : list string) (fs : files) : program (list string * files) :=
  match parse_args bench_arg args default_bench with
  | Threw => None
  | Exited code =>
      Some (code, (["usage: bench_harness [--file FILE] [--report MD] [--gap-distance N] [--consumer-spin N]"], fs))
  | Parsed a =>
      let src := ItchFileSource_open (file_open fd fs (b_file a)) in
      if ItchFileSource_ok src then
        '(frames, _) ← all_frames (S (Z.to_nat (size_ src))) src;
        rs ← bench_runs a frames;
        if writable (b_report a) then
          Some (0, (bench_lines a rs ++ [""; "Report written to " +:+ b_report a],
            <[b_report a := text_of (bench_report a rs)]> fs))
        else Some (1, (bench_lines a rs ++ ["bench_harness: cannot write report to '" +:+ b_report a +:+ "'"], fs))
      else Some (1, (["bench_harness: cannot open '" +:+ b_file a +:+ "' (generate with: itch_gen --out " +:+
        b_file a +:+ ")"], fs))
  end.

End Harness.

(** ** The microbenchmark *)

(** The loop over the arguments: the last [--file] that has a value. *)
Fixpoint micro_file (args : list string) (file : string) : string :=
  match args with
  | k :: (v :: rest) as args' => if decide (k = "--file") then micro_file rest v else micro_file args' file
  | _ => file
  end.

(** The value of the enumerator. *)
Definition type_value (ty : EventType) : Z :=
  match ty with
  | Unknown => 0 | Add => 1 | Cancel => 2 | Delete => 3 | Execute => 4 | ExecuteWithPrice => 5
  | Replace => 6 | Trade => 7 | SystemEvent => 8 | L2SetLevel => 9 | L2EventHeader => 10
  end.

(** The warm-up: the sum of the lengths. *)
Definition touch (frames : list RawFrame) : Z := foldl (fun n f => u64 (n + f_len f)) 0 frames.

(** A turn of a timed loop on the event it reuses; [use] is what it does with a
    decoded event. *)
Definition micro_turn {A} (use : MarketEvent -> A -> option A) (f : RawFrame) (s : MarketEvent * A)
    : option (MarketEvent * A) :=
  r ← parse (f_data f) (f_len f) s.1;
  match r with
  | (Ok, ev) => a ← use ev s.2; Some (ev, a)
  | (_, ev) => Some (ev, s.2)
  end.

(** Decode only: the count and the checksum. *)
Definition parse_only (frames : list RawFrame) : option (Z * Z) :=
  snd <$> iterM (micro_turn (fun ev '(n, checksum) => Some (u64 (n + 1),
    u64 (checksum + (ev_price_ticks ev + ev_size ev + type_value (ev_type ev)))))) frames (event0, (0, 0)).

(** Decode and apply: the count and the book. *)
Definition parse_book (frames : list RawFrame) : option (Z * OrderBook) :=
  snd <$> iterM (micro_turn (fun ev '(n, book) => book ← apply ev book; Some (u64 (n + 1), book)))
    frames (event0, (0, OrderBook_new default_config)).

(** The lines, with the seconds the two loops took. *)
Definition micro_lines (parsed : Z * Z) (booked : Z * OrderBook) (s1 s2 : spec_float) : option (list string) :=
  let rate n s := fixed 2 (f64 n / s / f64 1000000)%f64 in
  bid ← best_bid booked.2;
  Some ["parse-only      : " +:+ to_string parsed.1 +:+ " msgs in " +:+ fixed 3 s1 +:+ " s = " +:+ rate parsed.1 s1 +:+
          " M msg/s  (chk " +:+ to_string parsed.2 +:+ ")";
        "parse + book    : " +:+ to_string booked.1 +:+ " msgs in " +:+ fixed 3 s2 +:+ " s = " +:+ rate booked.1 s2 +:+
          " M msg/s";
        "final best bid  : " +:+ fixed 4 (price_ticks_to_double (bl_price_ticks bid)) +:+ " x " +:+
          to_string (bl_aggregate_size bid) +:+ "  (live orders " +:+ to_string (live_orders_ booked.2) +:+ ")"].

Definition micro_main (fd : Z) (s1 s2 : spec_float) (args : list string) (fs : files) : program (list string) :=
  let file := micro_file args "data/sample.itch" in
  let src := ItchFileSource_open (file_open fd fs file) in
  if ItchFileSource_ok src then
    '(frames, _) ← all_frames (S (Z.to_nat (size_ src))) src;
    let _ := touch frames in
    parsed ← parse_only frames;
    booked ← parse_book frames;
    lines ← micro_lines parsed booked s1 s2;
    Some (0, lines)
  else Some (1, ["microbench: cannot open " +:+ file]).

(** ** Lemmas: a decodable file *)

#[local] Notation c' := (clamp_config default_config).

(** A file of frames that decode to [evs], a feed that never locks a price. *)
Record decodable (fs : files) (path : string) (ps : list (list byte)) (evs : list MarketEvent) : Prop := {
  dc_file : fs !! path = Some (concat (map frame_bytes ps));
  dc_frames : Forall2 decodes_to ps evs;
  dc_some : ps <> [];
  dc_count : Z.of_nat (length ps) < 2 ^ 32 - 1;
  dc_unlocked : never_locked c' evs (no_orders c') }.

(** The event of a number. *)
Definition event_at (evs : list MarketEvent) (q : Z) : MarketEvent := default event0 (evs.[q - 1]).

(** The file is opened and its frames are read. *)
Lemma decodable_read fd fs path ps evs :
  decodable fs path ps evs -> 0 <= fd ->
  let src := ItchFileSource_open (file_open fd fs path) in
  ItchFileSource_ok src = true /\
  exists frames src', all_frames (S (Z.to_nat (size_ src))) src = Some (frames, src') /\
    length frames = length ps /\ forall t, decodes (event_at evs) 1 (stamped_frames t frames).
Proof.
  intros [Hf Hd Hs Hc _] Hfd. pose proof (file_size _ _ Hd) as Hsz.
  assert (0 < Z.of_nat (length ps)) as Hp by (destruct ps; [done|cbn; lia]).
  unfold file_open. rewrite Hf. unfold ItchFileSource_open. cbn [os_fd os_size os_map].
  rewrite !decide_False by lia. unfold ItchFileSource_ok. cbn [data_ size_]. cbn zeta.
  split; [by apply bool_decide_eq_true; eexists|].
  destruct (all_frames_framed fd [] ps [] 0 (S (Z.to_nat (Z.of_nat (length (concat (map frame_bytes ps)))))))
    as (frames & s & Ef & Hx).
  { eapply list.Forall2_Forall_l; [exact Hd|]. apply list.Forall_forall. by intros ev _ p [? _]. }
  { left. cbn. lia. }
  { rewrite app_nil_r. cbn [app]. lia. }
  { lia. }
  rewrite app_nil_r in Ef. cbn [app length] in Ef. exists frames, s. split; [exact Ef|].
  split; [by eapply expected_frames_length|]. intros t.
  apply (frames_decode t _ 0 ps frames evs); [exact Hx|exact Hd|lia|lia|].
  intros i e Hi. unfold event_at. replace (0 + 1 + Z.of_nat i - 1) with (Z.of_nat i) by lia. by rewrite vget_nat, Hi.
Qed.

(** The market a run under [Block] on such a file ends with. *)
Record market_of (evs : list MarketEvent) (r : PipelineResult) : Prop := {
  mk_bid : final_bid r = a_best (a_bids c' (a_apply_all c' evs (no_orders c')));
  mk_ask : final_ask r = a_best (a_asks c' (a_apply_all c' evs (no_orders c')));
  mk_bids : top_bids r = take 5 (a_bids c' (a_apply_all c' evs (no_orders c')));
  mk_asks : top_asks r = take 5 (a_asks c' (a_apply_all c' evs (no_orders c')));
  mk_live : final_live_orders r = Z.of_nat (length (concat (a_apply_all c' evs (no_orders c'))));
  mk_messages : res_messages r = Z.of_nat (length evs);
  mk_errors : res_parse_errors r = 0;
  mk_drops : res_drops r = 0 }.

Lemma decodable_run fs path ps evs frames cfg t clk full :
  pc_backpressure cfg = Block ->
  decodable fs path ps evs -> length frames = length ps ->
  decodes (event_at evs) 1 (stamped_frames t frames) -> pc_book cfg = default_config ->
  (active cfg -> 1 <= inject_gap_at cfg <= Z.of_nat (length ps) /\ 1 <= gap_reorder_distance cfg < 4096) ->
  exists r c, run_pipeline cfg (stamped_frames t frames) clk full = Some (r, c) /\ market_of evs r /\
    abs (c_book c) = a_apply_all c' evs (no_orders c').
Proof.
  intros Hpol [_ Hd _ Hc Hu] Hl Hdec Hb Hg. pose proof (list.Forall2_length _ _ _ Hd) as Hle.
  assert (length (stamped_frames t frames) = length evs) as Hn.
  { unfold stamped_frames. rewrite length_imap. lia. }
  assert (event_at evs <$> seqZ 1 (Z.of_nat (length evs)) = evs) as He by apply events_seqZ.
  destruct (run_ends cfg (event_at evs) (stamped_frames t frames) clk full)
    as (r & c & E & A & V & D & B1 & B2 & B3 & B4 & M & P & _); rewrite ?Hb, ?Hn, ?He in *.
  - exact Hpol.
  - apply default_fits.
  - exact Hdec.
  - lia.
  - exact Hu.
  - rewrite <- Hle. exact Hg.
  - exists r, c. split; [exact E|]. split; [by split|exact A].
Qed.

(** Two runs with the same market. *)
Lemma market_recovered evs r1 r2 : market_of evs r1 -> market_of evs r2 -> recovered_correct r1 r2 = true.
Proof.
  intros [B1 A1 _ _ L1 _ _ _] [B2 A2 _ _ L2 _ _ _]. unfold recovered_correct.
  rewrite B1, B2, A1, A2, L1, L2. by rewrite !bool_decide_true by done.
Qed.

Lemma sweep_market t clk full measured fs path ps evs frames :
  decodable fs path ps evs -> length frames = length ps ->
  (forall t, decodes (event_at evs) 1 (stamped_frames t frames)) -> forall frs k,
  exists rows, sweep_from t clk full measured frames k frs = Some rows /\ length rows = length frs /\
    Forall (fun r => sw_drops r = 0) rows.
Proof.
  intros Hd Hl Hdec frs. induction frs as [|fr frs IH]; intros k; [by exists []|].
  destruct (decodable_run fs path ps evs frames (sweep_cfg (t_max measured * fr)%f64) (t k) (clk k) (full k))
    as (r & c & E & Hm & _); [done|done|done|done|done|by intros [[] _]|].
  destruct (IH (S k)) as (rows & Er & Hlr & Hf).
  cbn [sweep_from]. unfold sweep_row, run. rewrite E. cbn [fmap option_fmap option_map fst mbind option_bind].
  rewrite Er. cbn [mbind option_bind]. eexists. split; [done|]. split; [cbn; by rewrite Hlr|].
  constructor; [apply Hm|done].
Qed.

(** ** Lemmas: the loops of the microbenchmark *)

(** On frames that decode, a timed loop uses every event once, in order, whatever
    the reused event held. *)
Lemma micro_loop {A} (use : MarketEvent -> A -> option A) msg frames t n ev a :
  decodes msg n (stamped_frames t frames) ->
  snd <$> iterM (micro_turn use) frames (ev, a) = iterM use (msg <$> seqZ n (Z.of_nat (length frames))) a.
Proof.
  revert t n ev a. induction frames as [|f frames IH]; intros t n ev a Hd; [done|].
  cbn [stamped_frames imap decodes] in Hd. destruct Hd as (_ & Hp & _ & Hd). cbn [length].
  rewrite (seqZ_cons n) by lia. replace (Z.pred (Z.of_nat (S (length frames)))) with (Z.of_nat (length frames)) by lia.
  cbn [fmap list_fmap iterM].
  assert (micro_turn use f (ev, a) = (a ← use (msg n) a; Some (msg n, a))) as ->.
  { unfold micro_turn. cbn [fst snd]. by rewrite (parse_no_stale _ _ _ ev _ Hp). }
  destruct (use (msg n) a) as [a'|]; cbn [mbind option_bind]; [|done].
  exact (IH (fun i => t (S i)) (n + 1) (msg n) a' Hd).
Qed.

Lemma count_events (evs : list MarketEvent) n chk :
  0 <= n -> n + Z.of_nat (length evs) < 2 ^ 64 ->
  exists chk', iterM (fun ev '(n, checksum) => Some (u64 (n + 1),
    u64 (checksum + (ev_price_ticks ev + ev_size ev + type_value (ev_type ev))))) evs (n, chk) =
    Some (n + Z.of_nat (length evs), chk').
Proof.
  revert n chk. induction evs as [|ev evs IH]; intros n chk Hn Hb; cbn [iterM length] in *.
  { exists chk. by rewrite Z.add_0_r. }
  cbn [mbind option_bind]. assert (u64 (n + 1) = n + 1) as -> by (apply wrap_small; unfold in_u; lia).
  destruct (IH (n + 1) (u64 (chk + (ev_price_ticks ev + ev_size ev + type_value (ev_type ev)))))
    as (chk' & E); [lia|lia|]. exists chk'. rewrite E. do 2 f_equal. lia.
Qed.

Lemma apply_events (evs : list MarketEvent) n b b' :
  apply_all evs b = Some b' -> 0 <= n -> n + Z.of_nat (length evs) < 2 ^ 64 ->
  iterM (fun ev '(n, book) => book ← apply ev book; Some (u64 (n + 1), book)) evs (n, b) =
    Some (n + Z.of_nat (length evs), b').
Proof.
  revert n b. induction evs as [|ev evs IH]; intros n b E Hn Hb; unfold apply_all in *; cbn [iterM length] in *.
  { injection E as <-. by rewrite Z.add_0_r. }
  destruct (apply ev b) as [b1|]; cbn [mbind option_bind] in *; [|done].
  assert (u64 (n + 1) = n + 1) as -> by (apply wrap_small; unfold in_u; lia). rewrite (IH (n + 1) b1 E) by lia. do 2 f_equal. lia.
Qed.

(** ** Theorems *)

(** C11. The harness reports a recovery.  On every file of frames that decode, of a
    feed that never locks a price, with a reorder window below the sequencer's
    4096: [bench_harness] exits with status 0, the run with the injected gap ended
    in the market of the clean run, and the report says so; no run under [Block]
    dropped a message, and the top of the book it lists is that of the events. *)
Theorem bench_recovers t clk full measured drop fd writable args a fs ps evs :
  parse_args bench_arg args default_bench = Parsed a -> decodable fs (b_file a) ps evs ->
  0 <= gap_distance a < 4096 -> 0 <= fd -> writable (b_report a) = true ->
  let ls := a_apply_all c' evs (no_orders c') in
  exists rs frames lines,
    bench_runs t clk full measured drop a frames = Some rs /\
    bench_main t clk full measured drop fd writable args fs =
      Some (0, (lines, <[b_report a := text_of (bench_report measured a rs)]> fs)) /\
    recovered_correct (rn_gap rs) (rn_peak rs) = true /\
    "| **Book recovered to correct state** | **YES** |" ∈ bench_report measured a rs /\
    res_messages (rn_peak rs) = Z.of_nat (length evs) /\
    Forall (fun r => sw_drops r = 0) (rn_sweep rs) /\ res_drops (rn_sblock rs) = 0 /\
    top_bids (rn_peak rs) = take 5 (a_bids c' ls) /\ top_asks (rn_peak rs) = take 5 (a_asks c' ls).
Proof.
  intros Ea Hd Hg Hfd Hw ls. destruct (decodable_read fd fs (b_file a) ps evs Hd Hfd) as (Eo & frames & src & Ef & Hl & Hdec).
  pose proof (list.Forall2_length _ _ _ (dc_frames _ _ _ _ Hd)) as Hle.
  assert (forall k cfg, pc_backpressure cfg = Block -> pc_book cfg = default_config ->
    (active cfg -> 1 <= inject_gap_at cfg <= Z.of_nat (length ps) /\ 1 <= gap_reorder_distance cfg < 4096) ->
    exists r, run t clk full frames k cfg = Some r /\ market_of evs r) as Hr.
  { intros k cfg Hpol Hb Ha. destruct (decodable_run _ _ _ _ frames cfg (t k) (clk k) (full k) Hpol Hd Hl (Hdec _) Hb Ha)
      as (r & c & E & Hm & _). exists r. split; [unfold run; by rewrite E|exact Hm]. }
  destruct (Hr 0%nat peak_cfg) as (peak & E0 & M0); [done|done|by intros [[] _]|].
  destruct (sweep_market t clk full measured _ _ _ _ frames Hd Hl Hdec fracs 1) as (rows & E1 & _ & F1).
  destruct (Hr 8%nat (gap_cfg (res_messages peak) a)) as (gap & E2 & M2); [done|done| |].
  { rewrite (mk_messages _ _ M0), <- Hle. intros [H1 H2]. cbn in *.
    pose proof (Z.div_pos (Z.of_nat (length ps)) 2). split; [|lia]. split; [lia|]. apply Z.div_le_upper_bound; lia. }
  destruct (Hr 9%nat (slow_cfg Block a)) as (sblock & E3 & M3); [done|done|by intros [[] _]|].
  pose (rs := mkRuns peak rows gap sblock drop).
  assert (bench_runs t clk full measured drop a frames = Some rs) as Er.
  { unfold bench_runs. rewrite E0. cbn [mbind option_bind]. rewrite E1. cbn [mbind option_bind].
    rewrite E2. cbn [mbind option_bind]. by rewrite E3. }
  pose proof (market_recovered _ _ _ M2 M0) as Hrec.
  exists rs, frames, (bench_lines measured a rs ++ [""; "Report written to " +:+ b_report a]).
  split; [exact Er|]. split.
  { unfold bench_main. rewrite Ea, Eo, Ef. cbn [mbind option_bind]. rewrite Er. cbn [mbind option_bind]. by rewrite Hw. }
  split; [exact Hrec|]. split.
  { unfold bench_report, report_gap. cbn [rn_gap rn_peak rs]. rewrite Hrec. rewrite !elem_of_app.
    right; right; left. do 8 right. left. }
  split; [apply M0|]. split; [exact F1|]. split; [apply M3|]. split; [apply M0|apply M0].
Qed.

(** The microbenchmark's book is the pipeline's.  On every file of frames that
    decode, of a feed that never locks a price: [microbench] exits with status 0;
    both loops count every frame, and the book of the second one has the queues,
    the best prices and the live orders the pipeline ends with on that file,
    whatever the clocks. *)
Theorem micro_agrees fd s1 s2 args fs ps evs t clk full :
  decodable fs (micro_file args "data/sample.itch") ps evs -> 0 <= fd ->
  exists frames chk book r c lines,
    parse_only frames = Some (Z.of_nat (length ps), chk) /\
    parse_book frames = Some (Z.of_nat (length ps), book) /\
    run_pipeline peak_cfg (stamped_frames t frames) clk full = Some (r, c) /\
    abs book = abs (c_book c) /\ best_bid book = Some (final_bid r) /\ best_ask book = Some (final_ask r) /\
    live_orders_ book = final_live_orders r /\
    micro_main fd s1 s2 args fs = Some (0, lines).
Proof.
  set (file := micro_file args "data/sample.itch"). intros Hd Hfd.
  destruct (decodable_read fd fs file ps evs Hd Hfd) as (Eo & frames & src & Ef & Hl & Hdec).
  pose proof (list.Forall2_length _ _ _ (dc_frames _ _ _ _ Hd)) as Hle. pose proof (dc_count _ _ _ _ Hd) as Hc.
  assert (event_at evs <$> seqZ 1 (Z.of_nat (length frames)) = evs) as He by (rewrite Hl, Hle; apply events_seqZ).
  destruct (decodable_run fs file ps evs frames peak_cfg t clk full eq_refl Hd Hl (Hdec t) eq_refl) as (r & c & E & M & A);
    [by intros [[] _]|].
  pose proof (decodes_sizes _ _ _ (Hdec t)) as Hs.
  replace (length (stamped_frames t frames)) with (length frames) in Hs by (unfold stamped_frames; by rewrite length_imap).
  rewrite He in Hs.
  destruct (run_ok default_config evs) as (b & Eb & W & C & Ab & T); [apply default_fits|exact Hs|lia|].
  destruct (T (dc_unlocked _ _ _ _ Hd)) as [Hsd Hbo]. pose proof W as (pss & free & W').
  pose proof (wf_shows _ _ _ W' Hsd) as Hsh.
  pose proof (best_bid_spec _ _ Hsh Hbo) as Bb. pose proof (best_ask_spec _ _ Hsh Hbo) as Ba.
  rewrite C, Ab in Bb, Ba. rewrite <- (mk_bid _ _ M) in Bb. rewrite <- (mk_ask _ _ M) in Ba.
  destruct (count_events evs 0 0) as (chk & Ek); [lia|lia|]. rewrite Z.add_0_l, <- Hle in Ek.
  assert (parse_only frames = Some (Z.of_nat (length ps), chk)) as Ep.
  { unfold parse_only. rewrite (micro_loop _ (event_at evs) frames t 1 event0 _ (Hdec t)), He. exact Ek. }
  assert (parse_book frames = Some (Z.of_nat (length ps), b)) as Epb.
  { unfold parse_book. rewrite (micro_loop _ (event_at evs) frames t 1 event0 _ (Hdec t)), He.
    rewrite (apply_events evs 0 _ b Eb) by lia. by rewrite Z.add_0_l, Hle. }
  eexists frames, chk, b, r, c, _. split; [exact Ep|]. split; [exact Epb|]. split; [exact E|].
  split; [by rewrite A, Ab|]. split; [exact Bb|]. split; [exact Ba|].
  split; [by rewrite (wf_live_abs _ W), Ab, (mk_live _ _ M)|].
  unfold micro_main. fold file. rewrite Eo, Ef. cbn [mbind option_bind]. rewrite Ep. cbn [mbind option_bind].
  rewrite Epb. cbn [mbind option_bind]. unfold micro_lines. cbn [fst snd]. by rewrite Bb.
Qed.

(** ** Examples *)

(** A file of the generator is decodable. *)
Lemma generated_decodable uni sym messages fs path :
  in_range uni -> length sym = 8%nat -> 0 <= messages < 2 ^ 32 - 2 ->
  exists g ps evs, gen_main uni sym messages = Some g /\ decodable (<[path := g_out g]> fs) path ps evs /\
    Z.of_nat (length evs) = Z.max 1 messages + 1.
Proof.
  intros Hu Hs Hm.
  destruct (gen_main_ok _ default_fits uni Hu sym Hs messages Hm) as (g & evs & b & E & I & L).
  destruct (gi_file _ _ _ _ I) as (ps & Ho & Hd). pose proof (gi_book _ _ _ _ I) as Hcl.
  pose proof (list.Forall2_length _ _ _ Hd) as Hlen.
  exists g, ps, evs. split; [exact E|]. split; [|lia]. split.
  - by rewrite lookup_insert_eq, Ho.
  - exact Hd.
  - intros ->. cbn in Hlen. lia.
  - lia.
  - apply (cl_unlocked _ _ _ _ _ Hcl).
Qed.

(** What a run under [Drop] that lost everything gave. *)
Definition demo_result : PipelineResult :=
  mkResult stats0 (mkSeqStats 0 0 0 0 0 0 0) (mkSnapshot 0 0 0 (f64 0) 0 0 0 0 0) 0 0 13 0 0 0 no_level no_level 0 [] [].

Definition demo_measured (_ : nat) : Measured := mkMeasured (f64 1) (f64 1000) 7.

Lemma bench_recovers_witness :
  exists (fs : files) (evs : list MarketEvent) rs lines, length evs = 13%nat /\
    bench_main (fun _ _ => (0, 0)) (fun _ _ => (0, 0)) (fun _ _ => false) demo_measured (rn_sdrop rs) 3 (fun _ => true)
      ["--file"; "f.itch"; "--gap-distance"; "5"] fs = Some (0, lines) /\
    recovered_correct (rn_gap rs) (rn_peak rs) = true /\ res_messages (rn_peak rs) = 13.
Proof.
  destruct (generated_decodable draw_low (gen_sym [x53; x59]) 12 ∅ "f.itch") as (g & ps & evs & _ & Hd & Hn).
  - intros k lo hi H. unfold draw_low. split; [apply Z.le_refl|exact H].
  - reflexivity.
  - split; [discriminate|reflexivity].
  - destruct (bench_recovers (fun _ _ => (0, 0)) (fun _ _ => (0, 0)) (fun _ _ => false) demo_measured demo_result 3 (fun _ => true)
      ["--file"; "f.itch"; "--gap-distance"; "5"] (mkBench "f.itch" "reports/benchmark.md" 5 512) _ ps evs eq_refl Hd)
      as (rs & frames & lines & Er & E & Hr & _ & Hm & _).
    + split; [discriminate|reflexivity].
    + discriminate.
    + reflexivity.
    + exists (<["f.itch" := g_out g]> ∅), evs, rs. eexists.
      change (Z.max 1 12 + 1) with (Z.of_nat 13) in Hn. apply Nat2Z.inj in Hn.
      assert (rn_sdrop rs = demo_result) as ->.
      { unfold bench_runs in Er. repeat (apply bind_Some in Er as (? & _ & Er)). by injection Er as <-. }
      split; [exact Hn|]. split; [exact E|]. split; [exact Hr|]. rewrite Hm, Hn. reflexivity.
Defined.

Lemma micro_agrees_witness :
  exists fs frames book r c lines, parse_book frames = Some (13, book) /\
    run_pipeline peak_cfg (stamped_frames (fun _ => (0, 0)) frames) (fun _ => (0, 0)) (fun _ => false) = Some (r, c) /\
    best_bid book = Some (final_bid r) /\ micro_main 3 (f64 1) (f64 2) ["--file"; "f.itch"] fs = Some (0, lines).
Proof.
  destruct (generated_decodable draw_low (gen_sym [x53; x59]) 12 ∅ "f.itch") as (g & ps & evs & _ & Hd & Hn).
  - intros k lo hi H. unfold draw_low. split; [apply Z.le_refl|exact H].
  - reflexivity.
  - split; [discriminate|reflexivity].
  - pose proof (list.Forall2_length _ _ _ (dc_frames _ _ _ _ Hd)) as Hle.
    destruct (micro_agrees 3 (f64 1) (f64 2) ["--file"; "f.itch"] _ ps evs (fun _ => (0, 0)) (fun _ => (0, 0))
      (fun _ => false) Hd)
      as (frames & chk & book & r & c & lines & _ & E1 & E2 & _ & E3 & _ & _ & E4); [discriminate|].
    rewrite Hle, Hn in E1. exists (<["f.itch" := g_out g]> ∅), frames, book, r, c, lines.
    exact (conj E1 (conj E2 (conj E3 E4))).
Defined.
