(* ===== verification/Dashboard.v ===== *)
(** * The dashboard page

    The script of the page [apps/live_feed.cpp] serves ([kDashboardHtml]): what it
    keeps ([Page]), what it shows ([Screen]), what it asks the server
    ([Request]), and what each event does to it ([page_event]): the timer, an
    answer, the controls, a change of size.  Handlers run to their end or to an
    [await]; an answer comes at any later moment and in any order ([Answer]).

    The texts and the classes the script computes are modelled, the markup around
    them and its style are not.  Numbers are doubles; the counters of gaps,
    re-syncs and crossed books are integers, exact in a double below 2^53.  The
    texts that depend on the language of the browser are a [Browser].

    - [snapshots_followed]: documents shown in order: the chart, the screen, the
      alerts;
    - [page_sound]: the invariant of the page;
    - [answers_overtake], [market_race]: answers out of order, and answers for a
      market no longer chosen. *)

From Stdlib Require Import SpecFloat Ascii String.
From stdpp Require Import base list gmap strings numbers relations pretty.
From S2P Require Import Prelude Instrumentation LiveInput LiveSession LiveServer Report.

#[local] Arguments String.append : simpl nomatch.

(** ** Values *)

(** [Math.max] and [Math.min] of two numbers. *)
Definition Math_max (x y : spec_float) : spec_float :=
  match x, y with
  | S754_nan, _ | _, S754_nan => S754_nan
  | S754_zero s, S754_zero t => S754_zero (s && t)
  | _, _ => if SFltb x y then y else x
  end.

Definition Math_min (x y : spec_float) : spec_float :=
  match x, y with
  | S754_nan, _ | _, S754_nan => S754_nan
  | S754_zero s, S754_zero t => S754_zero (s || t)
  | _, _ => if SFltb y x then y else x
  end.

(** [o || s] for strings: an absent and an empty one are false. *)
Definition or_else (o : option string) (s : string) : string :=
  match o with None | Some EmptyString => s | Some t => t end.

(** [s] without the suffix [w]. *)
Definition strip (w s : string) : option string :=
  let n := (String.length s - String.length w)%nat in
  if decide (substring n (String.length w) s = w /\ (String.length w <= String.length s)%nat)
  then Some (substring 0 n s) else None.

Definition base (s : option string) : string :=
  let s := default "" s in
  match strip "USDT" s, strip "USDC" s, strip "USD" s with
  | Some t, _, _ | _, Some t, _ | _, _, Some t => t
  | _, _, _ => s
  end.

(** A character [encodeURIComponent] leaves as it is, and the escape of any other. *)
Definition uri_mark (c : ascii) : bool :=
  let n := N_of_ascii c in
  bool_decide ((48 <= n <= 57)%N \/ (65 <= n <= 90)%N \/ (97 <= n <= 122)%N \/
    c ∈ ["-"; "_"; "."; "!"; "~"; "*"; "'"; "("; ")"]%char).

Definition hex_digit (n : N) : ascii := ascii_of_N (if decide (n < 10)%N then 48 + n else 55 + n).

Fixpoint encodeURIComponent (s : string) : string :=
  match s with
  | EmptyString => ""
  | String.String c s =>
      if uri_mark c then String.String c (encodeURIComponent s)
      else String.String "%" (String.String (hex_digit (N_of_ascii c / 16))
        (String.String (hex_digit (N_of_ascii c mod 16)) (encodeURIComponent s)))
  end.

(** The texts the language of the browser decides: [toLocaleString] with that many
    decimals, [toLocaleTimeString] of a time in milliseconds, [String] of a number. *)
Class Browser := {
  toLocaleString : nat -> spec_float -> string;
  toLocaleTimeString : Z -> string;
  number_to_string : spec_float -> string }.

(** The nearest integer to [num / den], the larger of two. *)
Definition round_half_up (num den : Z) : Z := (2 * num + den) / (2 * den).

(** [x.toFixed(k)] *)
Definition toFixed `{Browser} (k : nat) (x : spec_float) : string :=
  match x with
  | S754_nan => "NaN"
  | S754_infinity s => minus s +:+ "Infinity"
  | S754_zero _ => point k 0
  | S754_finite s m e =>
      let num := Z.pos m * 2 ^ Z.max 0 e in
      let den := 2 ^ Z.max 0 (- e) in
      if decide (10 ^ 21 * den <= num) then number_to_string x
      else minus s +:+ point k (round_half_up (num * 10 ^ Z.of_nat k) den)
  end.

Definition fmt `{Browser} (d : nat) (n : option spec_float) : string :=
  match n with None | Some S754_nan => "-" | Some n => toLocaleString d n end.

(** ** Documents *)

(** A row of the tape and a document as the page reads them from their text;
    [None]: the member is absent or [null]. *)
Record PageTrade := mkPageTrade {
  j_p : option spec_float; j_q : option spec_float; j_side : string; j_t : Z }.

Record PageDoc := mkPageDoc {
  j_symbol : option string; j_mode : option string;
  j_levels : option Z; j_ops : option spec_float;
  j_bid : option spec_float; j_bidSz : option spec_float;
  j_ask : option spec_float; j_askSz : option spec_float;
  j_spread : option spec_float; j_mid : option spec_float;
  j_bids : option (list (option spec_float * option spec_float));
  j_asks : option (list (option spec_float * option spec_float));
  j_p50us : option spec_float; j_p99us : option spec_float;
  j_drops : option Z; j_gaps : option Z; j_resync : option Z; j_oob : option Z; j_cross : option Z;
  j_trades : option (list PageTrade) }.

(** [{}] *)
Definition empty_doc : PageDoc :=
  mkPageDoc None None None None None None None None None None None None None None None None None None None None.

(** JSON has no infinity and no NaN: they are written as [null]. *)
Definition json_number (x : spec_float) : option spec_float :=
  match x with S754_nan | S754_infinity _ => None | _ => Some x end.

Definition page_level (l : spec_float * spec_float) : option spec_float * option spec_float :=
  (json_number l.1, json_number l.2).

Definition page_trade (t : DocTrade) : PageTrade :=
  mkPageTrade (json_number (t_p t)) (json_number (t_q t)) (t_side t) (t_t t).

(** What the page reads of a document the server published. *)
Definition page_view (pub : Published) : PageDoc :=
  match pub with
  | PNothing => empty_doc
  | PSeeking _ _ symbol mode =>
      mkPageDoc (Some symbol) (Some mode) None None None None None None None None None None None None
        None None None None None None
  | PDoc d =>
      let fst_of o := (o : option (spec_float * spec_float)) ≫= fun l => json_number l.1 in
      let snd_of o := (o : option (spec_float * spec_float)) ≫= fun l => json_number l.2 in
      mkPageDoc (Some (d_symbol d)) (Some (d_mode d)) (Some (d_levels d)) (json_number (d_ops d))
        (fst_of (d_bid d)) (snd_of (d_bid d)) (fst_of (d_ask d)) (snd_of (d_ask d))
        (fst_of (d_spread d)) (snd_of (d_spread d))
        (Some (page_level <$> d_bids d)) (Some (page_level <$> d_asks d))
        (json_number (d_p50us d)) (json_number (d_p99us d))
        (Some (d_drops d)) (Some (d_gaps d)) (Some (d_resync d)) (Some (d_oob d)) (Some (d_cross d))
        (Some (page_trade <$> d_trades d))
  end.

(** ** The screen *)

(** The width of the bar, the price, the size. *)
Record LadderRow := mkLadderRow { lr_width : string; lr_price : string; lr_size : string }.

Record Card := mkCard { cd_key : string; cd_value : string; cd_bad : bool }.

Record TapeRow := mkTapeRow { tp_side : string; tp_time : string; tp_price : string; tp_qty : string }.

(** Best bid, middle and best ask, in the single view and in each column. *)
Record Hero := mkHero {
  he_bid : string; he_bidSz : string; he_mid : string; he_spread : string; he_ask : string; he_askSz : string }.

Record Column := mkColumn {
  co_hero : Hero; co_bids : list LadderRow; co_asks : list LadderRow;
  co_mode : string; co_gaps : string; co_cross : string }.

(** What is on the canvas: its size and scale, the points of the line, the texts. *)
Record Chart := mkChart {
  ch_width : spec_float; ch_height : spec_float; ch_scale : spec_float;
  ch_line : list (spec_float * spec_float);
  ch_texts : list (string * (spec_float * spec_float)) }.

(** A drop-down list: values with their texts, the value selected. *)
Record Select := mkSelect { se_options : list (string * string); se_value : string }.

(** [sel.value = v]: nothing is selected when no option has the value. *)
Definition set_value (v : string) (s : Select) : Select :=
  mkSelect (se_options s) (if decide (v ∈ (se_options s).*1) then v else "").

(** [sel.innerHTML = ''] and the options appended; the first one gets selected. *)
Definition select_of (options : list (string * string)) : Select :=
  mkSelect options (from_option fst "" (head options)).

Record Screen := mkScreen {
  sc_sym : string; sc_mode : string; sc_mode_class : string;
  sc_dot : string; sc_status : string;
  sc_hero : Hero; sc_bids : list LadderRow; sc_asks : list LadderRow;
  sc_stats : list Card;
  sc_alerts : string; sc_alerts_class : string;
  sc_tape : list TapeRow;
  sc_cmpGlobal : option Column; sc_cmpUs : option Column;
  sc_chart : option Chart;
  sc_symbolSel : Select; sc_marketSel : Select;
  symbolWrap_hidden : bool; marketWrap_hidden : bool; viewToggle_hidden : bool;
  btnCompare_class : string; btnSingle_class : string;
  compareView_class : string; singleView_class : string }.

#[export] Instance Screen_settable : Settable Screen := fun s =>
  mkScreen (sc_sym s) (sc_mode s) (sc_mode_class s) (sc_dot s) (sc_status s) (sc_hero s) (sc_bids s) (sc_asks s)
    (sc_stats s) (sc_alerts s) (sc_alerts_class s) (sc_tape s) (sc_cmpGlobal s) (sc_cmpUs s) (sc_chart s)
    (sc_symbolSel s) (sc_marketSel s) (symbolWrap_hidden s) (marketWrap_hidden s) (viewToggle_hidden s)
    (btnCompare_class s) (btnSingle_class s) (compareView_class s) (singleView_class s).

(** ** The page *)

Definition MAXP : nat := 600.
Definition WIDE_SPREAD_PCT : spec_float := (f64 5 / f64 1000)%f64.

(** The counters a document was last shown with. *)
Record Prev := mkPrev { pv_gaps : Z; pv_resync : Z; pv_cross : Z }.

(** The canvas on the page: its size and the device's pixels per unit. *)
Record Pane := mkPane { clientWidth : Z; clientHeight : Z; devicePixelRatio : spec_float }.

(** What is asked of the server. *)
Inductive Request :=
  | QSymbols
  | QMarkets
  | QCompare
  | QSnapshot (market : string)
  | QSwitch (s : string).

Definition request_uri (q : Request) : string :=
  match q with
  | QSymbols => "/symbols.json"
  | QMarkets => "/markets.json"
  | QCompare => "/compare.json"
  | QSnapshot market => "/snapshot.json?market=" +:+ encodeURIComponent market
  | QSwitch s => "/symbol?set=" +:+ encodeURIComponent s
  end.

(** [p_symbolChange], [p_marketChange]: the handlers of the controls are attached.
    [p_inflight]: the requests whose answer is awaited. *)
Record Page := mkPage {
  p_market : string;
  p_viewMode : string;
  p_symbol : string;
  p_multiMarket : bool;
  p_histByMarket : gmap string (list spec_float);
  p_prevByMkt : gmap string Prev;
  p_storage : gmap string string;
  p_symbolChange : bool;
  p_marketChange : bool;
  p_inflight : list Request;
  p_pane : Pane;
  p_screen : Screen }.

#[export] Instance Page_settable : Settable Page := fun p =>
  mkPage (p_market p) (p_viewMode p) (p_symbol p) (p_multiMarket p) (p_histByMarket p) (p_prevByMkt p)
    (p_storage p) (p_symbolChange p) (p_marketChange p) (p_inflight p) (p_pane p) (p_screen p).

(** An assignment to an element of the page. *)
Definition on_screen (f : Screen -> Screen) (p : Page) : Page := p <| p_screen ::= f |>.

Section Page.
Context `{Browser}.

(** ** Drawing *)

(** [drawChart] on a canvas: the newest points of the chosen market as a line. *)
Definition chart_of (pane : Pane) (hist : list spec_float) : Chart :=
  let dpr := match devicePixelRatio pane with S754_zero _ | S754_nan => f64 1 | r => r end in
  let w := f64 (clientWidth pane) in
  let h := f64 (clientHeight pane) in
  let clear line texts := mkChart (w * dpr)%f64 (h * dpr)%f64 dpr line texts in
  match hist with
  | [] | [_] => clear [] []
  | v :: vs =>
      let lo := foldl Math_min v vs in
      let hi := foldl Math_max v vs in
      let '(lo, hi) := if SFeqb lo hi then ((lo - f64 1)%f64, (hi + f64 1)%f64) else (lo, hi) in
      let pad := f64 6 in
      let px i := (pad + f64 (Z.of_nat i) * (w - f64 2 * pad) / f64 (Z.of_nat (length hist) - 1))%f64 in
      let py v := (pad + (hi - v) * (h - f64 2 * pad) / (hi - lo))%f64 in
      clear (imap (fun i v => (px i, py v)) hist)
        [(fmt 2 (Some hi), (f64 4, f64 12)); (fmt 2 (Some lo), (f64 4, (h - f64 4)%f64))]
  end.

Definition drawChart (p : Page) : Page :=
  let hist := default [] (p_histByMarket p !! p_market p) in
  on_screen (fun s => s <| sc_chart := Some (chart_of (p_pane p) hist) |>) p.

Definition clearCharts (p : Page) : Page := drawChart (p <| p_histByMarket := ∅ |>).

(** [null] counts as 0 in arithmetic. *)
Definition ladder_row (max : spec_float) (r : option spec_float * option spec_float) : LadderRow :=
  let size := default (S754_zero false) r.2 in
  mkLadderRow (toFixed 1 (size / max * f64 100)%f64 +:+ "%") (fmt 2 r.1) (fmt 3 r.2).

Definition ladder (arr : option (list (option spec_float * option spec_float))) : list LadderRow :=
  let arr := default [] arr in
  let sizes := (fun r => default (S754_zero false) r.2) <$> arr in
  let max := foldr Math_max (f64 1 / f64 (10 ^ 9))%f64 sizes in
  ladder_row max <$> arr.

Definition hero (d : PageDoc) : Hero :=
  let b := base (j_symbol d) in
  mkHero (fmt 2 (j_bid d)) (if j_bid d is Some _ then fmt 3 (j_bidSz d) +:+ " " +:+ b else "")
    (fmt 2 (j_mid d)) (if j_spread d is Some _ then "spread " +:+ fmt 2 (j_spread d) else "")
    (fmt 2 (j_ask d)) (if j_ask d is Some _ then fmt 3 (j_askSz d) +:+ " " +:+ b else "").

(** A counter as a text and as a warning. *)
Definition count_text (n : option Z) : string := fmt 0 (f64 <$> n).
Definition counted (n : option Z) : bool := bool_decide (0 < default 0 n).

Definition stats_cards (d : PageDoc) : list Card :=
  let micros p := if p is Some _ then fmt 0 p +:+ " us" else "-" in
  [mkCard "updates/s" (fmt 0 (j_ops d)) false;
   mkCard "p50 latency" (micros (j_p50us d)) false;
   mkCard "p99 latency" (micros (j_p99us d)) false;
   mkCard "price levels" (count_text (j_levels d)) false;
   mkCard "mode" (or_else (j_mode d) "-") (negb (bool_decide (j_mode d = Some "streaming")));
   mkCard "gaps" (count_text (j_gaps d)) (counted (j_gaps d));
   mkCard "re-syncs" (count_text (j_resync d)) (counted (j_resync d));
   mkCard "ring drops" (count_text (j_drops d)) (counted (j_drops d));
   mkCard "out-of-band" (count_text (j_oob d)) false;
   mkCard "crossed" (count_text (j_cross d)) (counted (j_cross d))].

Definition column (d : PageDoc) : Column :=
  mkColumn (hero d) (ladder (j_bids d)) (ladder (j_asks d))
    (or_else (j_mode d) "-") (count_text (j_gaps d)) (count_text (j_cross d)).

Definition tape_row (b : string) (t : PageTrade) : TapeRow :=
  let side := if decide (j_side t = "sell") then "sell" else "buy" in
  mkTapeRow side (if decide (j_t t = 0) then "-" else toLocaleTimeString (j_t t))
    (fmt 2 (j_p t)) (fmt 4 (j_q t) +:+ " " +:+ b).

Definition renderTape (trades : list PageTrade) (p : Page) : Page :=
  on_screen (fun s => s <| sc_tape := tape_row (base (Some (p_symbol p))) <$> trades |>) p.

(** ** Alerts *)

Inductive Alert :=
  | Gap (id : string) (n : Z)
  | Resync (id : string)
  | Crossed (id : string)
  | WideSpread (id : string) (spread mid : spec_float).

Definition alert_text (a : Alert) : string :=
  match a with
  | Gap id n => id +:+ ": sequence gap (+" +:+ to_string n +:+ ")"
  | Resync id => id +:+ ": book re-sync"
  | Crossed id => id +:+ ": crossed book observed"
  | WideSpread id spread mid =>
      id +:+ ": wide spread " +:+ fmt 2 (Some spread) +:+ " (" +:+
        toFixed 2 (spread / mid * f64 100)%f64 +:+ "%)"
  end.

(** A spread of more than [WIDE_SPREAD_PCT] of the middle. *)
Definition wide_spread (id : string) (d : PageDoc) : list Alert :=
  match j_mid d, j_spread d with
  | Some mid, Some spread =>
      if SFltb (S754_zero false) mid && SFltb WIDE_SPREAD_PCT (spread / mid)%f64
      then [WideSpread id spread mid] else []
  | _, _ => []
  end.

Definition prev_of (d : PageDoc) : Prev :=
  mkPrev (default 0 (j_gaps d)) (default 0 (j_resync d)) (default 0 (j_cross d)).

Definition checkAlerts (id : string) (d : PageDoc) (prevByMkt : gmap string Prev) :
    list Alert * gmap string Prev :=
  let p := default (mkPrev 0 0 0) (prevByMkt !! id) in
  let n := prev_of d in
  ((if decide (pv_gaps p < pv_gaps n) then [Gap id (pv_gaps n - pv_gaps p)] else []) ++
   (if decide (pv_resync p < pv_resync n) then [Resync id] else []) ++
   (if decide (pv_cross p < pv_cross n) then [Crossed id] else []) ++
   wide_spread id d,
   <[id := n]> prevByMkt).

Definition show_alerts (alerts : list Alert) (p : Page) : Page :=
  on_screen (fun s => s <| sc_alerts := String.concat " | " (alert_text <$> alerts) |>
    <| sc_alerts_class := match alerts with [] => "" | _ => "show" end |>) p.

(** ** Rendering *)

Definition renderCompare (all : gmap string PageDoc) (p : Page) : Page :=
  let g := default empty_doc (all !! "global") in
  let u := default empty_doc (all !! "us") in
  let p := on_screen (fun s => s
    <| sc_sym := or_else (j_symbol g) (or_else (j_symbol u) (p_symbol p)) |>
    <| sc_cmpGlobal := Some (column g) |> <| sc_cmpUs := Some (column u) |>) p in
  let '(ga, prev) := checkAlerts "global" g (p_prevByMkt p) in
  let '(ua, prev) := checkAlerts "us" u prev in
  let p := show_alerts (ga ++ ua) (p <| p_prevByMkt := prev |>) in
  renderTape (match j_trades g with Some (t :: ts) => t :: ts | _ => default [] (j_trades u) end) p.

(** [hist.push(d.mid)] and [hist.shift()]. *)
Definition push_point (v : spec_float) (hist : list spec_float) : list spec_float :=
  let hist := hist ++ [v] in if decide (MAXP < length hist)%nat then tail hist else hist.

Definition push_mid (d : PageDoc) (p : Page) : Page :=
  match j_mid d with
  | Some mid =>
      let hist := default [] (p_histByMarket p !! p_market p) in
      drawChart (p <| p_histByMarket ::= <[p_market p := push_point mid hist]> |>)
  | None => p
  end.

(** What the single view shows of a document. *)
Definition show_doc (d : PageDoc) (s : Screen) : Screen :=
  s <| sc_sym := or_else (j_symbol d) "-" |>
    <| sc_mode := or_else (j_mode d) "..." |>
    <| sc_mode_class := "mode " +:+ (if decide (j_mode d = Some "streaming") then "streaming" else "") |>
    <| sc_hero := hero d |> <| sc_bids := ladder (j_bids d) |> <| sc_asks := ladder (j_asks d) |>
    <| sc_stats := stats_cards d |>.

Definition render (d : PageDoc) (p : Page) : Page :=
  let p := on_screen (show_doc d) p in
  let '(alerts, prev) := checkAlerts (p_market p) d (p_prevByMkt p) in
  let p := show_alerts alerts (p <| p_prevByMkt := prev |>) in
  push_mid d (renderTape (default [] (j_trades d)) p).

(** ** Controls and requests *)

Definition send (q : Request) (p : Page) : Page := p <| p_inflight ::= fun qs => qs ++ [q] |>.

(** The view that is shown: both markets side by side, or one. *)
Definition comparing (p : Page) : bool := bool_decide (p_viewMode p = "compare") && p_multiMarket p.

Definition setView (v : string) (p : Page) : Page :=
  let p := p <| p_viewMode := v |> <| p_storage ::= <["fhView" := v]> |> in
  let is_v w := bool_decide (v = w) in
  on_screen (fun s =>
    let s := s
      <| btnCompare_class := if is_v "compare" then "on" else "" |>
      <| btnSingle_class := if is_v "single" then "on" else "" |>
      <| compareView_class := if is_v "compare" && p_multiMarket p then "show" else "" |>
      <| singleView_class := if is_v "single" || negb (p_multiMarket p) then "" else "hide" |> in
    if is_v "compare" && p_multiMarket p then s <| marketWrap_hidden := true |>
    else if p_multiMarket p then s <| marketWrap_hidden := false |> else s) p.

(** [tick] up to its [await]. *)
Definition tick (p : Page) : Page :=
  send (if comparing p then QCompare else QSnapshot (p_market p)) p.

Definition set_status (t : string) : Page -> Page := on_screen (fun s => s <| sc_status := t |>).
Definition set_dot (c : string) : Page -> Page := on_screen (fun s => s <| sc_dot := c |>).

Definition tick_failed (p : Page) : Page :=
  set_status "disconnected - is live_feed --serve running?" (set_dot "dot" p).

Definition tick_live (p : Page) : Page := set_status "live" (set_dot "dot up" p).

(** [loadSymbols] behind its [await]s: the answer's status and the two members read. *)
Definition symbols_loaded (ok : bool) (symbols : option (list string)) (active : option string) (p : Page) : Page :=
  let shown := on_screen (fun s => s <| symbolWrap_hidden := false |>) in
  if negb ok then shown p else
  let sel := sc_symbolSel (p_screen p) in
  let sel := match default [] symbols with [] => sel | l => select_of ((fun s => (s, s)) <$> l) end in
  let symbol := or_else active (or_else (Some (se_value sel)) "BTCUSDT") in
  shown (on_screen (fun s => s <| sc_symbolSel := set_value symbol sel |>)
    (p <| p_symbol := symbol |>)) <| p_symbolChange := true |>.

(** [sel.onchange] of the symbols, up to its [await] and behind it. *)
Definition symbol_change (p : Page) : Page :=
  let s := se_value (sc_symbolSel (p_screen p)) in
  if decide (s = p_symbol p) then p
  else send (QSwitch s) (set_status "switching symbol (wait ~5s)..." p).

Definition symbol_switched (s : string) (ok : bool) (p : Page) : Page :=
  if negb ok then set_status "switch failed - wait and retry" p
  else tick (clearCharts (p <| p_symbol := s |> <| p_storage ::= <["fhSymbol" := s]> |> <| p_prevByMkt := ∅ |>)).

(** [loadMarkets] behind its [await]s. *)
Definition markets_loaded (markets : option (list (string * string))) (p : Page) : Page :=
  let markets := default [] markets in
  let p := on_screen (fun s => s <| sc_marketSel := select_of markets |>) p in
  let p := p <| p_multiMarket := bool_decide (1 < length markets)%nat |> in
  if negb (p_multiMarket p) then
    setView "single" (on_screen (fun s => s <| marketWrap_hidden := true |> <| viewToggle_hidden := true |>) p)
  else
    let p := on_screen (fun s => s <| viewToggle_hidden := false |>
      <| marketWrap_hidden := bool_decide (p_viewMode p = "compare") |>) p in
    let p := if decide (p_market p ∈ markets.*1) then p
      else p <| p_market := from_option fst "" (head markets) |> in
    let p := on_screen (fun s => s <| sc_marketSel ::= set_value (p_market p) |>) p in
    setView (p_viewMode p) (p <| p_marketChange := true |>).

(** [sel.onchange] of the markets. *)
Definition market_change (p : Page) : Page :=
  let v := se_value (sc_marketSel (p_screen p)) in
  tick (clearCharts (p <| p_market := v |> <| p_storage ::= <["fhMarket" := v]> |>)).

(** ** Answers *)

(** What an awaited request comes to: [fetch] or the reading of the body fails, or
    the members of the answer that the script reads. *)
Inductive Reply :=
  | Failed
  | RSymbols (ok : bool) (symbols : option (list string)) (active : option string)
  | RMarkets (markets : option (list (string * string)))
  | RCompare (all : gmap string PageDoc)
  | RSnapshot (d : PageDoc)
  | RSwitched (ok : bool).

(** [None]: an answer to another question. *)
Definition deliver (q : Request) (r : Reply) (p : Page) : option Page :=
  match q, r with
  | QSymbols, Failed => Some (symbols_loaded false None None p)
  | QSymbols, RSymbols ok symbols active => Some (symbols_loaded ok symbols active p)
  | QMarkets, Failed => Some p
  | QMarkets, RMarkets markets => Some (markets_loaded markets p)
  | QCompare, Failed | QSnapshot _, Failed => Some (tick_failed p)
  | QCompare, RCompare all => Some (renderCompare all (tick_live p))
  | QSnapshot _, RSnapshot d => Some (render d (tick_live p))
  | QSwitch _, Failed => Some p
  | QSwitch s, RSwitched ok => Some (symbol_switched s ok p)
  | _, _ => None
  end.

(** ** Events *)

Inductive Event :=
  | Timer
  | Resize (pane : Pane)
  | PickSymbol (v : string)
  | PickMarket (v : string)
  | ClickCompare
  | ClickSingle
  | Answer (i : nat) (r : Reply).

(** A control is used when it is shown; a list calls its handler when the value
    has changed. *)
Definition page_event (e : Event) (p : Page) : option Page :=
  let s := p_screen p in
  match e with
  | Timer => Some (tick p)
  | Resize pane => Some (drawChart (p <| p_pane := pane |>))
  | PickSymbol v =>
      if decide (symbolWrap_hidden s = false /\ v ∈ (se_options (sc_symbolSel s)).*1 /\
        v <> se_value (sc_symbolSel s)) then
        let p := on_screen (fun s => s <| sc_symbolSel ::= set_value v |>) p in
        Some (if p_symbolChange p then symbol_change p else p)
      else None
  | PickMarket v =>
      if decide (marketWrap_hidden s = false /\ v ∈ (se_options (sc_marketSel s)).*1 /\
        v <> se_value (sc_marketSel s)) then
        let p := on_screen (fun s => s <| sc_marketSel ::= set_value v |>) p in
        Some (if p_marketChange p then market_change p else p)
      else None
  | ClickCompare =>
      if viewToggle_hidden s then None else Some (if p_marketChange p then setView "compare" p else p)
  | ClickSingle =>
      if viewToggle_hidden s then None else Some (if p_marketChange p then setView "single" p else p)
  | Answer i r =>
      q ← p_inflight p !! i;
      deliver q r (p <| p_inflight ::= delete i |>)
  end.

Definition page_step (p p' : Page) : Prop := exists e, page_event e p = Some p'.

(** ** The start *)

(** The elements as the markup has them. *)
Definition screen0 : Screen :=
  mkScreen "-" "..." "mode" "dot" "connecting..." (mkHero "-" "" "-" "" "-" "") [] [] [] "" "" [] None None None
    (select_of ((fun s => (s, s)) <$> ["BTCUSDT"; "ETHUSDT"; "SOLUSDT"; "BNBUSDT"; "XRPUSDT"])) (select_of [])
    false true true "on" "" "" "".

(** The page with what the browser has stored, before its first statement that
    calls the server, and behind the last statement of the script. *)
Definition page_new (storage : gmap string string) (pane : Pane) : Page :=
  mkPage (or_else (storage !! "fhMarket") "global") (or_else (storage !! "fhView") "compare") "" false ∅ ∅
    storage false false [] pane screen0.

Definition page0 (storage : gmap string string) (pane : Pane) : Page :=
  tick (send QMarkets (send QSymbols (page_new storage pane))).

(** ** Lemmas: rendering *)

(** Documents shown one after the other, and the alerts they raise. *)
Definition show_all (ds : list PageDoc) (p : Page) : Page := foldl (fun p d => render d p) p ds.

Fixpoint alert_run (id : string) (ds : list PageDoc) (prev : gmap string Prev) : list Alert * gmap string Prev :=
  match ds with
  | [] => ([], prev)
  | d :: ds =>
      let '(alerts, prev) := checkAlerts id d prev in
      let '(more, prev) := alert_run id ds prev in
      (alerts ++ more, prev)
  end.

(** The single view shows a document. *)
Definition single_shows (d : PageDoc) (s : Screen) : Prop :=
  sc_sym s = or_else (j_symbol d) "-" /\ sc_mode s = or_else (j_mode d) "..." /\
  sc_hero s = hero d /\ sc_bids s = ladder (j_bids d) /\ sc_asks s = ladder (j_asks d) /\
  sc_stats s = stats_cards d.

(** What [render] does to a page. *)
Record rendered (d : PageDoc) (p p' : Page) : Prop := {
  rd_market : p_market p' = p_market p;
  rd_hist : p_histByMarket p' =
    match j_mid d with
    | Some mid => <[p_market p := push_point mid (default [] (p_histByMarket p !! p_market p))]> (p_histByMarket p)
    | None => p_histByMarket p
    end;
  rd_prev : p_prevByMkt p' = <[p_market p := prev_of d]> (p_prevByMkt p);
  rd_shows : single_shows d (p_screen p');
  rd_alerts : sc_alerts (p_screen p') =
    String.concat " | " (alert_text <$> (checkAlerts (p_market p) d (p_prevByMkt p)).1);
  rd_inflight : p_inflight p' = p_inflight p }.

Lemma render_spec d p : rendered d p (render d p).
Proof.
  unfold render, push_mid. cbn. destruct (j_mid d) eqn:E; split; cbn; rewrite ?E; try done; by split_and!.
Qed.

(** The reference of a chart: the last points of all. *)
Definition last_points (l : list spec_float) : list spec_float := drop (length l - MAXP) l.

Lemma last_points_short l : (length l <= MAXP)%nat -> last_points l = l.
Proof. intros H0. unfold last_points. by replace (length l - MAXP)%nat with O by lia. Qed.

Lemma last_points_snoc v l : push_point v (last_points l) = last_points (l ++ [v]).
Proof.
  unfold push_point, last_points. rewrite !length_app, length_drop. cbn [length].
  assert (0 < MAXP)%nat as H0 by (unfold MAXP; lia). generalize dependent MAXP. intros n H0.
  case_decide as D.
  - replace (length l + 1 - n)%nat with (S (length l - n)) by lia.
    destruct (drop (length l - n) l) as [|x r] eqn:E.
    { apply (f_equal length) in E. rewrite length_drop in E. cbn in E. lia. }
    cbn. rewrite drop_app_le by lia. rewrite <- Nat.add_1_r, <- drop_drop, E. done.
  - replace (length l + 1 - n)%nat with O by lia. by replace (length l - n)%nat with O by lia.
Qed.

Lemma push_point_length v hist : (length hist <= MAXP)%nat -> (length (push_point v hist) <= MAXP)%nat.
Proof.
  intros Hl. rewrite <- (last_points_short hist Hl), last_points_snoc. unfold last_points.
  rewrite length_drop. lia.
Qed.

(** The gaps the alerts report. *)
Definition gap_count (a : Alert) : Z := match a with Gap _ n => n | _ => 0 end.
Definition reported_gaps (l : list Alert) : Z := foldr (fun a n => gap_count a + n) 0 l.

Lemma reported_app l1 l2 : reported_gaps (l1 ++ l2) = reported_gaps l1 + reported_gaps l2.
Proof.
  induction l1 as [|a l1 IH]; [done|]. unfold reported_gaps in *. cbn. rewrite IH. lia.
Qed.

(** One document reports by how much the counter has grown. *)
Lemma check_reports id d prev :
  let p := default (mkPrev 0 0 0) (prev !! id) in
  reported_gaps (checkAlerts id d prev).1 = Z.max 0 (pv_gaps (prev_of d) - pv_gaps p).
Proof.
  cbn zeta. unfold checkAlerts. cbn [fst]. rewrite !reported_app.
  assert (reported_gaps (wide_spread id d) = 0) as ->.
  { unfold wide_spread. repeat case_match; done. }
  cbn [prev_of pv_gaps pv_resync pv_cross] in *.
  repeat case_decide; cbn; lia.
Qed.

(** The counters seen, first to last, do not decrease. *)
Fixpoint growing (g : Z) (ds : list PageDoc) : Prop :=
  match ds with [] => True | d :: ds => g <= pv_gaps (prev_of d) /\ growing (pv_gaps (prev_of d)) ds end.

Definition seen_gaps (id : string) (prev : gmap string Prev) : Z :=
  pv_gaps (default (mkPrev 0 0 0) (prev !! id)).

Lemma alert_run_reports id ds prev :
  growing (seen_gaps id prev) ds ->
  reported_gaps (alert_run id ds prev).1 = seen_gaps id (alert_run id ds prev).2 - seen_gaps id prev.
Proof.
  revert prev. induction ds as [|d ds IH]; intros prev; cbn [alert_run growing]; [cbn; lia|].
  intros [Hd Hg]. pose proof (check_reports id d prev) as C. cbn zeta in C.
  assert (seen_gaps id (checkAlerts id d prev).2 = pv_gaps (prev_of d)) as E.
  { unfold seen_gaps. cbn. by rewrite lookup_insert_eq. }
  specialize (IH (checkAlerts id d prev).2). rewrite E in IH. specialize (IH Hg).
  destruct (checkAlerts id d prev) as [al pr]. cbn [fst snd] in *.
  destruct (alert_run id ds pr) as [more pr']. cbn [fst snd] in *. rewrite reported_app, IH, C.
  unfold seen_gaps in *. lia.
Qed.

Lemma show_all_run ds p :
  let p' := show_all ds p in
  p_market p' = p_market p /\ p_inflight p' = p_inflight p /\
  p_prevByMkt p' = (alert_run (p_market p) ds (p_prevByMkt p)).2 /\
  (forall m, m <> p_market p -> p_histByMarket p' !! m = p_histByMarket p !! m) /\
  forall l, default [] (p_histByMarket p !! p_market p) = last_points l ->
    default [] (p_histByMarket p' !! p_market p) = last_points (l ++ omap j_mid ds).
Proof.
  cbn zeta. revert p. induction ds as [|d ds IH]; intros p; cbn [show_all foldl].
  { split_and!; try done. intros l ->. by rewrite app_nil_r. }
  destruct (render_spec d p) as [E1 E2 E3 _ _ E4]. change (foldl _ _ _) with (show_all ds (render d p)).
  destruct (IH (render d p)) as (I1 & I2 & I3 & I4 & I5). rewrite E1 in *. rewrite E2 in *. rewrite E3 in *.
  split; [done|]. split; [by rewrite I2|]. split.
  { rewrite I3. cbn. by destruct (alert_run _ _ _). }
  split.
  - intros m Hm. rewrite I4 by done. destruct (j_mid d); [|done]. by rewrite lookup_insert_ne.
  - intros l El. cbn [omap list_omap]. destruct (j_mid d) as [mid|].
    + rewrite (I5 (l ++ [mid])); [by rewrite <- app_assoc|].
      rewrite lookup_insert_eq. cbn [default]. by rewrite El, last_points_snoc.
    + by apply I5.
Qed.

(** ** Lemmas: the invariant of the page *)

(** Of the views the page knows, at most one is shown. *)
Definition known_view (v : string) : Prop := v = "compare" \/ v = "single".

(** The charts hold at most [MAXP] points; the view shown is the one chosen; the
    controls of several markets are shown when there are several, and the market
    is one of the list then, the one selected. *)
Record page_ok (p : Page) : Prop := {
  po_charts : forall m hist, p_histByMarket p !! m = Some hist -> (1 <= length hist <= MAXP)%nat;
  po_view : known_view (p_viewMode p);
  po_compare : compareView_class (p_screen p) = if comparing p then "show" else "";
  po_single : singleView_class (p_screen p) = if comparing p then "hide" else "";
  po_toggle : viewToggle_hidden (p_screen p) = negb (p_multiMarket p);
  po_wrap : marketWrap_hidden (p_screen p) = negb (p_multiMarket p) || comparing p;
  po_market : p_multiMarket p = true -> p_marketChange p = true /\
    p_market p ∈ (se_options (sc_marketSel (p_screen p))).*1 /\
    se_value (sc_marketSel (p_screen p)) = p_market p }.

(** What [page_ok] reads of a screen. *)
Definition same_controls (s s' : Screen) : Prop :=
  compareView_class s' = compareView_class s /\ singleView_class s' = singleView_class s /\
  viewToggle_hidden s' = viewToggle_hidden s /\ marketWrap_hidden s' = marketWrap_hidden s /\
  sc_marketSel s' = sc_marketSel s.

(** A change that leaves the market and the view alone. *)
Lemma page_ok_frame p p' :
  p_market p' = p_market p -> p_viewMode p' = p_viewMode p -> p_multiMarket p' = p_multiMarket p ->
  p_marketChange p' = p_marketChange p -> same_controls (p_screen p) (p_screen p') ->
  (forall m hist, p_histByMarket p' !! m = Some hist ->
    p_histByMarket p !! m = Some hist \/ (1 <= length hist <= MAXP)%nat) ->
  page_ok p -> page_ok p'.
Proof.
  intros E1 E2 E3 E4 (S1 & S2 & S3 & S4 & S5) Hh [H1 H2 H3 H4 H5 H6 H7].
  assert (comparing p' = comparing p) as E5 by (unfold comparing; by rewrite E2, E3).
  split; rewrite ?E1, ?E2, ?E3, ?E4, ?E5, ?S1, ?S2, ?S3, ?S4, ?S5; try done.
  intros m hist Em. destruct (Hh m hist Em) as [Hm|Hm]; [by eapply H1|exact Hm].
Qed.

Lemma render_ok d p : page_ok p -> page_ok (render d p).
Proof.
  intros Hp. pose proof (rd_hist _ _ _ (render_spec d p)) as Eh.
  refine (page_ok_frame p _ _ _ _ _ _ _ Hp).
  1-4: unfold render, push_mid; cbn; by destruct (j_mid d).
  - unfold render, push_mid; cbn; destruct (j_mid d); by split_and!.
  - intros m hist. rewrite Eh. destruct (j_mid d) as [mid|]; [|by left].
    destruct (decide (m = p_market p)) as [->|Hne]; [|rewrite lookup_insert_ne by done; by left].
    rewrite lookup_insert_eq. intros [= <-]. right.
    set (l := default [] _). assert (length l <= MAXP)%nat as Hl.
    { unfold l. destruct (p_histByMarket p !! p_market p) as [h|] eqn:E; [|cbn; lia].
      by apply (po_charts p Hp _ _ E). }
    split; [|by apply push_point_length].
    unfold push_point. case_decide as D; [|rewrite length_app; cbn; lia].
    destruct l as [|x l]; [cbn in D; unfold MAXP in D; lia|]. cbn. rewrite length_app. cbn. lia.
Qed.

Lemma renderCompare_ok all p : page_ok p -> page_ok (renderCompare all p).
Proof. apply page_ok_frame; try done; by left. Qed.

Lemma set_screen_ok f p : same_controls (p_screen p) (f (p_screen p)) -> page_ok p -> page_ok (on_screen f p).
Proof. intros Hs. apply page_ok_frame; try done. by left. Qed.

Lemma tick_ok p : page_ok p -> page_ok (tick p).
Proof. apply page_ok_frame; try done; by left. Qed.

Lemma clearCharts_ok p : page_ok p -> page_ok (clearCharts p).
Proof. by apply page_ok_frame. Qed.

(** [setView] brings the classes and the controls in line with the view. *)
Lemma setView_ok v p :
  known_view v -> (forall m hist, p_histByMarket p !! m = Some hist -> (1 <= length hist <= MAXP)%nat) ->
  viewToggle_hidden (p_screen p) = negb (p_multiMarket p) ->
  (p_multiMarket p = false -> marketWrap_hidden (p_screen p) = true) ->
  (p_multiMarket p = true -> p_marketChange p = true /\
    p_market p ∈ (se_options (sc_marketSel (p_screen p))).*1 /\
    se_value (sc_marketSel (p_screen p)) = p_market p) ->
  page_ok (setView v p).
Proof.
  intros Hv Hh Ht Hw Hm. split; [done|done|..].
  all: destruct Hv as [-> | ->], p as [m vm sy mm h pr st sc mc fl pa s]; cbn in *; destruct mm; cbn in *; auto.
Qed.

Lemma markets_ok markets p : page_ok p -> page_ok (markets_loaded markets p).
Proof.
  intros Hp. unfold markets_loaded. generalize (default [] markets) as l. intros l. cbn zeta.
  pose proof (po_charts p Hp) as Hh. pose proof (po_view p Hp) as Hv.
  case_bool_decide as D; cbn [negb p_multiMarket rset on_screen].
  - set (m1 := if decide _ then _ else _).
    assert (p_market m1 ∈ l.*1 /\ p_histByMarket m1 = p_histByMarket p /\ p_viewMode m1 = p_viewMode p /\
      viewToggle_hidden (p_screen m1) = false /\ sc_marketSel (p_screen m1) = select_of l /\
      p_multiMarket m1 = true) as (M1 & M2 & M3 & M4 & M5 & M6).
    { unfold m1. case_decide as Dm; cbn; split_and!; try done.
      - destruct l as [|x l]; [cbn in D; lia|]. cbn. left. }
    apply setView_ok; cbn; rewrite ?M2, ?M3, ?M4, ?M5, ?M6; try done.
    intros _. unfold set_value. cbn. by rewrite decide_True.
  - apply setView_ok; try done. by right.
Qed.

Lemma deliver_ok q r p p' : deliver q r p = Some p' -> page_ok p -> page_ok p'.
Proof.
  assert (forall t c p, page_ok p -> page_ok (set_status t (set_dot c p))) as Hs.
  { intros t c p0 Hp. apply set_screen_ok; [by split_and!|]. apply set_screen_ok; [by split_and!|done]. }
  intros E Hp. destruct q, r; cbn [deliver] in E; try discriminate E; injection E as <-; try done; try by apply Hs.
  - apply set_screen_ok; [by split_and!|done].
  - unfold symbols_loaded. destruct (negb ok).
    + apply set_screen_ok; [by split_and!|done].
    + refine (page_ok_frame p _ _ _ _ _ _ _ Hp); try done; by left.
  - by apply markets_ok.
  - apply renderCompare_ok. exact (Hs "live" "dot up" p Hp).
  - apply render_ok. exact (Hs "live" "dot up" p Hp).
  - unfold symbol_switched. destruct (negb ok); [apply set_screen_ok; [by split_and!|done]|].
    apply tick_ok, clearCharts_ok. refine (page_ok_frame p _ _ _ _ _ _ _ Hp); try done; by left.
Qed.

Lemma event_ok e p p' : page_event e p = Some p' -> page_ok p -> page_ok p'.
Proof.
  intros E Hp. destruct e as [|pane|v|v| | |i r]; cbn in E.
  - injection E as <-. by apply tick_ok.
  - injection E as <-. refine (page_ok_frame p _ _ _ _ _ _ _ Hp); try done; by left.
  - case_decide; [|done]. injection E as <-.
    assert (page_ok (on_screen (fun s => s <| sc_symbolSel ::= set_value v |>) p)) as H1.
    { apply set_screen_ok; [by split_and!|done]. }
    case_match; [|done]. unfold symbol_change. case_decide; [done|].
    refine (page_ok_frame _ _ _ _ _ _ _ _ H1); try done; by left.
  - case_decide as D; [|done]. destruct D as (D1 & D2 & D3).
    rewrite (po_wrap p Hp) in D1. apply orb_false_iff in D1 as [Dm Dc].
    apply negb_false_iff in Dm. destruct (po_market p Hp Dm) as (M1 & M2 & M3).
    cbn [p_marketChange rset on_screen] in E. rewrite M1 in E. injection E as <-.
    unfold market_change. cbn. unfold set_value at 1. cbn. rewrite decide_True by done.
    destruct Hp as [H1 H2 H3 H4 H5 H6 H7].
    apply tick_ok, clearCharts_ok. split; cbn; try done.
    intros _. unfold set_value. cbn. by rewrite decide_True.
  - rewrite (po_toggle p Hp) in E. destruct (p_multiMarket p) eqn:Em; cbn in E; [|done].
    destruct (po_market p Hp Em) as [M1 M]. rewrite M1 in E. injection E as <-.
    apply setView_ok; [by left|apply Hp|apply Hp|by rewrite Em|by intros _].
  - rewrite (po_toggle p Hp) in E. destruct (p_multiMarket p) eqn:Em; cbn in E; [|done].
    destruct (po_market p Hp Em) as [M1 M]. rewrite M1 in E. injection E as <-.
    apply setView_ok; [by right|apply Hp|apply Hp|by rewrite Em|by intros _].
  - apply bind_Some in E as (q & Eq & E). eapply deliver_ok; [exact E|].
    refine (page_ok_frame p _ _ _ _ _ _ _ Hp); try done; by left.
Qed.

Definition page_reach (storage : gmap string string) (pane : Pane) : Page -> Prop := rtc page_step (page0 storage pane).

(** What [setView] has stored before, or nothing. *)
Definition view_stored (storage : gmap string string) : Prop :=
  storage !! "fhView" ∈ [None; Some "compare"; Some "single"].

Lemma nothing_stored : view_stored ∅.
Proof. by left. Qed.

Lemma page0_ok storage pane : view_stored storage -> page_ok (page0 storage pane).
Proof.
  intros Hv. assert (known_view (or_else (storage !! "fhView") "compare")) as Hk.
  { unfold view_stored in Hv. unfold known_view. revert Hv. generalize (storage !! "fhView").
    intros o Ho. set_unfold in Ho. destruct Ho as [-> |[-> |[-> |[]]]]; cbn; auto. }
  split; cbn; unfold comparing; cbn; rewrite ?andb_false_r; try done.
Qed.

Lemma reach_ok storage pane p : view_stored storage -> page_reach storage pane p -> page_ok p.
Proof.
  intros Hv. apply (rtc_ind_r page_ok).
  - by apply page0_ok.
  - intros p1 p2 _ [e E] IH. by eapply event_ok.
Qed.

(** ** Lemmas: runs *)

Lemma lookup_snoc (q : Request) qs : (qs ++ [q]) !! length qs = Some q.
Proof. by rewrite lookup_app_r, Nat.sub_diag by done. Qed.

Lemma delete_snoc (q : Request) qs : delete (length qs) (qs ++ [q]) = qs.
Proof. by rewrite delete_middle, app_nil_r. Qed.

Lemma delete_snoc2 (q1 q2 : Request) qs :
  ((qs ++ [q1]) ++ [q2]) !! S (length qs) = Some q2 /\ delete (S (length qs)) ((qs ++ [q1]) ++ [q2]) = qs ++ [q1].
Proof.
  replace (S (length qs)) with (length (qs ++ [q1])) by (rewrite length_app; cbn; lia).
  split; [apply lookup_snoc|apply delete_snoc].
Qed.

(** The document of the newest request of the single view arrives. *)
Lemma newest_answered p q qs d :
  p_inflight p = qs ++ [QSnapshot q] ->
  page_event (Answer (length qs) (RSnapshot d)) p = Some (render d (tick_live (p <| p_inflight := qs |>))).
Proof.
  intros E. unfold page_event. rewrite E, lookup_snoc. cbn [mbind option_bind deliver].
  change (p <| p_inflight ::= delete (length qs) |>)
    with (p <| p_inflight := delete (length qs) (p_inflight p) |>).
  by rewrite E, delete_snoc.
Qed.

Lemma render_live d qs p :
  let p' := render d (tick_live (p <| p_inflight := qs |>)) in
  p_market p' = p_market p /\ p_inflight p' = qs /\ comparing p' = comparing p /\
  p_prevByMkt p' = <[p_market p := prev_of d]> (p_prevByMkt p) /\ single_shows d (p_screen p') /\
  sc_alerts (p_screen p') = String.concat " | " (alert_text <$> (checkAlerts (p_market p) d (p_prevByMkt p)).1).
Proof.
  intros p'. destruct (render_spec d (tick_live (p <| p_inflight := qs |>))).
  split; [done|]. split; [done|]. split; [|done].
  unfold p', render, push_mid. cbn. by destruct (j_mid d).
Qed.

Lemma tick_single p :
  comparing p = false -> tick p = p <| p_inflight := p_inflight p ++ [QSnapshot (p_market p)] |>.
Proof. intros Hc. unfold tick. by rewrite Hc. Qed.

(** Another market is chosen. *)
Lemma market_picked v p :
  page_ok p -> p_multiMarket p = true -> comparing p = false ->
  v ∈ (se_options (sc_marketSel (p_screen p))).*1 -> v <> p_market p ->
  exists p', page_event (PickMarket v) p = Some p' /\ p_market p' = v /\
    p_inflight p' = p_inflight p ++ [QSnapshot v] /\ p_histByMarket p' = ∅ /\ p_prevByMkt p' = p_prevByMkt p.
Proof.
  intros Hp Hm Hc Hv Hne. destruct (po_market p Hp Hm) as (M1 & M2 & M3).
  pose proof (po_wrap p Hp) as Hw. rewrite Hm, Hc in Hw. cbn in Hw.
  unfold page_event. rewrite decide_True by (by rewrite Hw, M3). cbn [p_marketChange rset on_screen].
  rewrite M1. eexists. split; [reflexivity|].
  assert (se_value (set_value v (sc_marketSel (p_screen p))) = v) as Ev by (cbn; by rewrite decide_True).
  unfold market_change, tick, comparing in *. cbn -[se_value set_value]. by rewrite Ev, Hc.
Qed.

Lemma events_run es p p' : iterM page_event es p = Some p' -> rtc page_step p p'.
Proof.
  revert p. induction es as [|e es IH]; intros p; cbn [iterM]; [intros [= <-]; apply rtc_refl|].
  intros (p1 & E & E')%bind_Some. eapply rtc_l; [by exists e|by apply IH].
Qed.

(** A switch that was refused leaves the list on the symbol that is not shown:
    choosing it again is no change, and choosing the one shown asks for nothing. *)
Lemma refused_switch s p :
  let p' := symbol_switched s false p in
  p_symbol p' = p_symbol p /\ sc_symbolSel (p_screen p') = sc_symbolSel (p_screen p) /\
  (se_value (sc_symbolSel (p_screen p)) = s -> page_event (PickSymbol s) p' = None) /\
  (forall p2, page_event (PickSymbol (p_symbol p)) p' = Some p2 -> p_inflight p2 = p_inflight p).
Proof.
  cbn. split; [done|]. split; [done|]. split.
  - intros ->. rewrite decide_False; [done|]. by intros (_ & _ & []).
  - intros p2. case_decide as D; [|done]. intros [= <-]. destruct D as (_ & D & _).
    case_match; [|done]. unfold symbol_change. cbn. unfold set_value at 1. cbn.
    rewrite (decide_True _ _ D). by rewrite decide_True.
Qed.

(** ** Theorems *)

(** C21. The single view follows its market.  Documents shown one after the other:
    the screen shows the last one, the chart of the market is the last 600 of its
    earlier points and the middles of the documents in order, the other charts
    stay, and, the counter never falling, the gaps the alerts report add up to
    its growth: each gap is reported once. *)
Theorem snapshots_followed ds d p :
  let m := p_market p in
  let p' := show_all (ds ++ [d]) p in
  let hist := default [] (p_histByMarket p !! m) in
  (length hist <= MAXP)%nat -> growing (seen_gaps m (p_prevByMkt p)) (ds ++ [d]) ->
  p_market p' = m /\ single_shows d (p_screen p') /\
  default [] (p_histByMarket p' !! m) = last_points (hist ++ omap j_mid (ds ++ [d])) /\
  (forall m', m' <> m -> p_histByMarket p' !! m' = p_histByMarket p !! m') /\
  let seen := (alert_run m ds (p_prevByMkt p)).2 in
  sc_alerts (p_screen p') = String.concat " | " (alert_text <$> (checkAlerts m d seen).1) /\
  reported_gaps (alert_run m (ds ++ [d]) (p_prevByMkt p)).1 =
    default 0 (j_gaps d) - seen_gaps m (p_prevByMkt p).
Proof.
  intros m p' hist Hl Hg. destruct (show_all_run (ds ++ [d]) p) as (E1 & _ & E3 & E4 & E5).
  pose proof (alert_run_reports m _ _ Hg) as R.
  assert (p' = render d (show_all ds p)) as Ep by (unfold p', show_all; by rewrite foldl_app).
  destruct (render_spec d (show_all ds p)) as [F1 _ F3 F4 F5 _].
  destruct (show_all_run ds p) as (G1 & _ & G3 & _).
  split; [done|]. split; [by rewrite Ep|]. split; [apply E5; symmetry; by apply last_points_short|].
  split; [done|]. cbn zeta. split.
  - rewrite Ep, F5, G1, G3. done.
  - fold m in E3. fold p' in E3. rewrite R. f_equal. unfold seen_gaps at 1. rewrite <- E3, Ep, F3, G1. unfold m.
    by rewrite lookup_insert_eq.
Qed.

(** C22. The page stays consistent.  Whatever the timer, the user, the answers and
    their order: the charts never hold more than 600 points; exactly one of the
    two views is shown, and the timer asks for its documents; with several markets
    the one asked for is in the list and selected there; without, the controls
    for several are hidden. *)
Theorem page_sound storage pane p :
  view_stored storage -> page_reach storage pane p ->
  (forall m, (length (default [] (p_histByMarket p !! m)) <= MAXP)%nat) /\
  (compareView_class (p_screen p), singleView_class (p_screen p)) =
    (if comparing p then ("show", "hide") else ("", "")) /\
  p_inflight (tick p) = p_inflight p ++ [if comparing p then QCompare else QSnapshot (p_market p)] /\
  (if p_multiMarket p
   then p_market p ∈ (se_options (sc_marketSel (p_screen p))).*1 /\
     se_value (sc_marketSel (p_screen p)) = p_market p /\ viewToggle_hidden (p_screen p) = false /\
     marketWrap_hidden (p_screen p) = comparing p
   else viewToggle_hidden (p_screen p) = true /\ marketWrap_hidden (p_screen p) = true).
Proof.
  intros Hv Hr. destruct (reach_ok _ _ _ Hv Hr) as [H1 H2 H3 H4 H5 H6 H7]. split; [|split].
  - intros m. destruct (p_histByMarket p !! m) as [h|] eqn:E; [by apply (H1 m)|cbn; lia].
  - rewrite H3, H4. by destruct (comparing p).
  - split; [done|]. destruct (p_multiMarket p); [|done]. destruct H7 as (_ & ? & ?); [done|done].
Qed.

(** Answers overtake each other.  The timer does not wait for the answer of the
    last request.  From every page that shows the single view, for any documents:
    when the second of two answers comes first, the older document is shown last,
    and stays; and the next document raises the alert for a gap that has been
    reported before, though the counter has not moved. *)
Theorem answers_overtake p d1 d2 d3 :
  let n := length (p_inflight p) in
  comparing p = false -> default 0 (j_gaps d1) < default 0 (j_gaps d2) -> j_gaps d3 = j_gaps d2 ->
  exists p2 p3,
    iterM page_event [Timer; Timer; Answer (S n) (RSnapshot d2); Answer n (RSnapshot d1)] p = Some p2 /\
    single_shows d1 (p_screen p2) /\
    iterM page_event [Timer; Answer n (RSnapshot d3)] p2 = Some p3 /\
    exists more, sc_alerts (p_screen p3) = String.concat " | "
      (alert_text <$> Gap (p_market p) (default 0 (j_gaps d2) - default 0 (j_gaps d1)) :: more).
Proof.
  intros n Hc Hg E3. subst n.
  pose (q := QSnapshot (p_market p)).
  pose (p1 := render d2 (tick_live (p <| p_inflight := p_inflight p ++ [q] |>))).
  destruct (render_live d2 (p_inflight p ++ [q]) p) as (M1 & I1 & C1 & _). fold p1 in M1, I1, C1.
  pose (p2 := render d1 (tick_live (p1 <| p_inflight := p_inflight p |>))).
  destruct (render_live d1 (p_inflight p) p1) as (M2 & I2 & C2 & P2 & S2 & _). fold p2 in M2, I2, C2, P2, S2.
  pose (p3 := render d3 (tick_live (p2 <| p_inflight := p_inflight p |>))).
  destruct (render_live d3 (p_inflight p) p2) as (_ & _ & _ & _ & _ & A3). fold p3 in A3.
  rewrite C1, Hc in C2. rewrite M1 in M2, P2.
  exists p2, p3. split; [|split; [exact S2|split]].
  - set (n := length (p_inflight p)).
    change (iterM page_event [Timer; Timer; Answer (S n) (RSnapshot d2); Answer n (RSnapshot d1)] p)
      with (iterM page_event [Answer (S n) (RSnapshot d2); Answer n (RSnapshot d1)] (tick (tick p))).
    unfold n. clear n.
    assert (tick (tick p) = p <| p_inflight := (p_inflight p ++ [q]) ++ [q] |>) as ->.
    { rewrite (tick_single (tick p) Hc). by rewrite (tick_single p Hc). }
    replace (S (length (p_inflight p))) with (length (p_inflight p ++ [q])) by (rewrite length_app; cbn; lia).
    cbn [iterM]. rewrite (newest_answered _ (p_market p) (p_inflight p ++ [q])) by done.
    cbn [mbind option_bind].
    change (_ <| p_inflight := _ |> <| p_inflight := ?qs |>) with (p <| p_inflight := qs |>). fold p1.
    by rewrite (newest_answered p1 (p_market p) (p_inflight p) d1 I1).
  - cbn [iterM]. change (page_event Timer p2) with (Some (tick p2)). cbn [mbind option_bind].
    assert (tick p2 = p2 <| p_inflight := p_inflight p ++ [QSnapshot (p_market p2)] |>) as ->.
    { by rewrite (tick_single p2 C2), I2. }
    by rewrite (newest_answered _ (p_market p2) (p_inflight p)).
  - rewrite A3. unfold checkAlerts. rewrite P2, M2, lookup_insert_eq. cbn [default fst pv_gaps prev_of].
    rewrite E3, decide_True by done. by eexists.
Qed.

(** C40. An answer for another market.  When the market is changed while a document
    of the old one is awaited, that document, once there, is shown as the new
    market's: it is the first point of the chart of the new market, its counters
    are remembered as the new market's, and the alerts name the new one. *)
Theorem market_race p v d mid :
  page_ok p -> p_multiMarket p = true -> comparing p = false ->
  v ∈ (se_options (sc_marketSel (p_screen p))).*1 -> v <> p_market p -> j_mid d = Some mid ->
  let n := length (p_inflight p) in
  exists p1 p2, iterM page_event [Timer; PickMarket v] p = Some p1 /\
    p_inflight p1 !! n = Some (QSnapshot (p_market p)) /\ p_market p1 = v /\
    page_event (Answer n (RSnapshot d)) p1 = Some p2 /\
    p_market p2 = v /\ single_shows d (p_screen p2) /\ p_histByMarket p2 = {[v := [mid]]} /\
    p_prevByMkt p2 !! v = Some (prev_of d) /\
    sc_alerts (p_screen p2) = String.concat " | " (alert_text <$> (checkAlerts v d (p_prevByMkt p)).1).
Proof.
  intros Hp Hm Hc Hv Hne Em n.
  destruct (market_picked v (tick p) (tick_ok p Hp) Hm Hc Hv Hne) as (pm & E & P1 & P2 & P3 & P4).
  rewrite (tick_single p Hc) in P2. cbn [p_inflight rset] in P2.
  assert (p_inflight pm !! n = Some (QSnapshot (p_market p))) as Eq.
  { rewrite P2. apply lookup_app_l_Some, lookup_snoc. }
  pose (pd := pm <| p_inflight ::= delete n |>). exists pm, (render d (tick_live pd)).
  split; [cbn [iterM]; change (page_event Timer p) with (Some (tick p)); cbn [mbind option_bind]; by rewrite E|].
  split; [exact Eq|]. split; [exact P1|]. split; [unfold page_event; by rewrite Eq|].
  destruct (render_spec d (tick_live pd)) as [R1 R2 R3 R4 R5 _].
  change (p_market (tick_live pd)) with (p_market pm) in *.
  change (p_histByMarket (tick_live pd)) with (p_histByMarket pm) in *.
  change (p_prevByMkt (tick_live pd)) with (p_prevByMkt pm) in *.
  change (p_prevByMkt (tick p)) with (p_prevByMkt p) in P4.
  rewrite Em, P3, P1 in R2. rewrite P1 in R1. rewrite P1, P4 in R3, R5.
  split; [exact R1|]. split; [exact R4|]. split; [|split; [|exact R5]].
  - rewrite R2, lookup_empty. done.
  - rewrite R3. apply lookup_insert_eq.
Qed.

End Page.

(** ** Examples *)

#[export] Instance demo_browser : Browser :=
  {| toLocaleString := fixed; toLocaleTimeString := to_string; number_to_string := general |}.

Definition demo_pane : Pane := mkPane 600 160 (f64 1).

(** A streaming document with a middle and a count of gaps. *)
Definition demo_page_doc (gaps : Z) (mid : Z) : PageDoc :=
  mkPageDoc (Some "BTCUSDT") (Some "streaming") (Some 2) (Some (f64 10)) (Some (f64 (mid - 1))) (Some (f64 3))
    (Some (f64 (mid + 1))) (Some (f64 1)) (Some (f64 2)) (Some (f64 mid))
    (Some [(Some (f64 (mid - 1)), Some (f64 3))]) (Some [(Some (f64 (mid + 1)), Some (f64 1))])
    (Some (f64 4)) (Some (f64 9)) (Some 0) (Some gaps) (Some 0) (Some 0) (Some 0) (Some []).

Example ladder_rows :
  ladder (Some [(Some (f64 100), Some (f64 2)); (Some (f64 99), Some (f64 1))]) =
    [mkLadderRow "100.0%" "100.00" "2.000"; mkLadderRow "50.0%" "99.00" "1.000"].
Proof. reflexivity. Qed.

Example wide_alert :
  alert_text <$> wide_spread "us" (demo_page_doc 0 100) = ["us: wide spread 2.00 (2.00%)"].
Proof. reflexivity. Qed.

Example base_asset : base <$> [Some "BTCUSDT"; Some "ETHUSD"; Some "USDTBTC"; None] = ["BTC"; "ETH"; "USDTBTC"; ""].
Proof. reflexivity. Qed.

Example encoded : encodeURIComponent "us-1&x=/" = "us-1%26x%3D%2F".
Proof. reflexivity. Qed.

Example to_fixed : toFixed 1 (f64 1 / f64 20)%f64 = "0.1" /\ toFixed 2 (f64 (-1) / f64 8)%f64 = "-0.13".
Proof. split; reflexivity. Qed.

Definition demo_page : Page := page0 ∅ demo_pane.

Lemma snapshots_followed_witness :
  let p' := show_all [demo_page_doc 0 100; demo_page_doc 2 101] demo_page in
  default [] (p_histByMarket p' !! "global") = [f64 100; f64 101] /\
  reported_gaps (alert_run "global" [demo_page_doc 0 100; demo_page_doc 2 101] ∅).1 = 2.
Proof.
  destruct (snapshots_followed [demo_page_doc 0 100] (demo_page_doc 2 101) demo_page)
    as (_ & _ & E & _ & _ & R).
  - apply Nat.le_0_l.
  - repeat split; vm_compute; discriminate.
  - exact (conj E R).
Defined.

(** Both markets announced, the single view chosen. *)
Definition demo_both : list Event := [Answer 1 (RMarkets (Some [("global", "Global"); ("us", "US")])); ClickSingle].

Lemma demo_both_run :
  exists p, iterM page_event demo_both demo_page = Some p /\ page_ok p /\ p_multiMarket p = true /\
    comparing p = false /\ (se_options (sc_marketSel (p_screen p))).*1 = ["global"; "us"] /\
    p_market p = "global" /\ page_reach ∅ demo_pane p /\ length (p_inflight p) = 2%nat.
Proof.
  assert ((fun p => (p_multiMarket p, comparing p, (se_options (sc_marketSel (p_screen p))).*1, p_market p,
    length (p_inflight p))) <$> iterM page_event demo_both demo_page
    = Some (true, false, ["global"; "us"], "global", 2%nat)) as E by (vm_compute; reflexivity).
  destruct (iterM page_event demo_both demo_page) as [p|] eqn:Ep; [|discriminate E].
  apply events_run in Ep. exists p. injection E as E1 E2 E3 E4 E5.
  split; [done|]. split; [|done]. eapply reach_ok; [exact nothing_stored|exact Ep].
Qed.

Lemma page_sound_witness :
  exists p, page_reach ∅ demo_pane p /\ comparing p = false /\
    (compareView_class (p_screen p), singleView_class (p_screen p)) = ("", "").
Proof.
  destruct demo_both_run as (p & _ & _ & _ & Ec & _ & _ & R & _). exists p. split; [exact R|]. split; [exact Ec|].
  destruct (page_sound ∅ demo_pane p nothing_stored R) as (_ & E & _).
  rewrite Ec in E. exact E.
Defined.

Lemma answers_overtake_witness :
  exists p2 p3, single_shows (demo_page_doc 1 100) (p_screen p2) /\
    iterM page_event [Timer; Answer 3 (RSnapshot (demo_page_doc 2 102))] p2 = Some p3.
Proof.
  destruct (answers_overtake demo_page (demo_page_doc 1 100) (demo_page_doc 2 101) (demo_page_doc 2 102))
    as (p2 & p3 & _ & S & E & _); [reflexivity|reflexivity|reflexivity|].
  exists p2, p3. exact (conj S E).
Defined.

Lemma market_race_witness :
  exists p2, p_market p2 = "us" /\ p_histByMarket p2 = {["us" := [f64 100]]}.
Proof.
  destruct demo_both_run as (p & _ & Hp & Hm & Hc & Hs & E & _ & _).
  destruct (market_race p "us" (demo_page_doc 0 100) (f64 100) Hp Hm Hc)
    as (p1 & p2 & _ & _ & _ & _ & E2 & _ & Eh & _).
  - rewrite Hs. right. left.
  - rewrite E. discriminate.
  - reflexivity.
  - exists p2. exact (conj E2 Eh).
Defined.
