(* ===== verification/DashboardLive.v ===== *)
(** * The page and the program

    A browser with the dashboard page open on the live feed's server
    ([apps/live_feed.cpp]): the program's threads, the page's events, the requests
    the server answers and the answers that arrive interleave ([site_step]).

    The texts between them are the JSON library's and the browser's: that a
    document is read back as it was written is [DashboardJson].

    - [replies_read]: every request of the page is answered, with what it reads;
    - [page_shows_engine]: what the page shows are documents of the consumers'
      books, of earlier moments of the run;
    - [tick_shows_market], [tick_compares]: a turn of the timer can show what the
      feeds have last published; [choice_switches]: a symbol chosen on the page is
      switched to;
    - [single_market_blank]: the page on a server of one market. *)

From Stdlib Require Import SpecFloat Ascii String.
From stdpp Require Import base list gmap strings numbers relations.
From S2P Require Import Prelude MarketEvent OrderPool OrderBook BookSpec OrderBookWf.
From S2P Require Import OrderBookBest BookLadder OrderBookProps BookL2 Instrumentation Publisher Sequencer.
From S2P Require Import Pipeline LiveFeed LiveFeedProps LiveInput LiveSession LiveServer SpscRing LiveThreads LiveShutdown.
From S2P Require Import LiveProgram LiveProgramProps Dashboard.

#[local] Arguments String.append : simpl nomatch.

(** ** Texts *)

(** What the page reads of a document's text ([page_doc]), and of a document the
    server has read and written again inside another ([page_value]). *)
Class DashboardJson (dump : Published -> string) {J : Type} (parse : string -> option J) (empty_object : J)
    (page_doc : string -> option PageDoc) (page_value : J -> PageDoc) : Prop := {
  json_nothing : page_doc "{}" = Some empty_doc;
  json_published pub : page_doc (dump pub) = Some (page_view pub);
  json_embedded pub : page_value (default empty_object (parse (dump pub))) = page_view pub }.

(** ** Lemmas: texts of requests *)

(** A character that [encodeURIComponent] replaces is not in its results. *)
Definition encoded_char (c : ascii) : string := encodeURIComponent (String.String c "").

Lemma encode_cons c s : encodeURIComponent (String.String c s) = encoded_char c +:+ encodeURIComponent s.
Proof. unfold encoded_char. cbn [encodeURIComponent]. by destruct (uri_mark c). Qed.

Lemma encoded_none c0 s :
  (forall c, String.index 0 (String.String c0 "") (encoded_char c) = None) ->
  String.index 0 (String.String c0 "") (encodeURIComponent s) = None.
Proof.
  intros H. induction s as [|c s IH]; [done|]. rewrite encode_cons. by apply index_none_app.
Qed.

Lemma encoded_no_slash s : no_slash (encodeURIComponent s).
Proof. apply encoded_none. by intros [[] [] [] [] [] [] [] []]. Qed.

Lemma encoded_no_amp s : String.index 0 "&" (encodeURIComponent s) = None.
Proof. apply encoded_none. by intros [[] [] [] [] [] [] [] []]. Qed.

Lemma encoded_nonempty s : s <> "" -> encodeURIComponent s <> "".
Proof. destruct s as [|c s]; [done|]. intros _. cbn. by destruct (uri_mark c). Qed.

(** The page by itself: its timer and its user. *)
Definition local_event (e : Event) : Prop := match e with Answer _ _ => False | _ => True end.

(** ** Lemmas: what a page keeps *)

Section Kept.
Context `{Browser}.

(** The documents shown are the same, and no chart is new. *)
Record same_docs (p p' : Page) : Prop := {
  sd_hero : sc_hero (p_screen p') = sc_hero (p_screen p);
  sd_bids : sc_bids (p_screen p') = sc_bids (p_screen p);
  sd_asks : sc_asks (p_screen p') = sc_asks (p_screen p);
  sd_global : sc_cmpGlobal (p_screen p') = sc_cmpGlobal (p_screen p);
  sd_us : sc_cmpUs (p_screen p') = sc_cmpUs (p_screen p);
  sd_charts : forall m hist, p_histByMarket p' !! m = Some hist -> p_histByMarket p !! m = Some hist }.

#[export] Instance same_docs_preorder : PreOrder same_docs.
Proof.
  split; [by split|]. intros p1 p2 p3 [] []. split; try congruence. auto.
Qed.

Lemma tick_docs p : same_docs p (tick p).
Proof. by split. Qed.

Lemma clearCharts_docs p : same_docs p (clearCharts p).
Proof. by split. Qed.

Lemma setView_docs v p : same_docs p (setView v p).
Proof. split; try done; cbn; repeat case_match; done. Qed.

Lemma markets_docs markets p : same_docs p (markets_loaded markets p).
Proof.
  unfold markets_loaded. cbn zeta. case_match.
  - etrans; [|apply setView_docs]. by split.
  - etrans; [|apply setView_docs]. set (m1 := if decide _ then _ else _).
    trans m1; [unfold m1; clear m1|by split].
    match goal with |- same_docs _ (if ?b then _ else _) => destruct b end; by split.
Qed.

Lemma switched_docs s ok p : same_docs p (symbol_switched s ok p).
Proof.
  unfold symbol_switched. case_match; [by split|]. etrans; [|apply tick_docs].
  etrans; [|apply clearCharts_docs]. by split.
Qed.

Lemma market_change_docs p : same_docs p (market_change p).
Proof. unfold market_change. etrans; [|apply tick_docs]. etrans; [|apply clearCharts_docs]. by split. Qed.

Lemma event_docs e p p' : local_event e -> page_event e p = Some p' -> same_docs p p'.
Proof.
  destruct e as [|pane|v|v| | |i r]; cbn [page_event]; intros Hl E; try destruct Hl.
  - injection E as <-. apply tick_docs.
  - injection E as <-. by split.
  - case_decide; [|done]. injection E as <-. case_match; [|by split].
    unfold symbol_change. case_decide; by split.
  - case_decide; [|done]. injection E as <-. case_match; [|by split].
    etrans; [|apply market_change_docs]. by split.
  - case_match; [done|]. injection E as <-. case_match; [apply setView_docs|done].
  - case_match; [done|]. injection E as <-. case_match; [apply setView_docs|done].
Qed.

(** An answer shows the document it brings, or none. *)
Lemma deliver_docs q r p p' :
  deliver q r p = Some p' ->
  match r with
  | RSnapshot d => exists p0, same_docs p p0 /\ p' = render d p0
  | RCompare all => exists p0, same_docs p p0 /\ p' = renderCompare all p0
  | _ => same_docs p p'
  end.
Proof.
  intros E. destruct q, r; cbn [deliver] in E; try discriminate E; injection E as <-; try by split.
  - unfold symbols_loaded. case_match; by split.
  - apply markets_docs.
  - exists (tick_live p). split; [by split|done].
  - exists (tick_live p). split; [by split|done].
  - apply switched_docs.
Qed.

End Kept.

Section Site.
Context (base : Config) (Capacity : nat).
Context (stop_returns : option (list PipelineMsg) -> bool) {Stop : WebSocketStop stop_returns}.
Context (listens : bool) (dump : Published -> string) {J : Type} (parse : string -> option J) (empty_object : J).
Context (served : FeedEndpoints -> string -> Response -> Prop).
Context `{Browser} (page_doc : string -> option PageDoc) (page_value : J -> PageDoc).

#[local] Notation endpoints := (LiveProgram.endpoints base).
#[local] Notation serving := (LiveProgram.serving base listens).
#[local] Notation answer := (LiveProgram.answer base dump parse empty_object).
#[local] Notation request := (LiveProgram.request base dump parse empty_object).
#[local] Notation prog_step := (LiveProgram.prog_step base Capacity stop_returns listens dump parse empty_object served).
#[local] Notation prog_reach := (LiveProgram.prog_reach base Capacity stop_returns listens dump parse empty_object served).
#[local] Notation built_on_the_way := (LiveProgramProps.built_on_the_way base Capacity stop_returns listens dump parse empty_object served).

(** ** The site *)

(** The program, the page, and the answers on their way. *)
Record Site := mkSite {
  st_prog : Program;
  st_page : Page;
  st_answers : list (Request * Reply) }.

#[export] Instance Site_settable : Settable Site := fun s => mkSite (st_prog s) (st_page s) (st_answers s).

(** What the page reads of the answer to a request. *)
Definition reply_of (q : Request) (a : Z * Body) : Reply :=
  let ok := bool_decide (200 <= a.1 < 300) in
  match q, a.2 with
  | QSymbols, BSymbols symbols active => RSymbols ok (Some symbols) (Some active)
  | QMarkets, BMarkets markets => RMarkets (Some markets)
  | QCompare, BCompare docs => RCompare (list_to_map ((fun d => (d.1, page_value d.2)) <$> docs))
  | QSnapshot _, BDoc text => if page_doc text is Some d then RSnapshot d else Failed
  | QSwitch _, (BSwitched _ | BError _) => RSwitched ok
  | _, _ => Failed
  end.

(** The server reads a request and answers it; an answer arrives; a request or an
    answer is lost.  (The answer to a switch request is on its way when its handler
    is done; here it may arrive as soon as the request has been read.) *)
Inductive site_step : Site -> Site -> Prop :=
  | ss_prog s p' : prog_step (st_prog s) p' -> site_step s (s <| st_prog := p' |>)
  | ss_page s e page' :
      local_event e -> page_event e (st_page s) = Some page' -> site_step s (s <| st_page := page' |>)
  | ss_serve s i q :
      serving (st_prog s) = true -> p_inflight (st_page s) !! i = Some q ->
      site_step s (mkSite (request (request_uri q) (st_prog s))
        (st_page s <| p_inflight ::= delete i |>)
        (st_answers s ++ [(q, reply_of q (answer (st_prog s) (request_uri q)).1)]))
  | ss_deliver s k q r page' :
      st_answers s !! k = Some (q, r) -> deliver q r (st_page s) = Some page' ->
      site_step s (s <| st_page := page' |> <| st_answers ::= delete k |>)
  | ss_unanswered s i q :
      p_inflight (st_page s) !! i = Some q ->
      site_step s (s <| st_page ::= (fun p => p <| p_inflight ::= delete i |>) |>
        <| st_answers ::= fun l => l ++ [(q, Failed)] |>)
  | ss_lost s k q r :
      st_answers s !! k = Some (q, r) -> site_step s (s <| st_answers ::= <[k := (q, Failed)]> |>).

(** The page may be opened at any moment of the program's run. *)
Definition site0 (p : Program) (storage : gmap string string) (pane : Pane) : Site :=
  mkSite p (page0 storage pane) [].

Definition site_reach (storage : gmap string string) (pane : Pane) (s : Site) : Prop :=
  exists p, prog_reach p /\ rtc site_step (site0 p storage pane) s.

(** ** Lemmas: requests *)

Lemma request_read q p :
  match q with QSwitch _ => True | _ => request (request_uri q) p = p end.
Proof.
  assert (forall uri, (answer p uri).2 = switching p -> request uri p = p) as R.
  { intros uri E. unfold LiveProgram.request. rewrite E. by destruct p. }
  destruct q as [| | |m|x]; [..|done].
  1-3: by apply R.
  apply R. unfold LiveProgram.answer, request_uri.
  by rewrite (snapshot_answered _ _ _ _ _ (encoded_no_slash m) (encoded_no_amp m)).
Qed.

(** What a request for a document gets: nothing, or what a feed has published. *)
Lemma snapshot_cases m p :
  let uri := request_uri (QSnapshot m) in
  (answer p uri).1 = (200, BDoc "{}") \/
  exists i ep l, endpoints !! i = Some ep /\ pg_feeds p !! i = Some l /\
    (answer p uri).1 = (200, BDoc (dump (lv_snap l))) /\ (m <> "" -> ep_id ep = encodeURIComponent m).
Proof.
  cbn zeta. unfold LiveProgram.answer, request_uri.
  rewrite (snapshot_answered _ _ _ _ _ (encoded_no_slash m) (encoded_no_amp m)). cbn [fst].
  set (want := match encodeURIComponent m with EmptyString => _ | _ => _ end).
  destruct (find_doc_cases want (served_feeds base dump p)) as [->|(f & Hf & Hw & ->)]; [by left|].
  right. apply list_elem_of_lookup_1 in Hf as [i Hi]. unfold served_feeds in Hi.
  rewrite lookup_zip_with in Hi. apply bind_Some in Hi as (ep & Ep & Hi). apply bind_Some in Hi as (l & El & [= <-]).
  exists i, ep, l. split_and!; [done..|]. intros Hm%encoded_nonempty. change (ep_id ep = want) in Hw. rewrite Hw. unfold want. by destruct (encodeURIComponent m).
Qed.

(** The comparison has the feeds' documents under their ids. *)
Lemma compare_docs p :
  exists docs, (answer p (request_uri QCompare)).1 = (200, BCompare docs) /\
  forall id j, (id, j) ∈ docs -> exists i ep l, endpoints !! i = Some ep /\ pg_feeds p !! i = Some l /\
    ep_id ep = id /\ j = default empty_object (parse (dump (lv_snap l))).
Proof.
  eexists. split; [reflexivity|]. intros id j (f & [= -> ->] & Hf)%list_elem_of_fmap_1.
  apply list_elem_of_lookup_1 in Hf as [i Hi]. unfold served_feeds in Hi.
  rewrite lookup_zip_with in Hi. apply bind_Some in Hi as (ep & Ep & Hi). apply bind_Some in Hi as (l & El & [= <-]).
  by exists i, ep, l.
Qed.

(** ** Lemmas: documents of the engine *)

(** A document of a market: none yet, the announcement of a feed that seeks, or
    that of the consumer's book at an earlier moment of the run. *)
Definition engine_doc (p : Program) (m : string) (v : PageDoc) : Prop :=
  v = empty_doc \/
  exists i ep, endpoints !! i = Some ep /\ ep_id ep = m /\
    ((exists x, v = page_view (seeking_doc ep x)) \/
     exists d, v = page_view (PDoc d) /\ built_on_the_way p i ep d).

Lemma engine_step p p' m v : engine_doc p m v -> prog_step p p' -> engine_doc p' m v.
Proof.
  intros [Hv|(i & ep & Ep & Em & Hv)] St; [by left|]. right. exists i, ep. split; [done|]. split; [done|].
  destruct Hv as [Hv|(d & Hv & Hd)]; [by left|]. right. exists d. split; [done|]. by eapply built_step.
Qed.

Context {Json : DashboardJson dump parse empty_object page_doc page_value}.

(** The exchange's documents fit the bands of the feeds. *)
Section Bands.
Hypothesis bands : forall ep, ep ∈ endpoints -> band_fits (band_pct base) (served ep).

Lemma published_engine p i ep l :
  prog_reach p -> endpoints !! i = Some ep -> pg_feeds p !! i = Some l ->
  engine_doc p (ep_id ep) (page_view (lv_snap l)).
Proof.
  intros R Ep El.
  pose proof (prog_inv_reach base Capacity stop_returns listens dump parse empty_object served bands p R) as I.
  destruct (pi_feed _ _ _ p I i l El) as (ep' & Ep' & Il). assert (ep' = ep) as -> by congruence.
  pose proof (proj1 (li_snap _ Il)) as S. change (lv_snap (view p l)) with (lv_snap l) in S.
  destruct (lv_snap l) as [|m lab x mode|d] eqn:Es; [by left|right; exists i, ep..]; split_and!; try done.
  - left. exists x. by destruct S as (-> & -> & _ & ->).
  - right. exists d. split; [done|]. by eapply documents_built.
Qed.

(** What an answer brings is of the engine; a comparison has each document under
    its market. *)
Definition reply_ok (p : Program) (r : Reply) : Prop :=
  match r with
  | RSnapshot d => exists m, engine_doc p m d
  | RCompare all => forall id v, all !! id = Some v -> engine_doc p id v
  | _ => True
  end.

Lemma reply_step p p' r : reply_ok p r -> prog_step p p' -> reply_ok p' r.
Proof.
  intros Hr St. destruct r; cbn in *; try done.
  - intros id v E. eapply engine_step; [by apply Hr|done].
  - destruct Hr as [m Hm]. exists m. by eapply engine_step.
Qed.

Lemma reply_engine q p : prog_reach p -> reply_ok p (reply_of q (answer p (request_uri q)).1).
Proof.
  intros R. destruct q as [| | |m|x]; try done.
  - destruct (compare_docs p) as (docs & -> & Hd). cbn. intros id v E%elem_of_list_to_map_2.
    apply list_elem_of_fmap_1 in E as ([id' j] & [= -> ->] & Hj). cbn.
    destruct (Hd id' j Hj) as (i & ep & l & Ep & El & <- & ->). rewrite json_embedded.
    by eapply published_engine.
  - destruct (snapshot_cases m p) as [->|(i & ep & l & Ep & El & -> & _)]; cbn.
    + rewrite json_nothing. exists "". by left.
    + rewrite json_published. exists (ep_id ep). by eapply published_engine.
  - unfold reply_of. by destruct (answer p (request_uri (QSwitch x))).1.2.
Qed.

(** ** Lemmas: the invariant of the site *)

Definition column_ok (p : Program) (m : string) (c : option Column) : Prop :=
  c = None \/ exists v, engine_doc p m v /\ c = Some (column v).

(** Hero and ladders of the single view are those of a document. *)
Definition view_shows (v : PageDoc) (s : Screen) : Prop :=
  sc_hero s = hero v /\ sc_bids s = ladder (j_bids v) /\ sc_asks s = ladder (j_asks v).

Record page_engine (p : Program) (g : Page) : Prop := {
  pe_single : exists m v, engine_doc p m v /\ view_shows v (p_screen g);
  pe_global : column_ok p "global" (sc_cmpGlobal (p_screen g));
  pe_us : column_ok p "us" (sc_cmpUs (p_screen g));
  pe_charts : forall m hist x, p_histByMarket g !! m = Some hist -> x ∈ hist ->
    exists m' v, engine_doc p m' v /\ j_mid v = Some x }.

Record site_inv (s : Site) : Prop := {
  si_prog : prog_reach (st_prog s);
  si_page : page_engine (st_prog s) (st_page s);
  si_answers : Forall (fun a => reply_ok (st_prog s) a.2) (st_answers s) }.

Lemma page_engine_step p p' g : page_engine p g -> prog_step p p' -> page_engine p' g.
Proof.
  intros [(m & v & Hv & Hs) Hg Hu Hc] St.
  assert (forall m c, column_ok p m c -> column_ok p' m c) as Hk.
  { intros m0 c [Hn|(v0 & Hv0 & E)]; [by left|]. right. exists v0. split; [by eapply engine_step|done]. }
  split; [|by apply Hk..|].
  - exists m, v. split; [by eapply engine_step|done].
  - intros m0 hist x Em Hx. destruct (Hc m0 hist x Em Hx) as (m' & v' & Hv' & E). exists m', v'.
    split; [by eapply engine_step|done].
Qed.

Lemma page_engine_same p g g' : same_docs g g' -> page_engine p g -> page_engine p g'.
Proof.
  intros [E1 E2 E3 E4 E5 E6] [(m & v & Hv & Hs) Hg Hu Hc]. split.
  - exists m, v. split; [done|]. unfold view_shows. by rewrite E1, E2, E3.
  - by rewrite E4.
  - by rewrite E5.
  - intros m0 hist x Em. apply E6 in Em. by apply (Hc m0 hist).
Qed.

Lemma page_engine_render p m d g : engine_doc p m d -> page_engine p g -> page_engine p (render d g).
Proof.
  intros Hd [_ Hg Hu Hc]. destruct (render_spec d g) as [_ Eh _ (_ & _ & S1 & S2 & S3 & _) _ _]. split.
  - by exists m, d.
  - unfold render, push_mid. cbn. by destruct (j_mid d).
  - unfold render, push_mid. cbn. by destruct (j_mid d).
  - intros m0 hist x. rewrite Eh. destruct (j_mid d) as [mid|] eqn:Em; [|apply Hc].
    destruct (decide (m0 = p_market g)) as [->|Hne]; [|rewrite lookup_insert_ne by done; apply Hc].
    rewrite lookup_insert_eq. intros [= <-] Hx.
    assert (x ∈ default [] (p_histByMarket g !! p_market g) ++ [mid]) as Hx'.
    { unfold push_point in Hx. case_decide; [|done].
      destruct (_ ++ [mid]); [done|by right]. }
    apply elem_of_app in Hx' as [Hx'|Hx'%list_elem_of_singleton].
    + destruct (p_histByMarket g !! p_market g) as [h|] eqn:E; [|by apply elem_of_nil in Hx'].
      exact (Hc (p_market g) h x E Hx').
    + subst x. by exists m, d.
Qed.

Lemma page_engine_compare p all g :
  (forall id v, all !! id = Some v -> engine_doc p id v) -> page_engine p g -> page_engine p (renderCompare all g).
Proof.
  intros Ha [(m & v & Hv & Hs) Hg Hu Hc].
  assert (forall id, engine_doc p id (default empty_doc (all !! id))) as Hd.
  { intros id. destruct (all !! id) as [v0|] eqn:E; [by apply Ha|by left]. }
  split.
  - by exists m, v.
  - right. by eexists.
  - right. by eexists.
  - exact Hc.
Qed.

(** A request goes to the server or is lost; its answer comes, or is lost. *)
Lemma inflight_same g i : same_docs g (g <| p_inflight ::= delete i |>).
Proof. by split. Qed.

Lemma serve_step p q : serving p = true -> prog_step p (request (request_uri q) p).
Proof. apply ps_request. Qed.

Lemma site_inv_step s s' : site_inv s -> site_step s s' -> site_inv s'.
Proof.
  intros [R P A] St. destruct St as [s p' St|s e g Hl E|s i q Hs E|s k q r g E D|s i q E|s k q r E]; split; cbn in *.
  - by eapply rtc_r.
  - by eapply page_engine_step.
  - eapply list.Forall_impl; [exact A|]. intros [q r] Hr. by eapply reply_step.
  - exact R.
  - eapply page_engine_same; [by eapply event_docs|exact P].
  - exact A.
  - eapply rtc_r; [exact R|by apply serve_step].
  - eapply page_engine_step; [|by apply serve_step]. eapply page_engine_same; [apply inflight_same|exact P].
  - assert (prog_step (st_prog s) (request (request_uri q) (st_prog s))) as St by by apply serve_step.
    apply Forall_app_2.
    + eapply list.Forall_impl; [exact A|]. intros [q' r] Hr. by eapply reply_step.
    + constructor; [|done]. eapply reply_step; [by apply reply_engine|exact St].
  - exact R.
  - pose proof (proj1 (list.Forall_lookup _ _) A k (q, r) E) as Hr. apply deliver_docs in D. destruct r; cbn in Hr.
    1-3, 6: eapply page_engine_same; [exact D|exact P].
    + destruct D as (g0 & Hg & ->). apply page_engine_compare; [exact Hr|]. by eapply page_engine_same.
    + destruct D as (g0 & Hg & ->), Hr as [m Hm]. eapply page_engine_render; [exact Hm|]. by eapply page_engine_same.
  - by apply Forall_delete.
  - exact R.
  - eapply page_engine_same; [apply inflight_same|exact P].
  - apply Forall_app_2; [exact A|by repeat constructor].
  - exact R.
  - exact P.
  - by apply Forall_insert.
Qed.

Lemma site_inv_reach storage pane s : site_reach storage pane s -> site_inv s.
Proof.
  intros (p & R & Hs). assert (site_inv (site0 p storage pane)) as I0.
  { split; [exact R| |by constructor]. split; [|by left|by left|done].
    exists "", empty_doc. split; [by left|]. by split_and!. }
  revert I0. induction Hs as [|s1 s2 s3 St _ IH]; [done|]. intros I. apply IH. by eapply site_inv_step.
Qed.

End Bands.

(** ** Lemmas: books *)

#[local] Notation price_div := (f64 (price_scale base)).
#[local] Notation size_div := (f64 (size_scale base)).

(** [f] was the consumer of a market, with its book, at an earlier moment of the run. *)
Definition at_book (p : Program) (m : string) (f : LiveFeed) : Prop :=
  exists i ep p0 l0 sid t, endpoints !! i = Some ep /\ ep_id ep = m /\ prog_reach p0 /\ rtc prog_step p0 p /\
    pg_feeds p0 !! i = Some l0 /\ lv_worker l0 = WTick sid f t /\ l2_wf (lf_book f).

(** The rows of the first fifteen levels, the text of the best price, the middle. *)
Definition book_rows (levels : list BookLevel) : list LadderRow :=
  ladder (Some (page_level <$> (doc_level price_div size_div <$> take 15 levels))).

Definition best_text (levels : list BookLevel) : string :=
  fmt 2 (head levels ≫= fun l => json_number (doc_level price_div size_div l).1).

Definition book_mid (f : LiveFeed) : option spec_float :=
  b ← head (book_bids f); a ← head (book_asks f); json_number (doc_spread price_div b a).2.

(** A document of the engine has no prices or those of a book. *)
Lemma engine_book p m v :
  engine_doc p m v ->
  (j_bid v = None /\ j_ask v = None /\ j_mid v = None /\ ladder (j_bids v) = [] /\ ladder (j_asks v) = []) \/
  exists f, at_book p m f /\ ladder (j_bids v) = book_rows (book_bids f) /\
    ladder (j_asks v) = book_rows (book_asks f) /\
    he_bid (hero v) = best_text (book_bids f) /\ he_ask (hero v) = best_text (book_asks f) /\
    j_mid v = book_mid f.
Proof.
  intros [->|(i & ep & Ep & Em & [[x ->]|(d & -> & p0 & l0 & sid & f & t & R0 & R & El & Ew & W & E)])];
    [by left|by left|right].
  destruct (build_snapshot_shows ep price_div size_div (fd_symbol (lv_feed l0)) (ops_rate t) (lv_dropped l0)
    (fd_trades (lv_feed l0)) f W) as (d' & E' & D & _).
  rewrite E in E'. injection E' as <-. destruct D as [D1 D2 D3 D4 D5 D6 _ _ _].
  exists f. split; [by exists i, ep, p0, l0, sid, t|].
  split; [cbn [page_view j_bids]; by rewrite D1|]. split; [cbn [page_view j_asks]; by rewrite D2|].
  unfold best_text, book_mid. cbn [page_view hero he_bid he_ask j_bid j_ask j_mid]. rewrite D3, D4, D6.
  destruct (head (book_bids f)), (head (book_asks f)); done.
Qed.

(** What is shown of a document of the engine. *)
Definition shows_book (p : Program) (m : string) (h : Hero) (bids asks : list LadderRow) : Prop :=
  (he_bid h = "-" /\ he_ask h = "-" /\ bids = [] /\ asks = []) \/
  exists f, at_book p m f /\ bids = book_rows (book_bids f) /\ asks = book_rows (book_asks f) /\
    he_bid h = best_text (book_bids f) /\ he_ask h = best_text (book_asks f).

Lemma engine_shown p m v :
  engine_doc p m v -> shows_book p m (hero v) (ladder (j_bids v)) (ladder (j_asks v)).
Proof.
  intros [(E1 & E2 & _ & E3 & E4)|(f & Hf & E1 & E2 & E3 & E4 & _)]%engine_book.
  - left. unfold hero. cbn. by rewrite E1, E2, E3, E4.
  - right. by exists f.
Qed.

Lemma column_shown p m c :
  column_ok p m (Some c) -> shows_book p m (co_hero c) (co_bids c) (co_asks c).
Proof. intros [?|(v & Hv & [= ->])]; [done|]. by apply engine_shown. Qed.

(** ** Lemmas: a server of another market *)

(** What the page may ask while it is in the single view of [m]. *)
Definition asks_only (m : string) (q : Request) : Prop :=
  match q with QCompare => False | QSnapshot m' => m' = m | _ => True end.

(** A page that has seen no document of a market and has no control to change its
    own. *)
Record blank (m : string) (g : Page) : Prop := {
  bk_market : p_market g = m;
  bk_multi : p_multiMarket g = false;
  bk_wrap : marketWrap_hidden (p_screen g) = true;
  bk_toggle : viewToggle_hidden (p_screen g) = true;
  bk_charts : forall m', p_histByMarket g !! m' = None;
  bk_view : view_shows empty_doc (p_screen g);
  bk_columns : sc_cmpGlobal (p_screen g) = None /\ sc_cmpUs (p_screen g) = None;
  bk_inflight : Forall (asks_only m) (p_inflight g) }.

Lemma blank_same m g g' :
  same_docs g g' -> p_market g' = p_market g -> p_multiMarket g' = p_multiMarket g ->
  marketWrap_hidden (p_screen g') = marketWrap_hidden (p_screen g) ->
  viewToggle_hidden (p_screen g') = viewToggle_hidden (p_screen g) ->
  Forall (asks_only m) (p_inflight g') -> blank m g -> blank m g'.
Proof.
  intros [E1 E2 E3 E4 E5 E6] F1 F2 F3 F4 F5 [B1 B2 B3 B4 B5 (V1 & V2 & V3) [C1 C2] B8].
  split; try congruence.
  - intros m'. destruct (p_histByMarket g' !! m') as [h|] eqn:E; [|done]. apply E6 in E. by rewrite B5 in E.
  - split_and!; congruence.
  - split; congruence.
Qed.

Lemma blank_tick m g : blank m g -> blank m (tick g).
Proof.
  intros B. eapply blank_same; [apply tick_docs|done..| |exact B]. cbn.
  apply Forall_app_2; [apply B|]. constructor; [|done]. unfold comparing.
  rewrite (bk_multi _ _ B), andb_false_r. apply B.
Qed.

Lemma blank_event m e g g' : local_event e -> page_event e g = Some g' -> blank m g -> blank m g'.
Proof.
  intros Hl E B. pose proof (event_docs _ _ _ Hl E) as D.
  destruct e as [|pane|v|v| | |i r]; cbn [page_event] in E; try destruct Hl.
  - injection E as <-. by apply blank_tick.
  - injection E as <-. eapply blank_same; [exact D|done..|apply B|exact B].
  - case_decide; [|done]. injection E as <-. revert D. case_match; intros D.
    + unfold symbol_change in *. case_decide; (eapply blank_same; [exact D|done..| |exact B]); [apply B|].
      apply Forall_app_2; [apply B|by repeat constructor].
    + eapply blank_same; [exact D|done..|apply B|exact B].
  - case_decide as Hc; [|done]. rewrite (bk_wrap _ _ B) in Hc. by destruct Hc.
  - by rewrite (bk_toggle _ _ B) in E.
  - by rewrite (bk_toggle _ _ B) in E.
Qed.

(** Answers that have nothing of a market. *)
Definition blank_reply (r : Reply) : Prop :=
  match r with
  | RSnapshot d => d = empty_doc
  | RMarkets markets => (length (default [] markets) <= 1)%nat
  | RCompare _ => False
  | _ => True
  end.

Lemma blank_symbols m ok symbols active g : blank m g -> blank m (symbols_loaded ok symbols active g).
Proof.
  intros B. unfold symbols_loaded. destruct (negb ok); (eapply (blank_same m g); [by split|done..|apply B|exact B]).
Qed.

Lemma blank_deliver m q r g g' : deliver q r g = Some g' -> blank_reply r -> blank m g -> blank m g'.
Proof.
  intros E Hr B. pose proof (deliver_docs _ _ _ _ E) as D.
  destruct q, r; cbn [deliver] in E; try discriminate E; injection E as <-; cbn in Hr;
    try exact B; try by apply blank_symbols.
  - unfold markets_loaded in *. cbn zeta in *. rewrite bool_decide_false in * by lia.
    cbn [negb p_multiMarket rset on_screen] in *.
    destruct B as [B1 B2 B3 B4 B5 B6 B7 B8]. by split.
  - eapply (blank_same m g); [by split|done..|apply B|exact B].
  - destruct Hr.
  - eapply (blank_same m g); [by split|done..|apply B|exact B].
  - subst d. destruct B as [B1 B2 B3 B4 B5 B6 B7 B8]. by split.
  - unfold symbol_switched in *. destruct (negb ok).
    + eapply (blank_same m g); [by split|done..|apply B|exact B].
    + apply blank_tick. eapply (blank_same m g); [by split|done..|apply B|exact B].
Qed.

Record blank_site (m : string) (s : Site) : Prop := {
  bs_page : blank m (st_page s);
  bs_answers : Forall (fun a => blank_reply a.2) (st_answers s) }.

Lemma reply_blank ep m q p :
  endpoints = [ep] -> m <> "" -> encodeURIComponent m <> ep_id ep -> asks_only m q ->
  blank_reply (reply_of q (answer p (request_uri q)).1).
Proof.
  intros Ee Hm Hne Hq. destruct q as [| | |m'|x]; try done.
  - cbn. unfold served_feeds. rewrite Ee, length_fmap. destruct (pg_feeds p); cbn; lia.
  - cbn in Hq. subst m'. destruct (snapshot_cases m p) as [->|(i & ep' & l & Ep & _ & _ & Em)].
    + cbn. by rewrite json_nothing.
    + rewrite Ee in Ep. destruct i; [|done]. injection Ep as <-. by destruct Hne; rewrite Em.
  - unfold reply_of. by destruct (answer p (request_uri (QSwitch x))).1.2.
Qed.

Lemma blank_site_step ep m s s' :
  endpoints = [ep] -> m <> "" -> encodeURIComponent m <> ep_id ep ->
  site_step s s' -> blank_site m s -> blank_site m s'.
Proof.
  intros Ee Hm Hne St [B A].
  assert (forall g i, blank m g -> blank m (g <| p_inflight ::= delete i |>)) as Bi.
  { intros g i [B1 B2 B3 B4 B5 B6 B7 B8]. split; try done. by apply Forall_delete. }
  destruct St as [s p' St|s e g Hl E|s i q Hs E|s k q r g E D|s i q E|s k q r E]; split; cbn in *; auto.
  - by eapply blank_event.
  - apply Forall_app_2; [exact A|]. constructor; [|done]. eapply reply_blank; [done..|].
    exact (proj1 (list.Forall_lookup _ _) (bk_inflight _ _ B) i q E).
  - eapply blank_deliver; [exact D| |exact B]. exact (proj1 (list.Forall_lookup _ _) A k (q, r) E).
  - by apply Forall_delete.
  - apply Forall_app_2; [exact A|by repeat constructor].
  - by apply Forall_insert.
Qed.

Lemma endpoint_encoded i ep : endpoints !! i = Some ep -> encodeURIComponent (ep_id ep) = ep_id ep.
Proof.
  unfold LiveProgram.endpoints, feeds_for_mode. intros E%list_elem_of_lookup_2. revert E.
  repeat case_decide; set_unfold; naive_solver.
Qed.

(** A request for a market's document is answered, and the answer arrives. *)
Lemma snapshot_arrives s k i ep l :
  serving (st_prog s) = true -> p_inflight (st_page s) !! k = Some (QSnapshot (ep_id ep)) ->
  endpoints !! i = Some ep -> pg_feeds (st_prog s) !! i = Some l ->
  rtc site_step s (mkSite (st_prog s)
    (render (page_view (lv_snap l)) (tick_live (st_page s <| p_inflight ::= delete k |>))) (st_answers s)).
Proof.
  intros Hs Eq Ep El. set (q := QSnapshot (ep_id ep)) in *. set (d := page_view (lv_snap l)).
  assert (reply_of q (answer (st_prog s) (request_uri q)).1 = RSnapshot d) as Er.
  { unfold q, request_uri. rewrite (endpoint_encoded i ep Ep).
    rewrite (document_answered base stop_returns dump parse empty_object served (st_prog s) i ep l Ep El).
    cbn. by rewrite json_published. }
  eapply rtc_l; [by apply (ss_serve s k q)|]. rewrite Er.
  assert (request (request_uri q) (st_prog s) = st_prog s) as -> by apply (request_read q).
  eapply rtc_l; [apply (ss_deliver _ (length (st_answers s)) q (RSnapshot d))|].
  - cbn. by rewrite lookup_app_r, Nat.sub_diag.
  - done.
  - unfold rset. cbn. by rewrite delete_middle, app_nil_r.
Qed.

(** The comparison's answer has every feed's document under its id. *)
Lemma compare_reply p :
  exists all, reply_of QCompare (answer p (request_uri QCompare)).1 = RCompare all /\
  forall i ep l, endpoints !! i = Some ep -> pg_feeds p !! i = Some l ->
    all !! ep_id ep = Some (page_view (lv_snap l)).
Proof.
  eexists. split; [reflexivity|]. intros i ep l Ep El. apply elem_of_list_to_map.
  - rewrite <- list_fmap_compose. rewrite <- list_fmap_compose. cbn. apply (served_ids base stop_returns dump p).
  - apply list_elem_of_fmap. exists (ep_id ep, default empty_object (parse (dump (lv_snap l)))).
    split; [cbn; by rewrite json_embedded|]. apply list_elem_of_fmap.
    exists (mkServed ep (dump (lv_snap l))). split; [done|]. by eapply served_feed.
Qed.

(** A symbol is picked; its switch is granted; its handler tells every feed. *)
Lemma symbol_picked want g :
  symbolWrap_hidden (p_screen g) = false -> p_symbolChange g = true -> want <> p_symbol g ->
  want ∈ (se_options (sc_symbolSel (p_screen g))).*1 -> want <> se_value (sc_symbolSel (p_screen g)) ->
  exists g', page_event (PickSymbol want) g = Some g' /\ p_inflight g' = p_inflight g ++ [QSwitch want].
Proof.
  intros P1 P2 P3 P4 P5. unfold page_event. rewrite decide_True by done.
  cbn [p_symbolChange rset on_screen]. rewrite P2. eexists. split; [reflexivity|].
  assert (se_value (set_value want (sc_symbolSel (p_screen g))) = want) as Ev by (cbn; by rewrite decide_True).
  unfold symbol_change. cbn -[se_value set_value]. by rewrite Ev, decide_False.
Qed.

Lemma switch_granted want p :
  catalog_has want = true -> pg_app p <> want ->
  Forall (fun l => fd_restart (lv_feed l) = false) (pg_feeds p) ->
  reply_of (QSwitch want) (answer p (request_uri (QSwitch want))).1 = RSwitched true /\
  request (request_uri (QSwitch want)) p = p <| pg_app := want |>
    <| pg_handlers ::= fun hs => hs ++ [(want, seq 0 (length (pg_feeds p)))] |>.
Proof.
  intros Hw Ha Hr. assert (encodeURIComponent want = want) as Ee.
  { unfold catalog_has in Hw. apply bool_decide_eq_true in Hw. unfold kSymbolCatalog in Hw.
    repeat (apply elem_of_cons in Hw as [->|Hw]; [done|]). by apply elem_of_nil in Hw. }
  unfold request_uri. rewrite Ee. split; [|by apply request_granted].
  pose proof (encoded_no_slash want) as Hn. rewrite Ee in Hn. unfold LiveProgram.answer.
  destruct (switch_answered parse empty_object (served_feeds base dump p) (switching p) want Hn)
    as (E1 & _ & E2). rewrite (switch_accepted want p Hw Hr) in E1.
  unfold reply_of. rewrite E1. by destruct E2 as [[e ->]|[x ->]].
Qed.

Lemma all_told want p :
  pg_app p = want -> pg_handlers p = [(want, seq 0 (length (pg_feeds p)))] ->
  exists p', rtc prog_step p p' /\ pg_app p' = want /\ pg_handlers p' = [] /\
    Forall (fun l => fd_restart (lv_feed l) = true /\ fd_pending (lv_feed l) = want) (pg_feeds p').
Proof.
  intros Ha Hh. destruct (handler_tells base Capacity stop_returns listens dump parse empty_object served want (seq 0 (length (pg_feeds p))) p Hh) as (p1 & R & A & Hh1 & F).
  { intros i Hi. apply elem_of_seq in Hi. lia. }
  exists (p1 <| pg_handlers := [] |>). split.
  { eapply rtc_r; [exact R|]. by apply (ps_answer _ _ _ _ _ _ _ _ p1 [] want []). }
  split; [cbn; congruence|]. split; [done|]. apply list.Forall_lookup. intros i l El.
  destruct (F i l El) as (l0 & El0 & Ht & _). apply Ht. apply elem_of_seq.
  apply lookup_lt_Some in El0. lia.
Qed.

Lemma prog_lifts s p' : rtc prog_step (st_prog s) p' -> rtc site_step s (s <| st_prog := p' |>).
Proof.
  intros R. remember (st_prog s) as p eqn:E. revert s E. induction R as [p|p p1 p2 St _ IH]; intros s ->.
  - destruct s. apply rtc_refl.
  - eapply rtc_l; [by apply (ss_prog s p1)|]. exact (IH (s <| st_prog := p1 |>) eq_refl).
Qed.

(** ** Theorems *)

(** C19. What the page shows was in the engine.  However the threads of the program,
    the page, its user and the network interleave, with requests and answers late,
    out of order or lost: the single view shows no prices, or the first fifteen
    levels of the two ladders of a consumer's book, best first, with its best
    prices, as that book was at one earlier moment of the run; each column of the
    comparison does so for its own market; and every point of every chart is the
    middle of such a book. *)
Theorem page_shows_engine storage pane s :
  (forall ep, ep ∈ endpoints -> band_fits (band_pct base) (served ep)) -> site_reach storage pane s ->
  let p := st_prog s in
  let sc := p_screen (st_page s) in
  (exists m, shows_book p m (sc_hero sc) (sc_bids sc) (sc_asks sc)) /\
  (forall c, sc_cmpGlobal sc = Some c -> shows_book p "global" (co_hero c) (co_bids c) (co_asks c)) /\
  (forall c, sc_cmpUs sc = Some c -> shows_book p "us" (co_hero c) (co_bids c) (co_asks c)) /\
  (forall m hist x, p_histByMarket (st_page s) !! m = Some hist -> x ∈ hist ->
    exists m' f, at_book p m' f /\ book_mid f = Some x).
Proof.
  intros Hb R. destruct (site_inv_reach Hb _ _ _ R) as [_ [(m & v & Hv & S1 & S2 & S3) Pg Pu Pc] _].
  split; [|split; [|split]].
  - exists m. rewrite S1, S2, S3. by apply engine_shown.
  - intros c E. apply column_shown. by rewrite <- E.
  - intros c E. apply column_shown. by rewrite <- E.
  - intros m0 hist x Em Hx. destruct (Pc m0 hist x Em Hx) as (m' & v' & Hv' & E).
    apply engine_book in Hv' as [(_ & _ & E' & _)|(f & Hf & _ & _ & _ & _ & E')]; [congruence|].
    exists m', f. split; [done|congruence].
Qed.

(** Every request of the page is answered, with what the page reads: in every
    state of the program the answer is not lost on its way from the handler to the
    script, whatever market the browser had stored and whatever symbol is asked
    for, and no request but a switch changes the program. *)
Theorem replies_read q p g :
  let r := reply_of q (answer p (request_uri q)).1 in
  r <> Failed /\ is_Some (deliver q r g) /\
  match q with QSwitch _ => True | _ => request (request_uri q) p = p end.
Proof.
  intros r. assert (r <> Failed /\ is_Some (deliver q r g)) as [Hf Hd]; [|split; [exact Hf|split; [exact Hd|apply request_read]]].
  unfold r. destruct q as [| | |m|x]; try (split; [discriminate|by eexists]).
  - destruct (snapshot_cases m p) as [->|(i & ep & l & _ & _ & -> & _)]; cbn.
    + rewrite json_nothing. split; [discriminate|by eexists].
    + rewrite json_published. split; [discriminate|by eexists].
  - unfold LiveProgram.answer, request_uri.
    destruct (switch_answered parse empty_object (served_feeds base dump p) (switching p) _ (encoded_no_slash x))
      as (_ & _ & [[e E]|[y E]]); unfold reply_of; rewrite E; (split; [discriminate|by eexists]).
Qed.

(** C20. A turn of the timer shows the market.  From every state in which the server
    runs and the page has the single view of one of its markets, whatever answers
    are still on their way: the timer's request, its answer and its arrival lead to
    a page that is live and shows what the market's feed has last published. *)
Theorem tick_shows_market s i ep l :
  serving (st_prog s) = true -> comparing (st_page s) = false -> p_market (st_page s) = ep_id ep ->
  endpoints !! i = Some ep -> pg_feeds (st_prog s) !! i = Some l ->
  exists s', rtc site_step s s' /\ st_prog s' = st_prog s /\ st_answers s' = st_answers s /\
    p_inflight (st_page s') = p_inflight (st_page s) /\ sc_status (p_screen (st_page s')) = "live" /\
    single_shows (page_view (lv_snap l)) (p_screen (st_page s')).
Proof.
  intros Hs Hc Em Ep El. set (qs := p_inflight (st_page s)). set (d := page_view (lv_snap l)).
  pose (s1 := s <| st_page := st_page s <| p_inflight := qs ++ [QSnapshot (ep_id ep)] |> |>).
  assert (site_step s s1) as St.
  { assert (s1 = s <| st_page := tick (st_page s) |>) as ->; [|by apply (ss_page s Timer)].
    unfold s1. by rewrite (tick_single _ Hc), Em. }
  pose proof (snapshot_arrives s1 (length qs) i ep l Hs (lookup_snoc _ _) Ep El) as R.
  change (st_page s1 <| p_inflight ::= delete (length qs) |>)
    with (st_page s <| p_inflight := delete (length qs) (qs ++ [QSnapshot (ep_id ep)]) |>) in R.
  rewrite delete_snoc in R. eexists. split; [eapply rtc_l; [exact St|exact R]|].
  destruct (render_live d qs (st_page s)) as (_ & I & _ & _ & S & _).
  split; [done|]. split; [done|]. split; [exact I|]. split; [|exact S].
  unfold render, push_mid. cbn. by destruct (j_mid _).
Qed.

(** A turn of the timer in the comparison shows every market in its column. *)
Theorem tick_compares s :
  serving (st_prog s) = true -> comparing (st_page s) = true ->
  exists s', rtc site_step s s' /\ st_prog s' = st_prog s /\ sc_status (p_screen (st_page s')) = "live" /\
    forall i ep l, endpoints !! i = Some ep -> pg_feeds (st_prog s) !! i = Some l ->
      (ep_id ep = "global" -> sc_cmpGlobal (p_screen (st_page s')) = Some (column (page_view (lv_snap l)))) /\
      (ep_id ep = "us" -> sc_cmpUs (p_screen (st_page s')) = Some (column (page_view (lv_snap l)))).
Proof.
  intros Hs Hc. set (qs := p_inflight (st_page s)).
  pose (s1 := s <| st_page := st_page s <| p_inflight := qs ++ [QCompare] |> |>).
  assert (site_step s s1) as St.
  { assert (s1 = s <| st_page := tick (st_page s) |>) as ->; [|by apply (ss_page s Timer)].
    unfold s1, tick. by rewrite Hc. }
  destruct (compare_reply (st_prog s)) as (all & Er & Hall).
  pose (s2 := mkSite (st_prog s) (st_page s1 <| p_inflight ::= delete (length qs) |>)
    (st_answers s ++ [(QCompare, RCompare all)])).
  assert (site_step s1 s2) as St2.
  { pose proof (ss_serve s1 (length qs) QCompare Hs (lookup_snoc _ _)) as S.
    change (st_prog s1) with (st_prog s) in S. rewrite Er in S.
    by rewrite (request_read QCompare (st_prog s)) in S. }
  eexists. split.
  - eapply rtc_l; [exact St|]. eapply rtc_l; [exact St2|]. apply rtc_once.
    apply (ss_deliver _ (length (st_answers s)) QCompare (RCompare all)); [|reflexivity].
    cbn. by rewrite lookup_app_r, Nat.sub_diag.
  - split; [done|]. split; [done|]. intros i ep l Ep El. pose proof (Hall i ep l Ep El) as E.
    split; intros Em; rewrite Em in E; cbn; by rewrite E.
Qed.

(** A symbol chosen on the page is switched to.  The choice, the request, the
    handler and its answer lead to a site whose program has the symbol, whose feeds
    have all been told to restart with it, and whose page shows it with its charts
    and counters cleared. *)
Theorem choice_switches s want :
  let g := st_page s in
  serving (st_prog s) = true -> pg_handlers (st_prog s) = [] ->
  Forall (fun l => fd_restart (lv_feed l) = false) (pg_feeds (st_prog s)) ->
  catalog_has want = true -> pg_app (st_prog s) <> want ->
  symbolWrap_hidden (p_screen g) = false -> p_symbolChange g = true -> want <> p_symbol g ->
  want ∈ (se_options (sc_symbolSel (p_screen g))).*1 -> want <> se_value (sc_symbolSel (p_screen g)) ->
  exists s', rtc site_step s s' /\ pg_app (st_prog s') = want /\ pg_handlers (st_prog s') = [] /\
    Forall (fun l => fd_restart (lv_feed l) = true /\ fd_pending (lv_feed l) = want) (pg_feeds (st_prog s')) /\
    p_symbol (st_page s') = want /\ p_storage (st_page s') !! "fhSymbol" = Some want /\
    p_histByMarket (st_page s') = ∅ /\ p_prevByMkt (st_page s') = ∅.
Proof.
  intros g Hs Hh Hr Hw Ha P1 P2 P3 P4 P5. set (qs := p_inflight g).
  destruct (symbol_picked want g P1 P2 P3 P4 P5) as (g1 & E1 & I1).
  pose (s1 := s <| st_page := g1 |>). assert (site_step s s1) as St1 by by apply (ss_page s (PickSymbol want)).
  destruct (switch_granted want (st_prog s) Hw Ha Hr) as (Er & Eq).
  pose (p1 := request (request_uri (QSwitch want)) (st_prog s)).
  pose (s2 := mkSite p1 (g1 <| p_inflight ::= delete (length qs) |>) (st_answers s ++ [(QSwitch want, RSwitched true)])).
  assert (site_step s1 s2) as St2.
  { pose proof (ss_serve s1 (length qs) (QSwitch want) Hs) as S.
    change (st_prog s1) with (st_prog s) in S. rewrite Er in S. apply S.
    change (p_inflight g1 !! length qs = Some (QSwitch want)). rewrite I1. apply lookup_snoc. }
  assert (pg_app p1 = want /\ pg_handlers p1 = [(want, seq 0 (length (pg_feeds p1)))]) as [A1 H1].
  { unfold p1. rewrite Eq. cbn. by rewrite Hh. }
  destruct (all_told want p1 A1 H1) as (p2 & R2 & A2 & H2 & F2).
  eexists. split.
  - eapply rtc_l; [exact St1|]. eapply rtc_l; [exact St2|]. etrans; [exact (prog_lifts s2 p2 R2)|]. apply rtc_once.
    apply (ss_deliver _ (length (st_answers s)) (QSwitch want) (RSwitched true)); [|reflexivity].
    cbn. by rewrite lookup_app_r, Nat.sub_diag.
  - split; [exact A2|]. split; [exact H2|]. split; [exact F2|]. split; [done|].
    split; [|done]. cbn. apply lookup_insert_eq.
Qed.

(** C39. The page on a server of another market stays blank.  When the server has one
    market and the page starts with another one, stored or its own default
    [global], then whatever happens: no price, no chart, no column is ever shown,
    and the page goes on asking for the market the server has not. *)
Theorem single_market_blank storage pane ep s :
  let m := or_else (storage !! "fhMarket") "global" in
  endpoints = [ep] -> encodeURIComponent m <> ep_id ep -> site_reach storage pane s ->
  let sc := p_screen (st_page s) in
  he_bid (sc_hero sc) = "-" /\ he_ask (sc_hero sc) = "-" /\ sc_bids sc = [] /\ sc_asks sc = [] /\
  sc_cmpGlobal sc = None /\ sc_cmpUs sc = None /\
  (forall m', p_histByMarket (st_page s) !! m' = None) /\
  p_inflight (tick (st_page s)) = p_inflight (st_page s) ++ [QSnapshot m].
Proof.
  intros m Ee Hne (p & R & Hs).
  assert (m <> "") as Hm by (unfold m; by destruct (storage !! "fhMarket") as [[]|]).
  assert (blank_site m s) as [B _].
  { assert (blank_site m (site0 p storage pane)) as I0.
    { split; [|by constructor]. apply (blank_tick m (send QMarkets (send QSymbols (page_new storage pane)))).
      split; try done. by repeat constructor. }
    revert I0. induction Hs as [|s1 s2 s3 St _ IH]; [done|]. intros I. apply IH. by eapply blank_site_step. }
  destruct B as [B1 B2 B3 B4 B5 (V1 & V2 & V3) [C1 C2] B8]. cbn zeta. rewrite V1, V2, V3.
  split_and!; try done. unfold tick, comparing. by rewrite B2, andb_false_r, B1.
Qed.

End Site.

(** ** Examples *)

(** A text for every document: its number in binary digits. *)
#[local] Instance spec_float_eq_dec : EqDecision spec_float.
Proof. solve_decision. Defined.

#[local] Instance spec_float_countable : Countable spec_float.
Proof.
  refine (inj_countable' (fun x => match x with
    | S754_zero s => inl (inl (inl s))
    | S754_infinity s => inl (inl (inr s))
    | S754_nan => inl (inr ())
    | S754_finite s m e => inr (s, m, e)
    end) (fun x => match x with
    | inl (inl (inl s)) => S754_zero s
    | inl (inl (inr s)) => S754_infinity s
    | inl (inr _) => S754_nan
    | inr (s, m, e) => S754_finite s m e
    end) _). by intros [].
Defined.

#[local] Instance trade_eq_dec : EqDecision DocTrade.
Proof. solve_decision. Defined.

#[local] Instance trade_countable : Countable DocTrade.
Proof.
  refine (inj_countable' (fun t => (t_p t, t_q t, t_side t, t_t t))
    (fun '(p, q, side, t) => mkDocTrade p q side t) _). by intros [].
Defined.

#[local] Instance doc_eq_dec : EqDecision DashDoc.
Proof. solve_decision. Defined.

#[local] Instance doc_countable : Countable DashDoc.
Proof.
  refine (inj_countable' (fun d => ((d_market d, d_marketLabel d, d_symbol d, d_mode d, d_levels d, d_ops d),
      (d_bid d, d_ask d, d_spread d, d_bids d, d_asks d),
      (d_p50us d, d_p99us d, d_drops d, d_gaps d, d_resync d, d_oob d, d_cross d, d_trades d)))
    (fun '((a1, a2, a3, a4, a5, a6), (b1, b2, b3, b4, b5), (c1, c2, c3, c4, c5, c6, c7, c8)) =>
      mkDash a1 a2 a3 a4 a5 a6 b1 b2 b3 b4 b5 c1 c2 c3 c4 c5 c6 c7 c8) _). by intros [].
Defined.

#[local] Instance published_eq_dec : EqDecision Published.
Proof. solve_decision. Defined.

#[local] Instance published_countable : Countable Published.
Proof.
  refine (inj_countable' (fun x => match x with
    | PNothing => inl ()
    | PSeeking a b c d => inr (inl (a, b, c, d))
    | PDoc d => inr (inr d)
    end) (fun x => match x with
    | inl _ => PNothing
    | inr (inl (a, b, c, d)) => PSeeking a b c d
    | inr (inr d) => PDoc d
    end) _). by intros [].
Defined.

Fixpoint bits (p : BinNums.positive) : string :=
  match p with
  | xH => ""
  | xO p => String.String "0" (bits p)
  | xI p => String.String "1" (bits p)
  end.

Fixpoint unbits (s : string) : BinNums.positive :=
  match s with
  | EmptyString => xH
  | String.String c s => if decide (c = "0"%char) then xO (unbits s) else xI (unbits s)
  end.

Lemma unbits_bits p : unbits (bits p) = p.
Proof. induction p as [p IH|p IH|]; cbn; by rewrite ?IH. Qed.

Definition code_dump (pub : Published) : string :=
  match pub with PNothing => "{}" | _ => bits (encode pub) end.

Definition code_doc (t : string) : option PageDoc :=
  if decide (t = "{}") then Some empty_doc else page_view <$> (decode (unbits t) : option Published).

#[export] Instance demo_json :
  DashboardJson code_dump Some "{}" code_doc (fun t => default empty_doc (code_doc t)).
Proof.
  assert (forall pub, code_doc (code_dump pub) = Some (page_view pub)) as E.
  { intros pub. assert (forall p, bits p <> "{}") as Hb by (by intros []).
    destruct pub; [done|..]; unfold code_doc, code_dump;
      (rewrite decide_False by apply Hb); by rewrite unbits_bits, decode_encode. }
  split; [done|exact E|]. intros pub. cbn. by rewrite E.
Qed.

(** A server of both markets, and of the American one. *)
Definition demo_us : Config := demo_base <| market := Us |>.

Notation site_reach_of base :=
  (site_reach base 2 demo_stop true code_dump Some "{}" demo_served code_doc (fun t => default empty_doc (code_doc t))).

Lemma demo_bands base ep :
  (base = demo_base \/ base = demo_us) -> ep ∈ endpoints base -> band_fits (band_pct base) (demo_served ep).
Proof.
  intros Hb _ x resp g bc [->|[->| ->]] E; destruct Hb as [-> | ->]; vm_compute in E;
    first [discriminate E|injection E as <-; reflexivity].
Qed.

(** The feeds are started, and the first one publishes the document of its book. *)
Definition demo_run (base : Config) : list action :=
  replicate (S (length (endpoints base))) (AMain false) ++ drop 3 demo_doc_run.

Definition demo_published (base : Config) : option Program :=
  iterM (act base 2 demo_stop true code_dump Some "{}") (demo_run base) (program0 base).

Lemma demo_allowed base : Forall (always_allowed demo_served) (demo_run base).
Proof.
  unfold demo_run. apply Forall_app_2; [by apply Forall_replicate|]. apply Forall_drop.
  repeat (apply Forall_app_2); [by apply Forall_replicate|by apply Forall_replicate| |].
  - apply Forall_replicate. intros ep x. by right; left.
  - constructor; [|done]. intros ep x. by left.
Qed.

Lemma demo_published_run base :
  base = demo_base \/ base = demo_us ->
  exists p l d, prog_reach base 2 demo_stop true code_dump Some "{}" demo_served p /\
    pg_feeds p !! 0%nat = Some l /\ lv_snap l = PDoc d /\ d_bids d <> [] /\ serving base true p = true.
Proof.
  intros Hb.
  assert ((fun p => ((fun l => match lv_snap l with PDoc d => bool_decide (d_bids d <> []) | _ => false end)
      <$> pg_feeds p !! 0%nat, serving base true p)) <$> demo_published base = Some (Some true, true)) as H0
    by (destruct Hb as [-> | ->]; vm_compute; reflexivity).
  destruct (demo_published base) as [p|] eqn:E; [|discriminate H0]. cbn in H0.
  destruct (pg_feeds p !! 0%nat) as [l|] eqn:El; [|discriminate H0].
  cbn in H0. destruct (lv_snap l) as [| |d] eqn:Es; try discriminate H0.
  exists p, l, d. injection H0 as H1%bool_decide_eq_true H2. split; [|done].
  exact (schedule_steps base 2 demo_stop true code_dump Some "{}" demo_served _ _ p (demo_allowed base) E).
Qed.

(** A page is opened, with nothing stored. *)
Definition demo_site (p : Program) : Site := site0 p ∅ demo_pane.

(** The page, opened then, has been shown the document. *)
Lemma demo_shown :
  exists s, site_reach_of demo_base ∅ demo_pane s /\ sc_bids (p_screen (st_page s)) <> [].
Proof.
  destruct (demo_published_run demo_base (or_introl eq_refl)) as (p & l & d & R & El & Es & Hd & Hs).
  eexists. split; [exists p; split; [exact R|]|].
  - exact (snapshot_arrives demo_base 2 demo_stop true code_dump Some "{}" demo_served code_doc
      (fun t => default empty_doc (code_doc t)) (demo_site p) 2 0 endpoints_global l Hs eq_refl eq_refl El).
  - cbn [st_page]. destruct (rd_shows _ _ _ (render_spec (page_view (lv_snap l))
      (tick_live (st_page (demo_site p) <| p_inflight ::= delete 2%nat |>)))) as (_ & _ & _ & -> & _).
    rewrite Es. cbn [page_view j_bids]. unfold ladder. cbn [default].
    by destruct (d_bids d).
Qed.

Lemma page_shows_engine_witness :
  exists s m f, site_reach_of demo_base ∅ demo_pane s /\
    at_book demo_base 2 demo_stop true code_dump Some "{}" demo_served (st_prog s) m f /\
    sc_bids (p_screen (st_page s)) = book_rows demo_base (book_bids f).
Proof.
  destruct demo_shown as (s & R & Hd). exists s.
  destruct (page_shows_engine demo_base 2 demo_stop true code_dump Some "{}" demo_served code_doc
    (fun t => default empty_doc (code_doc t)) ∅ demo_pane s (fun ep => demo_bands demo_base ep (or_introl eq_refl)) R) as ([m [(_ & _ & E & _)|(f & Hf & E & _)]] & _).
  - destruct (Hd E).
  - exists m, f. exact (conj R (conj Hf E)).
Defined.

Lemma replies_read_witness :
  reply_of code_doc (fun t => default empty_doc (code_doc t)) (QSnapshot "us")
    (answer demo_base code_dump Some "{}" (program0 demo_base) (request_uri (QSnapshot "us"))).1 <> Failed.
Proof.
  exact (proj1 (replies_read demo_base code_dump Some "{}" code_doc (fun t => default empty_doc (code_doc t))
    (QSnapshot "us") (program0 demo_base) demo_page)).
Defined.

Lemma tick_shows_market_witness :
  exists s l, lv_snap l <> PNothing /\ sc_status (p_screen (st_page s)) = "live" /\
    single_shows (page_view (lv_snap l)) (p_screen (st_page s)).
Proof.
  destruct (demo_published_run demo_base (or_introl eq_refl)) as (p & l & d & R & El & Es & Hd & Hs).
  destruct (tick_shows_market demo_base 2 demo_stop true code_dump Some "{}" demo_served code_doc
    (fun t => default empty_doc (code_doc t)) (demo_site p) 0 endpoints_global l Hs (andb_false_r _) eq_refl eq_refl El)
    as (s & _ & _ & _ & _ & H1 & H2).
  exists s, l. split; [rewrite Es; discriminate|]. exact (conj H1 H2).
Defined.

(** The American feed has published its book; the page is blank. *)
Lemma single_market_blank_witness :
  exists s l d, site_reach_of demo_us ∅ demo_pane s /\ pg_feeds (st_prog s) !! 0%nat = Some l /\
    lv_snap l = PDoc d /\ d_bids d <> [] /\ sc_bids (p_screen (st_page s)) = [].
Proof.
  destruct (demo_published_run demo_us (or_intror eq_refl)) as (p & l & d & R & El & Es & Hd & _).
  assert (site_reach_of demo_us ∅ demo_pane (demo_site p)) as Hr.
  { exists p. split; [exact R|apply rtc_refl]. }
  exists (demo_site p), l, d. split; [exact Hr|]. split; [exact El|]. split; [exact Es|]. split; [exact Hd|].
  refine (proj1 (proj2 (proj2 (single_market_blank demo_us 2 demo_stop true code_dump Some "{}" demo_served code_doc
    (fun t => default empty_doc (code_doc t)) ∅ demo_pane endpoints_us _ eq_refl _ Hr)))).
  discriminate.
Defined.

(** The page has loaded the symbols, and its user chooses another one. *)
Lemma choice_switches_example :
  exists s, pg_app (st_prog s) = "ETHUSDT" /\ p_symbol (st_page s) = "ETHUSDT" /\
    Forall (fun l => fd_restart (lv_feed l) = true /\ fd_pending (lv_feed l) = "ETHUSDT") (pg_feeds (st_prog s)).
Proof.
  assert ((fun p => (serving demo_base true p, bool_decide (pg_handlers p = []),
      forallb (fun l => negb (fd_restart (lv_feed l))) (pg_feeds p), pg_app p))
    <$> demo_published demo_base = Some (true, true, true, "BTCUSDT")) as E by (vm_compute; reflexivity).
  destruct (demo_published demo_base) as [p|]; [|discriminate E]. injection E as E1 E2%bool_decide_eq_true E3 E4.
  pose (g := symbols_loaded true (Some kSymbolCatalog) (Some "BTCUSDT") (page_new ∅ demo_pane)).
  destruct (choice_switches demo_base 2 demo_stop true code_dump Some "{}" demo_served code_doc
    (fun t => default empty_doc (code_doc t)) (mkSite p g []) "ETHUSDT") as (s & R & A & _ & F & P & _).
  - exact E1.
  - exact E2.
  - apply list.Forall_forall. intros l Hl. apply negb_true_iff.
    by apply (proj1 (forallb_forall _ _) E3), list_elem_of_In.
  - reflexivity.
  - cbn [st_prog]. by rewrite E4.
  - reflexivity.
  - reflexivity.
  - discriminate.
  - right; left.
  - discriminate.
  - exists s. exact (conj A (conj P F)).
Qed.
